(** * TinyGarbageCollector (GC.h): a shallow embedding and its properties

    The pool is the byte vector [memory]; chunk pointers are byte offsets
    from [Root()]; a nullable pointer is an [option].  Every access outside
    the vector, every dereference of [nullptr] and every vector index out of
    range is undefined behaviour in the source and is [None] here.  The
    loops of the source that follow links in memory take a fuel argument,
    fixed by the callers to the pool size; running out of fuel is [None]
    as well, and so is a failed [assert]. *)

From Stdlib Require Import ZArith List Lia Bool Permutation.
Import ListNotations.
Local Open Scope Z_scope.

(** ** Option as the error monad *)

Definition obind {A B : Type} (o : option A) (k : A -> option B) : option B :=
  match o with
  | Some x => k x
  | None => None
  end.

Notation "x <- e ;; k" := (obind e (fun x => k))
  (at level 61, e at next level, right associativity).
Notation "' p <- e ;; k" := (obind e (fun p => k))
  (at level 61, p pattern, e at next level, right associativity).

(** [assert(b)]. *)
Definition assert (b : bool) : option unit := if b then Some tt else None.

(** ** Machine integers *)

(** [uint32_t] arithmetic wraps modulo 2^32. *)
Definition u32 (x : Z) : Z := x mod 4294967296.

(** Conversion of a [uint32_t] to [int] / [int32_t] (two's complement). *)
Definition toInt (x : Z) : Z := if x <? 2147483648 then x else x - 4294967296.

(** ** The byte pool: [std::vector<uint8_t> memory] *)

Definition Mem := list Z.

Definition msize (m : Mem) : Z := Z.of_nat (length m).

Definition byte_at (m : Mem) (a : Z) : Z := nth (Z.to_nat a) m 0.

Definition upd (m : Mem) (a : Z) (v : Z) : Mem :=
  firstn (Z.to_nat a) m ++ v :: skipn (S (Z.to_nat a)) m.

(** [n] bytes starting at [a] lie inside the vector. *)
Definition inb (m : Mem) (a n : Z) : bool := (0 <=? a) && (a + n <=? msize m).

(** Read of a little-endian [uint32_t] at byte offset [a]. *)
Definition load32 (m : Mem) (a : Z) : option Z :=
  if inb m a 4 then
    Some (byte_at m a + 256 * byte_at m (a + 1)
          + 65536 * byte_at m (a + 2) + 16777216 * byte_at m (a + 3))
  else None.

(** Write of a little-endian [uint32_t] at byte offset [a]. *)
Definition store32 (m : Mem) (a : Z) (v : Z) : option Mem :=
  if inb m a 4 then
    Some (upd (upd (upd (upd m a (v mod 256))
                        (a + 1) ((v / 256) mod 256))
                   (a + 2) ((v / 65536) mod 256))
              (a + 3) ((v / 16777216) mod 256))
  else None.

(** [memmove(dst, src, n)]: the [n] source bytes are read first. *)
Definition memmove (m : Mem) (dst src n : Z) : option Mem :=
  if inb m dst n && inb m src n && (0 <=? n) then
    Some (firstn (Z.to_nat dst) m
          ++ firstn (Z.to_nat n) (skipn (Z.to_nat src) m)
          ++ skipn (Z.to_nat (dst + n)) m)
  else None.

(** ** struct Chunk (packed): [size] at +0, [nextOffset] at +4, [prevOffset] at +8 *)

Definition sizeofSize : Z := 4.
Definition sizeofChunk : Z := 12.
Definition sizeMask : Z := Z.lxor 4294967295 1.
Definition InvalidSize : Z := 4294967295.
Definition BIN_INDICES : nat := 17.
Definition userDeltaBytes : Z := sizeofSize.

Definition GetSize (m : Mem) (chunk : Z) : option Z :=
  w <- load32 m chunk ;; Some (Z.land w sizeMask).

Definition IsPrevUsed (m : Mem) (chunk : Z) : option bool :=
  w <- load32 m chunk ;; Some (Z.land w 1 =? 1).

Definition SetPrevUsed (m : Mem) (chunk : Z) (prevUsed : bool) : option Mem :=
  w <- load32 m chunk ;;
  let w1 := Z.land w sizeMask in
  store32 m chunk (if prevUsed then Z.lor w1 1 else w1).

Definition SetSize (m : Mem) (chunk : Z) (size : Z) : option Mem :=
  prevUsed <- IsPrevUsed m chunk ;;
  m1 <- store32 m chunk size ;;
  SetPrevUsed m1 chunk prevUsed.

Definition nextOffset (m : Mem) (chunk : Z) : option Z := load32 m (chunk + 4).
Definition prevOffset (m : Mem) (chunk : Z) : option Z := load32 m (chunk + 8).
Definition set_nextOffset (m : Mem) (chunk v : Z) : option Mem := store32 m (chunk + 4) v.
Definition set_prevOffset (m : Mem) (chunk v : Z) : option Mem := store32 m (chunk + 8) v.

(** [FreeChunkBins::GetIndex]; the subtraction is unsigned. *)
Definition GetIndex (bytesRequested : Z) : Z :=
  if bytesRequested <? 33 then u32 (bytesRequested - 1) / 2 else (33 - 1) / 2.

(** [RoundUp]: round a size up to even, in [uint32_t]. *)
Definition RoundUp (size : Z) : Z := u32 (size + Z.land size 1).

(** ** class Allocator *)

Record Allocator := mkAllocator {
  memory : Mem;
  chunkBins : list Z;
  finalPrevIsUsed : bool;
  freeBlocks : Z;
  usedBlocks : Z;
  freeMem : Z;
  usedMem : Z;
  merges : Z;
  allocations : Z;
  frees : Z;
  fails : Z
}.

Definition set_memory (a : Allocator) (m : Mem) : Allocator :=
  mkAllocator m (chunkBins a) (finalPrevIsUsed a) (freeBlocks a) (usedBlocks a)
    (freeMem a) (usedMem a) (merges a) (allocations a) (frees a) (fails a).

Definition set_bins (a : Allocator) (b : list Z) : Allocator :=
  mkAllocator (memory a) b (finalPrevIsUsed a) (freeBlocks a) (usedBlocks a)
    (freeMem a) (usedMem a) (merges a) (allocations a) (frees a) (fails a).

Definition set_final (a : Allocator) (f : bool) : Allocator :=
  mkAllocator (memory a) (chunkBins a) f (freeBlocks a) (usedBlocks a)
    (freeMem a) (usedMem a) (merges a) (allocations a) (frees a) (fails a).

Definition set_freeBlocks (a : Allocator) (v : Z) : Allocator :=
  mkAllocator (memory a) (chunkBins a) (finalPrevIsUsed a) v (usedBlocks a)
    (freeMem a) (usedMem a) (merges a) (allocations a) (frees a) (fails a).

Definition set_freeMem (a : Allocator) (v : Z) : Allocator :=
  mkAllocator (memory a) (chunkBins a) (finalPrevIsUsed a) (freeBlocks a) (usedBlocks a)
    v (usedMem a) (merges a) (allocations a) (frees a) (fails a).

Definition set_merges (a : Allocator) (v : Z) : Allocator :=
  mkAllocator (memory a) (chunkBins a) (finalPrevIsUsed a) (freeBlocks a) (usedBlocks a)
    (freeMem a) (usedMem a) v (allocations a) (frees a) (fails a).

Definition set_allocations (a : Allocator) (v : Z) : Allocator :=
  mkAllocator (memory a) (chunkBins a) (finalPrevIsUsed a) (freeBlocks a) (usedBlocks a)
    (freeMem a) (usedMem a) (merges a) v (frees a) (fails a).

Definition set_frees (a : Allocator) (v : Z) : Allocator :=
  mkAllocator (memory a) (chunkBins a) (finalPrevIsUsed a) (freeBlocks a) (usedBlocks a)
    (freeMem a) (usedMem a) (merges a) (allocations a) v (fails a).

Definition set_fails (a : Allocator) (v : Z) : Allocator :=
  mkAllocator (memory a) (chunkBins a) (finalPrevIsUsed a) (freeBlocks a) (usedBlocks a)
    (freeMem a) (usedMem a) (merges a) (allocations a) (frees a) v.

(** [size()]: the size of the managed memory, as a [uint32_t]. *)
Definition size (a : Allocator) : Z := u32 (msize (memory a)).

(** [OffsetOf]: offset of a chunk from the base, truncated to [Size]. *)
Definition OffsetOf (chunk : Z) : Z := u32 chunk.

(** [GetChunkAbsolute]. *)
Definition GetChunkAbsolute (offsetFromBase : Z) : Z := offsetFromBase.

(** [PlaceChunkRelative]: the byte offset is an [int32_t]. *)
Definition PlaceChunkRelative (ptr : Z) (byteOffset : Z) : Z := ptr + byteOffset.

(** Read and write of [chunkBins.bins[i]]. *)
Definition bin_get (a : Allocator) (i : Z) : option Z :=
  if 0 <=? i then nth_error (chunkBins a) (Z.to_nat i) else None.

Definition bin_set (a : Allocator) (i : Z) (v : Z) : option Allocator :=
  if (0 <=? i) && (i <? Z.of_nat (length (chunkBins a))) then
    Some (set_bins a (firstn (Z.to_nat i) (chunkBins a)
                      ++ v :: skipn (S (Z.to_nat i)) (chunkBins a)))
  else None.

(** [NextChunk]: next physical chunk, [nullptr] if none. *)
Definition NextChunk (a : Allocator) (chunk : option Z) : option (option Z) :=
  match chunk with
  | None => Some None
  | Some c =>
      sz <- GetSize (memory a) c ;;
      let next := c + sz in
      if next >=? msize (memory a) then Some None else Some (Some next)
  end.

(** [WriteHeaderAndFooter]: header, the following chunk's [IsPrevUsed] flag
    (or [finalPrevIsUsed]) and, for a free chunk, the footer. *)
Definition WriteHeaderAndFooter (a : Allocator) (chunk : Z) (sz : Z) (isUsed : bool)
  : option Allocator :=
  _ <- assert (sz >=? sizeofSize) ;;
  m1 <- SetSize (memory a) chunk sz ;;
  let a1 := set_memory a m1 in
  next <- NextChunk a1 (Some chunk) ;;
  a2 <- match next with
        | Some n => m2 <- SetPrevUsed (memory a1) n isUsed ;; Some (set_memory a1 m2)
        | None => Some (set_final a1 isUsed)
        end ;;
  if isUsed then Some a2
  else
    s <- GetSize (memory a2) chunk ;;
    m3 <- store32 (memory a2) (chunk + s - sizeofSize) s ;;
    Some (set_memory a2 m3).

Definition AddToFreeList (a : Allocator) (chunk : Z) : option Allocator :=
  let offset := OffsetOf chunk in
  sz <- GetSize (memory a) chunk ;;
  let binIndex := GetIndex sz in
  listIndex <- bin_get a binIndex ;;
  if listIndex =? InvalidSize then
    a1 <- bin_set a binIndex offset ;;
    m1 <- set_nextOffset (memory a1) chunk offset ;;
    m2 <- set_prevOffset m1 chunk offset ;;
    Some (set_memory a1 m2)
  else
    let listNode := GetChunkAbsolute listIndex in
    ln <- nextOffset (memory a) listNode ;;
    let nextNode := GetChunkAbsolute ln in
    m1 <- set_prevOffset (memory a) chunk listIndex ;;
    ln' <- nextOffset m1 listNode ;;
    m2 <- set_nextOffset m1 chunk ln' ;;
    m3 <- set_prevOffset m2 nextNode offset ;;
    m4 <- set_nextOffset m3 listNode offset ;;
    Some (set_memory a m4).

Definition RemoveFromFreeList (a : Allocator) (chunk : Z) : option Allocator :=
  let offset := OffsetOf chunk in
  sz <- GetSize (memory a) chunk ;;
  let binIndex := GetIndex sz in
  b <- bin_get a binIndex ;;
  a1 <- (if b =? offset then
           nx <- nextOffset (memory a) chunk ;;
           bin_set a binIndex (if nx =? offset then InvalidSize else nx)
         else Some a) ;;
  nx <- nextOffset (memory a1) chunk ;;
  pv <- prevOffset (memory a1) chunk ;;
  m1 <- set_prevOffset (memory a1) (GetChunkAbsolute nx) pv ;;
  pv' <- prevOffset m1 chunk ;;
  nx' <- nextOffset m1 chunk ;;
  m2 <- set_nextOffset m1 (GetChunkAbsolute pv') nx' ;;
  Some (set_memory a1 m2).

(** Inner [do ... while (cur != start)] of [GetFreeOfSize]: walk one bin's
    circular list from [cur]; [Some None] when the walk is back at [start]. *)
Fixpoint scan_bin (fuel : nat) (m : Mem) (start cur bytesRequested : Z)
  : option (option Z) :=
  match fuel with
  | O => None
  | S f =>
      sz <- GetSize m cur ;;
      if sz >=? bytesRequested then Some (Some cur)
      else
        nx <- nextOffset m cur ;;
        let cur' := GetChunkAbsolute nx in
        if cur' =? start then Some None
        else scan_bin f m start cur' bytesRequested
  end.

(** Outer [while (binIndex < BIN_INDICES)] of [GetFreeOfSize], [n] bins left. *)
Fixpoint scan_bins (n : nat) (a : Allocator) (binIndex bytesRequested : Z)
  : option (option Z) :=
  match n with
  | O => Some None
  | S n' =>
      offset <- bin_get a binIndex ;;
      r <- (if offset =? InvalidSize then Some None
            else scan_bin (S (length (memory a))) (memory a)
                   (GetChunkAbsolute offset) (GetChunkAbsolute offset) bytesRequested) ;;
      match r with
      | Some c => Some (Some c)
      | None => scan_bins n' a (binIndex + 1) bytesRequested
      end
  end.

(** [GetFreeOfSize]: the first free chunk with the requested size, or [nullptr]. *)
Definition GetFreeOfSize (a : Allocator) (bytesRequested : Z) : option (option Z) :=
  let binIndex := GetIndex bytesRequested in
  scan_bins (Z.to_nat (Z.of_nat BIN_INDICES - binIndex)) a binIndex bytesRequested.

(** [PrevSize]: the footer of the chunk before; only valid when that chunk is free. *)
Definition PrevSize (m : Mem) (chunk : Z) : option Z := load32 m (chunk - sizeofSize).

(** [PrevChunk]: the chunk before, [nullptr] if it is used or [cur] is the first. *)
Definition PrevChunk (a : Allocator) (cur : Z) : option (option Z) :=
  let offset := OffsetOf cur in
  pu <- IsPrevUsed (memory a) cur ;;
  if pu || (offset =? 0) then Some None
  else
    prevSize <- PrevSize (memory a) cur ;;
    Some (Some (PlaceChunkRelative cur (toInt (u32 (- prevSize))))).

Definition MergeSecondIntoFirst (a : Allocator) (prev chunk : Z) : option Allocator :=
  a1 <- RemoveFromFreeList a prev ;;
  a2 <- RemoveFromFreeList a1 chunk ;;
  s1 <- GetSize (memory a2) prev ;;
  s2 <- GetSize (memory a2) chunk ;;
  a3 <- WriteHeaderAndFooter a2 prev (u32 (s1 + s2)) false ;;
  a4 <- AddToFreeList a3 prev ;;
  Some (set_merges (set_freeBlocks a4 (u32 (freeBlocks a4 - 1))) (u32 (merges a4 + 1))).

(** [IsNextUsed]: whether the chunk after [chunk] is used; [true] if there is none. *)
Definition IsNextUsed (a : Allocator) (chunk : Z) : option bool :=
  next1 <- NextChunk a (Some chunk) ;;
  match next1 with
  | Some n1 =>
      next2 <- NextChunk a (Some n1) ;;
      match next2 with
      | Some n2 => IsPrevUsed (memory a) n2
      | None => Some (finalPrevIsUsed a)
      end
  | None => Some true
  end.

(** [AllocationBytesUsed]: the argument is an [int]. *)
Definition AllocationBytesUsed (a : Allocator) (bytesUsed : Z) : Allocator :=
  let s := if bytesUsed >? 0 then 1 else -1 in
  mkAllocator (memory a) (chunkBins a) (finalPrevIsUsed a)
    (u32 (freeBlocks a - s)) (u32 (usedBlocks a + s))
    (u32 (freeMem a - bytesUsed)) (u32 (usedMem a + bytesUsed))
    (merges a) (allocations a) (frees a) (fails a).

(** The constructor [Allocator(sizeInBytes)]. *)
Definition Allocator_new (sizeInBytes : Z) : option Allocator :=
  let a0 := mkAllocator (repeat 0 (Z.to_nat sizeInBytes))
              (repeat InvalidSize BIN_INDICES) false 0 0 0 0 0 0 0 0 in
  let root := GetChunkAbsolute 0 in
  a1 <- WriteHeaderAndFooter a0 root (RoundUp (u32 (sizeInBytes - 1))) false ;;
  m1 <- set_prevOffset (memory a1) root 0 ;;
  m2 <- set_nextOffset m1 root 0 ;;
  let a2 := set_freeMem (set_freeBlocks (set_memory a1 m2) 1) sizeInBytes in
  AddToFreeList a2 root.

Definition minFreeSize : Z := RoundUp (sizeofChunk + sizeofSize).

(** The used-chunk size [AllocPtr] looks for. *)
Definition bytesNeeded (byteSizeRequested : Z) : Z :=
  let n := RoundUp (u32 (byteSizeRequested + sizeofSize)) in
  if n <? minFreeSize then minFreeSize else n.

(** [AllocPtr]: the result is the user pointer, [None] for [InvalidAlloc]. *)
Definition AllocPtr (a : Allocator) (byteSizeRequested : Z)
  : option (option Z * Allocator) :=
  let need := bytesNeeded byteSizeRequested in
  curFree <- GetFreeOfSize a need ;;
  match curFree with
  | None => Some (None, set_fails a (u32 (fails a + 1)))
  | Some cf =>
      sz <- GetSize (memory a) cf ;;
      _ <- assert (sz >=? need) ;;
      a1 <- RemoveFromFreeList a cf ;;
      let splitBlock := sz >=? u32 (minFreeSize + need) in
      let bytesUsed := if splitBlock then need else sz in
      let used := PlaceChunkRelative cf (toInt (u32 (sz - bytesUsed))) in
      a2 <- WriteHeaderAndFooter a1 used bytesUsed true ;;
      let a3 := AllocationBytesUsed a2 (toInt bytesUsed) in
      a4 <- (if splitBlock then
               let a3' := set_freeBlocks a3 (u32 (freeBlocks a3 + 1)) in
               a3'' <- WriteHeaderAndFooter a3' cf (u32 (sz - bytesUsed)) false ;;
               AddToFreeList a3'' cf
             else Some a3) ;;
      Some (Some (used + userDeltaBytes),
            set_allocations a4 (u32 (allocations a4 + 1)))
  end.

(** [FreePtr]: [userData] must not be [InvalidAlloc]. *)
Definition FreePtr (a : Allocator) (userData : option Z) : option Allocator :=
  match userData with
  | None => None
  | Some p =>
      let chunk := p - userDeltaBytes in
      sz <- GetSize (memory a) chunk ;;
      a1 <- WriteHeaderAndFooter a chunk sz false ;;
      a2 <- AddToFreeList a1 chunk ;;
      let a3 := AllocationBytesUsed a2 (- toInt sz) in
      nu <- IsNextUsed a3 chunk ;;
      a4 <- (if negb nu then
               nx <- NextChunk a3 (Some chunk) ;;
               match nx with
               | Some n => MergeSecondIntoFirst a3 chunk n
               | None => None
               end
             else Some a3) ;;
      pu <- IsPrevUsed (memory a4) chunk ;;
      a5 <- (if negb pu && negb (OffsetOf chunk =? 0) then
               pc <- PrevChunk a4 chunk ;;
               match pc with
               | Some pchunk => MergeSecondIntoFirst a4 pchunk chunk
               | None => None
               end
             else Some a4) ;;
      Some (set_frees a5 (u32 (frees a5 + 1)))
  end.

(** ** class GarbageCollector : public Allocator *)

Record RefHolder := mkRefHolder {
  refCount : Z;
  rsize : Z;               (* [size]: the size that was requested *)
  pointer : option Z
}.

Definition InvalidRef : Z := 4294967295.

Record GarbageCollector := mkGC {
  base : Allocator;
  refs : list RefHolder;
  collections : Z;
  swaps : Z;
  bytesMoved : Z
}.

Definition set_base (g : GarbageCollector) (a : Allocator) : GarbageCollector :=
  mkGC a (refs g) (collections g) (swaps g) (bytesMoved g).

Definition set_refs (g : GarbageCollector) (r : list RefHolder) : GarbageCollector :=
  mkGC (base g) r (collections g) (swaps g) (bytesMoved g).

(** The constructor [GarbageCollector(bytesUsed)]. *)
Definition GC_new (bytesUsed : Z) : option GarbageCollector :=
  a <- Allocator_new bytesUsed ;;
  Some (mkGC a (repeat (mkRefHolder 0 0 None) 100) 0 0 0).

(** [refs[i]] and [refs[i] = r]. *)
Definition ref_get (g : GarbageCollector) (i : Z) : option RefHolder :=
  if 0 <=? i then nth_error (refs g) (Z.to_nat i) else None.

Definition list_set {A : Type} (l : list A) (i : nat) (x : A) : list A :=
  firstn i l ++ x :: skipn (S i) l.

Definition ref_set (g : GarbageCollector) (i : Z) (r : RefHolder) : option GarbageCollector :=
  if (0 <=? i) && (i <? Z.of_nat (length (refs g))) then
    Some (set_refs g (list_set (refs g) (Z.to_nat i) r))
  else None.

(** The scan of [GetFreeRef]: the first index at or after [i] whose [size] is 0. *)
Fixpoint find_free (rs : list RefHolder) (i : Z) : option Z :=
  match rs with
  | [] => None
  | r :: rs' => if rsize r =? 0 then Some i else find_free rs' (i + 1)
  end.

Definition GetFreeRef (g : GarbageCollector) (ptr : option Z) (requestedByteSize : Z)
  : option (Z * GarbageCollector) :=
  match find_free (refs g) 0 with
  | Some i =>
      g1 <- ref_set g i (mkRefHolder 1 requestedByteSize ptr) ;;
      Some (u32 i, g1)
  | None =>
      let g1 := set_refs g (refs g ++ [mkRefHolder 1 requestedByteSize ptr]) in
      Some (u32 (Z.of_nat (length (refs g1)) - 1), g1)
  end.

Definition AllocRef (g : GarbageCollector) (requestedByteSize : Z)
  : option (Z * GarbageCollector) :=
  '(ptr, a1) <- AllocPtr (base g) requestedByteSize ;;
  let g1 := set_base g a1 in
  match ptr with
  | None => Some (InvalidRef, g1)
  | Some _ =>
      '(ref, g2) <- GetFreeRef g1 ptr requestedByteSize ;;
      if ref =? InvalidRef then
        a3 <- FreePtr (base g2) ptr ;;
        Some (ref, set_base g2 a3)
      else Some (ref, g2)
  end.

Definition FreeRef (g : GarbageCollector) (ref : Z) : option GarbageCollector :=
  rh <- ref_get g ref ;;
  a1 <- FreePtr (base g) (pointer rh) ;;
  ref_set (set_base g a1) ref (mkRefHolder InvalidRef 0 None).

Definition IncrRef (g : GarbageCollector) (ref : Z) : option GarbageCollector :=
  rh <- ref_get g ref ;;
  ref_set g ref (mkRefHolder (u32 (refCount rh + 1)) (rsize rh) (pointer rh)).

Definition DecrRef (g : GarbageCollector) (ref : Z) : option (bool * GarbageCollector) :=
  rh <- ref_get g ref ;;
  if refCount rh >? 1 then
    g1 <- ref_set g ref (mkRefHolder (u32 (refCount rh - 1)) (rsize rh) (pointer rh)) ;;
    Some (true, g1)
  else
    g1 <- FreeRef g ref ;;
    Some (false, g1).

Definition SizeFromRef (g : GarbageCollector) (ref : Z) : option Z :=
  rh <- ref_get g ref ;; Some (rsize rh).

Definition PointerFromRef (g : GarbageCollector) (ref : Z) : option (option Z) :=
  rh <- ref_get g ref ;; Some (pointer rh).

Definition RefCount (g : GarbageCollector) (ref : Z) : option Z :=
  rh <- ref_get g ref ;; Some (refCount rh).

(** [IsSelfUsed]. *)
Definition IsSelfUsed (a : Allocator) (chunk : option Z) : option bool :=
  match chunk with
  | None => None
  | Some c =>
      next <- NextChunk a (Some c) ;;
      match next with
      | Some n => IsPrevUsed (memory a) n
      | None => Some (finalPrevIsUsed a)
      end
  end.

(** *** Compact *)

(** Phase 1: for each ref with a pointer, save the first user word into
    [backing[i]] and overwrite it with [i].  [backing] is returned in index
    order; the entries of refs without pointer keep their initial 0. *)
Fixpoint stamp (rs : list RefHolder) (i : Z) (m : Mem) : option (Mem * list Z) :=
  match rs with
  | [] => Some (m, [])
  | r :: rs' =>
      match pointer r with
      | Some p =>
          w <- load32 m p ;;
          m1 <- store32 m p (u32 i) ;;
          '(m2, bk) <- stamp rs' (i + 1) m1 ;;
          Some (m2, w :: bk)
      | None =>
          '(m2, bk) <- stamp rs' (i + 1) m ;;
          Some (m2, 0 :: bk)
      end
  end.

(** Phase 2: unlink every free chunk from its bin. *)
Fixpoint detach (fuel : nat) (a : Allocator) (cur : Z) : option Allocator :=
  match fuel with
  | O => None
  | S f =>
      su <- IsSelfUsed a (Some cur) ;;
      a1 <- (if negb su then
               RemoveFromFreeList (set_freeBlocks a (u32 (freeBlocks a - 1))) cur
             else Some a) ;;
      nx <- NextChunk a1 (Some cur) ;;
      match nx with
      | Some c => detach f a1 c
      | None => Some a1
      end
  end.

(** Phase 3: move the used chunks to the lowest addresses.  The result is
    the collector, [nextWrite] and [usedSize]. *)
Fixpoint slide (fuel : nat) (g : GarbageCollector) (cur nextWrite usedSize : Z)
  : option (GarbageCollector * Z * Z) :=
  match fuel with
  | O => None
  | S f =>
      nxt <- NextChunk (base g) (Some cur) ;;
      su <- IsSelfUsed (base g) (Some cur) ;;
      '(g1, nw1, us1) <-
        (if su then
           sz <- GetSize (memory (base g)) cur ;;
           m1 <- (if cur =? nextWrite then Some (memory (base g))
                  else memmove (memory (base g)) nextWrite cur sz) ;;
           a2 <- WriteHeaderAndFooter (set_memory (base g) m1) nextWrite sz true ;;
           Some (mkGC a2 (refs g) (collections g) (u32 (swaps g + 1))
                   (u32 (bytesMoved g + sz)),
                 nextWrite + sz, u32 (usedSize + sz))
         else Some (g, nextWrite, usedSize)) ;;
      match nxt with
      | Some c => slide f g1 c nw1 us1
      | None => Some (g1, nw1, us1)
      end
  end.

Definition optZ_eqb (x y : option Z) : bool :=
  match x, y with
  | Some a, Some b => a =? b
  | None, None => true
  | _, _ => false
  end.

(** "mark all used": [do { cur->SetPrevUsed(true); cur = NextChunk(cur); }
    while (cur != freeChunk)]. *)
Fixpoint mark_used (fuel : nat) (a : Allocator) (cur freeChunk : option Z)
  : option Allocator :=
  match fuel with
  | O => None
  | S f =>
      match cur with
      | None => None
      | Some c =>
          m1 <- SetPrevUsed (memory a) c true ;;
          let a1 := set_memory a m1 in
          nx <- NextChunk a1 (Some c) ;;
          if optZ_eqb nx freeChunk then Some a1 else mark_used f a1 nx freeChunk
      end
  end.

(** Phase 5: for each used chunk read the ref index from the first user
    word, restore the saved word and update the ref's pointer. *)
Fixpoint restore (fuel : nat) (g : GarbageCollector) (backing : list Z)
  (cur freeChunk : option Z) : option GarbageCollector :=
  match fuel with
  | O => None
  | S f =>
      su <- IsSelfUsed (base g) cur ;;
      g1 <- (if su then
               match cur with
               | None => None
               | Some c =>
                   let p := c + sizeofSize in
                   index <- load32 (memory (base g)) p ;;
                   bk <- nth_error backing (Z.to_nat index) ;;
                   m1 <- store32 (memory (base g)) p bk ;;
                   rh <- ref_get g index ;;
                   ref_set (set_base g (set_memory (base g) m1)) index
                     (mkRefHolder (refCount rh) (rsize rh) (Some p))
               end
             else Some g) ;;
      nx <- NextChunk (base g1) cur ;;
      if optZ_eqb nx freeChunk then Some g1 else restore f g1 backing nx freeChunk
  end.

(** Phase 4: the free bytes become one free chunk at [nextWrite], if there
    are any.  The result is the allocator and [freeChunk]. *)
Definition tail_chunk (a : Allocator) (nextWrite usedSize : Z)
  : option (Allocator * option Z) :=
  let freeSize := u32 (size a - usedSize) in
  let a4 := set_freeMem a freeSize in
  if freeSize >? 0 then
    let a4' := set_freeBlocks a4 (u32 (freeBlocks a4 + 1)) in
    _ <- assert (freeSize >=? sizeofChunk + sizeofSize) ;;
    a4'' <- WriteHeaderAndFooter a4' nextWrite freeSize false ;;
    m5 <- SetPrevUsed (memory a4'') nextWrite true ;;
    a5 <- AddToFreeList (set_memory a4'' m5) nextWrite ;;
    Some (a5, Some nextWrite)
  else Some (a4, None).

Definition Compact (g : GarbageCollector) : option GarbageCollector :=
  let fuel := S (length (memory (base g))) in
  (* 1. put the ref into each used block *)
  '(m1, backing) <- stamp (refs g) 0 (memory (base g)) ;;
  let a1 := set_memory (base g) m1 in
  (* 2. unlink all free nodes *)
  a2 <- detach fuel a1 (GetChunkAbsolute 0) ;;
  (* 3. move used chunks to lower addresses *)
  '(g3, nextWrite, usedSize) <- slide fuel (set_base g a2) (GetChunkAbsolute 0) 0 0 ;;
  (* 4. one possible final free node *)
  '(a5, freeChunk) <- tail_chunk (base g3) nextWrite usedSize ;;
  (* mark all used *)
  a6 <- mark_used fuel a5 (Some (GetChunkAbsolute 0)) freeChunk ;;
  (* 5. look up ref, update ref, restore used info *)
  g7 <- restore fuel (set_base g3 a6) backing (Some (GetChunkAbsolute 0)) freeChunk ;;
  Some (mkGC (base g7) (refs g7) (u32 (collections g7 + 1)) (swaps g7) (bytesMoved g7)).

(** [MoveUsedUp] (private, not called): move the used chunk over the free
    chunk before it and put the free chunk behind. *)
Definition MoveUsedUp (a : Allocator) (freeChunk usedChunk : Z) : option Allocator :=
  usedSize <- GetSize (memory a) usedChunk ;;
  freeSize <- GetSize (memory a) freeChunk ;;
  m1 <- memmove (memory a) freeChunk usedChunk usedSize ;;
  let usedChunk' := freeChunk in
  let newFreeChunk := PlaceChunkRelative freeChunk (toInt usedSize) in
  a1 <- WriteHeaderAndFooter (set_memory a m1) usedChunk' usedSize true ;;
  WriteHeaderAndFooter a1 newFreeChunk freeSize false.

(** ** The integrity checks *)

(** The [std::runtime_error]s that the checks throw, named by their
    messages: "Size too small", "Bad free pointers", "Bad backlinks",
    "chunk missing in bin", "Cannot find in bin", "Free has mismatched
    sizes", "Bad mem size", "Bad block size", "Bad mem sizes", and the
    "memory changed" of the test program. *)
Inductive check_error : Type :=
| Size_too_small
| Bad_free_pointers
| Bad_backlinks
| chunk_missing_in_bin
| Cannot_find_in_bin
| Free_has_mismatched_sizes
| Bad_mem_size
| Bad_block_size
| Bad_mem_sizes
| memory_changed.

(** A function that returns or throws; undefined behaviour is [None] as before. *)
Inductive result (A : Type) : Type :=
| Ret (x : A)
| Throw (e : check_error).

Arguments Ret {A} x.
Arguments Throw {A} e.

Definition rbind {A B : Type} (o : option (result A)) (k : A -> option (result B))
  : option (result B) :=
  match o with
  | Some (Ret x) => k x
  | Some (Throw e) => Some (Throw e)
  | None => None
  end.

Definition lift {A : Type} (o : option A) : option (result A) :=
  match o with
  | Some x => Some (Ret x)
  | None => None
  end.

Notation "x <~ e ;; k" := (rbind e (fun x => k))
  (at level 61, e at next level, right associativity).
Notation "' p <~ e ;; k" := (rbind e (fun p => k))
  (at level 61, p pattern, e at next level, right associativity).

(** [CheckChunk]: some per chunk integrity checking.  The operands of [||]
    are read from left to right, the right one only if the left one is
    false. *)
Definition CheckChunk (a : Allocator) (chunk : Z) : option (result unit) :=
  sz <~ lift (GetSize (memory a) chunk) ;;
  if sz <? 16 then Some (Throw Size_too_small)
  else
    next <~ lift (NextChunk a (Some chunk)) ;;
    match next with
    | None => Some (Ret tt)
    | Some n =>
        pu <~ lift (IsPrevUsed (memory a) n) ;;
        if negb pu then
          nx <~ lift (nextOffset (memory a) chunk) ;;
          bad <~ (if nx =? InvalidSize then Some (Ret true)
                  else pv <~ lift (prevOffset (memory a) chunk) ;;
                       Some (Ret (pv =? InvalidSize))) ;;
          if bad then Some (Throw Bad_free_pointers)
          else
            let offset := OffsetOf chunk in
            nx1 <~ lift (nextOffset (memory a) chunk) ;;
            np <~ lift (prevOffset (memory a) (GetChunkAbsolute nx1)) ;;
            bad2 <~ (if negb (np =? offset) then Some (Ret true)
                     else pv1 <~ lift (prevOffset (memory a) chunk) ;;
                          pn <~ lift (nextOffset (memory a) (GetChunkAbsolute pv1)) ;;
                          Some (Ret (negb (pn =? offset)))) ;;
            if bad2 then Some (Throw Bad_backlinks) else Some (Ret tt)
        else Some (Ret tt)
    end.

(** The [do ... while (cur != start)] of [CheckInBin], which counts the
    nodes of the bin and leaves when [count > freeBlocks * 10]. *)
Fixpoint bin_count (fuel : nat) (a : Allocator) (start chunk cur count : Z) (found : bool)
  : option (Z * bool) :=
  match fuel with
  | O => None
  | S f =>
      let count1 := u32 (count + 1) in
      let found1 := found || (cur =? chunk) in
      nx <- nextOffset (memory a) cur ;;
      let cur1 := GetChunkAbsolute nx in
      if count1 >? u32 (freeBlocks a * 10) then Some (count1, found1)
      else if cur1 =? start then Some (count1, found1)
      else bin_count f a start chunk cur1 count1 found1
  end.

(** [CheckInBin]: ensure this chunk is in the correct bin; the result is
    the length of the bin.  The loop leaves after [freeBlocks * 10 + 1]
    steps at the latest. *)
Definition CheckInBin (a : Allocator) (chunk : Z) : option (result Z) :=
  sz <~ lift (GetSize (memory a) chunk) ;;
  let binindex := GetIndex sz in
  startOffset <~ lift (bin_get a binindex) ;;
  if startOffset =? InvalidSize then Some (Throw chunk_missing_in_bin)
  else
    let start := GetChunkAbsolute startOffset in
    '(count, found) <~ lift (bin_count (S (Z.to_nat (u32 (freeBlocks a * 10))))
                              a start chunk start 0 false) ;;
    if negb found then Some (Throw Cannot_find_in_bin) else Some (Ret count).

(** The local counters of [IntegrityCheck]. *)
Record tally := mkTally {
  freeCountA : Z;
  freeMemA : Z;
  usedCountA : Z;
  usedMemA : Z;
  totalMemUsedA : Z
}.

(** The [while (s != nullptr)] of [IntegrityCheck]; the result is the
    counters and [prev].  A chunk smaller than 16 bytes makes [CheckChunk]
    throw, so the loop takes fewer steps than the pool has bytes. *)
Fixpoint check_walk (fuel : nat) (a : Allocator) (s : Z) (t : tally)
  : option (result (tally * Z)) :=
  match fuel with
  | O => None
  | S f =>
      _ <~ CheckChunk a s ;;
      nextChunk <~ lift (NextChunk a (Some s)) ;;
      sz <~ lift (GetSize (memory a) s) ;;
      _ <~ lift (assert (sz >=? sizeofSize)) ;;
      t1 <~ match nextChunk with
            | Some n =>
                pu <~ lift (IsPrevUsed (memory a) n) ;;
                if negb pu then
                  _ <~ CheckInBin a s ;;
                  let t' := mkTally (u32 (freeCountA t + 1)) (u32 (freeMemA t + sz))
                              (usedCountA t) (usedMemA t) (totalMemUsedA t) in
                  prevSize <~ lift (PrevSize (memory a) n) ;;
                  if negb (prevSize =? sz) then Some (Throw Free_has_mismatched_sizes)
                  else Some (Ret t')
                else
                  Some (Ret (mkTally (freeCountA t) (freeMemA t)
                               (u32 (usedCountA t + 1)) (u32 (usedMemA t + sz))
                               (totalMemUsedA t)))
            | None => Some (Ret t)
            end ;;
      let t2 := mkTally (freeCountA t1) (freeMemA t1) (usedCountA t1) (usedMemA t1)
                  (u32 (totalMemUsedA t1 + sz)) in
      match nextChunk with
      | Some n => check_walk f a n t2
      | None => Some (Ret (t2, s))
      end
  end.

(** [IntegrityCheck]: do integrity checking, see if all items are ok. *)
Definition IntegrityCheck (a : Allocator) : option (result bool) :=
  '(t, prev) <~ check_walk (S (length (memory a))) a (GetChunkAbsolute 0)
                  (mkTally 0 0 0 0 0) ;;
  psz <~ lift (GetSize (memory a) prev) ;;
  let t1 :=
    if negb (finalPrevIsUsed a) then
      mkTally (u32 (freeCountA t + 1)) (u32 (freeMemA t + psz)) (usedCountA t)
        (usedMemA t) (totalMemUsedA t)
    else
      mkTally (freeCountA t) (freeMemA t) (u32 (usedCountA t + 1))
        (u32 (usedMemA t + psz)) (totalMemUsedA t) in
  if negb (totalMemUsedA t1 =? msize (memory a)) then Some (Throw Bad_mem_size)
  else if negb (usedBlocks a =? usedCountA t1) || negb (freeBlocks a =? freeCountA t1)
  then Some (Throw Bad_block_size)
  else if negb (freeMem a =? freeMemA t1) || negb (usedMem a =? usedMemA t1)
  then Some (Throw Bad_mem_sizes)
  else Some (Ret true).

(** ** The test program: the checks of the blocks *)

(** Read of one byte. *)
Definition load8 (m : Mem) (a : Z) : option Z :=
  if inb m a 1 then Some (byte_at m a) else None.

(** [CheckSize]: its body is commented out. *)
Definition CheckSize (requestSize returnedSize : Z) : unit := tt.

(** [CheckBlock]: the first and the last byte of the block hold the token,
    the low byte of the ref. *)
Definition CheckBlock (g : GarbageCollector) (ref requestSize : Z)
  : option (result unit) :=
  memptr <~ lift (PointerFromRef g ref) ;;
  returnedSize <~ lift (SizeFromRef g ref) ;;
  let _ := CheckSize requestSize returnedSize in
  let token := ref mod 256 in
  match memptr with
  | None => None
  | Some p =>
      b0 <~ lift (load8 (memory (base g)) p) ;;
      if negb (b0 =? token) then Some (Throw memory_changed)
      else
        b1 <~ lift (load8 (memory (base g)) (p + u32 (returnedSize - 1))) ;;
        if negb (b1 =? token) then Some (Throw memory_changed) else Some (Ret tt)
  end.

(** [TestAllBlocks]. *)
Fixpoint TestAllBlocks (pointers : list (Z * Z)) (g : GarbageCollector)
  : option (result unit) :=
  match pointers with
  | [] => Some (Ret tt)
  | (ref, requestSize) :: rest =>
      _ <~ CheckBlock g ref requestSize ;;
      TestAllBlocks rest g
  end.


(** * Reading the pool: the chunk walk *)

(** A chunk as the physical walk sees it: offset, size from the header, and
    whether it is used ([IsSelfUsed]). *)
Record chunk := mkChunk {
  off : Z;
  csz : Z;
  used : bool
}.

(** The walk of [IntegrityCheck] and [Compact]: from [cur], follow
    [NextChunk] to the end of the pool. *)
Fixpoint walk (fuel : nat) (a : Allocator) (cur : Z) : option (list chunk) :=
  match fuel with
  | O => None
  | S f =>
      sz <- GetSize (memory a) cur ;;
      su <- IsSelfUsed a (Some cur) ;;
      nx <- NextChunk a (Some cur) ;;
      match nx with
      | Some n => rest <- walk f a n ;; Some (mkChunk cur sz su :: rest)
      | None => Some [mkChunk cur sz su]
      end
  end.

Definition pool_chunks (a : Allocator) : option (list chunk) :=
  walk (S (length (memory a))) a 0.

(** The members of one bin: the circular list from the bin's head. *)
Fixpoint bin_walk (fuel : nat) (m : Mem) (start cur : Z) : option (list Z) :=
  match fuel with
  | O => None
  | S f =>
      nx <- nextOffset m cur ;;
      if nx =? start then Some [cur]
      else rest <- bin_walk f m start nx ;; Some (cur :: rest)
  end.

Definition bin_members (a : Allocator) (i : Z) : option (list Z) :=
  h <- bin_get a i ;;
  if h =? InvalidSize then Some []
  else bin_walk (S (length (memory a))) (memory a) h h.

(** * The representation invariant of the allocator *)

(** The chunks tile [lo, hi) in address order. *)
Fixpoint contig (lo : Z) (cl : list chunk) (hi : Z) : Prop :=
  match cl with
  | [] => lo = hi
  | c :: r => off c = lo /\ contig (lo + csz c) r hi
  end.

Definition size_ok (c : chunk) : Prop := 16 <= csz c /\ csz c mod 2 = 0.

Definition is_free (c : chunk) : bool := negb (used c).

(** Boundary tags: the header size, the [IsPrevUsed] flag of the successor
    (or [finalPrevIsUsed]) and the footer of a free chunk. *)
Definition tags (a : Allocator) (c : chunk) : Prop :=
  GetSize (memory a) (off c) = Some (csz c)
  /\ (if off c + csz c <? msize (memory a)
      then IsPrevUsed (memory a) (off c + csz c) = Some (used c)
      else finalPrevIsUsed a = used c)
  /\ (used c = false -> load32 (memory a) (off c + csz c - 4) = Some (csz c)).

Definition no_adjacent_free (cl : list chunk) : Prop :=
  forall c1 c2, In c1 cl -> In c2 cl -> off c2 = off c1 + csz c1 ->
    used c1 = false -> used c2 = true.

(** A bin list [l] is linked forward and backward along [l]. *)
Fixpoint path (m : Mem) (l : list Z) : Prop :=
  match l with
  | x :: t =>
      match t with
      | y :: _ => nextOffset m x = Some y /\ prevOffset m y = Some x /\ path m t
      | [] => True
      end
  | [] => True
  end.

(** ... and closed into a circle. *)
Definition cyc (m : Mem) (l : list Z) : Prop :=
  match l with
  | [] => True
  | h :: _ => path m (l ++ [h])
  end.

Definition bin_head (l : list Z) : Z :=
  match l with
  | [] => InvalidSize
  | h :: _ => h
  end.

(** The nodes of [L] are distinct, inside a pool of [P] bytes, and their
    header and link words do not overlap. *)
Definition nodes_ok (P : Z) (L : list Z) : Prop :=
  NoDup L
  /\ (forall x, In x L -> 0 <= x /\ x + 12 <= P)
  /\ (forall x y, In x L -> In y L -> x = y \/ x + 12 <= y \/ y + 12 <= x).

(** The bin table against the lists [bl] of the offsets linked in each bin. *)
Definition bins_ok (a : Allocator) (bl : list (list Z)) : Prop :=
  chunkBins a = map bin_head bl
  /\ length bl = BIN_INDICES
  /\ (forall l, In l bl -> cyc (memory a) l)
  /\ nodes_ok (msize (memory a)) (concat bl).

(** The bins hold exactly the chunks of [fl], each in the bin of its size. *)
Definition cover (fl : list chunk) (bl : list (list Z)) : Prop :=
  forall i x, In x (nth i bl []) <->
    exists c, In c fl /\ off c = x /\ GetIndex (csz c) = Z.of_nat i.

Fixpoint sum_sizes (cl : list chunk) : Z :=
  match cl with
  | [] => 0
  | c :: r => csz c + sum_sizes r
  end.

Definition used_chunks (cl : list chunk) : list chunk := filter used cl.
Definition free_chunks (cl : list chunk) : list chunk := filter is_free cl.

Definition stats_ok (a : Allocator) (cl : list chunk) : Prop :=
  freeBlocks a = Z.of_nat (length (free_chunks cl))
  /\ usedBlocks a = Z.of_nat (length (used_chunks cl))
  /\ usedMem a = sum_sizes (used_chunks cl)
  /\ freeMem a = sum_sizes (free_chunks cl).

(** The pool structure without the bins. *)
Definition pool_ok (a : Allocator) (cl : list chunk) : Prop :=
  msize (memory a) < 2147483648
  /\ cl <> []
  /\ contig 0 cl (msize (memory a))
  /\ Forall size_ok cl
  /\ (forall c, In c cl -> tags a c).

Definition alloc_inv (a : Allocator) (cl : list chunk) (bl : list (list Z)) : Prop :=
  pool_ok a cl
  /\ no_adjacent_free cl
  /\ bins_ok a bl
  /\ cover (free_chunks cl) bl
  /\ stats_ok a cl.

(** * The invariant of the collector *)

(** Every ref with a pointer points at the user area of a used chunk, and
    no two refs point at the same chunk. *)
Definition refs_ok (rs : list RefHolder) (cl : list chunk) : Prop :=
  (forall i r p, nth_error rs i = Some r -> pointer r = Some p ->
     exists c, In c cl /\ used c = true /\ p = off c + 4)
  /\ (forall i j r r' p, nth_error rs i = Some r -> nth_error rs j = Some r' ->
        pointer r = Some p -> pointer r' = Some p -> i = j)
  /\ (forall r, In r rs -> rsize r <> 0 -> pointer r <> None)
  /\ (Z.of_nat (length rs) <= Z.max 100 (sum_sizes cl / 16)).

Definition gc_inv (g : GarbageCollector) (cl : list chunk) (bl : list (list Z)) : Prop :=
  alloc_inv (base g) cl bl /\ refs_ok (refs g) cl.

(** * Auxiliary notions of the proofs *)

(** The size field of a header word and its flag. *)
Definition wsize (w : Z) : Z := Z.land w sizeMask.
Definition wflag (w : Z) : bool := Z.land w 1 =? 1.

(** The counters of two allocator states agree. *)
Definition stats_eq (a a' : Allocator) : Prop :=
  freeBlocks a' = freeBlocks a /\ usedBlocks a' = usedBlocks a
  /\ freeMem a' = freeMem a /\ usedMem a' = usedMem a
  /\ merges a' = merges a /\ allocations a' = allocations a
  /\ frees a' = frees a /\ fails a' = fails a.

(** The link fields of the free chunks of a layout. *)
Definition in_links (cl : list chunk) (b : Z) : Prop :=
  exists c, In c cl /\ used c = false /\ off c + 4 <= b < off c + 12.

(** The allocator invariant without coalescing, as it holds inside
    [AllocPtr] and [FreePtr]. *)
Definition pool_inv (a : Allocator) (cl : list chunk) (bl : list (list Z)) : Prop :=
  pool_ok a cl /\ bins_ok a bl /\ cover (free_chunks cl) bl /\ stats_ok a cl.

(** No two free chunks follow each other, along the list. *)
Fixpoint nafl (cl : list chunk) : Prop :=
  match cl with
  | c1 :: r =>
      match r with
      | c2 :: _ => (used c1 = false -> used c2 = true) /\ nafl r
      | [] => True
      end
  | [] => True
  end.

(** * Compaction *)

(** The pointers of the refs are inside a pool of [P] bytes and the words
    they point at do not overlap. *)
Definition ptrs_sep (P : Z) (rs : list RefHolder) : Prop :=
  (forall j r p, nth_error rs j = Some r -> pointer r = Some p -> 0 <= p /\ p + 4 <= P)
  /\ (forall j k r r' p p', nth_error rs j = Some r -> nth_error rs k = Some r' ->
        pointer r = Some p -> pointer r' = Some p' ->
        j = k \/ p + 4 <= p' \/ p' + 4 <= p).

(** The used chunks [l] packed from offset [lo] on, in the same order. *)
Fixpoint pack (lo : Z) (l : list chunk) : list chunk :=
  match l with
  | [] => []
  | c :: r => mkChunk lo (csz c) true :: pack (lo + csz c) r
  end.

(** The layout after compaction of a pool of [P] bytes: the used chunks
    packed at the low end, and one free chunk with the rest, if any. *)
Definition compacted (P : Z) (cl : list chunk) : list chunk :=
  let u := sum_sizes (used_chunks cl) in
  pack 0 (used_chunks cl) ++ (if u <? P then [mkChunk u (P - u) false] else []).

(** The chunks [l] of the memory [m0] are in [m] at their packed places:
    the headers hold the sizes and the user bytes are those of [m0]. *)
Definition packed_from (m0 m : Mem) (l : list chunk) : Prop :=
  (forall x, In x (pack 0 l) -> GetSize m (off x) = Some (csz x))
  /\ (forall x, In x l ->
        exists x', In x' (pack 0 l) /\ csz x' = csz x
          /\ forall k, 4 <= k < csz x -> byte_at m (off x' + k) = byte_at m0 (off x + k)).

(** A [uint32_t] counter [s] after [n] increments that add up to [n]
    (no increment: the counter is as it was). *)
Definition wadd (s n : Z) : Z := if n =? 0 then s else u32 (s + n).

(** The first user word of the chunk [x] holds the ref index [j]. *)
Definition stamp_at (m : Mem) (x : chunk) (j : nat) : Prop :=
  load32 m (off x + 4) = Some (Z.of_nat j).

(** The refs [rs] during phase 5, which started from the refs [rs0] and the
    memory [ms]: the chunks [done] have been visited, the chunks [rest] are
    still to be visited.  A ref with a pointer either points at the visited
    chunk that holds its index, or a chunk still to be visited holds its
    index. *)
Definition refs_restored (ms : Mem) (rs0 rs : list RefHolder) (done rest : list chunk)
  : Prop :=
  length rs = length rs0
  /\ (forall j r, nth_error rs j = Some r ->
        exists r0, nth_error rs0 j = Some r0 /\ rsize r = rsize r0
          /\ refCount r = refCount r0 /\ (pointer r0 <> None -> pointer r <> None))
  /\ (forall j r p, nth_error rs j = Some r -> pointer r = Some p ->
        (exists x, In x done /\ p = off x + 4 /\ stamp_at ms x j)
        \/ (exists x, In x rest /\ stamp_at ms x j)).

(** * The client and the reachable states *)

(** The handle [h] is live: its slot holds a pointer. *)
Definition live (g : GarbageCollector) (h : Z) : Prop :=
  exists r p, ref_get g h = Some r /\ pointer r = Some p.

(** [x] is a byte of the user area of a used chunk. *)
Definition user_byte (a : Allocator) (x : Z) : Prop :=
  exists cl c, pool_chunks a = Some cl /\ In c cl /\ used c = true
    /\ off c + 4 <= x < off c + csz c.

(** [p] is the user pointer of a used chunk that no ref points at. *)
Definition raw_pointer (g : GarbageCollector) (p : Z) : Prop :=
  (exists cl c, pool_chunks (base g) = Some cl /\ In c cl /\ used c = true
     /\ p = off c + 4)
  /\ (forall r, In r (refs g) -> pointer r <> Some p).

(** The client writes the byte [v] at [x]. *)
Definition poke (g : GarbageCollector) (x v : Z) : GarbageCollector :=
  set_base g (set_memory (base g) (upd (memory (base g)) x (v mod 256))).

Definition is_u32 (n : Z) : Prop := 0 <= n < 4294967296.

(** The states a client reaches from the constructor: the arguments are
    [uint32_t] values, refs passed to [FreeRef], [IncrRef] and [DecrRef] are
    live, [FreePtr] gets a pointer to a used chunk that no ref owns, and the
    client writes only inside the user areas of used chunks.  Pools have
    at least [minFreeSize + sizeof(Size)] = 20 bytes and less than 2^31,
    where the conversions to [int] are exact. *)
Inductive reachable : GarbageCollector -> Prop :=
| reach_new (P : Z) (g : GarbageCollector) :
    20 <= P < 2147483648 -> GC_new P = Some g -> reachable g
| reach_AllocRef (g g' : GarbageCollector) (n h : Z) :
    reachable g -> is_u32 n -> AllocRef g n = Some (h, g') -> reachable g'
| reach_FreeRef (g g' : GarbageCollector) (h : Z) :
    reachable g -> live g h -> FreeRef g h = Some g' -> reachable g'
| reach_IncrRef (g g' : GarbageCollector) (h : Z) :
    reachable g -> live g h -> IncrRef g h = Some g' -> reachable g'
| reach_DecrRef (g g' : GarbageCollector) (h : Z) (b : bool) :
    reachable g -> live g h -> DecrRef g h = Some (b, g') -> reachable g'
| reach_Compact (g g' : GarbageCollector) :
    reachable g -> Compact g = Some g' -> reachable g'
| reach_AllocPtr (g : GarbageCollector) (n : Z) (p : option Z) (a' : Allocator) :
    reachable g -> is_u32 n -> AllocPtr (base g) n = Some (p, a') ->
    reachable (set_base g a')
| reach_FreePtr (g : GarbageCollector) (p : Z) (a' : Allocator) :
    reachable g -> raw_pointer g p -> FreePtr (base g) (Some p) = Some a' ->
    reachable (set_base g a')
| reach_poke (g : GarbageCollector) (x v : Z) :
    reachable g -> user_byte (base g) x -> reachable (poke g x v).

(** * Example states

    The states of the seed scenarios, in a pool of 64 bytes. *)

Definition gc_of (o : option GarbageCollector) : GarbageCollector :=
  match o with
  | Some g => g
  | None => mkGC (mkAllocator [] [] false 0 0 0 0 0 0 0 0) [] 0 0 0
  end.

(** [GarbageCollector gc(64)]. *)
Definition ex_new : GarbageCollector := Eval vm_compute in gc_of (GC_new 64).

(** ... then [AllocRef(8)]. *)
Definition ex_one : GarbageCollector :=
  Eval vm_compute in gc_of ('(_, g) <- AllocRef ex_new 8 ;; Some g).

(** ... then [Compact()]. *)
Definition ex_packed : GarbageCollector := Eval vm_compute in gc_of (Compact ex_one).


(** [GarbageCollector gc(64)], then [AllocRef(0)]. *)
Definition ex_zero : GarbageCollector :=
  Eval vm_compute in gc_of ('(_, g) <- AllocRef ex_new 0 ;; Some g).

(** ... then [AllocRef(8)], which returns the handle 0 again, and the
    client writes 7 to the last byte of the 8 bytes it asked for. *)
Definition ex_leak : GarbageCollector :=
  Eval vm_compute in gc_of ('(_, g) <- AllocRef ex_zero 8 ;; Some (poke g 43 7)).

(** ... then [Compact()]. *)
Definition ex_leak_packed : GarbageCollector := Eval vm_compute in gc_of (Compact ex_leak).

(** [GarbageCollector gc(64)], then [AllocRef(1)]. *)
Definition ex_small : GarbageCollector :=
  Eval vm_compute in gc_of ('(_, g) <- AllocRef ex_new 1 ;; Some g).

(** [GarbageCollector gc(64)], then [AllocPtr(8)] of the allocator. *)
Definition ex_raw : GarbageCollector :=
  Eval vm_compute in
    gc_of ('(_, a) <- AllocPtr (base ex_new) 8 ;; Some (set_base ex_new a)).


(** [GarbageCollector gc(64)], [AllocRef(8)], then [FreeRef] of the handle. *)
Definition ex_freed : GarbageCollector := Eval vm_compute in gc_of (FreeRef ex_one 0).

(** [GarbageCollector gc(64)], [AllocRef(0)], then [AllocRef(8)]. *)
Definition ex_zero2 : GarbageCollector :=
  Eval vm_compute in gc_of ('(_, g) <- AllocRef ex_zero 8 ;; Some g).

(** [GarbageCollector gc(64)] and three times [AllocRef(8)], then [FreeRef]
    of the second handle: a free chunk lies between two used chunks. *)
Definition ex_two : GarbageCollector :=
  Eval vm_compute in gc_of ('(_, g) <- AllocRef ex_one 8 ;; Some g).

Definition ex_three : GarbageCollector :=
  Eval vm_compute in gc_of ('(_, g) <- AllocRef ex_two 8 ;; Some g).

Definition ex_holes : GarbageCollector := Eval vm_compute in gc_of (FreeRef ex_three 1).

(** * The counters of the integrity check *)

(** The counters of [IntegrityCheck] after the chunks [l], with the total
    [tot]. *)
Definition tally_of (l : list chunk) (tot : Z) : tally :=
  mkTally (Z.of_nat (length (free_chunks l))) (sum_sizes (free_chunks l))
    (Z.of_nat (length (used_chunks l))) (sum_sizes (used_chunks l)) tot.

(** The counters are [uint32_t]: each one is kept modulo 2^32. *)
Definition tally_wrap (t : tally) : tally :=
  mkTally (u32 (freeCountA t)) (u32 (freeMemA t)) (u32 (usedCountA t)) (u32 (usedMemA t))
    (u32 (totalMemUsedA t)).

(** What a passed integrity check establishes of the chunk list [cl]: it
    tiles the pool, every size is even and at least [minFreeSize], the
    counters of the allocator are those of the list, and every free chunk
    before the last carries its footer. *)
Definition checked (a : Allocator) (cl : list chunk) : Prop :=
  contig 0 cl (msize (memory a))
  /\ Forall size_ok cl
  /\ stats_ok a cl
  /\ (forall c, In c cl -> used c = false -> off c + csz c < msize (memory a) ->
        load32 (memory a) (off c + csz c - 4) = Some (csz c)).

(** * Owned chunks *)

(** Every cell of the pool holds a byte. *)
Definition bytes_ok (m : Mem) : Prop := Forall (fun b => 0 <= b < 256) m.

(** Every used chunk is the chunk of a ref: no chunk has been allocated
    with [AllocPtr] directly, and none has lost its ref. *)
Definition owned (g : GarbageCollector) : Prop :=
  forall cl c, pool_chunks (base g) = Some cl -> In c cl -> used c = true ->
    exists h r, ref_get g h = Some r /\ pointer r = Some (off c + sizeofSize).

(** The block of the handle [h] lies in the user area of its chunk: the
    handle has a pointer, and its size is at least 1 and at most the size
    of the user area. *)
Definition block_fits (g : GarbageCollector) (h : Z) : Prop :=
  exists cl c r, pool_chunks (base g) = Some cl /\ In c cl
    /\ ref_get g h = Some r /\ pointer r = Some (off c + sizeofSize)
    /\ 1 <= rsize r <= csz c - sizeofSize.

(** The handle table is tidy: every used chunk is the chunk of a ref, and
    a slot with a pointer has a size that is not 0, so [GetFreeRef] does not
    take it for a free slot. *)
Definition tidy (g : GarbageCollector) : Prop :=
  owned g
  /\ forall h r, ref_get g h = Some r -> pointer r <> None -> rsize r <> 0.

(** [tidy] on the layout of the invariant. *)
Definition tidy_on (g : GarbageCollector) (cl : list chunk) : Prop :=
  (forall c, In c cl -> used c = true ->
     exists j r, nth_error (refs g) j = Some r /\ pointer r = Some (off c + 4))
  /\ (forall j r, nth_error (refs g) j = Some r -> pointer r <> None -> rsize r <> 0).

(** The states a client reaches through the handles alone: no call of
    [AllocPtr] or [FreePtr], and no request of 0 bytes. *)
Inductive handle_run : GarbageCollector -> Prop :=
| run_new (P : Z) (g : GarbageCollector) :
    20 <= P < 2147483648 -> GC_new P = Some g -> handle_run g
| run_AllocRef (g g' : GarbageCollector) (n h : Z) :
    handle_run g -> 1 <= n < 4294967296 -> AllocRef g n = Some (h, g') -> handle_run g'
| run_FreeRef (g g' : GarbageCollector) (h : Z) :
    handle_run g -> live g h -> FreeRef g h = Some g' -> handle_run g'
| run_IncrRef (g g' : GarbageCollector) (h : Z) :
    handle_run g -> live g h -> IncrRef g h = Some g' -> handle_run g'
| run_DecrRef (g g' : GarbageCollector) (h : Z) (b : bool) :
    handle_run g -> live g h -> DecrRef g h = Some (b, g') -> handle_run g'
| run_Compact (g g' : GarbageCollector) :
    handle_run g -> Compact g = Some g' -> handle_run g'
| run_poke (g : GarbageCollector) (x v : Z) :
    handle_run g -> user_byte (base g) x -> handle_run (poke g x v).

(** The counters of the allocations and of the frees account for the used
    chunks. *)
Definition balanced (a : Allocator) : Prop :=
  usedBlocks a = u32 (allocations a - frees a).


(** * Properties of the byte pool *)

Section Memory.

Lemma obind_some {A B : Type} (o : option A) (k : A -> option B) (y : B) :
  obind o k = Some y -> exists x, o = Some x /\ k x = Some y.
Proof. destruct o as [x|]; simpl; [eauto | discriminate]. Qed.

Lemma msize_nonneg (m : Mem) : 0 <= msize m.
Proof. unfold msize; lia. Qed.

Lemma upd_length (m : Mem) (a v : Z) :
  0 <= a < msize m -> length (upd m a v) = length m.
Proof.
  unfold upd, msize; intros H.
  rewrite length_app, length_cons, length_firstn, length_skipn. lia.
Qed.

Lemma msize_upd (m : Mem) (a v : Z) :
  0 <= a < msize m -> msize (upd m a v) = msize m.
Proof. intros H; unfold msize; now rewrite upd_length. Qed.

Lemma byte_at_upd (m : Mem) (a v b : Z) :
  0 <= a < msize m -> 0 <= b ->
  byte_at (upd m a v) b = if a =? b then v else byte_at m b.
Proof.
  unfold upd, byte_at, msize; intros Ha Hb.
  assert (Hl : length (firstn (Z.to_nat a) m) = Z.to_nat a)
    by (rewrite length_firstn; lia).
  destruct (Z.eqb_spec a b) as [->|Hne].
  - rewrite app_nth2 by lia. rewrite Hl, Nat.sub_diag. reflexivity.
  - destruct (Z_lt_le_dec b a) as [Hlt|Hge].
    + rewrite app_nth1 by lia. rewrite nth_firstn.
      destruct (Nat.ltb_spec (Z.to_nat b) (Z.to_nat a)); [reflexivity|lia].
    + rewrite app_nth2 by lia. rewrite Hl.
      replace (Z.to_nat b - Z.to_nat a)%nat with (S (Z.to_nat b - Z.to_nat a - 1)) by lia.
      cbn [nth]. rewrite nth_skipn. f_equal; lia.
Qed.

Lemma inb_true (m : Mem) (a n : Z) :
  inb m a n = true <-> 0 <= a /\ a + n <= msize m.
Proof. unfold inb; rewrite andb_true_iff, Z.leb_le, Z.leb_le; tauto. Qed.

Lemma load32_some (m : Mem) (a : Z) :
  0 <= a -> a + 4 <= msize m -> exists w, load32 m a = Some w.
Proof.
  intros H1 H2; unfold load32.
  destruct (inb m a 4) eqn:E; [eauto|].
  assert (inb m a 4 = true) by (apply inb_true; lia). congruence.
Qed.

Lemma load32_inb (m : Mem) (a w : Z) :
  load32 m a = Some w -> 0 <= a /\ a + 4 <= msize m.
Proof.
  unfold load32; destruct (inb m a 4) eqn:E; [|discriminate].
  intros _; now apply inb_true.
Qed.

Lemma store32_some (m : Mem) (a v : Z) :
  0 <= a -> a + 4 <= msize m -> exists m', store32 m a v = Some m'.
Proof.
  intros H1 H2; unfold store32.
  destruct (inb m a 4) eqn:E; [eauto|].
  assert (inb m a 4 = true) by (apply inb_true; lia). congruence.
Qed.

Lemma store32_inb (m m' : Mem) (a v : Z) :
  store32 m a v = Some m' -> 0 <= a /\ a + 4 <= msize m.
Proof.
  unfold store32; destruct (inb m a 4) eqn:E; [|discriminate].
  intros _; now apply inb_true.
Qed.

Lemma store32_msize (m m' : Mem) (a v : Z) :
  store32 m a v = Some m' -> msize m' = msize m.
Proof.
  intros H; pose proof (store32_inb _ _ _ _ H) as [H1 H2].
  unfold store32 in H. destruct (inb m a 4); [|discriminate].
  injection H as <-.
  rewrite !msize_upd; rewrite ?msize_upd; try lia.
  all: rewrite ?msize_upd; try lia.
  all: rewrite ?msize_upd; lia.
Qed.

Lemma store32_bytes (m m' : Mem) (a v b : Z) :
  store32 m a v = Some m' -> 0 <= b ->
  byte_at m' b =
    if b =? a then v mod 256
    else if b =? a + 1 then (v / 256) mod 256
    else if b =? a + 2 then (v / 65536) mod 256
    else if b =? a + 3 then (v / 16777216) mod 256
    else byte_at m b.
Proof.
  intros H Hb; pose proof (store32_inb _ _ _ _ H) as [H1 H2].
  unfold store32 in H. destruct (inb m a 4); [|discriminate].
  injection H as <-.
  assert (E1 : msize (upd m a (v mod 256)) = msize m) by (apply msize_upd; lia).
  assert (E2 : msize (upd (upd m a (v mod 256)) (a + 1) ((v / 256) mod 256)) = msize m)
    by (rewrite msize_upd; lia).
  assert (E3 : msize (upd (upd (upd m a (v mod 256)) (a + 1) ((v / 256) mod 256))
                        (a + 2) ((v / 65536) mod 256)) = msize m)
    by (rewrite msize_upd; lia).
  rewrite !byte_at_upd by lia.
  destruct (Z.eqb_spec b a), (Z.eqb_spec b (a + 1)), (Z.eqb_spec b (a + 2)),
    (Z.eqb_spec b (a + 3)), (Z.eqb_spec (a + 3) b), (Z.eqb_spec (a + 2) b),
    (Z.eqb_spec (a + 1) b), (Z.eqb_spec a b); try lia; reflexivity.
Qed.

Lemma store32_other (m m' : Mem) (a v b : Z) :
  store32 m a v = Some m' -> 0 <= b -> b < a \/ a + 4 <= b ->
  byte_at m' b = byte_at m b.
Proof.
  intros H Hb Hd. rewrite (store32_bytes _ _ _ _ _ H Hb).
  destruct (Z.eqb_spec b a), (Z.eqb_spec b (a + 1)), (Z.eqb_spec b (a + 2)),
    (Z.eqb_spec b (a + 3)); try lia; reflexivity.
Qed.

Lemma word_recompose (v : Z) :
  v mod 256 + 256 * ((v / 256) mod 256) + 65536 * ((v / 65536) mod 256)
  + 16777216 * ((v / 16777216) mod 256) = v mod 4294967296.
Proof.
  pose proof (Z.div_mod v 256 ltac:(lia)).
  pose proof (Z.div_mod (v / 256) 256 ltac:(lia)).
  pose proof (Z.div_mod (v / 256 / 256) 256 ltac:(lia)).
  pose proof (Z.div_mod (v / 256 / 256 / 256) 256 ltac:(lia)).
  pose proof (Z.mod_pos_bound v 256 ltac:(lia)).
  pose proof (Z.mod_pos_bound (v / 256) 256 ltac:(lia)).
  pose proof (Z.mod_pos_bound (v / 256 / 256) 256 ltac:(lia)).
  pose proof (Z.mod_pos_bound (v / 256 / 256 / 256) 256 ltac:(lia)).
  replace (v / 65536) with (v / 256 / 256) by (rewrite Z.div_div by lia; reflexivity).
  replace (v / 16777216) with (v / 256 / 256 / 256)
    by (rewrite !Z.div_div by lia; reflexivity).
  apply Z.mod_unique_pos with (q := v / 256 / 256 / 256 / 256); lia.
Qed.

Lemma load32_store32_same (m m' : Mem) (a v : Z) :
  store32 m a v = Some m' -> load32 m' a = Some (u32 v).
Proof.
  intros H; pose proof (store32_inb _ _ _ _ H) as [H1 H2].
  pose proof (store32_msize _ _ _ _ H) as Hs.
  unfold load32. assert (E : inb m' a 4 = true) by (apply inb_true; lia).
  rewrite E. rewrite !(store32_bytes _ _ _ _ _ H) by lia.
  rewrite Z.eqb_refl.
  destruct (Z.eqb_spec (a + 1) a); [lia|]. rewrite Z.eqb_refl.
  destruct (Z.eqb_spec (a + 2) a); [lia|].
  destruct (Z.eqb_spec (a + 2) (a + 1)); [lia|]. rewrite Z.eqb_refl.
  destruct (Z.eqb_spec (a + 3) a); [lia|].
  destruct (Z.eqb_spec (a + 3) (a + 1)); [lia|].
  destruct (Z.eqb_spec (a + 3) (a + 2)); [lia|]. rewrite Z.eqb_refl.
  unfold u32. f_equal. apply word_recompose.
Qed.

(** A word read depends only on its four bytes. *)
Lemma load32_frame (m m' : Mem) (a : Z) :
  msize m' = msize m ->
  (forall b, a <= b < a + 4 -> byte_at m' b = byte_at m b) ->
  load32 m' a = load32 m a.
Proof.
  intros Hs Hb. unfold load32, inb. rewrite Hs.
  destruct ((0 <=? a) && (a + 4 <=? msize m)); [|reflexivity].
  rewrite !Hb by lia. reflexivity.
Qed.

Lemma load32_store32_other (m m' : Mem) (a v b : Z) :
  store32 m a v = Some m' -> b + 4 <= a \/ a + 4 <= b ->
  load32 m' b = load32 m b.
Proof.
  intros H Hd.
  destruct (Z_lt_le_dec b 0) as [Hneg|Hpos].
  - unfold load32, inb. destruct (Z.leb_spec 0 b); [lia|]. reflexivity.
  - apply load32_frame; [eapply store32_msize; eauto|].
    intros c Hc. eapply store32_other; eauto; lia.
Qed.

End Memory.

(** * The size word: size bits and the [IsPrevUsed] bit *)

Section SizeWord.

Lemma land_sizeMask (w : Z) : Z.land w sizeMask = 2 * (u32 w / 2).
Proof.
  unfold u32. change sizeMask with (2 * Z.ones 31).
  change 4294967296 with (2 ^ 32).
  apply Z.bits_inj'; intros n Hn.
  rewrite Z.land_spec.
  destruct (Z.eq_dec n 0) as [->|Hn0].
  - rewrite !Z.testbit_even_0. apply andb_false_r.
  - replace n with (Z.succ (n - 1)) by lia.
    rewrite !Z.testbit_even_succ by lia.
    rewrite <- Z.div2_div, Z.div2_spec, Z.shiftr_spec by lia.
    destruct (Z_lt_le_dec (n - 1) 31) as [Hlo|Hhi].
    + rewrite Z.ones_spec_low by lia. rewrite andb_true_r.
      rewrite Z.mod_pow2_bits_low by lia. f_equal; lia.
    + rewrite Z.ones_spec_high by lia. rewrite andb_false_r.
      rewrite Z.mod_pow2_bits_high by lia. reflexivity.
Qed.

Lemma land_one (w : Z) : Z.land w 1 = w mod 2.
Proof. change 1 with (Z.ones 1) at 1. rewrite Z.land_ones by lia. reflexivity. Qed.

Lemma lor_even_one (x : Z) : Z.lor (2 * x) 1 = 2 * x + 1.
Proof.
  pose proof (Z.add_lor_land (2 * x) 1) as H.
  rewrite land_one in H.
  replace ((2 * x) mod 2) with 0 in H; [lia|].
  symmetry. rewrite Z.mul_comm. apply Z.mod_mul; lia.
Qed.

Lemma wsize_range (w : Z) : 0 <= wsize w < 4294967296 /\ wsize w mod 2 = 0.
Proof.
  unfold wsize; rewrite land_sizeMask. unfold u32.
  pose proof (Z.mod_pos_bound w 4294967296 ltac:(lia)).
  pose proof (Z.div_mod (w mod 4294967296) 2 ltac:(lia)).
  pose proof (Z.mod_pos_bound (w mod 4294967296) 2 ltac:(lia)).
  split; [lia|]. rewrite Z.mul_comm. apply Z.mod_mul; lia.
Qed.

(** A header word made of an even size and a flag. *)
Lemma wsize_make (s : Z) (b : bool) :
  0 <= s < 4294967296 -> s mod 2 = 0 ->
  wsize (s + Z.b2z b) = s /\ wflag (s + Z.b2z b) = b.
Proof.
  intros Hr He. unfold wsize, wflag. rewrite land_sizeMask, land_one. unfold u32.
  pose proof (Z.div_mod s 2 ltac:(lia)) as Hd. rewrite He in Hd.
  assert (Hb : 0 <= Z.b2z b < 2) by (destruct b; cbn [Z.b2z]; lia).
  rewrite (Z.mod_small (s + Z.b2z b)) by (destruct b; cbn [Z.b2z]; lia).
  split.
  - assert ((s + Z.b2z b) / 2 = s / 2); [|lia].
    symmetry; apply Z.div_unique with (r := Z.b2z b); lia.
  - assert ((s + Z.b2z b) mod 2 = Z.b2z b).
    { symmetry; apply Z.mod_unique with (q := s / 2); lia. }
    rewrite H. destruct b; reflexivity.
Qed.

Lemma wsize_even_id (s : Z) :
  0 <= s < 4294967296 -> s mod 2 = 0 -> wsize s = s.
Proof.
  intros Hr He. pose proof (wsize_make s false Hr He) as [H _].
  simpl in H. now rewrite Z.add_0_r in H.
Qed.

(** The word [SetPrevUsed] writes. *)
Lemma setflag_word (w : Z) (b : bool) :
  (if b then Z.lor (wsize w) 1 else wsize w) = wsize w + Z.b2z b.
Proof.
  destruct b; simpl; [|lia].
  unfold wsize. rewrite land_sizeMask. apply lor_even_one.
Qed.

End SizeWord.

(** * Chunk accessors *)

Section Accessors.

Lemma GetSize_load (m : Mem) (c s : Z) :
  GetSize m c = Some s <-> exists w, load32 m c = Some w /\ wsize w = s.
Proof.
  unfold GetSize. destruct (load32 m c) as [w|]; simpl; split.
  - intros [= <-]. eauto.
  - intros (w' & [= <-] & <-). reflexivity.
  - discriminate.
  - intros (w' & [=] & _).
Qed.

Lemma IsPrevUsed_load (m : Mem) (c : Z) (b : bool) :
  IsPrevUsed m c = Some b <-> exists w, load32 m c = Some w /\ wflag w = b.
Proof.
  unfold IsPrevUsed. destruct (load32 m c) as [w|]; simpl; split.
  - intros [= <-]. eauto.
  - intros (w' & [= <-] & <-). reflexivity.
  - discriminate.
  - intros (w' & [=] & _).
Qed.

Lemma GetSize_frame (m m' : Mem) (c : Z) :
  msize m' = msize m ->
  (forall b, c <= b < c + 4 -> byte_at m' b = byte_at m b) ->
  GetSize m' c = GetSize m c.
Proof. intros; unfold GetSize; now rewrite (load32_frame m m' c). Qed.

Lemma IsPrevUsed_frame (m m' : Mem) (c : Z) :
  msize m' = msize m ->
  (forall b, c <= b < c + 4 -> byte_at m' b = byte_at m b) ->
  IsPrevUsed m' c = IsPrevUsed m c.
Proof. intros; unfold IsPrevUsed; now rewrite (load32_frame m m' c). Qed.

(** [SetPrevUsed] keeps the size, sets the flag and touches only the word. *)
Lemma SetPrevUsed_spec (m : Mem) (c : Z) (b : bool) :
  0 <= c -> c + 4 <= msize m ->
  exists m', SetPrevUsed m c b = Some m'
    /\ msize m' = msize m
    /\ GetSize m' c = GetSize m c
    /\ IsPrevUsed m' c = Some b
    /\ (forall x, 0 <= x -> x < c \/ c + 4 <= x -> byte_at m' x = byte_at m x).
Proof.
  intros H1 H2. unfold SetPrevUsed.
  destruct (load32_some m c H1 H2) as [w Hw]. rewrite Hw; simpl.
  fold (wsize w). rewrite setflag_word.
  destruct (store32_some m c (wsize w + Z.b2z b) H1 H2) as [m' Hm'].
  exists m'. split; [exact Hm'|].
  pose proof (load32_store32_same _ _ _ _ Hm') as Hl.
  pose proof (wsize_range w) as [Hr He].
  pose proof (wsize_make (wsize w) b Hr He) as [Hs Hf].
  assert (Hu : u32 (wsize w + Z.b2z b) = wsize w + Z.b2z b).
  { unfold u32. apply Z.mod_small.
    pose proof (Z.div_mod (wsize w) 2 ltac:(lia)). destruct b; cbn [Z.b2z]; lia. }
  rewrite Hu in Hl.
  repeat split.
  - eapply store32_msize; eauto.
  - unfold GetSize. rewrite Hl, Hw. simpl. fold (wsize (wsize w + Z.b2z b)).
    fold (wsize w). now rewrite Hs.
  - unfold IsPrevUsed. rewrite Hl. simpl. fold (wflag (wsize w + Z.b2z b)).
    now rewrite Hf.
  - intros x Hx Hd. eapply store32_other; eauto.
Qed.

(** [SetSize] with an even size keeps the flag. *)
Lemma SetSize_spec (m : Mem) (c s : Z) :
  0 <= c -> c + 4 <= msize m -> 0 <= s < 4294967296 -> s mod 2 = 0 ->
  exists m', SetSize m c s = Some m'
    /\ msize m' = msize m
    /\ GetSize m' c = Some s
    /\ IsPrevUsed m' c = IsPrevUsed m c
    /\ (forall x, 0 <= x -> x < c \/ c + 4 <= x -> byte_at m' x = byte_at m x).
Proof.
  intros H1 H2 Hr He. unfold SetSize.
  destruct (load32_some m c H1 H2) as [w Hw].
  unfold IsPrevUsed at 1. rewrite Hw; simpl. fold (wflag w).
  destruct (store32_some m c s H1 H2) as [m1 Hm1]. rewrite Hm1; simpl.
  pose proof (store32_msize _ _ _ _ Hm1) as Hs1.
  destruct (SetPrevUsed_spec m1 c (wflag w)) as (m' & Hm' & Hs' & Hg & Hf & Hfr); try lia.
  exists m'. split; [exact Hm'|]. repeat split.
  - lia.
  - rewrite Hg. unfold GetSize. rewrite (load32_store32_same _ _ _ _ Hm1). simpl.
    fold (wsize (u32 s)). unfold u32. rewrite Z.mod_small by lia.
    now rewrite wsize_even_id.
  - rewrite Hf. unfold IsPrevUsed. rewrite Hw. reflexivity.
  - intros x Hx Hd. rewrite Hfr by assumption. eapply store32_other; eauto.
Qed.

End Accessors.


(** * The layout of the chunks *)

Section Layout.

Lemma contig_app (l1 l2 : list chunk) (lo hi : Z) :
  contig lo (l1 ++ l2) hi <-> exists mid, contig lo l1 mid /\ contig mid l2 hi.
Proof.
  revert lo; induction l1 as [|c l1 IH]; intros lo; simpl.
  - split; [intros H; exists lo; auto | intros (mid & -> & H); exact H].
  - rewrite IH. split.
    + intros (Ho & mid & H1 & H2). exists mid; auto.
    + intros (mid & (Ho & H1) & H2). split; [exact Ho | exists mid; auto].
Qed.

Lemma contig_sum (cl : list chunk) (lo hi : Z) :
  contig lo cl hi -> hi = lo + sum_sizes cl.
Proof.
  revert lo; induction cl as [|c cl IH]; intros lo; simpl.
  - lia.
  - intros [Ho H]. apply IH in H. lia.
Qed.

Lemma sum_sizes_app (l1 l2 : list chunk) :
  sum_sizes (l1 ++ l2) = sum_sizes l1 + sum_sizes l2.
Proof. induction l1 as [|c l1 IH]; simpl; lia. Qed.

Lemma sum_sizes_nonneg (cl : list chunk) :
  Forall size_ok cl -> 0 <= sum_sizes cl.
Proof.
  induction 1 as [|c cl [Hc _] _ IH]; simpl; lia.
Qed.

Lemma sum_sizes_count (cl : list chunk) :
  Forall size_ok cl -> 16 * Z.of_nat (length cl) <= sum_sizes cl.
Proof.
  induction 1 as [|c cl [Hc _] _ IH]; simpl length; simpl sum_sizes; lia.
Qed.

Lemma contig_le (cl : list chunk) (lo hi : Z) :
  contig lo cl hi -> Forall size_ok cl -> lo <= hi.
Proof.
  intros H Hs. apply contig_sum in H. pose proof (sum_sizes_nonneg cl Hs). lia.
Qed.

Lemma contig_bounds (cl : list chunk) (lo hi : Z) (c : chunk) :
  contig lo cl hi -> Forall size_ok cl -> In c cl ->
  lo <= off c /\ off c + csz c <= hi.
Proof.
  revert lo; induction cl as [|d cl IH]; intros lo H Hs Hin; [destruct Hin|].
  simpl in H. destruct H as [Ho H]. inversion Hs as [|? ? [Hd _] Hs']; subst.
  destruct Hin as [->|Hin].
  - pose proof (contig_le _ _ _ H Hs'). lia.
  - destruct (IH _ H Hs' Hin). lia.
Qed.

(** Two chunks of the layout are the same or do not overlap. *)
Lemma contig_disjoint (cl : list chunk) (lo hi : Z) (c1 c2 : chunk) :
  contig lo cl hi -> Forall size_ok cl -> In c1 cl -> In c2 cl ->
  c1 = c2 \/ off c1 + csz c1 <= off c2 \/ off c2 + csz c2 <= off c1.
Proof.
  revert lo; induction cl as [|d cl IH]; intros lo H Hs H1 H2; [destruct H1|].
  simpl in H. destruct H as [Ho H]. inversion Hs as [|? ? [Hd _] Hs']; subst.
  destruct H1 as [->|H1], H2 as [->|H2].
  - now left.
  - right; left. destruct (contig_bounds _ _ _ _ H Hs' H2). lia.
  - right; right. destruct (contig_bounds _ _ _ _ H Hs' H1). lia.
  - eapply IH; eauto.
Qed.

Lemma contig_off_inj (cl : list chunk) (lo hi : Z) (c1 c2 : chunk) :
  contig lo cl hi -> Forall size_ok cl -> In c1 cl -> In c2 cl ->
  off c1 = off c2 -> c1 = c2.
Proof.
  intros H Hs H1 H2 He.
  destruct (contig_disjoint _ _ _ _ _ H Hs H1 H2) as [?|[?|?]]; auto.
  - rewrite Forall_forall in Hs. destruct (Hs _ H1). lia.
  - rewrite Forall_forall in Hs. destruct (Hs _ H2). lia.
Qed.

(** The chunk after [c], when [c] is not the last. *)
Lemma contig_next (cl : list chunk) (lo hi : Z) (c : chunk) :
  contig lo cl hi -> Forall size_ok cl -> In c cl -> off c + csz c < hi ->
  exists c', In c' cl /\ off c' = off c + csz c.
Proof.
  revert lo; induction cl as [|d cl IH]; intros lo H Hs Hin Hlt; [destruct Hin|].
  simpl in H. destruct H as [Ho H]. inversion Hs as [|? ? Hd Hs']; subst.
  destruct Hin as [->|Hin].
  - destruct cl as [|e cl]; simpl in H.
    + lia.
    + exists e. split; [right; left; reflexivity | lia].
  - destruct (IH _ H Hs' Hin Hlt) as (c' & Hc' & He). exists c'. split; [now right|exact He].
Qed.

(** The chunk before [c], when [c] is not the first. *)
Lemma contig_prev (cl : list chunk) (lo hi : Z) (c : chunk) :
  contig lo cl hi -> Forall size_ok cl -> In c cl -> lo < off c ->
  exists c', In c' cl /\ off c' + csz c' = off c.
Proof.
  revert lo; induction cl as [|d cl IH]; intros lo H Hs Hin Hlt; [destruct Hin|].
  simpl in H. destruct H as [Ho H]. inversion Hs as [|? ? [Hd _] Hs']; subst.
  destruct Hin as [->|Hin]; [lia|].
  destruct cl as [|e cl]; [destruct Hin|].
  destruct (Z.eq_dec (off c) (off e)) as [He|Hne].
  - exists d. split; [now left|]. simpl in H. lia.
  - assert (Hlt' : off d + csz d < off c).
    { destruct (contig_bounds _ _ _ _ H Hs' Hin). simpl in H. lia. }
    destruct (IH _ H Hs' Hin Hlt') as (c' & Hc' & He'). exists c'. split; [now right|exact He'].
Qed.

Lemma contig_first (cl : list chunk) (lo hi : Z) :
  contig lo cl hi -> cl <> [] -> exists c, In c cl /\ off c = lo.
Proof.
  destruct cl as [|c cl]; [congruence|]. simpl. intros [Ho _] _.
  exists c; split; [now left|exact Ho].
Qed.

(** Splitting the layout at a chunk. *)
Lemma contig_split (cl : list chunk) (lo hi : Z) (c : chunk) :
  contig lo cl hi -> In c cl ->
  exists l1 l2, cl = l1 ++ c :: l2 /\ contig lo l1 (off c)
    /\ contig (off c + csz c) l2 hi.
Proof.
  intros H Hin. destruct (in_split _ _ Hin) as (l1 & l2 & ->).
  exists l1, l2. split; [reflexivity|].
  apply contig_app in H. destruct H as (mid & H1 & H2).
  simpl in H2. destruct H2 as [Ho H2]. subst mid. auto.
Qed.

Lemma Forall_size_app (l1 l2 : list chunk) :
  Forall size_ok (l1 ++ l2) <-> Forall size_ok l1 /\ Forall size_ok l2.
Proof. apply Forall_app. Qed.

End Layout.

(** * Walking with [NextChunk] *)

Section Walking.

Lemma NextChunk_spec (a : Allocator) (c s : Z) :
  GetSize (memory a) c = Some s ->
  NextChunk a (Some c)
  = Some (if c + s >=? msize (memory a) then None else Some (c + s)).
Proof.
  intros H; unfold NextChunk. rewrite H; simpl.
  destruct (c + s >=? msize (memory a)); reflexivity.
Qed.

Lemma geb_ltb (x y : Z) : (x >=? y) = negb (x <? y).
Proof. rewrite Z.geb_leb. destruct (Z.leb_spec y x), (Z.ltb_spec x y); simpl; lia || reflexivity. Qed.

(** In a pool with good tags, [IsSelfUsed] reads the status of a chunk. *)
Lemma IsSelfUsed_tags (a : Allocator) (c : chunk) :
  tags a c -> IsSelfUsed a (Some (off c)) = Some (used c).
Proof.
  intros (Hs & Hf & _). unfold IsSelfUsed. rewrite (NextChunk_spec _ _ _ Hs). simpl.
  rewrite geb_ltb. destruct (off c + csz c <? msize (memory a)); simpl.
  - exact Hf.
  - now rewrite Hf.
Qed.

End Walking.

(** * WriteHeaderAndFooter *)

Section WriteHeader.

Lemma stats_eq_refl (a : Allocator) : stats_eq a a.
Proof. unfold stats_eq; tauto. Qed.

Lemma stats_eq_trans (a b c : Allocator) :
  stats_eq a b -> stats_eq b c -> stats_eq a c.
Proof. unfold stats_eq; intuition congruence. Qed.

Lemma GetSize_store_other (m m' : Mem) (a v c : Z) :
  store32 m a v = Some m' -> c + 4 <= a \/ a + 4 <= c ->
  GetSize m' c = GetSize m c.
Proof. intros H Hd; unfold GetSize. now rewrite (load32_store32_other _ _ _ _ _ H Hd). Qed.

Lemma IsPrevUsed_store_other (m m' : Mem) (a v c : Z) :
  store32 m a v = Some m' -> c + 4 <= a \/ a + 4 <= c ->
  IsPrevUsed m' c = IsPrevUsed m c.
Proof. intros H Hd; unfold IsPrevUsed. now rewrite (load32_store32_other _ _ _ _ _ H Hd). Qed.

Lemma WriteHeaderAndFooter_spec (a : Allocator) (u s : Z) (isUsed : bool) :
  0 <= u -> 8 <= s < 4294967296 -> s mod 2 = 0 ->
  u + s <= msize (memory a) ->
  (u + s < msize (memory a) -> u + s + 4 <= msize (memory a)) ->
  exists a', WriteHeaderAndFooter a u s isUsed = Some a'
    /\ msize (memory a') = msize (memory a)
    /\ chunkBins a' = chunkBins a
    /\ stats_eq a a'
    /\ GetSize (memory a') u = Some s
    /\ IsPrevUsed (memory a') u = IsPrevUsed (memory a) u
    /\ (if u + s <? msize (memory a)
        then GetSize (memory a') (u + s) = GetSize (memory a) (u + s)
             /\ IsPrevUsed (memory a') (u + s) = Some isUsed
             /\ finalPrevIsUsed a' = finalPrevIsUsed a
        else finalPrevIsUsed a' = isUsed)
    /\ (isUsed = false -> load32 (memory a') (u + s - 4) = Some s)
    /\ (forall x, 0 <= x -> x < u \/ u + 4 <= x -> x < u + s \/ u + s + 4 <= x ->
          isUsed = true \/ x < u + s - 4 \/ u + s <= x ->
          byte_at (memory a') x = byte_at (memory a) x).
Proof.
  intros Hu Hs He Hin Hnx. unfold WriteHeaderAndFooter.
  assert (Ha : assert (s >=? sizeofSize) = Some tt).
  { unfold assert, sizeofSize. rewrite geb_ltb.
    destruct (Z.ltb_spec s 4); [lia|reflexivity]. }
  rewrite Ha; simpl.
  destruct (SetSize_spec (memory a) u s) as (m1 & Hm1 & Hz1 & Hg1 & Hf1 & Hfr1); try lia.
  rewrite Hm1; simpl.
  rewrite Hg1; simpl. rewrite geb_ltb, Hz1.
  destruct (Z.ltb_spec (u + s) (msize (memory a))) as [Hlt|Hge]; simpl.
  - (* there is a next chunk *)
    destruct (SetPrevUsed_spec m1 (u + s) isUsed) as (m2 & Hm2 & Hz2 & Hg2 & Hf2 & Hfr2);
      try lia.
    rewrite Hm2; simpl.
    assert (Hgu2 : GetSize m2 u = Some s).
    { rewrite <- Hg1. apply GetSize_frame; [lia|]. intros b Hb. apply Hfr2; lia. }
    assert (Hfu2 : IsPrevUsed m2 u = IsPrevUsed (memory a) u).
    { rewrite <- Hf1. apply IsPrevUsed_frame; [lia|]. intros b Hb. apply Hfr2; lia. }
    assert (Hgn : GetSize m2 (u + s) = GetSize (memory a) (u + s)).
    { rewrite Hg2. apply GetSize_frame; [lia|]. intros b Hb. apply Hfr1; lia. }
    destruct isUsed.
    + exists (set_memory (set_memory a m1) m2). simpl.
      split; [reflexivity|]. split; [lia|]. split; [reflexivity|].
      split; [unfold stats_eq; simpl; tauto|].
      split; [exact Hgu2|]. split; [exact Hfu2|].
      split; [split; [exact Hgn|split; [exact Hf2|reflexivity]]|].
      split; [discriminate|].
      intros x Hx H1 H2 _. rewrite Hfr2 by lia. apply Hfr1; lia.
    + simpl. rewrite Hgu2. simpl.
      destruct (store32_some m2 (u + s - sizeofSize) s) as (m3 & Hm3);
        unfold sizeofSize; try lia.
      unfold sizeofSize in Hm3. rewrite Hm3. simpl.
      pose proof (store32_msize _ _ _ _ Hm3) as Hz3.
      exists (set_memory (set_memory (set_memory a m1) m2) m3). simpl.
      split; [reflexivity|]. split; [lia|]. split; [reflexivity|].
      split; [unfold stats_eq; simpl; tauto|].
      split; [rewrite (GetSize_store_other _ _ _ _ _ Hm3) by lia; exact Hgu2|].
      split; [rewrite (IsPrevUsed_store_other _ _ _ _ _ Hm3) by lia; exact Hfu2|].
      split; [split; [|split; [|reflexivity]]|].
      * rewrite (GetSize_store_other _ _ _ _ _ Hm3) by lia. exact Hgn.
      * rewrite (IsPrevUsed_store_other _ _ _ _ _ Hm3) by lia. exact Hf2.
      * split.
        -- intros _. rewrite (load32_store32_same _ _ _ _ Hm3). unfold u32.
           now rewrite Z.mod_small by lia.
        -- intros x Hx H1 H2 [H3|H3]; [discriminate|].
           rewrite (store32_other _ _ _ _ _ Hm3) by lia.
           rewrite Hfr2 by lia. apply Hfr1; lia.
  - (* the chunk is the last one *)
    destruct isUsed.
    + exists (set_final (set_memory a m1) true). simpl.
      split; [reflexivity|]. split; [lia|]. split; [reflexivity|].
      split; [unfold stats_eq; simpl; tauto|].
      split; [exact Hg1|]. split; [exact Hf1|].
      split; [reflexivity|].
      split; [discriminate|].
      intros x Hx H1 H2 _. apply Hfr1; lia.
    + simpl. rewrite Hg1. simpl.
      destruct (store32_some m1 (u + s - sizeofSize) s) as (m3 & Hm3);
        unfold sizeofSize; try lia.
      unfold sizeofSize in Hm3. rewrite Hm3. simpl.
      pose proof (store32_msize _ _ _ _ Hm3) as Hz3.
      exists (set_memory (set_final (set_memory a m1) false) m3). simpl.
      split; [reflexivity|]. split; [lia|]. split; [reflexivity|].
      split; [unfold stats_eq; simpl; tauto|].
      split; [rewrite (GetSize_store_other _ _ _ _ _ Hm3) by lia; exact Hg1|].
      split; [rewrite (IsPrevUsed_store_other _ _ _ _ _ Hm3) by lia; exact Hf1|].
      split; [reflexivity|].
      split.
      * intros _. rewrite (load32_store32_same _ _ _ _ Hm3). unfold u32.
        now rewrite Z.mod_small by lia.
      * intros x Hx H1 H2 [H3|H3]; [discriminate|].
        rewrite (store32_other _ _ _ _ _ Hm3) by lia. apply Hfr1; lia.
Qed.

End WriteHeader.


(** * Circular doubly linked bin lists *)

Section Paths.

Lemma path_cons2 (m : Mem) (x y : Z) (t : list Z) :
  path m (x :: y :: t)
  <-> nextOffset m x = Some y /\ prevOffset m y = Some x /\ path m (y :: t).
Proof. simpl. tauto. Qed.

Lemma path_single (m : Mem) (x : Z) : path m [x].
Proof. exact I. Qed.

Lemma path_app (m : Mem) (l1 l2 : list Z) (x : Z) :
  path m (l1 ++ x :: l2) <-> path m (l1 ++ [x]) /\ path m (x :: l2).
Proof.
  induction l1 as [|a l1 IH].
  - simpl. tauto.
  - destruct l1 as [|b l1].
    + change (([a] ++ x :: l2)) with (a :: x :: l2).
      change ([a] ++ [x]) with [a; x].
      rewrite !path_cons2. simpl path at 2. tauto.
    + change ((a :: b :: l1) ++ x :: l2) with (a :: b :: (l1 ++ x :: l2)).
      change ((a :: b :: l1) ++ [x]) with (a :: b :: (l1 ++ [x])).
      rewrite !path_cons2.
      change (b :: l1 ++ x :: l2) with ((b :: l1) ++ x :: l2).
      change (b :: l1 ++ [x]) with ((b :: l1) ++ [x]).
      rewrite IH. tauto.
Qed.

(** A path survives when the forward links of all but its last node and
    the backward links of all but its first node are kept. *)
Lemma path_frame (m m' : Mem) (l : list Z) :
  path m l ->
  (forall x, In x (removelast l) -> nextOffset m' x = nextOffset m x) ->
  (forall y, In y (tl l) -> prevOffset m' y = prevOffset m y) ->
  path m' l.
Proof.
  induction l as [|a l IH]; [trivial|].
  destruct l as [|b l]; [trivial|].
  intros H Hn Hp. rewrite path_cons2 in *. destruct H as (H1 & H2 & H3).
  split; [|split].
  - rewrite Hn; [exact H1|]. now left.
  - rewrite Hp; [exact H2|]. now left.
  - apply IH; [exact H3| |].
    + intros x Hx. apply Hn. right. exact Hx.
    + intros y Hy. apply Hp. right. exact Hy.
Qed.

Lemma cyc_frame (m m' : Mem) (l : list Z) :
  cyc m l ->
  (forall x, In x l -> nextOffset m' x = nextOffset m x
                       /\ prevOffset m' x = prevOffset m x) ->
  cyc m' l.
Proof.
  destruct l as [|h l]; [trivial|]. unfold cyc. intros H Hf.
  eapply path_frame; [exact H| |].
  - intros x Hx. apply Hf. rewrite removelast_last in Hx. exact Hx.
  - intros y Hy. apply Hf. simpl in Hy. apply in_app_or in Hy.
    destruct Hy as [Hy|[<-|[]]]; [now right|now left].
Qed.

(** A circle can be read from any of its nodes. *)
Lemma cyc_rot (m : Mem) (l1 l2 : list Z) :
  cyc m (l1 ++ l2) -> cyc m (l2 ++ l1).
Proof.
  destruct l1 as [|a l1]; [now rewrite app_nil_r|].
  destruct l2 as [|b l2]; [now rewrite app_nil_r|].
  intros H.
  assert (E1 : (a :: l1 ++ b :: l2) ++ [a] = (a :: l1) ++ b :: (l2 ++ [a]))
    by (simpl; rewrite <- app_assoc; reflexivity).
  assert (E2 : (b :: l2 ++ a :: l1) ++ [b] = (b :: l2) ++ a :: (l1 ++ [b]))
    by (simpl; rewrite <- app_assoc; reflexivity).
  change (path m ((a :: l1 ++ b :: l2) ++ [a])) in H.
  change (path m ((b :: l2 ++ a :: l1) ++ [b])).
  rewrite E1 in H. rewrite E2.
  apply path_app in H. apply path_app. simpl app in *. tauto.
Qed.

End Paths.

(** * Link fields of separated nodes *)

Section Nodes.

Lemma nodes_ok_incl (P : Z) (L L' : list Z) :
  nodes_ok P L -> NoDup L' -> incl L' L -> nodes_ok P L'.
Proof.
  intros (Hn & Hb & Hs) Hn' Hi. split; [exact Hn'|]. split.
  - intros x Hx. apply Hb, Hi, Hx.
  - intros x y Hx Hy. apply Hs; apply Hi; assumption.
Qed.

Lemma next_store_same (m m' : Mem) (x v : Z) :
  set_nextOffset m x v = Some m' -> 0 <= v < 4294967296 ->
  nextOffset m' x = Some v.
Proof.
  unfold set_nextOffset, nextOffset. intros H Hv.
  rewrite (load32_store32_same _ _ _ _ H). unfold u32. now rewrite Z.mod_small.
Qed.

Lemma prev_store_same (m m' : Mem) (x v : Z) :
  set_prevOffset m x v = Some m' -> 0 <= v < 4294967296 ->
  prevOffset m' x = Some v.
Proof.
  unfold set_prevOffset, prevOffset. intros H Hv.
  rewrite (load32_store32_same _ _ _ _ H). unfold u32. now rewrite Z.mod_small.
Qed.

Lemma next_store_next (m m' : Mem) (x v y : Z) :
  set_nextOffset m x v = Some m' -> y + 4 <= x \/ x + 4 <= y ->
  nextOffset m' y = nextOffset m y.
Proof.
  unfold set_nextOffset, nextOffset. intros H Hd.
  apply (load32_store32_other _ _ _ _ _ H). lia.
Qed.

Lemma next_store_prev (m m' : Mem) (x v y : Z) :
  set_nextOffset m x v = Some m' -> y + 8 <= x \/ x <= y ->
  prevOffset m' y = prevOffset m y.
Proof.
  unfold set_nextOffset, prevOffset. intros H Hd.
  apply (load32_store32_other _ _ _ _ _ H). lia.
Qed.

Lemma prev_store_prev (m m' : Mem) (x v y : Z) :
  set_prevOffset m x v = Some m' -> y + 4 <= x \/ x + 4 <= y ->
  prevOffset m' y = prevOffset m y.
Proof.
  unfold set_prevOffset, prevOffset. intros H Hd.
  apply (load32_store32_other _ _ _ _ _ H). lia.
Qed.

Lemma prev_store_next (m m' : Mem) (x v y : Z) :
  set_prevOffset m x v = Some m' -> y <= x \/ x + 8 <= y ->
  nextOffset m' y = nextOffset m y.
Proof.
  unfold set_prevOffset, nextOffset. intros H Hd.
  apply (load32_store32_other _ _ _ _ _ H). lia.
Qed.

(** Unlinking the node [o] of the circle [o :: rest]: the two writes of
    [RemoveFromFreeList] leave the circle [rest]. *)
Lemma unlink_spec (m : Mem) (o : Z) (rest : list Z) :
  msize m < 4294967296 ->
  nodes_ok (msize m) (o :: rest) ->
  cyc m (o :: rest) ->
  exists n p m1 m2,
    nextOffset m o = Some n /\ prevOffset m o = Some p
    /\ set_prevOffset m n p = Some m1
    /\ prevOffset m1 o = Some p /\ nextOffset m1 o = Some n
    /\ set_nextOffset m1 p n = Some m2
    /\ n = hd o rest
    /\ msize m2 = msize m
    /\ cyc m2 rest
    /\ (forall x, 0 <= x ->
          (forall y, In y (o :: rest) -> x < y + 4 \/ y + 12 <= x) ->
          byte_at m2 x = byte_at m x).
Proof.
  intros HP (Hnd & Hb & Hsep) Hc.
  assert (Hbo : 0 <= o /\ o + 12 <= msize m) by (apply Hb; now left).
  destruct rest as [|n r].
  - (* the circle has one node *)
    unfold cyc in Hc. simpl app in Hc. rewrite path_cons2 in Hc.
    destruct Hc as (Hn & Hp & _).
    destruct (store32_some m (o + 8) o) as [m1 Hm1]; try lia.
    assert (Hz1 : msize m1 = msize m) by (eapply store32_msize; eauto).
    destruct (store32_some m1 (o + 4) o) as [m2 Hm2]; try lia.
    exists o, o, m1, m2. repeat split.
    + exact Hn.
    + exact Hp.
    + exact Hm1.
    + apply (prev_store_same _ _ _ _ Hm1). lia.
    + rewrite (prev_store_next _ _ _ _ _ Hm1) by lia. exact Hn.
    + exact Hm2.
    + rewrite (store32_msize _ _ _ _ Hm2). exact Hz1.
    + intros x Hx Hy. specialize (Hy o (or_introl eq_refl)).
      rewrite (store32_other _ _ _ _ _ Hm2) by lia.
      apply (store32_other _ _ _ _ _ Hm1); lia.
  - (* at least two nodes *)
    destruct (exists_last (l := n :: r)) as (l1 & p & El); [discriminate|].
    assert (Hin_n : In n (o :: n :: r)) by (right; now left).
    assert (Hin_p : In p (o :: n :: r)).
    { right. rewrite El. apply in_or_app. right. now left. }
    assert (Hbn := Hb _ Hin_n). assert (Hbp := Hb _ Hin_p).
    unfold cyc in Hc.
    assert (E : (o :: n :: r) ++ [o] = (o :: l1) ++ p :: [o]).
    { rewrite El. simpl. rewrite <- app_assoc. reflexivity. }
    rewrite E in Hc. apply path_app in Hc. destruct Hc as (Hc1 & Hc2).
    simpl app in Hc1. rewrite <- El in Hc1.
    rewrite path_cons2 in Hc1, Hc2.
    destruct Hc1 as (Hon & Hno & Hpath). destruct Hc2 as (Hpo & Hop & _).
    inversion Hnd as [|? ? Hnotin Hnd']; subst.
    assert (Hno_p : o <> p) by (intros ->; apply Hnotin; rewrite El;
                                  apply in_or_app; right; now left).
    assert (Hno_n : o <> n) by (intros ->; apply Hnotin; now left).
    destruct (store32_some m (n + 8) p) as [m1 Hm1]; try lia.
    assert (Hz1 : msize m1 = msize m) by (eapply store32_msize; eauto).
    destruct (store32_some m1 (p + 4) n) as [m2 Hm2]; try lia.
    assert (Hz2 : msize m2 = msize m)
      by (rewrite (store32_msize _ _ _ _ Hm2); exact Hz1).
    assert (Sop : o + 12 <= p \/ p + 12 <= o).
    { destruct (Hsep o p (or_introl eq_refl) Hin_p) as [?|?]; [congruence|assumption]. }
    assert (Son : o + 12 <= n \/ n + 12 <= o).
    { destruct (Hsep o n (or_introl eq_refl) Hin_n) as [?|?]; [congruence|assumption]. }
    exists n, p, m1, m2. repeat split.
    + exact Hon.
    + exact Hop.
    + exact Hm1.
    + rewrite (prev_store_prev _ _ _ _ _ Hm1) by lia. exact Hop.
    + rewrite (prev_store_next _ _ _ _ _ Hm1) by lia. exact Hon.
    + exact Hm2.
    + exact Hz2.
    + (* the remaining circle *)
      unfold cyc.
      assert (E' : (n :: r) ++ [n] = l1 ++ p :: [n])
        by (rewrite El, <- app_assoc; reflexivity).
      rewrite E'. apply path_app. split.
      * rewrite <- El. eapply path_frame; [exact Hpath| |].
        -- intros x Hx. rewrite El, removelast_last in Hx.
           assert (Hxin : In x (o :: n :: r))
             by (right; rewrite El; apply in_or_app; now left).
           assert (Hxp : x <> p).
           { intros ->. rewrite El in Hnd'.
             apply NoDup_remove_2 in Hnd'. apply Hnd'. now rewrite app_nil_r. }
           pose proof (Hsep x p Hxin Hin_p) as S1.
           pose proof (Hsep x n Hxin Hin_n) as S2.
           rewrite (next_store_next _ _ _ _ _ Hm2) by lia.
           apply (prev_store_next _ _ _ _ _ Hm1). lia.
        -- intros y Hy. simpl in Hy.
           assert (Hyin : In y (o :: n :: r)) by (right; now right).
           assert (Hyn : y <> n).
           { intros ->. inversion Hnd'; contradiction. }
           pose proof (Hsep y p Hyin Hin_p) as S1.
           pose proof (Hsep y n Hyin Hin_n) as S2.
           rewrite (next_store_prev _ _ _ _ _ Hm2) by lia.
           apply (prev_store_prev _ _ _ _ _ Hm1). lia.
      * rewrite path_cons2. split; [|split; [|exact I]].
        -- apply (next_store_same _ _ _ _ Hm2). lia.
        -- pose proof (Hsep n p Hin_n Hin_p) as S1.
           rewrite (next_store_prev _ _ _ _ _ Hm2) by lia.
           apply (prev_store_same _ _ _ _ Hm1). lia.
    + intros x Hx Hy.
      pose proof (Hy n Hin_n). pose proof (Hy p Hin_p).
      rewrite (store32_other _ _ _ _ _ Hm2) by lia.
      apply (store32_other _ _ _ _ _ Hm1); lia.
Qed.

End Nodes.

Section Linking.

(** Linking the node [o] after the head [h] of the circle [h :: t]: the
    four writes of [AddToFreeList]. *)
Lemma link_spec (m : Mem) (o h : Z) (t : list Z) :
  msize m < 4294967296 ->
  nodes_ok (msize m) (o :: h :: t) ->
  cyc m (h :: t) ->
  exists n m1 m2 m3 m4,
    nextOffset m h = Some n
    /\ set_prevOffset m o h = Some m1
    /\ nextOffset m1 h = Some n
    /\ set_nextOffset m1 o n = Some m2
    /\ set_prevOffset m2 n o = Some m3
    /\ set_nextOffset m3 h o = Some m4
    /\ msize m4 = msize m
    /\ cyc m4 (h :: o :: t)
    /\ (forall x, 0 <= x ->
          (forall y, In y (o :: h :: t) -> x < y + 4 \/ y + 12 <= x) ->
          byte_at m4 x = byte_at m x).
Proof.
  intros HP (Hnd & Hb & Hsep) Hc.
  assert (Hin_o : In o (o :: h :: t)) by now left.
  assert (Hin_h : In h (o :: h :: t)) by (right; now left).
  assert (Hbo := Hb _ Hin_o). assert (Hbh := Hb _ Hin_h).
  inversion Hnd as [|? ? Hnotin Hnd']; subst.
  assert (Hnd2 : NoDup (t ++ [h])).
  { eapply Permutation_NoDup; [apply Permutation_cons_append|exact Hnd']. }
  unfold cyc in Hc.
  destruct (t ++ [h]) as [|n r] eqn:ET.
  { destruct t; discriminate. }
  change ((h :: t) ++ [h]) with (h :: (t ++ [h])) in Hc. rewrite ET in Hc.
  rewrite path_cons2 in Hc. destruct Hc as (Hhn & Hnh & Hpath).
  assert (Hn_ht : In n (h :: t)).
  { assert (In n (t ++ [h])) by (rewrite ET; now left).
    apply in_app_or in H. destruct H as [H|[<-|[]]]; [now right|now left]. }
  assert (Hin_n : In n (o :: h :: t)) by now right.
  assert (Hbn := Hb _ Hin_n).
  assert (Hoh : o <> h) by (intros E; apply Hnotin; rewrite E; now left).
  assert (Hon : o <> n) by (intros E; apply Hnotin; rewrite E; exact Hn_ht).
  assert (Soh : o + 12 <= h \/ h + 12 <= o).
  { destruct (Hsep o h Hin_o Hin_h) as [?|?]; [contradiction|assumption]. }
  assert (Son : o + 12 <= n \/ n + 12 <= o).
  { destruct (Hsep o n Hin_o Hin_n) as [?|?]; [contradiction|assumption]. }
  pose proof (Hsep n h Hin_n Hin_h) as Snh.
  destruct (store32_some m (o + 8) h) as [m1 Hm1]; try lia.
  assert (Hz1 : msize m1 = msize m) by (eapply store32_msize; eauto).
  destruct (store32_some m1 (o + 4) n) as [m2 Hm2]; try lia.
  assert (Hz2 : msize m2 = msize m)
    by (rewrite (store32_msize _ _ _ _ Hm2); exact Hz1).
  destruct (store32_some m2 (n + 8) o) as [m3 Hm3]; try lia.
  assert (Hz3 : msize m3 = msize m)
    by (rewrite (store32_msize _ _ _ _ Hm3); exact Hz2).
  destruct (store32_some m3 (h + 4) o) as [m4 Hm4]; try lia.
  assert (Hz4 : msize m4 = msize m)
    by (rewrite (store32_msize _ _ _ _ Hm4); exact Hz3).
  exists n, m1, m2, m3, m4.
  split; [exact Hhn|]. split; [exact Hm1|].
  split; [rewrite (prev_store_next _ _ _ _ _ Hm1) by lia; exact Hhn|].
  split; [exact Hm2|]. split; [exact Hm3|]. split; [exact Hm4|].
  split; [exact Hz4|]. split.
  - unfold cyc. change ((h :: o :: t) ++ [h]) with (h :: o :: (t ++ [h])).
    rewrite ET. rewrite !path_cons2.
    split; [|split; [|split; [|split]]].
    + apply (next_store_same _ _ _ _ Hm4). lia.
    + rewrite (next_store_prev _ _ _ _ _ Hm4) by lia.
      rewrite (prev_store_prev _ _ _ _ _ Hm3) by lia.
      rewrite (next_store_prev _ _ _ _ _ Hm2) by lia.
      apply (prev_store_same _ _ _ _ Hm1). lia.
    + rewrite (next_store_next _ _ _ _ _ Hm4) by lia.
      rewrite (prev_store_next _ _ _ _ _ Hm3) by lia.
      apply (next_store_same _ _ _ _ Hm2). lia.
    + rewrite (next_store_prev _ _ _ _ _ Hm4) by lia.
      apply (prev_store_same _ _ _ _ Hm3). lia.
    + eapply path_frame; [exact Hpath| |].
      * intros x Hx. rewrite <- ET, removelast_last in Hx.
        assert (Hxin : In x (o :: h :: t)) by (right; now right).
        assert (Hxh : x <> h).
        { intros ->. inversion Hnd'; contradiction. }
        assert (Hxo : x <> o).
        { intros ->. apply Hnotin. now right. }
        pose proof (Hsep x h Hxin Hin_h) as S1.
        pose proof (Hsep x n Hxin Hin_n) as S2.
        pose proof (Hsep x o Hxin Hin_o) as S3.
        rewrite (next_store_next _ _ _ _ _ Hm4) by lia.
        rewrite (prev_store_next _ _ _ _ _ Hm3) by lia.
        rewrite (next_store_next _ _ _ _ _ Hm2) by lia.
        apply (prev_store_next _ _ _ _ _ Hm1). lia.
      * intros y Hy. simpl in Hy.
        assert (Hyin' : In y (t ++ [h])) by (rewrite ET; now right).
        assert (Hyin : In y (o :: h :: t)).
        { apply in_app_or in Hyin'. destruct Hyin' as [H|[<-|[]]];
            [right; now right|exact Hin_h]. }
        assert (Hyn : y <> n).
        { intros ->. inversion Hnd2; contradiction. }
        assert (Hy_ht : In y (h :: t)).
        { apply in_app_or in Hyin'. destruct Hyin' as [H|[<-|[]]];
            [now right|now left]. }
        assert (Hyo : y <> o) by (intros E; apply Hnotin; rewrite <- E; exact Hy_ht).
        pose proof (Hsep y h Hyin Hin_h) as S1.
        pose proof (Hsep y n Hyin Hin_n) as S2.
        pose proof (Hsep y o Hyin Hin_o) as S3.
        rewrite (next_store_prev _ _ _ _ _ Hm4) by lia.
        rewrite (prev_store_prev _ _ _ _ _ Hm3) by lia.
        rewrite (next_store_prev _ _ _ _ _ Hm2) by lia.
        apply (prev_store_prev _ _ _ _ _ Hm1). lia.
  - intros x Hx Hy.
    pose proof (Hy o Hin_o). pose proof (Hy h Hin_h). pose proof (Hy n Hin_n).
    rewrite (store32_other _ _ _ _ _ Hm4) by lia.
    rewrite (store32_other _ _ _ _ _ Hm3) by lia.
    rewrite (store32_other _ _ _ _ _ Hm2) by lia.
    apply (store32_other _ _ _ _ _ Hm1); lia.
Qed.

(** A first node links to itself. *)
Lemma link_single_spec (m : Mem) (o : Z) :
  msize m < 4294967296 -> 0 <= o -> o + 12 <= msize m ->
  exists m1 m2,
    set_nextOffset m o o = Some m1
    /\ set_prevOffset m1 o o = Some m2
    /\ msize m2 = msize m
    /\ cyc m2 [o]
    /\ (forall x, 0 <= x -> x < o + 4 \/ o + 12 <= x -> byte_at m2 x = byte_at m x).
Proof.
  intros HP H1 H2.
  destruct (store32_some m (o + 4) o) as [m1 Hm1]; try lia.
  assert (Hz1 : msize m1 = msize m) by (eapply store32_msize; eauto).
  destruct (store32_some m1 (o + 8) o) as [m2 Hm2]; try lia.
  exists m1, m2. split; [exact Hm1|]. split; [exact Hm2|].
  split; [rewrite (store32_msize _ _ _ _ Hm2); exact Hz1|]. split.
  - unfold cyc. simpl app. rewrite path_cons2. split; [|split; [|exact I]].
    + rewrite (prev_store_next _ _ _ _ _ Hm2) by lia.
      apply (next_store_same _ _ _ _ Hm1). lia.
    + apply (prev_store_same _ _ _ _ Hm2). lia.
  - intros x Hx Hd.
    rewrite (store32_other _ _ _ _ _ Hm2) by lia.
    apply (store32_other _ _ _ _ _ Hm1); lia.
Qed.

End Linking.

(** * The bin table *)

Section BinTable.

Lemma nth_replace (B1 B2 : list (list Z)) (l l' : list Z) (i : nat) :
  nth i (B1 ++ l' :: B2) []
  = if (i =? length B1)%nat then l' else nth i (B1 ++ l :: B2) [].
Proof.
  destruct (Nat.eqb_spec i (length B1)) as [->|Hne].
  - rewrite app_nth2 by lia. now rewrite Nat.sub_diag.
  - destruct (Nat.lt_ge_cases i (length B1)) as [Hlt|Hge].
    + now rewrite !app_nth1 by lia.
    + rewrite !app_nth2 by lia.
      destruct (i - length B1)%nat as [|k] eqn:E; [lia|reflexivity].
Qed.

Lemma nth_middle' (B1 B2 : list (list Z)) (l : list Z) :
  nth (length B1) (B1 ++ l :: B2) [] = l.
Proof. rewrite app_nth2 by lia. now rewrite Nat.sub_diag. Qed.

Lemma in_nth_concat (bl : list (list Z)) (i : nat) (x : Z) :
  In x (nth i bl []) -> In x (concat bl).
Proof.
  intros H. destruct (Nat.lt_ge_cases i (length bl)) as [Hlt|Hge].
  - apply in_concat. exists (nth i bl []). split; [apply nth_In; exact Hlt|exact H].
  - rewrite nth_overflow in H by lia. destruct H.
Qed.

Lemma concat_middle (B1 B2 : list (list Z)) (l : list Z) :
  concat (B1 ++ l :: B2) = concat B1 ++ l ++ concat B2.
Proof. rewrite concat_app. reflexivity. Qed.

(** A node is in one bin only. *)
Lemma nodes_one_bin (bl : list (list Z)) (i j : nat) (x : Z) :
  NoDup (concat bl) -> In x (nth i bl []) -> In x (nth j bl []) -> i = j.
Proof.
  revert i j; induction bl as [|l bl IH]; intros i j Hnd Hi Hj.
  - destruct i; destruct Hi.
  - simpl in Hnd.
    assert (Hd : forall k, In x l -> In x (nth k bl []) -> False).
    { intros k H1 H2. apply in_nth_concat in H2.
      revert Hnd H1 H2. clear. induction l as [|y l IHl]; intros Hnd H1 H2; [destruct H1|].
      simpl in Hnd. inversion Hnd as [|? ? Hn Hnd']; subst.
      destruct H1 as [->|H1].
      - apply Hn. apply in_or_app. now right.
      - now apply IHl. }
    destruct i as [|i], j as [|j]; simpl in Hi, Hj.
    + reflexivity.
    + exfalso; eapply Hd; eauto.
    + exfalso; eapply Hd; eauto.
    + f_equal. apply IH; auto. eapply NoDup_app_remove_l; eauto.
Qed.

Lemma field_frame (m m' : Mem) (x : Z) :
  msize m' = msize m ->
  (forall b, x + 4 <= b < x + 12 -> byte_at m' b = byte_at m b) ->
  nextOffset m' x = nextOffset m x /\ prevOffset m' x = prevOffset m x.
Proof.
  intros Hz Hb. unfold nextOffset, prevOffset.
  split; apply load32_frame; auto; intros b Hr; apply Hb; lia.
Qed.

Lemma bin_get_spec (a : Allocator) (bl : list (list Z)) (i : Z) :
  chunkBins a = map bin_head bl -> 0 <= i < Z.of_nat (length bl) ->
  bin_get a i = Some (bin_head (nth (Z.to_nat i) bl [])).
Proof.
  intros Hc Hi. unfold bin_get. destruct (Z.leb_spec 0 i); [|lia].
  rewrite Hc. rewrite nth_error_map.
  rewrite (nth_error_nth' bl []) by lia. reflexivity.
Qed.

Lemma bin_set_spec (a : Allocator) (B1 B2 : list (list Z)) (l l' : list Z) (v : Z) :
  chunkBins a = map bin_head (B1 ++ l :: B2) -> v = bin_head l' ->
  exists a', bin_set a (Z.of_nat (length B1)) v = Some a'
    /\ a' = set_bins a (map bin_head (B1 ++ l' :: B2)).
Proof.
  intros Hc ->. unfold bin_set. rewrite Hc, length_map, length_app. simpl length.
  destruct (Z.leb_spec 0 (Z.of_nat (length B1))); [|lia].
  destruct (Z.ltb_spec (Z.of_nat (length B1)) (Z.of_nat (length B1 + S (length B2))));
    [|lia].
  simpl andb. rewrite Nat2Z.id.
  eexists; split; [reflexivity|]. f_equal.
  rewrite !map_app. simpl map.
  rewrite firstn_app, length_map, Nat.sub_diag, firstn_O, app_nil_r.
  rewrite firstn_all2 by (rewrite length_map; lia).
  replace (S (length B1)) with (length (map bin_head B1 ++ [bin_head l]))
    by (rewrite length_app, length_map; simpl; lia).
  replace (map bin_head B1 ++ bin_head l :: map bin_head B2)
    with ((map bin_head B1 ++ [bin_head l]) ++ map bin_head B2)
    by (rewrite <- app_assoc; reflexivity).
  rewrite skipn_app, Nat.sub_diag, skipn_all. reflexivity.
Qed.

End BinTable.

Section RemoveFromFreeList.

Lemma rot_perm (l1 l2 : list Z) (o : Z) :
  Permutation (l1 ++ o :: l2) (o :: l2 ++ l1).
Proof.
  eapply Permutation_trans; [apply Permutation_sym, Permutation_middle|].
  apply perm_skip, Permutation_app_comm.
Qed.

Lemma RemoveFromFreeList_spec (a : Allocator) (bl : list (list Z)) (o s : Z) :
  bins_ok a bl -> msize (memory a) < 4294967296 ->
  GetSize (memory a) o = Some s ->
  0 <= GetIndex s < 17 ->
  In o (nth (Z.to_nat (GetIndex s)) bl []) ->
  exists a' bl', RemoveFromFreeList a o = Some a'
    /\ bins_ok a' bl'
    /\ (forall i x, In x (nth i bl' []) <-> In x (nth i bl []) /\ x <> o)
    /\ msize (memory a') = msize (memory a)
    /\ finalPrevIsUsed a' = finalPrevIsUsed a
    /\ stats_eq a a'
    /\ (forall x, 0 <= x ->
          (forall y, In y (concat bl) -> x < y + 4 \/ y + 12 <= x) ->
          byte_at (memory a') x = byte_at (memory a) x).
Proof.
  intros (Hcb & Hlen & Hcyc & Hnodes) HP Hs Hidx Hin.
  set (i := Z.to_nat (GetIndex s)) in *.
  assert (Hi : (i < length bl)%nat) by (rewrite Hlen; unfold BIN_INDICES, i; lia).
  destruct (nth_split bl [] Hi) as (B1 & B2 & Ebl & HlB1).
  destruct (in_split _ _ Hin) as (l1 & l2 & El).
  rewrite El in Ebl. clear El.
  assert (Hcat : concat bl = concat B1 ++ (l1 ++ o :: l2) ++ concat B2)
    by (rewrite Ebl; apply concat_middle).
  assert (Ho_cat : In o (concat bl)).
  { rewrite Hcat. apply in_or_app; right; apply in_or_app; left.
    apply in_or_app; right; now left. }
  destruct Hnodes as (Hnd & Hb & Hsep).
  destruct (Hb _ Ho_cat) as [Ho0 Ho12].
  assert (Eoff : OffsetOf o = o) by (unfold OffsetOf, u32; apply Z.mod_small; lia).
  assert (Hndl : NoDup (l1 ++ o :: l2)).
  { rewrite Hcat in Hnd. apply NoDup_app_remove_l in Hnd.
    now apply NoDup_app_remove_r in Hnd. }
  assert (Hincl : incl (o :: l2 ++ l1) (concat bl)).
  { intros y Hy. rewrite Hcat. apply in_or_app; right; apply in_or_app; left.
    eapply Permutation_in; [apply Permutation_sym, rot_perm|exact Hy]. }
  assert (HnR : nodes_ok (msize (memory a)) (o :: l2 ++ l1)).
  { apply (nodes_ok_incl _ (concat bl)); [exact (conj Hnd (conj Hb Hsep))| |exact Hincl].
    eapply Permutation_NoDup; [apply rot_perm|exact Hndl]. }
  assert (HcR : cyc (memory a) (o :: l2 ++ l1)).
  { apply (cyc_rot _ l1 (o :: l2)). apply Hcyc. rewrite Ebl.
    apply in_or_app; right; now left. }
  destruct (unlink_spec _ _ _ HP HnR HcR)
    as (n & p & m1 & m2 & Hn & Hp & Hm1 & Hp1 & Hn1 & Hm2 & Ehd & Hz2 & Hc2 & Hfr).
  (* the bin head *)
  assert (Hidx' : GetIndex s = Z.of_nat (length B1)) by (unfold i in HlB1; lia).
  assert (Hstep1 : exists a1,
    (if bin_head (l1 ++ o :: l2) =? OffsetOf o
     then nx <- nextOffset (memory a) o ;;
          bin_set a (GetIndex s) (if nx =? OffsetOf o then InvalidSize else nx)
     else Some a) = Some a1
    /\ memory a1 = memory a /\ finalPrevIsUsed a1 = finalPrevIsUsed a
    /\ stats_eq a a1
    /\ chunkBins a1 = map bin_head (B1 ++ (l1 ++ l2) :: B2)).
  { rewrite Eoff. destruct l1 as [|h l1'].
    - simpl app. simpl bin_head. rewrite Z.eqb_refl. rewrite Hn. simpl obind.
      assert (Ev : (if n =? o then InvalidSize else n) = bin_head l2).
      { rewrite app_nil_r in Ehd. destruct l2 as [|y l2']; simpl in Ehd; subst n.
        - now rewrite Z.eqb_refl.
        - simpl. destruct (Z.eqb_spec y o) as [->|]; [|reflexivity].
          exfalso. simpl in Hndl. inversion Hndl as [|? ? Hx _]. apply Hx. now left. }
      rewrite Hidx'. rewrite Ebl in Hcb.
      destruct (bin_set_spec a B1 B2 _ l2 _ Hcb Ev) as (a1 & Ha1 & ->).
      exists (set_bins a (map bin_head (B1 ++ l2 :: B2))).
      split; [exact Ha1|]. simpl. unfold stats_eq; simpl. tauto.
    - simpl app. simpl bin_head.
      destruct (Z.eqb_spec h o) as [->|Hne].
      + exfalso. simpl in Hndl. inversion Hndl as [|? ? Hx _]. apply Hx.
        apply in_or_app; right; now left.
      + exists a. split; [reflexivity|]. split; [reflexivity|]. split; [reflexivity|].
        split; [apply stats_eq_refl|]. rewrite Hcb, Ebl, !map_app. reflexivity. }
  destruct Hstep1 as (a1 & Ha1 & Hmem1 & Hfin1 & Hst1 & Hcb1).
  exists (set_memory a1 m2), (B1 ++ (l1 ++ l2) :: B2).
  split.
  { unfold RemoveFromFreeList. rewrite Hs. simpl obind.
    rewrite (bin_get_spec a bl) by (rewrite ?Hlen; unfold BIN_INDICES; auto; lia).
    simpl obind. fold i. rewrite Ebl at 1. rewrite <- HlB1 at 1. rewrite nth_middle'.
    rewrite Ha1. simpl obind. rewrite Hmem1, Hn. simpl obind. rewrite Hp. simpl obind.
    unfold GetChunkAbsolute. rewrite Hm1. simpl obind. rewrite Hp1. simpl obind.
    rewrite Hn1. simpl obind. rewrite Hm2. reflexivity. }
  assert (Hcat' : concat (B1 ++ (l1 ++ l2) :: B2) = concat B1 ++ (l1 ++ l2) ++ concat B2)
    by apply concat_middle.
  assert (Hincl' : incl (concat (B1 ++ (l1 ++ l2) :: B2)) (concat bl)).
  { intros y Hy. rewrite Hcat' in Hy. rewrite Hcat.
    apply in_app_or in Hy. destruct Hy as [Hy|Hy]; [apply in_or_app; now left|].
    apply in_app_or in Hy. destruct Hy as [Hy|Hy];
      [|apply in_or_app; right; apply in_or_app; now right].
    apply in_or_app; right; apply in_or_app; left.
    apply in_app_or in Hy. apply in_or_app. destruct Hy; [now left|right; now right]. }
  assert (Hnd' : NoDup (concat (B1 ++ (l1 ++ l2) :: B2))).
  { rewrite Hcat'. rewrite Hcat in Hnd.
    replace (concat B1 ++ (l1 ++ o :: l2) ++ concat B2)
      with ((concat B1 ++ l1) ++ o :: (l2 ++ concat B2)) in Hnd
      by (rewrite <- !app_assoc; reflexivity).
    apply NoDup_remove_1 in Hnd. rewrite <- !app_assoc in Hnd. rewrite <- app_assoc.
    exact Hnd. }
  split.
  { (* bins_ok *)
    split; [simpl; exact Hcb1|]. split.
    { rewrite length_app. simpl length. rewrite <- Hlen, Ebl, length_app. reflexivity. }
    split.
    - intros l Hl. simpl memory.
      apply in_app_or in Hl. destruct Hl as [Hl|[<-|Hl]].
      + (* a bin before *)
        eapply cyc_frame; [apply Hcyc; rewrite Ebl; apply in_or_app; now left|].
        intros x Hx. apply field_frame; [exact Hz2|]. intros b Hbr.
        assert (Hxc : In x (concat bl)).
        { rewrite Hcat. apply in_or_app; left. apply in_concat. eauto. }
        apply Hfr; [destruct (Hb _ Hxc); lia|].
        intros y Hy. assert (Hyc := Hincl _ Hy).
        destruct (Hsep x y Hxc Hyc) as [->|?]; [|lia].
        exfalso. rewrite Hcat in Hnd.
        assert (Hy' : In y ((l1 ++ o :: l2) ++ concat B2)).
        { apply in_or_app; left.
          eapply Permutation_in; [apply Permutation_sym, rot_perm|exact Hy]. }
        clear - Hnd Hl Hx Hy'.
        assert (Hyc1 : In y (concat B1)) by (apply in_concat; eauto).
        revert Hnd Hyc1 Hy'. generalize (concat B1) as L1.
        generalize ((l1 ++ o :: l2) ++ concat B2) as L2.
        intros L2 L1. induction L1 as [|z L1 IH]; intros Hnd H1 H2; [destruct H1|].
        simpl in Hnd. inversion Hnd as [|? ? Hz Hnd']; subst.
        destruct H1 as [->|H1]; [apply Hz; apply in_or_app; now right|auto].
      + (* the bin itself *)
        apply (cyc_rot _ l2 l1). exact Hc2.
      + (* a bin after *)
        eapply cyc_frame; [apply Hcyc; rewrite Ebl; apply in_or_app; right; now right|].
        intros x Hx. apply field_frame; [exact Hz2|]. intros b Hbr.
        assert (Hxc : In x (concat bl)).
        { rewrite Hcat. apply in_or_app; right. apply in_or_app; right.
          apply in_concat. eauto. }
        apply Hfr; [destruct (Hb _ Hxc); lia|].
        intros y Hy. assert (Hyc := Hincl _ Hy).
        destruct (Hsep x y Hxc Hyc) as [->|?]; [|lia].
        exfalso. rewrite Hcat in Hnd. apply NoDup_app_remove_l in Hnd.
        assert (Hy' : In y (l1 ++ o :: l2)).
        { eapply Permutation_in; [apply Permutation_sym, rot_perm|exact Hy]. }
        assert (Hyc2 : In y (concat B2)) by (apply in_concat; eauto).
        clear - Hnd Hy' Hyc2.
        revert Hnd Hy' Hyc2. generalize (concat B2) as L2. generalize (l1 ++ o :: l2) as L1.
        intros L1 L2. induction L1 as [|z L1 IH]; intros Hnd H1 H2; [destruct H1|].
        simpl in Hnd. inversion Hnd as [|? ? Hz Hnd']; subst.
        destruct H1 as [->|H1]; [apply Hz; apply in_or_app; now right|auto].
    - simpl memory. rewrite Hz2.
      apply (nodes_ok_incl _ (concat bl)); [exact (conj Hnd (conj Hb Hsep))|exact Hnd'|exact Hincl']. }
  split.
  { (* membership *)
    intros k x. rewrite (nth_replace B1 B2 (l1 ++ o :: l2) (l1 ++ l2) k).
    rewrite <- Ebl.
    destruct (Nat.eqb_spec k (length B1)) as [->|Hne].
    - rewrite HlB1. fold i. rewrite Ebl at 1. rewrite <- HlB1 at 1. rewrite nth_middle'.
      split.
      + intros Hx. split.
        * apply in_app_or in Hx. apply in_or_app. destruct Hx; [now left|right; now right].
        * intros ->. apply NoDup_remove_2 in Hndl. contradiction.
      + intros [Hx Hne]. apply in_app_or in Hx. apply in_or_app.
        destruct Hx as [Hx|[Hx|Hx]]; [now left|congruence|now right].
    - split; [|tauto]. intros Hx. split; [exact Hx|]. intros ->.
      apply Hne. apply (nodes_one_bin bl k (length B1) o Hnd Hx).
      rewrite HlB1. exact Hin. }
  split; [simpl; exact Hz2|].
  split; [simpl; exact Hfin1|].
  split; [destruct Hst1 as (?&?&?&?&?&?&?&?); unfold stats_eq; simpl; tauto|].
  intros x Hx Hy. simpl memory. apply Hfr; [exact Hx|].
  intros y Hin'. apply Hy. apply Hincl. exact Hin'.
Qed.

End RemoveFromFreeList.

Section AddToFreeList.

Lemma NoDup_disjoint_app (L1 L2 : list Z) (y : Z) :
  NoDup (L1 ++ L2) -> In y L1 -> In y L2 -> False.
Proof.
  induction L1 as [|z L1 IH]; intros Hnd H1 H2; [destruct H1|].
  simpl in Hnd. inversion Hnd as [|? ? Hz Hnd']; subst.
  destruct H1 as [->|H1]; [apply Hz; apply in_or_app; now right|auto].
Qed.

Lemma AddToFreeList_spec (a : Allocator) (bl : list (list Z)) (o s : Z) :
  bins_ok a bl -> msize (memory a) < 4294967296 ->
  GetSize (memory a) o = Some s ->
  0 <= GetIndex s < 17 ->
  nodes_ok (msize (memory a)) (o :: concat bl) ->
  exists a' bl', AddToFreeList a o = Some a'
    /\ bins_ok a' bl'
    /\ (forall i x, In x (nth i bl' []) <->
          In x (nth i bl []) \/ (x = o /\ i = Z.to_nat (GetIndex s)))
    /\ msize (memory a') = msize (memory a)
    /\ finalPrevIsUsed a' = finalPrevIsUsed a
    /\ stats_eq a a'
    /\ (forall x, 0 <= x ->
          (forall y, In y (o :: concat bl) -> x < y + 4 \/ y + 12 <= x) ->
          byte_at (memory a') x = byte_at (memory a) x).
Proof.
  intros (Hcb & Hlen & Hcyc & Hnodes) HP Hs Hidx (Hnd & Hb & Hsep).
  set (i := Z.to_nat (GetIndex s)) in *.
  assert (Hi : (i < length bl)%nat) by (rewrite Hlen; unfold BIN_INDICES, i; lia).
  destruct (nth_split bl [] Hi) as (B1 & B2 & Ebl & HlB1).
  remember (nth i bl []) as l eqn:El0.
  assert (Hcat : concat bl = concat B1 ++ l ++ concat B2)
    by (rewrite Ebl; apply concat_middle).
  destruct (Hb o (or_introl eq_refl)) as [Ho0 Ho12].
  assert (Eoff : OffsetOf o = o) by (unfold OffsetOf, u32; apply Z.mod_small; lia).
  assert (Hidx' : GetIndex s = Z.of_nat (length B1)) by (unfold i in HlB1; lia).
  inversion Hnd as [|x0 L0 Hnotin Hndc]; subst x0 L0.
  assert (Hget : bin_get a (GetIndex s) = Some (bin_head l)).
  { rewrite (bin_get_spec a bl) by (rewrite ?Hlen; unfold BIN_INDICES; auto; lia).
    fold i. now rewrite <- El0. }
  (* the new bin list and the new state *)
  assert (Hmain : exists a' l',
    AddToFreeList a o = Some a'
    /\ chunkBins a' = map bin_head (B1 ++ l' :: B2)
    /\ msize (memory a') = msize (memory a)
    /\ finalPrevIsUsed a' = finalPrevIsUsed a
    /\ stats_eq a a'
    /\ cyc (memory a') l'
    /\ (forall x, In x l' <-> In x l \/ x = o)
    /\ Permutation (o :: l) l'
    /\ (forall x, 0 <= x ->
          (forall y, In y (o :: l) -> x < y + 4 \/ y + 12 <= x) ->
          byte_at (memory a') x = byte_at (memory a) x)).
  { unfold AddToFreeList. rewrite Hs. simpl obind. rewrite Hget. simpl obind.
    rewrite Eoff. destruct l as [|h t].
    - (* empty bin *)
      simpl bin_head. rewrite Z.eqb_refl.
      rewrite Hidx'. rewrite Ebl in Hcb.
      destruct (bin_set_spec a B1 B2 [] [o] o Hcb eq_refl) as (a1 & Ha1 & Ea1).
      rewrite Ha1. simpl obind. subst a1. simpl memory.
      destruct (link_single_spec (memory a) o HP Ho0 Ho12)
        as (m1 & m2 & Hm1 & Hm2 & Hz2 & Hc2 & Hfr).
      rewrite Hm1. simpl obind. rewrite Hm2. simpl obind.
      eexists; exists [o]. split; [reflexivity|]. simpl.
      split; [reflexivity|]. split; [exact Hz2|]. split; [reflexivity|].
      split; [unfold stats_eq; simpl; tauto|]. split; [exact Hc2|].
      split; [intros x; simpl; intuition congruence|]. split; [apply Permutation_refl|].
      intros x Hx Hy. apply Hfr; [exact Hx|]. apply (Hy o). now left.
    - (* link after the head *)
      simpl bin_head.
      assert (Hh_cat : In h (concat bl)).
      { rewrite Hcat. apply in_or_app; right; apply in_or_app; left. now left. }
      destruct (Hb h (or_intror Hh_cat)) as [Hh0 Hh12].
      destruct (Z.eqb_spec h InvalidSize) as [E|_]; [unfold InvalidSize in E; lia|].
      assert (Hnl : nodes_ok (msize (memory a)) (o :: h :: t)).
      { apply (nodes_ok_incl _ (o :: concat bl)); [exact (conj Hnd (conj Hb Hsep))| |].
        - constructor.
          + intros Hx. apply Hnotin. rewrite Hcat.
            apply in_or_app; right; apply in_or_app; now left.
          + rewrite Hcat in Hndc. apply NoDup_app_remove_l in Hndc.
            now apply NoDup_app_remove_r in Hndc.
        - intros y [<-|Hy]; [now left|]. right. rewrite Hcat.
          apply in_or_app; right; apply in_or_app; now left. }
      assert (Hcl : cyc (memory a) (h :: t)).
      { apply Hcyc. rewrite Ebl. apply in_or_app; right; now left. }
      destruct (link_spec _ _ _ _ HP Hnl Hcl)
        as (n & m1 & m2 & m3 & m4 & Hn & Hm1 & Hn1 & Hm2 & Hm3 & Hm4 & Hz4 & Hc4 & Hfr).
      unfold GetChunkAbsolute. rewrite Hn. simpl obind. rewrite Hm1. simpl obind.
      rewrite Hn1. simpl obind. rewrite Hm2. simpl obind. rewrite Hm3. simpl obind.
      rewrite Hm4. simpl obind.
      eexists; exists (h :: o :: t). split; [reflexivity|]. simpl memory.
      split; [simpl; rewrite Hcb, Ebl, !map_app; reflexivity|].
      split; [exact Hz4|]. split; [reflexivity|].
      split; [unfold stats_eq; simpl; tauto|]. split; [exact Hc4|].
      split; [intros x; simpl; intuition congruence|]. split; [apply perm_swap|].
      exact Hfr. }
  destruct Hmain as (a' & l' & Ha' & Hcb' & Hz' & Hfin' & Hst' & Hc' & Hmem' & Hperm & Hfr).
  exists a', (B1 ++ l' :: B2).
  assert (Hcat' : concat (B1 ++ l' :: B2) = concat B1 ++ l' ++ concat B2)
    by apply concat_middle.
  assert (HP' : Permutation (o :: concat bl) (concat (B1 ++ l' :: B2))).
  { rewrite Hcat, Hcat'.
    eapply Permutation_trans; [apply Permutation_middle|].
    apply Permutation_app_head.
    change (o :: l ++ concat B2) with ((o :: l) ++ concat B2).
    apply Permutation_app_tail. exact Hperm. }
  split; [exact Ha'|]. split.
  { split; [exact Hcb'|]. split.
    { rewrite length_app. simpl length. rewrite <- Hlen, Ebl, length_app. reflexivity. }
    split.
    - intros k Hk. apply in_app_or in Hk. destruct Hk as [Hk|[<-|Hk]].
      + eapply cyc_frame; [apply Hcyc; rewrite Ebl; apply in_or_app; now left|].
        intros x Hx. apply field_frame; [exact Hz'|]. intros b Hbr.
        assert (Hxc1 : In x (concat B1)) by (apply in_concat; eauto).
        assert (Hxc : In x (concat bl)) by (rewrite Hcat; apply in_or_app; now left).
        apply Hfr; [destruct (Hb x (or_intror Hxc)); lia|].
        intros y Hy.
        assert (Hyc : In y (o :: concat bl)).
        { destruct Hy as [<-|Hy]; [now left|right].
          rewrite Hcat. apply in_or_app; right; apply in_or_app; now left. }
        destruct (Hsep x y (or_intror Hxc) Hyc) as [->|?]; [|lia].
        exfalso. destruct Hy as [<-|Hy]; [contradiction|].
        rewrite Hcat in Hndc. eapply NoDup_disjoint_app; [exact Hndc|exact Hxc1|].
        apply in_or_app; now left.
      + exact Hc'.
      + eapply cyc_frame; [apply Hcyc; rewrite Ebl; apply in_or_app; right; now right|].
        intros x Hx. apply field_frame; [exact Hz'|]. intros b Hbr.
        assert (Hxc2 : In x (concat B2)) by (apply in_concat; eauto).
        assert (Hxc : In x (concat bl)).
        { rewrite Hcat; apply in_or_app; right; apply in_or_app; now right. }
        apply Hfr; [destruct (Hb x (or_intror Hxc)); lia|].
        intros y Hy.
        assert (Hyc : In y (o :: concat bl)).
        { destruct Hy as [<-|Hy]; [now left|right].
          rewrite Hcat. apply in_or_app; right; apply in_or_app; now left. }
        destruct (Hsep x y (or_intror Hxc) Hyc) as [->|?]; [|lia].
        exfalso. destruct Hy as [<-|Hy]; [contradiction|].
        rewrite Hcat in Hndc. apply NoDup_app_remove_l in Hndc.
        eapply NoDup_disjoint_app; [exact Hndc|exact Hy|exact Hxc2].
    - rewrite Hz'.
      apply (nodes_ok_incl _ (o :: concat bl)); [exact (conj Hnd (conj Hb Hsep))| |].
      + eapply Permutation_NoDup; [exact HP'|exact Hnd].
      + intros y Hy. eapply Permutation_in; [apply Permutation_sym, HP'|exact Hy]. }
  split.
  { intros k x. rewrite (nth_replace B1 B2 l l' k). rewrite <- Ebl.
    destruct (Nat.eqb_spec k (length B1)) as [->|Hne].
    - rewrite Hmem'. rewrite HlB1. fold i. rewrite <- El0. split; [tauto|].
      intros [H|[H _]]; [now left|now right].
    - split; [tauto|]. intros [H|[_ H]]; [exact H|]. exfalso. apply Hne. lia. }
  split; [exact Hz'|]. split; [exact Hfin'|]. split; [exact Hst'|].
  intros x Hx Hy. apply Hfr; [exact Hx|].
  intros y [<-|Hin]; [apply Hy; now left|].
  apply Hy. right. rewrite Hcat. apply in_or_app; right; apply in_or_app; now left.
Qed.

End AddToFreeList.


(** * Tags under changes of the pool *)

Section Tags.

Lemma chunk_eta (c : chunk) : mkChunk (off c) (csz c) (used c) = c.
Proof. destruct c; reflexivity. Qed.

(** The tags of a chunk depend on three words and on [finalPrevIsUsed]. *)
Lemma tags_transfer (a a' : Allocator) (c : chunk) :
  msize (memory a') = msize (memory a) ->
  GetSize (memory a') (off c) = GetSize (memory a) (off c) ->
  (off c + csz c < msize (memory a) ->
     IsPrevUsed (memory a') (off c + csz c) = IsPrevUsed (memory a) (off c + csz c)) ->
  (msize (memory a) <= off c + csz c -> finalPrevIsUsed a' = finalPrevIsUsed a) ->
  (used c = false ->
     load32 (memory a') (off c + csz c - 4) = load32 (memory a) (off c + csz c - 4)) ->
  tags a c -> tags a' c.
Proof.
  intros Hz Hg Hf Hfin Hfoot (T1 & T2 & T3). unfold tags. rewrite Hz.
  split; [congruence|]. split.
  - destruct (Z.ltb_spec (off c + csz c) (msize (memory a))).
    + rewrite Hf by assumption. exact T2.
    + rewrite Hfin by assumption. exact T2.
  - intros Hu. rewrite Hfoot by assumption. auto.
Qed.

(** Rewriting the region [r0, r1) of a layout: the chunks outside the
    region keep their tags when, outside the region and the links of free
    chunks, only the flag of the header at [r1] changes. *)
Lemma tags_outside (a a' : Allocator) (l1 olds l2 : list chunk) (r0 r1 : Z) :
  contig 0 (l1 ++ olds ++ l2) (msize (memory a)) ->
  Forall size_ok (l1 ++ olds ++ l2) ->
  contig 0 l1 r0 -> contig r1 l2 (msize (memory a)) -> r0 < r1 ->
  msize (memory a') = msize (memory a) ->
  (forall b, 0 <= b -> b < r0 \/ r1 + 4 <= b -> ~ in_links (l1 ++ l2) b ->
     byte_at (memory a') b = byte_at (memory a) b) ->
  (r1 < msize (memory a) -> GetSize (memory a') r1 = GetSize (memory a) r1) ->
  IsPrevUsed (memory a') r0 = IsPrevUsed (memory a) r0 ->
  (r1 < msize (memory a) -> finalPrevIsUsed a' = finalPrevIsUsed a) ->
  forall x, In x (l1 ++ l2) -> tags a x -> tags a' x.
Proof.
  intros Hc Hs Hc1 Hc2 Hr Hz Hfr Hg1 Hf0 Hfin x Hx Hx_tags.
  assert (Hs1 : Forall size_ok l1) by (apply Forall_app in Hs; tauto).
  assert (Hs2 : Forall size_ok l2).
  { apply Forall_app in Hs. destruct Hs as [_ Hs]. apply Forall_app in Hs. tauto. }
  assert (Hs12 : Forall size_ok (l1 ++ l2)) by (apply Forall_app; tauto).
  assert (Hr0 : 0 <= r0) by (apply (contig_le l1); assumption).
  (* bytes of headers and footers of outside chunks are not link bytes *)
  assert (Hnl : forall y b, In y (l1 ++ l2) ->
            off y <= b < off y + 4 \/ off y + csz y - 4 <= b < off y + csz y ->
            ~ in_links (l1 ++ l2) b).
  { intros y b Hy Hb (c & Hcin & _ & Hcb).
    assert (Hyc : In y (l1 ++ olds ++ l2)).
    { apply in_app_or in Hy. apply in_or_app. destruct Hy; [now left|right].
      apply in_or_app; now right. }
    assert (Hcc : In c (l1 ++ olds ++ l2)).
    { apply in_app_or in Hcin. apply in_or_app. destruct Hcin; [now left|right].
      apply in_or_app; now right. }
    rewrite Forall_forall in Hs. pose proof (Hs _ Hyc) as [Hy16 _].
    pose proof (Hs _ Hcc) as [Hc16 _].
    destruct (contig_disjoint _ _ _ _ _ Hc ltac:(rewrite Forall_forall; exact Hs) Hyc Hcc)
      as [->|[?|?]]; lia. }
  apply in_app_or in Hx. destruct Hx as [Hx|Hx].
  - (* a chunk before the region *)
    destruct (contig_bounds _ _ _ _ Hc1 Hs1 Hx) as [Hx0 Hx1].
    rewrite Forall_forall in Hs1. pose proof (Hs1 _ Hx) as [Hx16 _].
    assert (Hxin : In x (l1 ++ l2)) by (apply in_or_app; now left).
    apply (tags_transfer a a'); auto.
    + apply GetSize_frame; [exact Hz|]. intros b Hb.
      apply Hfr; [lia|lia|]. apply (Hnl x); auto.
    + intros Hlt. destruct (Z.eq_dec (off x + csz x) r0) as [->|Hne]; [exact Hf0|].
      destruct (contig_next _ _ _ _ Hc1 ltac:(rewrite Forall_forall; exact Hs1) Hx)
        as (y & Hy & Ey); [lia|].
      destruct (contig_bounds _ _ _ _ Hc1 ltac:(rewrite Forall_forall; exact Hs1) Hy).
      pose proof (Hs1 _ Hy) as [Hy16 _].
      apply IsPrevUsed_frame; [exact Hz|]. intros b Hb.
      apply Hfr; [lia|lia|]. apply (Hnl y); [apply in_or_app; now left|lia].
    + intros Hge. exfalso.
      pose proof (contig_le _ _ _ Hc2 Hs2). lia.
    + intros Hu. apply load32_frame; [exact Hz|]. intros b Hb.
      apply Hfr; [lia|lia|]. apply (Hnl x); auto. lia.
  - (* a chunk after the region *)
    destruct (contig_bounds _ _ _ _ Hc2 Hs2 Hx) as [Hx0 Hx1].
    rewrite Forall_forall in Hs2. pose proof (Hs2 _ Hx) as [Hx16 _].
    assert (Hxin : In x (l1 ++ l2)) by (apply in_or_app; now right).
    assert (Hfirst : off x = r1 \/ r1 + 16 <= off x).
    { destruct l2 as [|f l2]; [destruct Hx|]. simpl in Hc2. destruct Hc2 as [Ef Hc2].
      destruct Hx as [->|Hx]; [now left|right].
      pose proof (Hs2 f (or_introl eq_refl)) as [Hf16 _].
      assert (Hs2' : Forall size_ok l2).
      { rewrite Forall_forall. intros z Hzz. apply Hs2. now right. }
      destruct (contig_bounds _ _ _ _ Hc2 Hs2' Hx). lia. }
    assert (Hr1 : r1 < msize (memory a)) by lia.
    apply (tags_transfer a a'); auto.
    + destruct Hfirst as [->|Hfar]; [auto|].
      apply GetSize_frame; [exact Hz|]. intros b Hb.
      apply Hfr; [lia|lia|]. apply (Hnl x); auto.
    + intros Hlt.
      destruct (contig_next _ _ _ _ Hc2 ltac:(rewrite Forall_forall; exact Hs2) Hx)
        as (y & Hy & Ey); [lia|].
      pose proof (Hs2 _ Hy) as [Hy16 _].
      apply IsPrevUsed_frame; [exact Hz|]. intros b Hb.
      apply Hfr; [lia|lia|]. apply (Hnl y); [apply in_or_app; now right|lia].
    + intros Hu. apply load32_frame; [exact Hz|]. intros b Hb.
      apply Hfr; [lia|lia|]. apply (Hnl x); auto. lia.
Qed.

End Tags.

(** * Nodes, walks and covers *)

Section Ghost.

(** Offsets of distinct chunks of a layout are separated nodes. *)
Lemma nodes_of_chunks (cl : list chunk) (P : Z) (L : list Z) :
  contig 0 cl P -> Forall size_ok cl -> NoDup L ->
  (forall x, In x L -> exists c, In c cl /\ off c = x) ->
  nodes_ok P L.
Proof.
  intros Hc Hs Hnd Hin. split; [exact Hnd|]. split.
  - intros x Hx. destruct (Hin x Hx) as (c & Hcin & <-).
    destruct (contig_bounds _ _ _ _ Hc Hs Hcin).
    rewrite Forall_forall in Hs. destruct (Hs _ Hcin). lia.
  - intros x y Hx Hy.
    destruct (Hin x Hx) as (c & Hcin & <-). destruct (Hin y Hy) as (d & Hdin & <-).
    pose proof (contig_disjoint _ _ _ _ _ Hc Hs Hcin Hdin) as Hd.
    rewrite Forall_forall in Hs. destruct (Hs _ Hcin), (Hs _ Hdin).
    destruct Hd as [->|[?|?]]; lia.
Qed.

Lemma walk_S (f : nat) (a : Allocator) (cur : Z) :
  walk (S f) a cur =
    (sz <- GetSize (memory a) cur ;;
     su <- IsSelfUsed a (Some cur) ;;
     nx <- NextChunk a (Some cur) ;;
     match nx with
     | Some n => rest <- walk f a n ;; Some (mkChunk cur sz su :: rest)
     | None => Some [mkChunk cur sz su]
     end).
Proof. reflexivity. Qed.

(** The walk from the start of a suffix of a well tagged layout reads it. *)
Lemma walk_spec (a : Allocator) (cl : list chunk) (lo : Z) (fuel : nat) :
  contig lo cl (msize (memory a)) -> cl <> [] -> Forall size_ok cl ->
  (forall c, In c cl -> tags a c) -> (length cl <= fuel)%nat ->
  walk fuel a lo = Some cl.
Proof.
  revert lo fuel; induction cl as [|c cl IH]; intros lo fuel Hc Hne Hs Ht Hf;
    [congruence|].
  destruct fuel as [|f]; [simpl in Hf; lia|].
  simpl in Hc. destruct Hc as [Ho Hc]. subst lo.
  pose proof (Ht c (or_introl eq_refl)) as Htc.
  pose proof (IsSelfUsed_tags _ _ Htc) as Hsu.
  destruct Htc as (Hg & _ & _).
  rewrite walk_S. rewrite Hg. cbn [obind]. rewrite Hsu. cbn [obind].
  rewrite (NextChunk_spec _ _ _ Hg). cbn [obind].
  inversion Hs as [|? ? Hsc Hs']; subst.
  destruct cl as [|d cl].
  - simpl in Hc. rewrite geb_ltb.
    destruct (Z.ltb_spec (off c + csz c) (msize (memory a))); [lia|]. simpl.
    now rewrite chunk_eta.
  - assert (Hlt : off c + csz c < msize (memory a)).
    { assert (Hc' := Hc). simpl in Hc'. destruct Hc' as [Hd Hc'].
      inversion Hs' as [|? ? [Hd16 _] Hs'']; subst.
      pose proof (contig_le _ _ _ Hc' Hs''). lia. }
    rewrite geb_ltb. destruct (Z.ltb_spec (off c + csz c) (msize (memory a))); [|lia].
    simpl. rewrite (IH (off c + csz c) f); auto.
    + simpl. now rewrite chunk_eta.
    + discriminate.
    + intros x Hx. apply Ht. now right.
    + simpl in Hf |- *. lia.
Qed.

Lemma pool_chunks_spec (a : Allocator) (cl : list chunk) :
  pool_ok a cl -> pool_chunks a = Some cl.
Proof.
  intros (HP & Hne & Hc & Hs & Ht). unfold pool_chunks.
  apply walk_spec; auto.
  pose proof (sum_sizes_count cl Hs). apply contig_sum in Hc.
  unfold msize in *. lia.
Qed.

(** Removing a node from a cover. *)
Lemma cover_remove (fl fl' : list chunk) (bl bl' : list (list Z)) (o : Z) :
  cover fl bl ->
  (forall i x, In x (nth i bl' []) <-> In x (nth i bl []) /\ x <> o) ->
  (forall c, In c fl' <-> In c fl /\ off c <> o) ->
  cover fl' bl'.
Proof.
  intros Hc Hb Hf i x. rewrite Hb, (Hc i x). split.
  - intros ((c & Hcin & Ho & Hi) & Hne). exists c. rewrite Hf.
    repeat split; auto. congruence.
  - intros (c & Hcin & Ho & Hi). apply Hf in Hcin. destruct Hcin as [Hcin Hne].
    split; [exists c; auto|congruence].
Qed.

(** Adding a node to a cover. *)
Lemma cover_add (fl fl' : list chunk) (bl bl' : list (list Z)) (cnew : chunk) :
  cover fl bl -> 0 <= GetIndex (csz cnew) ->
  (forall i x, In x (nth i bl' []) <->
     In x (nth i bl []) \/ (x = off cnew /\ i = Z.to_nat (GetIndex (csz cnew)))) ->
  (forall c, In c fl' <-> In c fl \/ c = cnew) ->
  cover fl' bl'.
Proof.
  intros Hc Hs Hb Hf i x. rewrite Hb, (Hc i x). split.
  - intros [(c & Hcin & Ho & Hi)|[-> ->]].
    + exists c. rewrite Hf. auto.
    + exists cnew. rewrite Hf. repeat split; auto. lia.
  - intros (c & Hcin & Ho & Hi). apply Hf in Hcin. destruct Hcin as [Hcin| ->].
    + left. exists c. auto.
    + right. split; [auto|lia].
Qed.

End Ghost.

(** * The constructor *)

Section Constructor.

Lemma RoundUp_even (n : Z) : 0 <= n < 4294967296 -> n mod 2 = 0 -> RoundUp n = n.
Proof.
  intros Hr He. unfold RoundUp. rewrite land_one, He, Z.add_0_r.
  unfold u32. now apply Z.mod_small.
Qed.

Lemma RoundUp_odd (n : Z) : 0 <= n < 4294967295 -> n mod 2 = 1 -> RoundUp n = n + 1.
Proof.
  intros Hr He. unfold RoundUp. rewrite land_one, He.
  unfold u32. apply Z.mod_small. lia.
Qed.

Lemma RoundUp_pred_even (P : Z) :
  0 < P < 4294967296 -> P mod 2 = 0 -> RoundUp (u32 (P - 1)) = P.
Proof.
  intros Hr He. unfold u32 at 1. rewrite Z.mod_small by lia.
  rewrite RoundUp_odd; [lia|lia|].
  pose proof (Z.div_mod P 2 ltac:(lia)).
  symmetry. apply Z.mod_unique with (q := P / 2 - 1); lia.
Qed.

Lemma GetIndex_range (s : Z) : 1 <= s -> 0 <= GetIndex s < 17.
Proof.
  intros Hs. unfold GetIndex. destruct (Z.ltb_spec s 33).
  - unfold u32. rewrite Z.mod_small by lia.
    pose proof (Z.div_mod (s - 1) 2 ltac:(lia)).
    pose proof (Z.mod_pos_bound (s - 1) 2 ltac:(lia)). lia.
  - change ((33 - 1) / 2) with 16. lia.
Qed.

Lemma msize_repeat (n : Z) : 0 <= n -> msize (repeat 0 (Z.to_nat n)) = n.
Proof. intros H. unfold msize. rewrite repeat_length. lia. Qed.

Lemma bins_ok_empty (a : Allocator) :
  chunkBins a = repeat InvalidSize BIN_INDICES ->
  bins_ok a (repeat [] BIN_INDICES).
Proof.
  intros Hc. split; [rewrite Hc; reflexivity|]. split; [reflexivity|]. split.
  - intros l Hl. apply repeat_spec in Hl. subst l. exact I.
  - split; [constructor|]. split; intros x; simpl; tauto.
Qed.

Lemma nth_repeat_nil (i : nat) (n : nat) : nth i (repeat (@nil Z) n) [] = [].
Proof.
  revert i; induction n as [|n IH]; intros [|i]; simpl; auto.
Qed.

(** The state the constructor builds for an even pool size: one free chunk
    over the whole pool, linked alone in the bin of its size. *)
Lemma Allocator_new_spec (P : Z) :
  20 <= P < 4294967296 -> P mod 2 = 0 ->
  exists a bl, Allocator_new P = Some a
    /\ msize (memory a) = P
    /\ tags a (mkChunk 0 P false)
    /\ bins_ok a bl
    /\ cover [mkChunk 0 P false] bl
    /\ finalPrevIsUsed a = false
    /\ freeBlocks a = 1 /\ usedBlocks a = 0 /\ usedMem a = 0 /\ freeMem a = P
    /\ merges a = 0 /\ allocations a = 0 /\ frees a = 0 /\ fails a = 0.
Proof.
  intros HP He. unfold Allocator_new, GetChunkAbsolute.
  rewrite (RoundUp_pred_even P) by (auto; lia).
  set (a0 := mkAllocator (repeat 0 (Z.to_nat P)) (repeat InvalidSize BIN_INDICES)
               false 0 0 0 0 0 0 0 0).
  assert (Hz0 : msize (memory a0) = P) by (apply msize_repeat; lia).
  destruct (WriteHeaderAndFooter_spec a0 0 P false)
    as (a1 & Ha1 & Hz1 & Hb1 & Hst1 & Hg1 & _ & Hn1 & Hfoot1 & _); try lia.
  rewrite Ha1. cbn [obind].
  destruct (Z.ltb_spec (0 + P) (msize (memory a0))) as [?|_]; [lia|].
  destruct (store32_some (memory a1) (0 + 8) 0) as [m1 Hm1]; try lia.
  unfold set_prevOffset, set_nextOffset. rewrite Hm1. cbn [obind].
  pose proof (store32_msize _ _ _ _ Hm1) as Hzm1.
  destruct (store32_some m1 (0 + 4) 0) as [m2 Hm2]; try lia.
  rewrite Hm2. cbn [obind].
  pose proof (store32_msize _ _ _ _ Hm2) as Hzm2.
  set (a2 := set_freeMem (set_freeBlocks (set_memory a1 m2) 1) P).
  assert (Hg2 : GetSize (memory a2) 0 = Some P).
  { simpl. rewrite (GetSize_store_other _ _ _ _ _ Hm2) by lia.
    rewrite (GetSize_store_other _ _ _ _ _ Hm1) by lia. exact Hg1. }
  assert (Hfoot2 : load32 (memory a2) (0 + P - 4) = Some P).
  { simpl. rewrite (load32_store32_other _ _ _ _ _ Hm2) by lia.
    rewrite (load32_store32_other _ _ _ _ _ Hm1) by lia. auto. }
  assert (Hz2 : msize (memory a2) = P) by (simpl; lia).
  assert (Hbins2 : bins_ok a2 (repeat [] BIN_INDICES)).
  { apply bins_ok_empty. simpl. rewrite Hb1. reflexivity. }
  assert (Hidx : 0 <= GetIndex P < 17) by (apply GetIndex_range; lia).
  destruct (AddToFreeList_spec a2 (repeat [] BIN_INDICES) 0 P Hbins2)
    as (a3 & bl & Ha3 & Hbins3 & Hmem3 & Hz3 & Hfin3 & Hst3 & Hfr3); auto; try lia.
  { split; [repeat constructor; simpl; tauto|]. split.
    - intros x [<-|[]]. lia.
    - intros x y [<-|[]] [<-|[]]. now left. }
  exists a3, bl. split; [exact Ha3|]. split; [lia|].
  assert (Hfr3' : forall b, 0 <= b -> b < 4 \/ 12 <= b ->
            byte_at (memory a3) b = byte_at (memory a2) b).
  { intros b Hb0 Hb. apply Hfr3; [exact Hb0|]. intros y [<-|[]]. lia. }
  split.
  { unfold tags; simpl off; simpl csz; simpl used. rewrite Hz3, Hz2.
    split; [|split].
    - rewrite <- Hg2. apply GetSize_frame; [lia|]. intros b Hb. apply Hfr3'; lia.
    - destruct (Z.ltb_spec (0 + P) P); [lia|]. rewrite Hfin3. simpl. exact Hn1.
    - intros _. rewrite <- Hfoot2. apply load32_frame; [lia|].
      intros b Hb. apply Hfr3'; lia. }
  split; [exact Hbins3|]. split.
  { intros i x. rewrite Hmem3, nth_repeat_nil. split.
    - intros [[]|[-> ->]]. exists (mkChunk 0 P false). simpl.
      split; [now left|]. split; [reflexivity|lia].
    - intros (c & [<-|[]] & Ho & Hi). simpl in *. right. split; [auto|lia]. }
  destruct Hst1 as (S1 & S2 & S3 & S4 & S5 & S6 & S7 & S8).
  destruct Hst3 as (T1 & T2 & T3 & T4 & T5 & T6 & T7 & T8).
  simpl in *. rewrite Hfin3, T1, T2, T3, T4, T5, T6, T7, T8. simpl.
  rewrite Hn1, S2, S4, S5, S6, S7, S8. repeat split; reflexivity.
Qed.

End Constructor.

(** * The fit search *)

Section FitSearch.

Lemma scan_bin_S (f : nat) (m : Mem) (start cur need : Z) :
  scan_bin (S f) m start cur need =
    (sz <- GetSize m cur ;;
     if sz >=? need then Some (Some cur)
     else nx <- nextOffset m cur ;;
          if GetChunkAbsolute nx =? start then Some None
          else scan_bin f m start (GetChunkAbsolute nx) need).
Proof. reflexivity. Qed.

(** One bin: the walk from [cur] along the rest [l2] of the circle of [h]
    returns the first node that fits, or none when none fits. *)
Lemma scan_bin_spec (m : Mem) (h need : Z) (l2 : list Z) :
  forall (cur : Z) (fuel : nat),
  path m (cur :: l2 ++ [h]) -> ~ In h l2 ->
  (forall x, In x (cur :: l2) -> exists s, GetSize m x = Some s) ->
  (length l2 < fuel)%nat ->
  (exists x s, In x (cur :: l2) /\ GetSize m x = Some s /\ need <= s
               /\ scan_bin fuel m h cur need = Some (Some x))
  \/ (scan_bin fuel m h cur need = Some None
      /\ forall x, In x (cur :: l2) -> exists s, GetSize m x = Some s /\ s < need).
Proof.
  induction l2 as [|y l2 IH]; intros cur fuel Hp Hh Hsz Hf.
  - destruct fuel as [|f]; [simpl in Hf; lia|].
    destruct (Hsz cur (or_introl eq_refl)) as [s Hs].
    rewrite scan_bin_S, Hs. cbn [obind]. rewrite geb_ltb.
    destruct (Z.ltb_spec s need) as [Hlt|Hge]; cbn [negb].
    + right. simpl app in Hp. rewrite path_cons2 in Hp. destruct Hp as (Hn & _).
      rewrite Hn. cbn [obind]. unfold GetChunkAbsolute. rewrite Z.eqb_refl.
      split; [reflexivity|]. intros x [<-|[]]. eauto.
    + left. exists cur, s. repeat split; auto. now left.
  - destruct fuel as [|f]; [simpl in Hf; lia|].
    destruct (Hsz cur (or_introl eq_refl)) as [s Hs].
    rewrite scan_bin_S, Hs. cbn [obind]. rewrite geb_ltb.
    destruct (Z.ltb_spec s need) as [Hlt|Hge]; cbn [negb].
    + change (cur :: (y :: l2) ++ [h]) with (cur :: y :: (l2 ++ [h])) in Hp.
      rewrite path_cons2 in Hp. destruct Hp as (Hn & _ & Hp).
      rewrite Hn. cbn [obind]. unfold GetChunkAbsolute.
      destruct (Z.eqb_spec y h) as [->|Hne]; [exfalso; apply Hh; now left|].
      destruct (IH y f Hp) as [(x & s' & Hx & Hs' & Hfit & Hscan)|(Hscan & Hnone)].
      * intros Hin. apply Hh. now right.
      * intros x Hx. apply Hsz. now right.
      * simpl in Hf. lia.
      * left. exists x, s'. repeat split; auto. now right.
      * right. split; [exact Hscan|]. intros x [<-|Hx]; [eauto|]. now apply Hnone.
    + left. exists cur, s. repeat split; auto. now left.
Qed.

Lemma scan_bins_S (n : nat) (a : Allocator) (k need : Z) :
  scan_bins (S n) a k need =
    (offset <- bin_get a k ;;
     r <- (if offset =? InvalidSize then Some None
           else scan_bin (S (length (memory a))) (memory a)
                  (GetChunkAbsolute offset) (GetChunkAbsolute offset) need) ;;
     match r with
     | Some c => Some (Some c)
     | None => scan_bins n a (k + 1) need
     end).
Proof. reflexivity. Qed.

Lemma nodes_count (P : Z) (L : list Z) :
  nodes_ok P L -> (length L <= Z.to_nat P)%nat.
Proof.
  intros (Hnd & Hb & _).
  assert (Hnd' : NoDup (map Z.to_nat L)).
  { apply NoDup_map_NoDup_ForallPairs; [|exact Hnd].
    intros x y Hx Hy E. destruct (Hb x Hx), (Hb y Hy). lia. }
  assert (Hi : incl (map Z.to_nat L) (seq 0 (Z.to_nat P))).
  { intros k Hk. apply in_map_iff in Hk. destruct Hk as (x & <- & Hx).
    destruct (Hb x Hx). apply in_seq. lia. }
  pose proof (NoDup_incl_length Hnd' Hi) as Hl.
  now rewrite length_map, length_seq in Hl.
Qed.

(** All bins from [k] up. *)
Lemma scan_bins_spec (a : Allocator) (bl : list (list Z)) (need : Z) :
  bins_ok a bl -> msize (memory a) < 4294967296 ->
  (forall x, In x (concat bl) -> exists s, GetSize (memory a) x = Some s) ->
  forall (n : nat) (k : Z), 0 <= k -> k + Z.of_nat n = 17 ->
  (exists x s j, k <= Z.of_nat j < 17 /\ In x (nth j bl [])
                 /\ GetSize (memory a) x = Some s /\ need <= s
                 /\ scan_bins n a k need = Some (Some x))
  \/ (scan_bins n a k need = Some None
      /\ forall j x, k <= Z.of_nat j < 17 -> In x (nth j bl []) ->
           exists s, GetSize (memory a) x = Some s /\ s < need).
Proof.
  intros Hbins HP Hsz. pose proof Hbins as (Hcb & Hlen & Hcyc & Hnodes).
  induction n as [|n IH]; intros k Hk Hkn.
  - right. split; [reflexivity|]. intros j x Hj. lia.
  - rewrite scan_bins_S.
    rewrite (bin_get_spec a bl) by (rewrite ?Hlen; unfold BIN_INDICES; auto; lia).
    cbn [obind].
    set (l := nth (Z.to_nat k) bl []).
    assert (Hl_in : forall x, In x l -> In x (concat bl))
      by (intros x Hx; eapply in_nth_concat; eauto).
    assert (Hrest : forall r,
      (r = None -> forall x, In x l -> exists s, GetSize (memory a) x = Some s /\ s < need) ->
      (forall c, r = Some c -> exists s, In c l /\ GetSize (memory a) c = Some s /\ need <= s) ->
      (exists x s j, k <= Z.of_nat j < 17 /\ In x (nth j bl [])
                 /\ GetSize (memory a) x = Some s /\ need <= s
                 /\ match r with
                    | Some c => Some (Some c)
                    | None => scan_bins n a (k + 1) need
                    end = Some (Some x))
      \/ (match r with
          | Some c => Some (Some c)
          | None => scan_bins n a (k + 1) need
          end = Some None
          /\ forall j x, k <= Z.of_nat j < 17 -> In x (nth j bl []) ->
               exists s, GetSize (memory a) x = Some s /\ s < need)).
    { intros [c|] Hnone Hsome.
      - left. destruct (Hsome c eq_refl) as (s & Hc & Hs & Hfit).
        exists c, s, (Z.to_nat k). repeat split; auto; lia.
      - destruct (IH (k + 1)) as [(x & s & j & Hj & Hx & Hs & Hfit & Hscan)|(Hscan & Hno)];
          try lia.
        + left. exists x, s, j. repeat split; auto; lia.
        + right. split; [exact Hscan|]. intros j x Hj Hx.
          destruct (Z.eq_dec (Z.of_nat j) k) as [E|Hne].
          * apply Hnone; auto. unfold l. rewrite <- E, Nat2Z.id. exact Hx.
          * apply (Hno j); auto. lia. }
    destruct l as [|h t] eqn:El.
    + simpl bin_head. rewrite Z.eqb_refl. cbn [obind].
      apply (Hrest None); [intros _ x []|discriminate].
    + simpl bin_head.
      destruct Hnodes as (Hnd & Hb & Hsep).
      destruct (Hb h (Hl_in h (or_introl eq_refl))) as [Hh0 Hh12].
      destruct (Z.eqb_spec h InvalidSize) as [E|_]; [unfold InvalidSize in E; lia|].
      unfold GetChunkAbsolute.
      assert (Hndl : NoDup (h :: t)).
      { assert (Hi : (Z.to_nat k < length bl)%nat) by (rewrite Hlen; unfold BIN_INDICES; lia).
        destruct (nth_split bl [] Hi) as (B1 & B2 & Ebl & _). fold l in Ebl. rewrite El in Ebl.
        rewrite Ebl, concat_middle in Hnd. apply NoDup_app_remove_l in Hnd.
        now apply NoDup_app_remove_r in Hnd. }
      assert (Hcl : cyc (memory a) (h :: t)).
      { apply Hcyc. rewrite <- El. apply nth_In. rewrite Hlen. unfold BIN_INDICES. lia. }
      assert (Hfuel : (length t < S (length (memory a)))%nat).
      { pose proof (nodes_count _ _ (conj Hnd (conj Hb Hsep))) as Hc.
        assert (length (h :: t) <= length (concat bl))%nat.
        { apply NoDup_incl_length; [exact Hndl|]. intros x Hx. now apply Hl_in. }
        unfold msize in Hc. rewrite Nat2Z.id in Hc. simpl in H. lia. }
      destruct (scan_bin_spec (memory a) h need t h (S (length (memory a))))
        as [(x & s & Hx & Hs & Hfit & Hscan)|(Hscan & Hnone)].
      * exact Hcl.
      * inversion Hndl; assumption.
      * intros x Hx. apply Hsz. now apply Hl_in.
      * exact Hfuel.
      * rewrite Hscan. cbn [obind]. apply (Hrest (Some x)); [discriminate|].
        intros c [= <-]. exists s. auto.
      * rewrite Hscan. cbn [obind]. apply (Hrest None); [intros _; exact Hnone|discriminate].
Qed.

Lemma GetIndex_mono (x y : Z) : 1 <= x <= y -> GetIndex x <= GetIndex y.
Proof.
  intros H. unfold GetIndex. change ((33 - 1) / 2) with 16.
  destruct (Z.ltb_spec x 33), (Z.ltb_spec y 33); try lia.
  - unfold u32. rewrite !Z.mod_small by lia. apply Z.div_le_mono; lia.
  - unfold u32. rewrite Z.mod_small by lia.
    pose proof (Z.div_mod (x - 1) 2 ltac:(lia)).
    pose proof (Z.mod_pos_bound (x - 1) 2 ltac:(lia)). lia.
Qed.

End FitSearch.

(** * Frames for the bin table *)

Section BinFrames.

Lemma in_concat_nth (bl : list (list Z)) (x : Z) :
  In x (concat bl) -> exists i, In x (nth i bl []).
Proof.
  intros H. apply in_concat in H. destruct H as (l & Hl & Hx).
  destruct (In_nth _ _ [] Hl) as (i & _ & E). exists i. now rewrite E.
Qed.

(** The nodes in the bins are offsets of chunks of the cover. *)
Lemma cover_nodes (fl : list chunk) (bl : list (list Z)) (x : Z) :
  cover fl bl -> In x (concat bl) -> exists c, In c fl /\ off c = x.
Proof.
  intros Hc Hx. destruct (in_concat_nth _ _ Hx) as (i & Hi).
  apply Hc in Hi. destruct Hi as (c & Hcin & Ho & _). eauto.
Qed.

Lemma cover_in (fl : list chunk) (bl : list (list Z)) (c : chunk) :
  cover fl bl -> In c fl -> 0 <= GetIndex (csz c) ->
  In (off c) (nth (Z.to_nat (GetIndex (csz c))) bl []).
Proof.
  intros Hc Hin Hi. apply Hc. exists c. repeat split; auto. lia.
Qed.

Lemma bins_ok_frame (a a' : Allocator) (bl : list (list Z)) :
  bins_ok a bl -> chunkBins a' = chunkBins a ->
  msize (memory a') = msize (memory a) ->
  (forall x b, In x (concat bl) -> x + 4 <= b < x + 12 ->
     byte_at (memory a') b = byte_at (memory a) b) ->
  bins_ok a' bl.
Proof.
  intros (Hcb & Hlen & Hcyc & Hnodes) Hcb' Hz Hfr.
  split; [congruence|]. split; [exact Hlen|]. split.
  - intros l Hl. eapply cyc_frame; [apply Hcyc; exact Hl|].
    intros x Hx. apply field_frame; [exact Hz|]. intros b Hb.
    apply (Hfr x); [|exact Hb]. apply in_concat. eauto.
  - now rewrite Hz.
Qed.

Lemma in_free_chunks (cl : list chunk) (c : chunk) :
  In c (free_chunks cl) <-> In c cl /\ used c = false.
Proof.
  unfold free_chunks. rewrite filter_In. unfold is_free.
  destruct (used c); simpl; intuition congruence.
Qed.

Lemma in_used_chunks (cl : list chunk) (c : chunk) :
  In c (used_chunks cl) <-> In c cl /\ used c = true.
Proof. unfold used_chunks. now rewrite filter_In. Qed.

Lemma free_chunks_app (l1 l2 : list chunk) :
  free_chunks (l1 ++ l2) = free_chunks l1 ++ free_chunks l2.
Proof. apply filter_app. Qed.

Lemma used_chunks_app (l1 l2 : list chunk) :
  used_chunks (l1 ++ l2) = used_chunks l1 ++ used_chunks l2.
Proof. apply filter_app. Qed.

(** A byte outside every chunk that is free, or inside the header or the
    last word of a chunk, is not a link byte of a node of the cover. *)
Lemma not_link_of_nodes (cl : list chunk) (P : Z) (bl : list (list Z)) (b : Z) :
  contig 0 cl P -> Forall size_ok cl -> cover (free_chunks cl) bl ->
  (forall c, In c cl -> used c = false ->
     b < off c + 4 \/ off c + 12 <= b) ->
  forall y, In y (concat bl) -> b < y + 4 \/ y + 12 <= b.
Proof.
  intros Hc Hs Hcov Hb y Hy.
  destruct (cover_nodes _ _ _ Hcov Hy) as (c & Hcin & <-).
  apply in_free_chunks in Hcin. destruct Hcin. auto.
Qed.

End BinFrames.

(** * The allocator invariant without coalescing *)

Lemma alloc_inv_pool_inv (a : Allocator) (cl : list chunk) (bl : list (list Z)) :
  alloc_inv a cl bl <-> pool_inv a cl bl /\ no_adjacent_free cl.
Proof. unfold alloc_inv, pool_inv. tauto. Qed.

(** * Steps on the pool *)

Section PoolSteps.

(** Changes confined to link fields of chunks keep all tags. *)
Lemma tags_links (a a' : Allocator) (cl : list chunk) :
  contig 0 cl (msize (memory a)) -> Forall size_ok cl ->
  msize (memory a') = msize (memory a) ->
  finalPrevIsUsed a' = finalPrevIsUsed a ->
  (forall b, 0 <= b ->
     (forall y, In y cl -> b < off y + 4 \/ off y + 12 <= b) ->
     byte_at (memory a') b = byte_at (memory a) b) ->
  forall x, In x cl -> tags a x -> tags a' x.
Proof.
  intros Hc Hs Hz Hfin Hfr x Hx Ht.
  assert (Hhdr : forall y b, In y cl ->
            off y <= b < off y + 4 \/ off y + csz y - 4 <= b < off y + csz y ->
            byte_at (memory a') b = byte_at (memory a) b).
  { intros y b Hy Hb.
    destruct (contig_bounds _ _ _ _ Hc Hs Hy) as [Hy0 Hy1].
    pose proof Hs as Hs'. rewrite Forall_forall in Hs'. destruct (Hs' _ Hy) as [Hy16 _].
    apply Hfr; [lia|]. intros z Hzin. destruct (Hs' _ Hzin) as [Hz16 _].
    destruct (contig_disjoint _ _ _ _ _ Hc Hs Hy Hzin) as [->|[?|?]]; lia. }
  pose proof Hs as Hs'. rewrite Forall_forall in Hs'. destruct (Hs' _ Hx) as [Hx16 _].
  apply (tags_transfer a a'); auto.
  - apply GetSize_frame; [exact Hz|]. intros b Hb. apply (Hhdr x); auto.
  - intros Hlt. destruct (contig_next _ _ _ _ Hc Hs Hx Hlt) as (y & Hy & Ey).
    destruct (Hs' _ Hy) as [Hy16 _].
    apply IsPrevUsed_frame; [exact Hz|]. intros b Hb. apply (Hhdr y); auto. lia.
  - intros Hu. apply load32_frame; [exact Hz|]. intros b Hb. apply (Hhdr x); auto. lia.
Qed.

(** Writing the header of a chunk over the region [r0, r1). *)
Lemma WHF_region (a : Allocator) (l1 olds l2 : list chunk) (r0 r1 : Z) (isUsed : bool) :
  msize (memory a) < 4294967296 ->
  contig 0 (l1 ++ olds ++ l2) (msize (memory a)) ->
  Forall size_ok (l1 ++ olds ++ l2) ->
  contig 0 l1 r0 -> contig r1 l2 (msize (memory a)) ->
  16 <= r1 - r0 -> (r1 - r0) mod 2 = 0 ->
  exists a', WriteHeaderAndFooter a r0 (r1 - r0) isUsed = Some a'
    /\ msize (memory a') = msize (memory a)
    /\ chunkBins a' = chunkBins a
    /\ stats_eq a a'
    /\ tags a' (mkChunk r0 (r1 - r0) isUsed)
    /\ (forall x, In x (l1 ++ l2) -> tags a x -> tags a' x)
    /\ (forall b, 0 <= b -> b < r0 \/ r0 + 4 <= b -> b < r1 \/ r1 + 4 <= b ->
          isUsed = true \/ b < r1 - 4 \/ r1 <= b ->
          byte_at (memory a') b = byte_at (memory a) b)
    /\ IsPrevUsed (memory a') r0 = IsPrevUsed (memory a) r0
    /\ (r1 < msize (memory a) -> finalPrevIsUsed a' = finalPrevIsUsed a).
Proof.
  intros HP Hc Hs Hc1 Hc2 H16 Hev.
  assert (Hs1 : Forall size_ok l1) by (apply Forall_app in Hs; tauto).
  assert (Hs2 : Forall size_ok l2).
  { apply Forall_app in Hs. destruct Hs as [_ Hs]. apply Forall_app in Hs. tauto. }
  pose proof (contig_le _ _ _ Hc1 Hs1) as Hr0.
  pose proof (contig_le _ _ _ Hc2 Hs2) as Hr1.
  assert (Hnext : r1 < msize (memory a) -> r1 + 16 <= msize (memory a)).
  { intros Hlt. destruct l2 as [|f l2]; [simpl in Hc2; lia|].
    simpl in Hc2. destruct Hc2 as [Ef Hc2].
    inversion Hs2 as [|? ? [Hf16 _] Hs2']; subst.
    pose proof (contig_le _ _ _ Hc2 Hs2'). lia. }
  destruct (WriteHeaderAndFooter_spec a r0 (r1 - r0) isUsed)
    as (a' & Ha' & Hz & Hb & Hst & Hg & Hf & Hn & Hfoot & Hfr); try lia.
  replace (r0 + (r1 - r0)) with r1 in * by lia.
  exists a'. split; [exact Ha'|]. split; [exact Hz|]. split; [exact Hb|].
  split; [exact Hst|].
  assert (Hfin : r1 < msize (memory a) -> finalPrevIsUsed a' = finalPrevIsUsed a).
  { intros Hlt. destruct (Z.ltb_spec r1 (msize (memory a))); [tauto|lia]. }
  split.
  { unfold tags. simpl off; simpl csz; simpl used.
    replace (r0 + (r1 - r0)) with r1 by lia. rewrite Hz.
    split; [exact Hg|]. split; [|exact Hfoot].
    destruct (Z.ltb_spec r1 (msize (memory a))); tauto. }
  split.
  { apply (tags_outside a a' l1 olds l2 r0 r1); auto; try lia.
    - intros b Hb0 Hbr _. apply Hfr; auto; lia.
    - intros Hlt. destruct (Z.ltb_spec r1 (msize (memory a))); [tauto|lia]. }
  split; [exact Hfr|]. split; [exact Hf|exact Hfin].
Qed.

(** Unlinking a chunk of the cover from its bin. *)
Lemma remove_chunk (a : Allocator) (cl fl : list chunk) (bl : list (list Z)) (c : chunk) :
  msize (memory a) < 4294967296 ->
  contig 0 cl (msize (memory a)) -> Forall size_ok cl -> incl fl cl ->
  bins_ok a bl -> cover fl bl -> In c fl ->
  GetSize (memory a) (off c) = Some (csz c) ->
  exists a' bl', RemoveFromFreeList a (off c) = Some a'
    /\ bins_ok a' bl'
    /\ (forall fl', (forall x, In x fl' <-> In x fl /\ off x <> off c) -> cover fl' bl')
    /\ msize (memory a') = msize (memory a)
    /\ finalPrevIsUsed a' = finalPrevIsUsed a
    /\ stats_eq a a'
    /\ (forall b, 0 <= b ->
          (forall x, In x fl -> b < off x + 4 \/ off x + 12 <= b) ->
          byte_at (memory a') b = byte_at (memory a) b).
Proof.
  intros HP Hc Hs Hincl Hbins Hcov Hin Hg.
  pose proof Hs as Hs'. rewrite Forall_forall in Hs'.
  destruct (Hs' c (Hincl c Hin)) as [H16 _].
  pose proof (GetIndex_range (csz c) ltac:(lia)) as Hidx.
  destruct (RemoveFromFreeList_spec a bl (off c) (csz c) Hbins HP Hg Hidx)
    as (a' & bl' & Ha' & Hbins' & Hmem & Hz & Hfin & Hst & Hfr).
  { apply (cover_in fl); auto. lia. }
  exists a', bl'. split; [exact Ha'|]. split; [exact Hbins'|]. split.
  { intros fl' Hfl'. eapply cover_remove; eauto. }
  split; [exact Hz|]. split; [exact Hfin|]. split; [exact Hst|].
  intros b Hb0 Hb. apply Hfr; [exact Hb0|]. intros y Hy.
  destruct (cover_nodes _ _ _ Hcov Hy) as (x & Hx & <-). auto.
Qed.

(** Linking a chunk that is not in the cover into the bin of its size. *)
Lemma add_chunk (a : Allocator) (cl fl : list chunk) (bl : list (list Z)) (c : chunk) :
  msize (memory a) < 4294967296 ->
  contig 0 cl (msize (memory a)) -> Forall size_ok cl -> incl fl cl ->
  bins_ok a bl -> cover fl bl -> In c cl ->
  (forall x, In x fl -> off x <> off c) ->
  GetSize (memory a) (off c) = Some (csz c) ->
  exists a' bl', AddToFreeList a (off c) = Some a'
    /\ bins_ok a' bl'
    /\ (forall fl', (forall x, In x fl' <-> In x fl \/ x = c) -> cover fl' bl')
    /\ msize (memory a') = msize (memory a)
    /\ finalPrevIsUsed a' = finalPrevIsUsed a
    /\ stats_eq a a'
    /\ (forall b, 0 <= b ->
          (forall x, In x (c :: fl) -> b < off x + 4 \/ off x + 12 <= b) ->
          byte_at (memory a') b = byte_at (memory a) b).
Proof.
  intros HP Hc Hs Hincl Hbins Hcov Hin Hnew Hg.
  pose proof Hs as Hs'. rewrite Forall_forall in Hs'.
  destruct (Hs' c Hin) as [H16 _].
  pose proof (GetIndex_range (csz c) ltac:(lia)) as Hidx.
  destruct (AddToFreeList_spec a bl (off c) (csz c) Hbins HP Hg Hidx)
    as (a' & bl' & Ha' & Hbins' & Hmem & Hz & Hfin & Hst & Hfr).
  { apply (nodes_of_chunks cl); auto.
    - constructor; [|destruct Hbins as (_ & _ & _ & Hn & _); exact Hn].
      intros Hx. destruct (cover_nodes _ _ _ Hcov Hx) as (x & Hxin & Ex).
      now apply (Hnew x).
    - intros x [<-|Hx]; [eauto|].
      destruct (cover_nodes _ _ _ Hcov Hx) as (y & Hy & <-). eauto. }
  exists a', bl'. split; [exact Ha'|]. split; [exact Hbins'|]. split.
  { intros fl' Hfl'. eapply cover_add; eauto. lia. }
  split; [exact Hz|]. split; [exact Hfin|]. split; [exact Hst|].
  intros b Hb0 Hb. apply Hfr; [exact Hb0|]. intros y [<-|Hy].
  - apply Hb. now left.
  - destruct (cover_nodes _ _ _ Hcov Hy) as (x & Hx & <-). apply Hb. now right.
Qed.

End PoolSteps.


(** * AllocPtr *)

Section AllocPtr.

Lemma minFreeSize_val : minFreeSize = 16.
Proof. reflexivity. Qed.

Lemma bytesNeeded_range (n : Z) :
  16 <= bytesNeeded n < 4294967296 /\ bytesNeeded n mod 2 = 0.
Proof.
  unfold bytesNeeded. rewrite minFreeSize_val.
  set (r := RoundUp (u32 (n + sizeofSize))).
  assert (Hr : 0 <= r < 4294967296 /\ r mod 2 = 0).
  { unfold r, RoundUp. set (x := u32 (n + sizeofSize)).
    assert (Hx : 0 <= x < 4294967296) by (apply Z.mod_pos_bound; lia).
    rewrite land_one.
    pose proof (Z.mod_pos_bound x 2 ltac:(lia)) as Hm.
    pose proof (Z.div_mod x 2 ltac:(lia)) as Hd.
    assert (Hc : x mod 2 = 0 \/ x mod 2 = 1) by lia.
    destruct Hc as [E|E]; rewrite E.
    - rewrite Z.add_0_r. unfold u32. rewrite Z.mod_small by lia.
      split; [lia|exact E].
    - destruct (Z.eq_dec x 4294967295) as [Ex|Hne];
        [rewrite Ex; change (u32 (4294967295 + 1)) with 0; split; [lia|reflexivity]|].
      unfold u32. rewrite Z.mod_small by lia. split; [lia|].
      symmetry. apply Z.mod_unique with (q := x / 2 + 1); lia. }
  destruct (Z.ltb_spec r 16); [split; [lia|reflexivity]|]. split; [lia|tauto].
Qed.

Lemma u32_small (x : Z) : 0 <= x < 4294967296 -> u32 x = x.
Proof. intros H. unfold u32. now apply Z.mod_small. Qed.

(** Without wrap-around the chunk holds the request and its header. *)
Lemma bytesNeeded_fits (n : Z) :
  0 <= n -> n + 4 < 4294967295 -> n + 4 <= bytesNeeded n.
Proof.
  intros H0 H1. unfold bytesNeeded, sizeofSize. rewrite minFreeSize_val.
  rewrite (u32_small (n + 4)) by lia.
  assert (Hr : n + 4 <= RoundUp (n + 4)).
  { unfold RoundUp. rewrite land_one.
    pose proof (Z.mod_pos_bound (n + 4) 2 ltac:(lia)).
    rewrite u32_small by lia. lia. }
  destruct (Z.ltb_spec (RoundUp (n + 4)) 16); lia.
Qed.

Lemma toInt_small (x : Z) : 0 <= x < 2147483648 -> toInt (u32 x) = x.
Proof.
  intros H. unfold u32. rewrite Z.mod_small by lia. unfold toInt.
  destruct (Z.ltb_spec x 2147483648); lia.
Qed.


Lemma tags_same_mem (a a' : Allocator) (c : chunk) :
  memory a' = memory a -> finalPrevIsUsed a' = finalPrevIsUsed a ->
  tags a c -> tags a' c.
Proof. unfold tags. intros -> ->. tauto. Qed.

Lemma bins_ok_same_mem (a a' : Allocator) (bl : list (list Z)) :
  memory a' = memory a -> chunkBins a' = chunkBins a ->
  bins_ok a bl -> bins_ok a' bl.
Proof. unfold bins_ok. intros -> ->. tauto. Qed.

(** The chunks around a chunk of the layout. *)
Lemma split_around (cl : list chunk) (P : Z) (c : chunk) :
  contig 0 cl P -> Forall size_ok cl -> In c cl ->
  exists l1 l2, cl = l1 ++ c :: l2
    /\ contig 0 l1 (off c) /\ contig (off c + csz c) l2 P
    /\ Forall size_ok l1 /\ Forall size_ok l2
    /\ (forall x, In x l1 -> off x + csz x <= off c)
    /\ (forall x, In x l2 -> off c + csz c <= off x)
    /\ (forall x, In x cl <-> In x l1 \/ x = c \/ In x l2).
Proof.
  intros Hc Hs Hin. destruct (contig_split _ _ _ _ Hc Hin) as (l1 & l2 & E & H1 & H2).
  subst cl. exists l1, l2.
  assert (Hs1 : Forall size_ok l1) by (apply Forall_app in Hs; tauto).
  assert (Hs2 : Forall size_ok l2).
  { apply Forall_app in Hs. destruct Hs as [_ Hs]. inversion Hs; assumption. }
  repeat split; auto.
  - intros x Hx. destruct (contig_bounds _ _ _ _ H1 Hs1 Hx). lia.
  - intros x Hx. destruct (contig_bounds _ _ _ _ H2 Hs2 Hx). lia.
  - intros Hx. apply in_app_or in Hx. destruct Hx as [Hx|[Hx|Hx]]; auto.
  - intros [Hx|[Hx|Hx]]; apply in_or_app; [now left|right; now left|right; now right].
Qed.


Lemma contig_replace (l1 olds news l2 : list chunk) (P : Z) :
  contig 0 (l1 ++ olds ++ l2) P ->
  (forall lo hi, contig lo olds hi -> contig lo news hi) ->
  contig 0 (l1 ++ news ++ l2) P.
Proof.
  intros H Hn. apply contig_app in H. destruct H as (m1 & H1 & H).
  apply contig_app in H. destruct H as (m2 & H2 & H3).
  apply contig_app. exists m1. split; [exact H1|].
  apply contig_app. exists m2. split; [auto|exact H3].
Qed.

Lemma length_free_used (cl : list chunk) :
  (length (free_chunks cl) + length (used_chunks cl) = length cl)%nat.
Proof.
  induction cl as [|c cl IH]; [reflexivity|].
  unfold free_chunks, used_chunks, is_free in *. simpl.
  destruct (used c); simpl; lia.
Qed.

Lemma sum_free_used (cl : list chunk) :
  sum_sizes (free_chunks cl) + sum_sizes (used_chunks cl) = sum_sizes cl.
Proof.
  induction cl as [|c cl IH]; [reflexivity|].
  unfold free_chunks, used_chunks, is_free in *. simpl.
  destruct (used c); simpl; lia.
Qed.

Lemma Forall_size_filter (f : chunk -> bool) (cl : list chunk) :
  Forall size_ok cl -> Forall size_ok (filter f cl).
Proof.
  intros H. rewrite Forall_forall in *. intros x Hx. apply filter_In in Hx. apply H. tauto.
Qed.

(** Counters of a layout are small. *)
Lemma layout_counts (cl : list chunk) (P : Z) :
  contig 0 cl P -> Forall size_ok cl ->
  16 * Z.of_nat (length (free_chunks cl)) <= sum_sizes (free_chunks cl)
  /\ 16 * Z.of_nat (length (used_chunks cl)) <= sum_sizes (used_chunks cl)
  /\ sum_sizes (free_chunks cl) + sum_sizes (used_chunks cl) = P
  /\ 0 <= sum_sizes (free_chunks cl) /\ 0 <= sum_sizes (used_chunks cl).
Proof.
  intros Hc Hs. apply contig_sum in Hc. rewrite sum_free_used.
  pose proof (sum_sizes_count _ (Forall_size_filter is_free cl Hs)).
  pose proof (sum_sizes_count _ (Forall_size_filter used cl Hs)).
  fold (free_chunks cl) in *. fold (used_chunks cl) in *.
  repeat split; lia.
Qed.



Lemma toInt_id (x : Z) : 0 <= x < 2147483648 -> toInt x = x.
Proof. intros H. unfold toInt. destruct (Z.ltb_spec x 2147483648); lia. Qed.

Lemma free_chunks_mid (l1 l2 : list chunk) (x : chunk) :
  free_chunks (l1 ++ x :: l2)
  = free_chunks l1 ++ (if used x then [] else [x]) ++ free_chunks l2.
Proof.
  rewrite free_chunks_app. f_equal. unfold free_chunks, is_free. simpl.
  destruct (used x); reflexivity.
Qed.

Lemma used_chunks_mid (l1 l2 : list chunk) (x : chunk) :
  used_chunks (l1 ++ x :: l2)
  = used_chunks l1 ++ (if used x then [x] else []) ++ used_chunks l2.
Proof.
  rewrite used_chunks_app. f_equal. unfold used_chunks. simpl.
  destruct (used x); reflexivity.
Qed.

Lemma free_chunks_cons (l : list chunk) (x : chunk) :
  free_chunks (x :: l) = (if used x then [] else [x]) ++ free_chunks l.
Proof. unfold free_chunks, is_free. simpl. destruct (used x); reflexivity. Qed.

Lemma used_chunks_cons (l : list chunk) (x : chunk) :
  used_chunks (x :: l) = (if used x then [x] else []) ++ used_chunks l.
Proof. unfold used_chunks. simpl. destruct (used x); reflexivity. Qed.

(** Link bytes of the chunks around a region are outside the region and
    off the header that follows it. *)
Lemma links_around (l1 l2 : list chunk) (r0 r1 : Z) (y : chunk) (b : Z) :
  Forall size_ok l1 -> Forall size_ok l2 ->
  (forall x, In x l1 -> off x + csz x <= r0) ->
  (forall x, In x l2 -> r1 <= off x) ->
  In y (l1 ++ l2) -> off y + 4 <= b < off y + 12 ->
  b + 4 <= r0 \/ r1 + 4 <= b.
Proof.
  intros Hs1 Hs2 H1 H2 Hy Hb. rewrite Forall_forall in Hs1, Hs2.
  apply in_app_or in Hy. destruct Hy as [Hy|Hy].
  - destruct (Hs1 _ Hy). pose proof (H1 _ Hy). lia.
  - destruct (Hs2 _ Hy). pose proof (H2 _ Hy). lia.
Qed.

(** [AllocPtr] when the fit search returns the free chunk [c]. *)
Lemma AllocPtr_found (a : Allocator) (cl : list chunk) (bl : list (list Z))
  (c : chunk) (n : Z) :
  alloc_inv a cl bl -> In c cl -> used c = false -> bytesNeeded n <= csz c ->
  GetFreeOfSize a (bytesNeeded n) = Some (Some (off c)) ->
  exists a' cl' bl' u k,
    AllocPtr a n = Some (Some (u + 4), a')
    /\ msize (memory a') = msize (memory a)
    /\ alloc_inv a' cl' bl'
    /\ In (mkChunk u k true) cl' /\ bytesNeeded n <= k
    /\ off c <= u /\ u + k = off c + csz c
    /\ (forall x, In x cl -> x <> c -> In x cl')
    /\ (forall x, In x cl' -> used x = true ->
          x = mkChunk u k true \/ (In x cl /\ x <> c))
    /\ fails a' = fails a.
Proof.
  intros (Hpool & Hnadj & Hbins & Hcov & Hstats) Hin Hfree Hfit Hfind.
  destruct Hpool as (HP & Hne & Hc & Hs & Htags).
  pose proof (bytesNeeded_range n) as (Hn16 & Hnev). set (need := bytesNeeded n) in *.
  destruct (split_around _ _ _ Hc Hs Hin)
    as (l1 & l2 & Ecl & Hc1 & Hc2 & Hs1 & Hs2 & Hbef & Haft & Hmem).
  pose proof Hs as Hs'. rewrite Forall_forall in Hs'.
  destruct (Hs' c Hin) as [Hc16 Hcev].
  destruct (contig_bounds _ _ _ _ Hc Hs Hin) as [Ho0 Ho1].
  set (o := off c) in *. set (sz := csz c) in *.
  pose proof (Htags c Hin) as (Hg & _ & _). fold o sz in Hg.
  (* unlink the chunk *)
  destruct (remove_chunk a cl (free_chunks cl) bl c) as
    (a1 & bl1 & Ha1 & Hbins1 & Hcov1 & Hz1 & Hfin1 & Hst1 & Hfr1); auto; try lia.
  { intros x Hx. apply in_free_chunks in Hx. tauto. }
  { apply in_free_chunks. auto. }
  assert (Htags1 : forall x, In x cl -> tags a1 x).
  { intros x Hx. apply (tags_links a a1 cl); auto.
    intros b Hb0 Hb. apply Hfr1; [exact Hb0|]. intros y Hy.
    apply in_free_chunks in Hy. apply Hb. tauto. }
  assert (Hcov1' : cover (free_chunks l1 ++ free_chunks l2) bl1).
  { apply Hcov1. intros x. rewrite in_app_iff, !in_free_chunks, Hmem. fold o. split.
    - intros [[Hx Hu]|[Hx Hu]]; (split; [tauto|]).
      + pose proof (Hbef x Hx). destruct (Hs' x ltac:(apply Hmem; tauto)). lia.
      + pose proof (Haft x Hx). lia.
    - intros [[[Hx|[->|Hx]] Hu] Hne']; [tauto|exfalso; apply Hne'; reflexivity|tauto]. }
  (* the prefix of the computation *)
  unfold AllocPtr. fold need. rewrite Hfind. cbn [obind]. fold o. rewrite Hg. cbn [obind].
  assert (Hassert : assert (sz >=? need) = Some tt).
  { unfold assert. rewrite geb_ltb. destruct (Z.ltb_spec sz need); [lia|reflexivity]. }
  rewrite Hassert. cbn [obind]. fold o in Ha1. rewrite Ha1. cbn [obind].
  rewrite minFreeSize_val. rewrite (u32_small (16 + need)) by lia.
  unfold PlaceChunkRelative, userDeltaBytes, sizeofSize.
  rewrite geb_ltb.
  destruct (Z.ltb_spec sz (16 + need)) as [Hsmall|Hbig]; cbn [negb].
  - (* the whole chunk is used *)
    replace (sz - sz) with 0 by lia. change (toInt (u32 0)) with 0.
    rewrite Z.add_0_r. rewrite (toInt_id sz) by lia.
    assert (Esz : o + sz - o = sz) by lia.
    assert (W1 : msize (memory a1) < 4294967296) by lia.
    assert (W2 : contig 0 (l1 ++ [c] ++ l2) (msize (memory a1))).
    { simpl app. rewrite <- Ecl, Hz1. exact Hc. }
    assert (W3 : Forall size_ok (l1 ++ [c] ++ l2)).
    { simpl app. rewrite <- Ecl. exact Hs. }
    assert (W5 : contig (o + sz) l2 (msize (memory a1))) by (rewrite Hz1; exact Hc2).
    assert (W6 : 16 <= o + sz - o) by lia.
    assert (W7 : (o + sz - o) mod 2 = 0) by (rewrite Esz; exact Hcev).
    destruct (WHF_region a1 l1 [c] l2 o (o + sz) true W1 W2 W3 Hc1 W5 W6 W7)
      as (a2 & Ha2 & Hz2 & Hb2 & Hst2 & Htn & Hto & Hfr2 & Hf2 & Hfin2).
    clear W1 W2 W3 W5 W6 W7.
    rewrite Esz in *.
    rewrite Ha2. cbn [obind].
    set (cnew := mkChunk o sz true) in *.
    eexists _, (l1 ++ cnew :: l2), bl1, o, sz.
    split; [reflexivity|].
    split; [simpl; congruence|].
    assert (Hmem' : forall x, In x (l1 ++ cnew :: l2) <-> In x l1 \/ x = cnew \/ In x l2).
    { intros x. rewrite in_app_iff. simpl. intuition congruence. }
    assert (Hc' : contig 0 (l1 ++ cnew :: l2) (msize (memory a))).
    { apply contig_app. exists o. split; [exact Hc1|]. simpl. split; [reflexivity|exact Hc2]. }
    assert (Hsz' : Forall size_ok (l1 ++ cnew :: l2)).
    { apply Forall_app. split; [exact Hs1|]. constructor; [|exact Hs2]. split; assumption. }
    split.
    { (* the invariant *)
      split.
      { (* pool_ok *)
        split; [simpl; lia|]. split; [destruct l1; discriminate|].
        split; [simpl; rewrite Hz2, Hz1; exact Hc'|]. split; [exact Hsz'|].
        intros x Hx. apply (tags_same_mem a2); [reflexivity|reflexivity|].
        apply Hmem' in Hx. destruct Hx as [Hx|[->|Hx]].
        - apply Hto; [apply in_or_app; now left|]. apply Htags1, Hmem. tauto.
        - exact Htn.
        - apply Hto; [apply in_or_app; now right|]. apply Htags1, Hmem. tauto. }
      split.
      { (* no two adjacent free chunks *)
        intros c1 c2 H1 H2 Eo Hu. apply Hmem' in H1, H2.
        assert (H1' : In c1 cl /\ c1 <> c).
        { destruct H1 as [H1|[->|H1]]; [|discriminate|].
          - split; [apply Hmem; tauto|]. intros ->. pose proof (Hbef _ H1). fold o sz in H. lia.
          - split; [apply Hmem; tauto|]. intros ->. pose proof (Haft _ H1). fold o sz in H. lia. }
        destruct H2 as [H2|[->|H2]]; [|reflexivity|].
        - apply (Hnadj c1 c2); auto; [tauto|apply Hmem; tauto].
        - apply (Hnadj c1 c2); auto; [tauto|apply Hmem; tauto]. }
      split.
      { (* bins *)
        apply (bins_ok_same_mem a2); [reflexivity|reflexivity|].
        apply (bins_ok_frame a1); auto. intros x b Hx Hb.
        destruct (cover_nodes _ _ _ Hcov1' Hx) as (y & Hy & <-).
        assert (Hy' : In y (l1 ++ l2)).
        { apply in_app_or in Hy. apply in_or_app.
          destruct Hy as [Hy|Hy]; apply in_free_chunks in Hy; tauto. }
        destruct (links_around l1 l2 o (o + sz) y b Hs1 Hs2 Hbef Haft Hy' Hb).
        - assert (Hy0 : 0 <= off y).
          { apply in_app_or in Hy'. destruct Hy' as [H'|H'].
            - destruct (contig_bounds _ _ _ _ Hc1 Hs1 H'). lia.
            - pose proof (Haft _ H'). fold o sz in H0. lia. }
          apply Hfr2; lia.
        - apply Hfr2; lia. }
      split.
      { (* cover *)
        rewrite free_chunks_mid. exact Hcov1'. }
      (* counters *)
      destruct Hstats as (S1 & S2 & S3 & S4).
      destruct Hst1 as (A1 & A2 & A3 & A4 & _). destruct Hst2 as (B1 & B2 & B3 & B4 & _).
      pose proof (layout_counts _ _ Hc Hs) as (L1 & L2 & L3 & L4 & L5).
      pose proof (layout_counts _ _ Hc' Hsz') as (M1 & M2 & M3 & M4 & M5).
      rewrite Ecl in S1, S2, S3, S4, L1, L2, L3, L4, L5.
      rewrite free_chunks_mid, used_chunks_mid in *.
      rewrite Hfree in *. unfold cnew in *. cbn [used] in *.
      rewrite ?length_app, ?sum_sizes_app in *. cbn [length sum_sizes app csz] in *.
      fold sz in S3, S4, L3, L4, L5, L1, L2.
      unfold stats_ok. cbn [freeBlocks usedBlocks freeMem usedMem AllocationBytesUsed
                            set_allocations].
      destruct (Z.gtb_spec sz 0); [|lia].
      rewrite B1, B2, B3, B4, A1, A2, A3, A4, S1, S2, S3, S4.
      rewrite free_chunks_mid, used_chunks_mid. cbn [used].
      rewrite ?length_app, ?sum_sizes_app. cbn [length sum_sizes app csz].
      rewrite !u32_small by lia. lia. }
    split; [apply Hmem'; tauto|]. split; [lia|]. split; [lia|]. split; [lia|].
    split.
    { intros x Hx Hne'. apply Hmem'. apply Hmem in Hx. tauto. }
    split.
    { intros x Hx Hu. apply Hmem' in Hx. destruct Hx as [Hx|[->|Hx]]; [right|now left|right].
      - split; [apply Hmem; tauto|]. intros ->. congruence.
      - split; [apply Hmem; tauto|]. intros ->. congruence. }
    destruct Hst1 as (_ & _ & _ & _ & _ & _ & _ & A8).
    destruct Hst2 as (_ & _ & _ & _ & _ & _ & _ & B8).
    simpl. congruence.
  - (* the chunk is split *)
    set (rem := sz - need) in *.
    assert (Hrem : 16 <= rem /\ rem mod 2 = 0).
    { unfold rem. split; [lia|]. rewrite Zminus_mod, Hcev, Hnev. reflexivity. }
    destruct Hrem as [Hrem16 Hremev].
    rewrite (toInt_small rem) by lia. rewrite (u32_small rem) by lia.
    rewrite (toInt_id need) by lia.
    set (u := o + rem) in *.
    set (limbo := mkChunk o rem false). set (cu := mkChunk u need true).
    assert (Hmem' : forall x, In x (l1 ++ limbo :: cu :: l2)
                      <-> In x l1 \/ x = limbo \/ x = cu \/ In x l2).
    { intros x. rewrite in_app_iff. simpl. intuition congruence. }
    assert (Hc' : contig 0 (l1 ++ limbo :: cu :: l2) (msize (memory a))).
    { apply contig_app. exists o. split; [exact Hc1|]. simpl.
      split; [reflexivity|]. split; [reflexivity|].
      replace (o + rem + need) with (o + sz) by (unfold rem; lia). exact Hc2. }
    assert (Hsz' : Forall size_ok (l1 ++ limbo :: cu :: l2)).
    { apply Forall_app. split; [exact Hs1|].
      constructor; [split; simpl; [lia|assumption]|].
      constructor; [split; simpl; [lia|assumption]|exact Hs2]. }
    (* the used chunk at the high end *)
    assert (Eneed : o + sz - u = need) by (unfold u, rem; lia).
    assert (W1 : msize (memory a1) < 4294967296) by lia.
    assert (W2 : contig 0 ((l1 ++ [limbo]) ++ [cu] ++ l2) (msize (memory a1))).
    { rewrite <- app_assoc, Hz1. exact Hc'. }
    assert (W3 : Forall size_ok ((l1 ++ [limbo]) ++ [cu] ++ l2)).
    { rewrite <- app_assoc. exact Hsz'. }
    assert (W4 : contig 0 (l1 ++ [limbo]) u).
    { apply contig_app. exists o. split; [exact Hc1|]. simpl. split; reflexivity. }
    assert (W5 : contig (o + sz) l2 (msize (memory a1))) by (rewrite Hz1; exact Hc2).
    assert (W6 : 16 <= o + sz - u) by lia.
    assert (W7 : (o + sz - u) mod 2 = 0) by (rewrite Eneed; exact Hnev).
    destruct (WHF_region a1 (l1 ++ [limbo]) [cu] l2 u (o + sz) true W1 W2 W3 W4 W5 W6 W7)
      as (a2 & Ha2 & Hz2 & Hb2 & Hst2 & Htn2 & Hto2 & Hfr2 & Hf2 & Hfin2).
    clear W1 W2 W3 W4 W5 W6 W7.
    rewrite Eneed in *.
    rewrite Ha2. cbn [obind].
    set (a3 := set_freeBlocks (AllocationBytesUsed a2 need)
                 (u32 (freeBlocks (AllocationBytesUsed a2 need) + 1))).
    (* the free remainder *)
    assert (Erem : u - o = rem) by (unfold u; lia).
    assert (Hz3 : msize (memory a3) = msize (memory a)) by (simpl; lia).
    assert (W1 : msize (memory a3) < 4294967296) by lia.
    assert (W2 : contig 0 (l1 ++ [limbo] ++ cu :: l2) (msize (memory a3))).
    { rewrite Hz3. exact Hc'. }
    assert (W3 : Forall size_ok (l1 ++ [limbo] ++ cu :: l2)) by exact Hsz'.
    assert (W5 : contig u (cu :: l2) (msize (memory a3))).
    { rewrite Hz3. simpl. split; [reflexivity|].
      replace (u + need) with (o + sz) by (unfold u, rem; lia). exact Hc2. }
    assert (W6 : 16 <= u - o) by lia.
    assert (W7 : (u - o) mod 2 = 0) by (rewrite Erem; exact Hremev).
    destruct (WHF_region a3 l1 [limbo] (cu :: l2) o u false W1 W2 W3 Hc1 W5 W6 W7)
      as (a4 & Ha4 & Hz4 & Hb4 & Hst4 & Htn4 & Hto4 & Hfr4 & Hf4 & Hfin4).
    clear W1 W2 W3 W5 W6 W7.
    rewrite Erem in *.
    rewrite Ha4. cbn [obind].
    assert (Hz4' : msize (memory a4) = msize (memory a)) by lia.
    (* tags before linking the remainder *)
    assert (Htags4 : forall x, In x (l1 ++ limbo :: cu :: l2) -> tags a4 x).
    { intros x Hx. apply Hmem' in Hx. destruct Hx as [Hx|[->|[->|Hx]]].
      - apply Hto4; [apply in_or_app; now left|].
        apply (tags_same_mem a2); [reflexivity|reflexivity|].
        apply Hto2; [apply in_or_app; left; apply in_or_app; now left|].
        apply Htags1, Hmem. tauto.
      - exact Htn4.
      - apply Hto4; [apply in_or_app; right; now left|].
        apply (tags_same_mem a2); [reflexivity|reflexivity|]. exact Htn2.
      - apply Hto4; [apply in_or_app; right; now right|].
        apply (tags_same_mem a2); [reflexivity|reflexivity|].
        apply Hto2; [apply in_or_app; now right|]. apply Htags1, Hmem. tauto. }
    assert (Hbins4 : bins_ok a4 bl1).
    { apply (bins_ok_frame a3); auto.
      - apply (bins_ok_same_mem a2); [reflexivity|reflexivity|].
        apply (bins_ok_frame a1); auto. intros x b Hx Hb.
        destruct (cover_nodes _ _ _ Hcov1' Hx) as (y & Hy & <-).
        assert (Hy' : In y (l1 ++ l2)).
        { apply in_app_or in Hy. apply in_or_app.
          destruct Hy as [Hy|Hy]; apply in_free_chunks in Hy; tauto. }
        assert (Hy0 : 0 <= off y).
        { apply in_app_or in Hy'. destruct Hy' as [H'|H'].
          - destruct (contig_bounds _ _ _ _ Hc1 Hs1 H'). lia.
          - pose proof (Haft _ H'). fold o sz in H. lia. }
        destruct (links_around l1 l2 o (o + sz) y b Hs1 Hs2 Hbef Haft Hy' Hb);
          apply Hfr2; unfold u; lia.
      - intros x b Hx Hb.
        destruct (cover_nodes _ _ _ Hcov1' Hx) as (y & Hy & <-).
        assert (Hy' : In y (l1 ++ l2)).
        { apply in_app_or in Hy. apply in_or_app.
          destruct Hy as [Hy|Hy]; apply in_free_chunks in Hy; tauto. }
        assert (Hy0 : 0 <= off y).
        { apply in_app_or in Hy'. destruct Hy' as [H'|H'].
          - destruct (contig_bounds _ _ _ _ Hc1 Hs1 H'). lia.
          - pose proof (Haft _ H'). fold o sz in H. lia. }
        destruct (links_around l1 l2 o (o + sz) y b Hs1 Hs2 Hbef Haft Hy' Hb);
          apply Hfr4; unfold u; lia. }
    assert (W1 : msize (memory a4) < 4294967296) by lia.
    assert (W2 : contig 0 (l1 ++ limbo :: cu :: l2) (msize (memory a4)))
      by (rewrite Hz4'; exact Hc').
    assert (W3 : incl (free_chunks l1 ++ free_chunks l2) (l1 ++ limbo :: cu :: l2)).
    { intros x Hx. apply Hmem'. apply in_app_or in Hx.
      destruct Hx as [Hx|Hx]; apply in_free_chunks in Hx; tauto. }
    assert (W4 : In limbo (l1 ++ limbo :: cu :: l2)) by (apply Hmem'; tauto).
    assert (W5 : forall x, In x (free_chunks l1 ++ free_chunks l2) -> off x <> off limbo).
    { intros x Hx. simpl off. apply in_app_or in Hx.
      destruct Hx as [Hx|Hx]; apply in_free_chunks in Hx; destruct Hx as [Hx _].
      - pose proof (Hbef _ Hx). destruct (Hs' x ltac:(apply Hmem; tauto)). fold o in H. lia.
      - pose proof (Haft _ Hx). fold o sz in H. lia. }
    assert (W6 : GetSize (memory a4) (off limbo) = Some (csz limbo))
      by (destruct Htn4 as (Hg4 & _); exact Hg4).
    destruct (add_chunk a4 (l1 ++ limbo :: cu :: l2) (free_chunks l1 ++ free_chunks l2)
                bl1 limbo W1 W2 Hsz' W3 Hbins4 Hcov1' W4 W5 W6)
      as (a5 & bl2 & Ha5 & Hbins5 & Hcov5 & Hz5 & Hfin5 & Hst5 & Hfr5).
    clear W1 W3 W4 W5 W6.
    simpl off in Ha5. rewrite Ha5. cbn [obind].
    eexists _, (l1 ++ limbo :: cu :: l2), bl2, u, need.
    split; [reflexivity|].
    split; [simpl; congruence|].
    split.
    { (* the invariant *)
      split.
      { split; [simpl; lia|]. split; [destruct l1; discriminate|].
        split; [simpl; rewrite Hz5, Hz4'; exact Hc'|]. split; [exact Hsz'|].
        intros x Hx. apply (tags_same_mem a5); [reflexivity|reflexivity|].
        apply (tags_links a4 a5 (l1 ++ limbo :: cu :: l2)); auto.
        intros b Hb0 Hb. apply Hfr5; [exact Hb0|]. intros y [<-|Hy].
          + apply Hb. apply Hmem'. tauto.
          + apply Hb. apply Hmem'. apply in_app_or in Hy.
            destruct Hy as [Hy|Hy]; apply in_free_chunks in Hy; tauto. }
      split.
      { intros c1 c2 H1 H2 Eo Hu.
        assert (Hc2u : off c2 = u -> c2 = cu).
        { intros E. apply (contig_off_inj _ _ _ _ _ Hc' Hsz'); auto. apply Hmem'. tauto. }
        assert (Hc2o : off c2 = o -> c2 = limbo).
        { intros E. apply (contig_off_inj _ _ _ _ _ Hc' Hsz'); auto. apply Hmem'. tauto. }
        apply Hmem' in H1. destruct H1 as [H1|[->|[->|H1]]]; [| |discriminate|].
        - assert (H1c : In c1 cl) by (apply Hmem; tauto).
          apply Hmem' in H2. destruct H2 as [H2|[->|[->|H2]]]; [| |reflexivity|].
          + apply (Hnadj c1 c2); auto. apply Hmem; tauto.
          + exfalso. simpl off in Eo. pose proof (Hnadj c1 c H1c Hin Eo Hu). congruence.
          + apply (Hnadj c1 c2); auto. apply Hmem; tauto.
        - simpl off in Eo. simpl csz in Eo. rewrite (Hc2u Eo). reflexivity.
        - assert (H1c : In c1 cl) by (apply Hmem; tauto).
          apply Hmem' in H2. destruct H2 as [H2|[->|[->|H2]]]; [| |reflexivity|].
          + apply (Hnadj c1 c2); auto. apply Hmem; tauto.
          + exfalso. simpl off in Eo. pose proof (Hnadj c1 c H1c Hin Eo Hu). congruence.
          + apply (Hnadj c1 c2); auto. apply Hmem; tauto. }
      split; [apply (bins_ok_same_mem a5); [reflexivity|reflexivity|exact Hbins5]|].
      split.
      { apply Hcov5. intros x. rewrite free_chunks_mid, free_chunks_cons.
        cbn [used limbo cu app]. rewrite !in_app_iff. simpl. intuition congruence. }
      destruct Hstats as (S1 & S2 & S3 & S4).
      destruct Hst1 as (A1 & A2 & A3 & A4 & _). destruct Hst2 as (B1 & B2 & B3 & B4 & _).
      destruct Hst4 as (D1 & D2 & D3 & D4 & _). destruct Hst5 as (E1 & E2 & E3 & E4 & _).
      pose proof (layout_counts _ _ Hc Hs) as (L1 & L2 & L3 & L4 & L5).
      pose proof (layout_counts _ _ Hc' Hsz') as (M1 & M2 & M3 & M4 & M5).
      rewrite Ecl in S1, S2, S3, S4, L1, L2, L3, L4, L5.
      unfold stats_ok.
      rewrite !free_chunks_mid, !used_chunks_mid in *.
      rewrite ?free_chunks_cons, ?used_chunks_cons in *.
      rewrite Hfree in *. unfold limbo, cu in *. cbn [used app] in *.
      rewrite ?length_app, ?sum_sizes_app in *. cbn [length sum_sizes app csz] in *.
      fold sz in S3, S4, L3, L4, L5, L1, L2.
      cbn [freeBlocks usedBlocks freeMem usedMem set_allocations].
      rewrite E1, E2, E3, E4, D1, D2, D3, D4. unfold a3.
      cbn [freeBlocks usedBlocks freeMem usedMem AllocationBytesUsed set_freeBlocks].
      destruct (Z.gtb_spec need 0); [|lia].
      rewrite B1, B2, B3, B4, A1, A2, A3, A4, S1, S2, S3, S4.
      unfold rem in *.
      rewrite !u32_small by (rewrite ?u32_small by lia; lia). lia. }
    split; [apply Hmem'; tauto|]. split; [lia|]. split; [unfold u; lia|].
    split; [unfold u, rem; lia|].
    split.
    { intros x Hx Hne'. apply Hmem'. apply Hmem in Hx. tauto. }
    split.
    { intros x Hx Hu. apply Hmem' in Hx.
      destruct Hx as [Hx|[->|[->|Hx]]]; [right|discriminate|now left|right].
      - split; [apply Hmem; tauto|]. intros ->. congruence.
      - split; [apply Hmem; tauto|]. intros ->. congruence. }
    destruct Hst1 as (_ & _ & _ & _ & _ & _ & _ & A8).
    destruct Hst2 as (_ & _ & _ & _ & _ & _ & _ & B8).
    destruct Hst4 as (_ & _ & _ & _ & _ & _ & _ & D8).
    destruct Hst5 as (_ & _ & _ & _ & _ & _ & _ & E8).
    simpl. rewrite E8, D8. unfold a3. simpl. congruence.
Qed.

End AllocPtr.

Section AllocPtrTotal.

(** The fit search on a state that satisfies the invariant. *)
Lemma GetFreeOfSize_spec (a : Allocator) (cl : list chunk) (bl : list (list Z)) (need : Z) :
  pool_ok a cl -> bins_ok a bl -> cover (free_chunks cl) bl -> 16 <= need ->
  (exists c, In c cl /\ used c = false /\ need <= csz c
             /\ GetFreeOfSize a need = Some (Some (off c)))
  \/ (GetFreeOfSize a need = Some None
      /\ forall c, In c cl -> used c = false -> csz c < need).
Proof.
  intros (HP & Hne & Hc & Hs & Htags) Hbins Hcov Hneed.
  pose proof (GetIndex_range need ltac:(lia)) as Hidx.
  assert (Hsz : forall x, In x (concat bl) -> exists s, GetSize (memory a) x = Some s).
  { intros x Hx. destruct (cover_nodes _ _ _ Hcov Hx) as (c & Hcin & <-).
    apply in_free_chunks in Hcin. destruct (Htags c (proj1 Hcin)) as (Hg & _). eauto. }
  unfold GetFreeOfSize.
  destruct (scan_bins_spec a bl need Hbins ltac:(lia) Hsz
              (Z.to_nat (Z.of_nat BIN_INDICES - GetIndex need)) (GetIndex need))
    as [(x & s & j & Hj & Hx & Hs' & Hfit & Hscan)|(Hscan & Hnone)];
    try (unfold BIN_INDICES; lia).
  - left. apply Hcov in Hx. destruct Hx as (c & Hcin & <- & Hi).
    apply in_free_chunks in Hcin. destruct Hcin as [Hcin Hu].
    destruct (Htags c Hcin) as (Hg & _). rewrite Hg in Hs'. injection Hs' as <-.
    exists c. auto.
  - right. split; [exact Hscan|]. intros c Hcin Hu.
    rewrite Forall_forall in Hs. destruct (Hs c Hcin) as [Hc16 _].
    destruct (Z_lt_le_dec (csz c) need) as [Hlt|Hge]; [exact Hlt|exfalso].
    pose proof (GetIndex_mono need (csz c) ltac:(lia)) as Hmono.
    pose proof (GetIndex_range (csz c) ltac:(lia)) as Hidxc.
    destruct (Hnone (Z.to_nat (GetIndex (csz c))) (off c)) as (s & Hg' & Hlt'); try lia.
    + apply (cover_in (free_chunks cl)); auto; [apply in_free_chunks; auto|lia].
    + destruct (Htags c Hcin) as (Hg & _). rewrite Hg in Hg'. injection Hg' as <-. lia.
Qed.

(** [AllocPtr] from a state that satisfies the invariant: it returns
    [nullptr] exactly when no free chunk fits, and then only counts the
    failure; otherwise it carves a used chunk out of a free one. *)
Lemma AllocPtr_spec (a : Allocator) (cl : list chunk) (bl : list (list Z)) (n : Z) :
  alloc_inv a cl bl ->
  (exists c a' cl' bl' u k,
      In c cl /\ used c = false /\ bytesNeeded n <= csz c
      /\ AllocPtr a n = Some (Some (u + 4), a')
      /\ msize (memory a') = msize (memory a)
      /\ alloc_inv a' cl' bl'
      /\ In (mkChunk u k true) cl' /\ bytesNeeded n <= k
      /\ off c <= u /\ u + k = off c + csz c
      /\ (forall x, In x cl -> x <> c -> In x cl')
      /\ (forall x, In x cl' -> used x = true ->
            x = mkChunk u k true \/ (In x cl /\ x <> c))
      /\ fails a' = fails a)
  \/ (AllocPtr a n = Some (None, set_fails a (u32 (fails a + 1)))
      /\ forall c, In c cl -> used c = false -> csz c < bytesNeeded n).
Proof.
  intros Hinv. pose proof Hinv as (Hpool & Hnadj & Hbins & Hcov & Hstats).
  pose proof (bytesNeeded_range n) as (Hn16 & Hnev).
  destruct (GetFreeOfSize_spec a cl bl (bytesNeeded n) Hpool Hbins Hcov ltac:(lia))
    as [(c & Hcin & Hu & Hfit & Hfind)|(Hfind & Hnone)].
  - left. destruct (AllocPtr_found a cl bl c n Hinv Hcin Hu Hfit Hfind)
      as (a' & cl' & bl' & u & k & H). exists c, a', cl', bl', u, k. tauto.
  - right. split; [|exact Hnone]. unfold AllocPtr. rewrite Hfind. reflexivity.
Qed.

End AllocPtrTotal.


(** * FreePtr *)

Section MarkFree.

(** The first part of [FreePtr]: the chunk becomes a free chunk in its bin. *)
Lemma mark_free (a : Allocator) (cl : list chunk) (bl : list (list Z)) (c : chunk) :
  pool_inv a cl bl -> In c cl -> used c = true ->
  exists a1 a2 bl1 l1 l2,
    cl = l1 ++ c :: l2
    /\ WriteHeaderAndFooter a (off c) (csz c) false = Some a1
    /\ AddToFreeList a1 (off c) = Some a2
    /\ pool_inv (AllocationBytesUsed a2 (- toInt (csz c)))
         (l1 ++ mkChunk (off c) (csz c) false :: l2) bl1
    /\ merges a2 = merges a /\ allocations a2 = allocations a
    /\ frees a2 = frees a /\ fails a2 = fails a.
Proof.
  intros (Hpool & Hbins & Hcov & Hstats) Hin Hused.
  destruct Hpool as (HP & Hne & Hc & Hs & Htags).
  destruct (split_around _ _ _ Hc Hs Hin)
    as (l1 & l2 & Ecl & Hc1 & Hc2 & Hs1 & Hs2 & Hbef & Haft & Hmem).
  pose proof Hs as Hs'. rewrite Forall_forall in Hs'.
  destruct (Hs' c Hin) as [Hc16 Hcev].
  destruct (contig_bounds _ _ _ _ Hc Hs Hin) as [Ho0 Ho1].
  set (o := off c) in *. set (sz := csz c) in *.
  set (cf := mkChunk o sz false).
  assert (Hmem' : forall x, In x (l1 ++ cf :: l2) <-> In x l1 \/ x = cf \/ In x l2).
  { intros x. rewrite in_app_iff. simpl. intuition congruence. }
  assert (Hc' : contig 0 (l1 ++ cf :: l2) (msize (memory a))).
  { apply contig_app. exists o. split; [exact Hc1|]. simpl. split; [reflexivity|exact Hc2]. }
  assert (Hsz' : Forall size_ok (l1 ++ cf :: l2)).
  { apply Forall_app. split; [exact Hs1|]. constructor; [|exact Hs2]. split; assumption. }
  assert (Esz : o + sz - o = sz) by lia.
  assert (W1 : msize (memory a) < 4294967296) by lia.
  assert (W2 : contig 0 (l1 ++ [c] ++ l2) (msize (memory a))).
  { simpl app. rewrite <- Ecl. exact Hc. }
  assert (W3 : Forall size_ok (l1 ++ [c] ++ l2)).
  { simpl app. rewrite <- Ecl. exact Hs. }
  assert (W6 : 16 <= o + sz - o) by lia.
  assert (W7 : (o + sz - o) mod 2 = 0) by (rewrite Esz; exact Hcev).
  destruct (WHF_region a l1 [c] l2 o (o + sz) false W1 W2 W3 Hc1 Hc2 W6 W7)
    as (a1 & Ha1 & Hz1 & Hb1 & Hst1 & Htn & Hto & Hfr1 & Hf1 & Hfin1).
  clear W1 W2 W3 W6 W7. rewrite Esz in *. fold cf in Htn.
  assert (Htags1 : forall x, In x (l1 ++ cf :: l2) -> tags a1 x).
  { intros x Hx. apply Hmem' in Hx. destruct Hx as [Hx|[->|Hx]].
    - apply Hto; [apply in_or_app; now left|]. apply Htags, Hmem. tauto.
    - exact Htn.
    - apply Hto; [apply in_or_app; now right|]. apply Htags, Hmem. tauto. }
  assert (Hfree_eq : free_chunks cl = free_chunks l1 ++ free_chunks l2).
  { rewrite Ecl, free_chunks_mid, Hused. reflexivity. }
  assert (Hfl_in : forall y, In y (free_chunks cl) -> In y (l1 ++ l2)).
  { intros y Hy. rewrite Hfree_eq in Hy. apply in_app_or in Hy. apply in_or_app.
    destruct Hy as [Hy|Hy]; apply in_free_chunks in Hy; tauto. }
  assert (Hbins1 : bins_ok a1 bl).
  { apply (bins_ok_frame a); auto. intros x b Hx Hb.
    destruct (cover_nodes _ _ _ Hcov Hx) as (y & Hy & <-).
    pose proof (Hfl_in y Hy) as Hy'.
    assert (Hy0 : 0 <= off y).
    { apply in_app_or in Hy'. destruct Hy' as [H'|H'].
      - destruct (contig_bounds _ _ _ _ Hc1 Hs1 H'). lia.
      - pose proof (Haft _ H'). fold o sz in H. lia. }
    destruct (links_around l1 l2 o (o + sz) y b Hs1 Hs2 Hbef Haft Hy' Hb);
      apply Hfr1; lia. }
  assert (W1 : msize (memory a1) < 4294967296) by lia.
  assert (W2 : contig 0 (l1 ++ cf :: l2) (msize (memory a1))) by (rewrite Hz1; exact Hc').
  assert (W3 : incl (free_chunks cl) (l1 ++ cf :: l2)).
  { intros x Hx. apply Hmem'. apply Hfl_in in Hx. apply in_app_or in Hx. tauto. }
  assert (W4 : In cf (l1 ++ cf :: l2)) by (apply Hmem'; tauto).
  assert (W5 : forall x, In x (free_chunks cl) -> off x <> off cf).
  { intros x Hx. simpl off. apply Hfl_in in Hx. apply in_app_or in Hx.
    destruct Hx as [Hx|Hx].
    - pose proof (Hbef _ Hx). destruct (Hs' x ltac:(apply Hmem; tauto)). fold o in H. lia.
    - pose proof (Haft _ Hx). fold o sz in H. lia. }
  assert (W6 : GetSize (memory a1) (off cf) = Some (csz cf))
    by (destruct Htn as (Hg & _); exact Hg).
  destruct (add_chunk a1 (l1 ++ cf :: l2) (free_chunks cl) bl cf W1 W2 Hsz' W3 Hbins1 Hcov
              W4 W5 W6)
    as (a2 & bl1 & Ha2 & Hbins2 & Hcov2 & Hz2 & Hfin2 & Hst2 & Hfr2).
  clear W1 W3 W4 W5 W6. simpl off in Ha2.
  exists a1, a2, bl1, l1, l2.
  split; [exact Ecl|]. split; [exact Ha1|]. split; [exact Ha2|].
  destruct Hst1 as (A1 & A2 & A3 & A4 & A5 & A6 & A7 & A8).
  destruct Hst2 as (B1 & B2 & B3 & B4 & B5 & B6 & B7 & B8).
  split; [|repeat split; congruence].
  split.
  { split; [simpl; lia|]. split; [destruct l1; discriminate|].
    split; [simpl; rewrite Hz2, Hz1; exact Hc'|]. split; [exact Hsz'|].
    intros x Hx. apply (tags_same_mem a2); [reflexivity|reflexivity|].
    apply (tags_links a1 a2 (l1 ++ cf :: l2)); auto.
    intros b Hb0 Hb. apply Hfr2; [exact Hb0|]. intros y [<-|Hy].
    - apply Hb. apply Hmem'. tauto.
    - apply Hb. apply Hmem'. apply Hfl_in in Hy. apply in_app_or in Hy. tauto. }
  split; [apply (bins_ok_same_mem a2); [reflexivity|reflexivity|exact Hbins2]|].
  split.
  { apply Hcov2. intros x. rewrite free_chunks_mid. cbn [used cf].
    rewrite Hfree_eq, !in_app_iff. simpl. intuition congruence. }
  destruct Hstats as (S1 & S2 & S3 & S4).
  pose proof (layout_counts _ _ Hc Hs) as (L1 & L2 & L3 & L4 & L5).
  pose proof (layout_counts _ _ Hc' Hsz') as (M1 & M2 & M3 & M4 & M5).
  rewrite Ecl in S1, S2, S3, S4, L1, L2, L3, L4, L5.
  unfold stats_ok.
  rewrite !free_chunks_mid, !used_chunks_mid in *.
  rewrite Hused in *. unfold cf in *. cbn [used app] in *.
  rewrite ?length_app, ?sum_sizes_app in *. cbn [length sum_sizes app csz] in *.
  fold sz in S3, S4, L3, L4, L5, L1, L2.
  cbn [freeBlocks usedBlocks freeMem usedMem AllocationBytesUsed].
  rewrite (toInt_id sz) by lia.
  destruct (Z.gtb_spec (- sz) 0); [lia|].
  rewrite B1, B2, B3, B4, A1, A2, A3, A4, S1, S2, S3, S4.
  rewrite !u32_small by lia. lia.
Qed.

End MarkFree.

Section Merge.

(** [MergeSecondIntoFirst] on two free chunks that follow each other. *)
Lemma merge_spec (a : Allocator) (cl : list chunk) (bl : list (list Z))
  (l1 l2 : list chunk) (x y : chunk) :
  pool_inv a cl bl -> cl = l1 ++ x :: y :: l2 ->
  used x = false -> used y = false ->
  exists a' bl', MergeSecondIntoFirst a (off x) (off y) = Some a'
    /\ pool_inv a' (l1 ++ mkChunk (off x) (csz x + csz y) false :: l2) bl'
    /\ allocations a' = allocations a /\ frees a' = frees a
    /\ fails a' = fails a /\ merges a' = u32 (merges a + 1).
Proof.
  intros (Hpool & Hbins & Hcov & Hstats) Ecl Hux Huy.
  destruct Hpool as (HP & Hne & Hc & Hs & Htags).
  assert (Hinx : In x cl) by (rewrite Ecl; apply in_or_app; right; now left).
  assert (Hiny : In y cl) by (rewrite Ecl; apply in_or_app; right; right; now left).
  pose proof Hs as Hs'. rewrite Forall_forall in Hs'.
  destruct (Hs' x Hinx) as [Hx16 Hxev]. destruct (Hs' y Hiny) as [Hy16 Hyev].
  (* the layout around the two chunks *)
  pose proof Hc as Hc0. rewrite Ecl in Hc0. apply contig_app in Hc0.
  destruct Hc0 as (r0 & Hc1 & Hc0). simpl in Hc0.
  destruct Hc0 as (Eox & Eoy & Hc2). subst r0. rewrite <- Eoy in Hc2.
  assert (Hs1 : Forall size_ok l1) by (rewrite Ecl in Hs; apply Forall_app in Hs; tauto).
  assert (Hs2 : Forall size_ok l2).
  { rewrite Ecl in Hs. apply Forall_app in Hs. destruct Hs as [_ Hs].
    inversion Hs as [|? ? _ Hs'']. inversion Hs''; assumption. }
  pose proof (contig_le _ _ _ Hc1 Hs1) as Hx0.
  pose proof (contig_le _ _ _ Hc2 Hs2) as Hy1.
  assert (Hbef : forall z, In z l1 -> off z + csz z <= off x).
  { intros z Hz. destruct (contig_bounds _ _ _ _ Hc1 Hs1 Hz). lia. }
  assert (Haft : forall z, In z l2 -> off x + (csz x + csz y) <= off z).
  { intros z Hz. destruct (contig_bounds _ _ _ _ Hc2 Hs2 Hz). lia. }
  assert (Hmem : forall z, In z cl <-> In z l1 \/ z = x \/ z = y \/ In z l2).
  { intros z. rewrite Ecl, in_app_iff. simpl. intuition congruence. }
  set (s := csz x + csz y) in *.
  set (cm := mkChunk (off x) s false).
  assert (Hmem' : forall z, In z (l1 ++ cm :: l2) <-> In z l1 \/ z = cm \/ In z l2).
  { intros z. rewrite in_app_iff. simpl. intuition congruence. }
  assert (Hc' : contig 0 (l1 ++ cm :: l2) (msize (memory a))).
  { apply contig_app. exists (off x). split; [exact Hc1|]. simpl. split; [reflexivity|].
    replace (off x + s) with (off y + csz y) by (unfold s; lia). exact Hc2. }
  assert (Hsz' : Forall size_ok (l1 ++ cm :: l2)).
  { apply Forall_app. split; [exact Hs1|]. constructor; [|exact Hs2].
    split; simpl; [unfold s; lia|]. unfold s. rewrite Zplus_mod, Hxev, Hyev. reflexivity. }
  assert (Hfl : free_chunks cl = free_chunks l1 ++ x :: y :: free_chunks l2).
  { rewrite Ecl, free_chunks_mid, free_chunks_cons, Hux, Huy. reflexivity. }
  assert (Hfl_out : forall z, In z (free_chunks l1 ++ free_chunks l2) ->
            In z (l1 ++ l2) /\ In z cl /\ off z <> off x /\ off z <> off y).
  { intros z Hz. apply in_app_or in Hz.
    destruct Hz as [Hz|Hz]; apply in_free_chunks in Hz; destruct Hz as [Hz _].
    - pose proof (Hbef _ Hz). destruct (Hs' z ltac:(apply Hmem; tauto)).
      repeat split; [apply in_or_app; now left|apply Hmem; tauto|lia|lia].
    - pose proof (Haft _ Hz). unfold s in H.
      repeat split; [apply in_or_app; now right|apply Hmem; tauto|lia|lia]. }
  (* unlink the first chunk *)
  assert (W1 : msize (memory a) < 4294967296) by lia.
  assert (W2 : incl (free_chunks cl) cl).
  { intros z Hz. apply in_free_chunks in Hz. tauto. }
  assert (W3 : In x (free_chunks cl)) by (apply in_free_chunks; auto).
  destruct (remove_chunk a cl (free_chunks cl) bl x W1 Hc Hs W2 Hbins Hcov W3
              (proj1 (Htags x Hinx)))
    as (a1 & bl1 & Ha1 & Hbins1 & Hcov1 & Hz1 & Hfin1 & Hst1 & Hfr1).
  assert (Htags1 : forall z, In z cl -> tags a1 z).
  { intros z Hz. apply (tags_links a a1 cl); auto. }
  assert (Hcov1' : cover (free_chunks l1 ++ y :: free_chunks l2) bl1).
  { apply Hcov1. intros z. rewrite Hfl, !in_app_iff. simpl. rewrite !in_free_chunks. split.
    - intros [[Hz Hu]|[<-|[Hz Hu]]].
      + destruct (Hfl_out z) as (_ & _ & Hn & _);
          [apply in_or_app; left; apply in_free_chunks; auto|tauto].
      + split; [tauto|lia].
      + destruct (Hfl_out z) as (_ & _ & Hn & _);
          [apply in_or_app; right; apply in_free_chunks; auto|tauto].
    - intros [[?|[<-|[?|?]]] Hn]; tauto. }
  (* unlink the second chunk *)
  assert (V1 : msize (memory a1) < 4294967296) by lia.
  assert (V2 : contig 0 cl (msize (memory a1))) by (rewrite Hz1; exact Hc).
  assert (V3 : incl (free_chunks l1 ++ y :: free_chunks l2) cl).
  { intros z Hz. apply in_app_or in Hz. destruct Hz as [Hz|[<-|Hz]]; [|exact Hiny|];
      apply in_free_chunks in Hz; apply Hmem; tauto. }
  assert (V4 : In y (free_chunks l1 ++ y :: free_chunks l2))
    by (apply in_or_app; right; now left).
  destruct (remove_chunk a1 cl _ bl1 y V1 V2 Hs V3 Hbins1 Hcov1' V4
              (proj1 (Htags1 y Hiny)))
    as (a2 & bl2 & Ha2 & Hbins2 & Hcov2 & Hz2 & Hfin2 & Hst2 & Hfr2).
  assert (Htags2 : forall z, In z cl -> tags a2 z).
  { intros z Hz. apply (tags_links a1 a2 cl); auto. }
  assert (Hcov2' : cover (free_chunks l1 ++ free_chunks l2) bl2).
  { apply Hcov2. intros z. rewrite !in_app_iff. simpl. rewrite !in_free_chunks. split.
    - intros Hz. destruct (Hfl_out z) as (_ & _ & _ & Hn);
        [apply in_or_app; rewrite !in_free_chunks; tauto|tauto].
    - intros [[?|[<-|?]] Hn]; tauto. }
  clear W1 W2 W3 V1 V2 V3 V4.
  (* the merged header *)
  assert (Es : off y + csz y - off x = s) by (unfold s; lia).
  assert (Hz2' : msize (memory a2) = msize (memory a)) by lia.
  assert (W1 : msize (memory a2) < 4294967296) by lia.
  assert (W2 : contig 0 (l1 ++ [x; y] ++ l2) (msize (memory a2))).
  { simpl app. rewrite <- Ecl, Hz2'. exact Hc. }
  assert (W3 : Forall size_ok (l1 ++ [x; y] ++ l2)).
  { simpl app. rewrite <- Ecl. exact Hs. }
  assert (W5 : contig (off y + csz y) l2 (msize (memory a2))) by (rewrite Hz2'; exact Hc2).
  assert (W6 : 16 <= off y + csz y - off x) by lia.
  assert (W7 : (off y + csz y - off x) mod 2 = 0).
  { rewrite Es. unfold s. rewrite Zplus_mod, Hxev, Hyev. reflexivity. }
  destruct (WHF_region a2 l1 [x; y] l2 (off x) (off y + csz y) false W1 W2 W3 Hc1 W5 W6 W7)
    as (a3 & Ha3 & Hz3 & Hb3 & Hst3 & Htn & Hto & Hfr3 & Hf3 & Hfin3).
  clear W1 W2 W3 W5 W6 W7. rewrite Es in *. fold cm in Htn.
  assert (Hz3' : msize (memory a3) = msize (memory a)) by lia.
  assert (Htags3 : forall z, In z (l1 ++ cm :: l2) -> tags a3 z).
  { intros z Hz. apply Hmem' in Hz. destruct Hz as [Hz|[->|Hz]].
    - apply Hto; [apply in_or_app; now left|]. apply Htags2, Hmem. tauto.
    - exact Htn.
    - apply Hto; [apply in_or_app; now right|]. apply Htags2, Hmem. tauto. }
  assert (Hbins3 : bins_ok a3 bl2).
  { apply (bins_ok_frame a2); auto. intros w b Hw Hb.
    destruct (cover_nodes _ _ _ Hcov2' Hw) as (z & Hz & <-).
    destruct (Hfl_out z Hz) as (Hz' & Hzc & _).
    destruct (contig_bounds _ _ _ _ Hc Hs Hzc) as [Hz0 _].
    assert (Haft' : forall z, In z l2 -> off y + csz y <= off z).
    { intros z' Hz2in. pose proof (Haft _ Hz2in). unfold s in H. lia. }
    destruct (links_around l1 l2 (off x) (off y + csz y) z b Hs1 Hs2 Hbef Haft' Hz' Hb);
      apply Hfr3; lia. }
  (* link the merged chunk *)
  assert (W1 : msize (memory a3) < 4294967296) by lia.
  assert (W2 : contig 0 (l1 ++ cm :: l2) (msize (memory a3))) by (rewrite Hz3'; exact Hc').
  assert (W3 : incl (free_chunks l1 ++ free_chunks l2) (l1 ++ cm :: l2)).
  { intros z Hz. apply Hmem'. destruct (Hfl_out z Hz) as (Hz' & _).
    apply in_app_or in Hz'. tauto. }
  assert (W4 : In cm (l1 ++ cm :: l2)) by (apply Hmem'; tauto).
  assert (W5 : forall z, In z (free_chunks l1 ++ free_chunks l2) -> off z <> off cm).
  { intros z Hz. simpl off. destruct (Hfl_out z Hz) as (_ & _ & Hn & _). exact Hn. }
  assert (W6 : GetSize (memory a3) (off cm) = Some (csz cm))
    by (destruct Htn as (Hg & _); exact Hg).
  destruct (add_chunk a3 (l1 ++ cm :: l2) _ bl2 cm W1 W2 Hsz' W3 Hbins3 Hcov2' W4 W5 W6)
    as (a4 & bl3 & Ha4 & Hbins4 & Hcov4 & Hz4 & Hfin4 & Hst4 & Hfr4).
  clear W1 W4 W5 W6. simpl off in Ha4.
  eexists _, bl3. split.
  { unfold MergeSecondIntoFirst. rewrite Ha1. cbn [obind]. rewrite Ha2. cbn [obind].
    rewrite (proj1 (Htags2 x Hinx)). cbn [obind].
    rewrite (proj1 (Htags2 y Hiny)). cbn [obind]. fold s.
    rewrite (u32_small s) by (unfold s; lia). rewrite Ha3. cbn [obind].
    rewrite Ha4. cbn [obind]. reflexivity. }
  destruct Hst1 as (A1 & A2 & A3 & A4 & A5 & A6 & A7 & A8).
  destruct Hst2 as (B1 & B2 & B3 & B4 & B5 & B6 & B7 & B8).
  destruct Hst3 as (D1 & D2 & D3 & D4 & D5 & D6 & D7 & D8).
  destruct Hst4 as (E1 & E2 & E3 & E4 & E5 & E6 & E7 & E8).
  split; [|simpl; repeat split; congruence].
  split.
  { split; [simpl; lia|]. split; [destruct l1; discriminate|].
    split; [simpl; rewrite Hz4, Hz3'; exact Hc'|]. split; [exact Hsz'|].
    intros z Hz. apply (tags_same_mem a4); [reflexivity|reflexivity|].
    apply (tags_links a3 a4 (l1 ++ cm :: l2)); auto.
    intros b Hb0 Hb. apply Hfr4; [exact Hb0|]. intros w [<-|Hw].
    - apply Hb. apply Hmem'. tauto.
    - apply Hb. apply W3. exact Hw. }
  split; [apply (bins_ok_same_mem a4); [reflexivity|reflexivity|exact Hbins4]|].
  split.
  { apply Hcov4. intros z. rewrite free_chunks_mid. cbn [used cm].
    rewrite !in_app_iff. simpl. intuition congruence. }
  destruct Hstats as (S1 & S2 & S3 & S4).
  pose proof (layout_counts _ _ Hc Hs) as (L1 & L2 & L3 & L4 & L5).
  pose proof (layout_counts _ _ Hc' Hsz') as (M1 & M2 & M3 & M4 & M5).
  rewrite Ecl in S1, S2, S3, S4, L1, L2, L3, L4, L5.
  unfold stats_ok.
  rewrite !free_chunks_mid, !used_chunks_mid in *.
  rewrite ?free_chunks_cons, ?used_chunks_cons in *.
  rewrite Hux, Huy in *. unfold cm in *. cbn [used app] in *.
  rewrite ?length_app, ?sum_sizes_app in *. cbn [length sum_sizes app csz] in *.
  cbn [freeBlocks usedBlocks freeMem usedMem set_freeBlocks set_merges].
  rewrite E1, E2, E3, E4, D1, D2, D3, D4, B1, B2, B3, B4, A1, A2, A3, A4, S1, S2, S3, S4.
  unfold s in *. rewrite !u32_small by lia. lia.
Qed.

End Merge.

(** * No two free chunks follow each other *)

Section Adjacent.


Lemma nafl_cons2 (c1 c2 : chunk) (r : list chunk) :
  nafl (c1 :: c2 :: r) <-> (used c1 = false -> used c2 = true) /\ nafl (c2 :: r).
Proof. simpl. tauto. Qed.

Lemma nafl_app (l1 l2 : list chunk) (x : chunk) :
  nafl (l1 ++ x :: l2) <-> nafl (l1 ++ [x]) /\ nafl (x :: l2).
Proof.
  induction l1 as [|a l1 IH].
  - simpl. tauto.
  - destruct l1 as [|b l1].
    + change ([a] ++ x :: l2) with (a :: x :: l2). change ([a] ++ [x]) with [a; x].
      rewrite !nafl_cons2. simpl nafl at 2. tauto.
    + change ((a :: b :: l1) ++ x :: l2) with (a :: b :: (l1 ++ x :: l2)).
      change ((a :: b :: l1) ++ [x]) with (a :: b :: (l1 ++ [x])).
      rewrite !nafl_cons2.
      change (b :: l1 ++ x :: l2) with ((b :: l1) ++ x :: l2).
      change (b :: l1 ++ [x]) with ((b :: l1) ++ [x]).
      rewrite IH. tauto.
Qed.

Lemma nafl_of_offsets (cl : list chunk) (lo hi : Z) :
  contig lo cl hi -> Forall size_ok cl -> no_adjacent_free cl -> nafl cl.
Proof.
  revert lo; induction cl as [|c1 cl IH]; intros lo Hc Hs Hn; [exact I|].
  destruct cl as [|c2 cl]; [exact I|].
  rewrite nafl_cons2. simpl in Hc. destruct Hc as (E1 & E2 & Hc).
  inversion Hs as [|? ? Hs1 Hs']; subst. split.
  - apply (Hn c1 c2); [now left|right; now left|lia].
  - apply (IH (off c1 + csz c1)); auto.
    + simpl. auto.
    + intros x y Hx Hy. apply Hn; now right.
Qed.

Lemma offsets_of_nafl (cl : list chunk) (lo hi : Z) :
  contig lo cl hi -> Forall size_ok cl -> nafl cl -> no_adjacent_free cl.
Proof.
  revert lo; induction cl as [|c1 cl IH]; intros lo Hc Hs Hn x y Hx Hy Eo Hu;
    [destruct Hx|].
  simpl in Hc. destruct Hc as [E1 Hc]. inversion Hs as [|? ? [H16 _] Hs']; subst.
  destruct cl as [|c2 cl].
  - destruct Hx as [<-|[]]. destruct Hy as [<-|[]]. lia.
  - rewrite nafl_cons2 in Hn. destruct Hn as [Hn1 Hn].
    assert (Hc' : contig (off c1 + csz c1) (c2 :: cl) hi) by exact Hc.
    destruct Hx as [<-|Hx].
    + destruct Hy as [<-|Hy]; [lia|].
      assert (y = c2); [|subst; auto].
      apply (contig_off_inj _ _ _ _ _ Hc' Hs'); auto; [now left|].
      simpl in Hc. destruct Hc as [E2 _]. lia.
    + destruct Hy as [<-|Hy].
      * destruct (contig_bounds _ _ _ _ Hc' Hs' Hx).
        pose proof Hs' as Hs''. rewrite Forall_forall in Hs''. destruct (Hs'' _ Hx). lia.
      * apply (IH _ Hc' Hs' Hn x y); auto.
Qed.

Lemma nafl_snoc_free (l : list chunk) (x z : chunk) :
  nafl (l ++ [x]) -> used x = false -> nafl (l ++ [z]).
Proof.
  induction l as [|a l IH]; intros H Hu; [exact I|].
  destruct l as [|b l].
  - simpl in H |- *. destruct H as [H _]. split; [|exact I].
    intros Ha. rewrite (H Ha) in Hu. discriminate.
  - change ((a :: b :: l) ++ [x]) with (a :: b :: (l ++ [x])) in H.
    change ((a :: b :: l) ++ [z]) with (a :: b :: (l ++ [z])).
    rewrite nafl_cons2 in *. destruct H as [H1 H2]. split; [exact H1|].
    apply IH; auto.
Qed.

Lemma nafl_snoc_used (l : list chunk) (x z : chunk) :
  nafl (l ++ [x]) -> used z = true -> nafl (l ++ [z]).
Proof.
  induction l as [|a l IH]; intros H Hu; [exact I|].
  destruct l as [|b l].
  - simpl. split; [auto|exact I].
  - change ((a :: b :: l) ++ [x]) with (a :: b :: (l ++ [x])) in H.
    change ((a :: b :: l) ++ [z]) with (a :: b :: (l ++ [z])).
    rewrite nafl_cons2 in *. destruct H as [H1 H2]. split; [exact H1|].
    apply IH; auto.
Qed.

Lemma nafl_prefix (l : list chunk) (x : chunk) : nafl (l ++ [x]) -> nafl l.
Proof.
  induction l as [|a l IH]; intros H; [exact I|].
  destruct l as [|b l]; [exact I|].
  change ((a :: b :: l) ++ [x]) with (a :: b :: (l ++ [x])) in H.
  rewrite nafl_cons2 in *. destruct H as [H1 H2]. split; [exact H1|]. apply IH, H2.
Qed.

(** A free chunk may end a list whose last chunk is used. *)
Lemma nafl_snoc_after_used (l : list chunk) (p z : chunk) :
  nafl (l ++ [p]) -> used p = true -> nafl ((l ++ [p]) ++ [z]).
Proof.
  intros H Hu. rewrite <- app_assoc. simpl app. apply nafl_app. split; [exact H|].
  simpl. split; [|exact I]. intros E. congruence.
Qed.

Lemma nafl_cons_free (l : list chunk) (y z : chunk) :
  nafl (y :: l) -> used y = false -> nafl (z :: l).
Proof.
  destruct l as [|b l]; [intros; exact I|].
  rewrite !nafl_cons2. intros [H1 H2] Hu. split; [auto|exact H2].
Qed.

Lemma nafl_tail (l : list chunk) (y : chunk) : nafl (y :: l) -> nafl l.
Proof. destruct l as [|b l]; [intros; exact I|]. rewrite nafl_cons2. tauto. Qed.

End Adjacent.

Section Neighbours.

Lemma next_reads (a : Allocator) (l1 l2 : list chunk) (z : chunk) :
  pool_ok a (l1 ++ z :: l2) ->
  IsNextUsed a (off z) = Some (match l2 with [] => true | y :: _ => used y end)
  /\ NextChunk a (Some (off z))
     = Some (match l2 with [] => None | y :: _ => Some (off y) end).
Proof.
  intros (HP & Hne & Hc & Hs & Htags).
  assert (Hz : In z (l1 ++ z :: l2)) by (apply in_or_app; right; now left).
  destruct (Htags z Hz) as (Hg & _).
  apply contig_app in Hc. destruct Hc as (r0 & Hc1 & Hc2). simpl in Hc2.
  destruct Hc2 as [Eo Hc2]. subst r0.
  apply Forall_app in Hs. destruct Hs as [Hs1 Hs2].
  inversion Hs2 as [|? ? Hsz Hs2']; subst.
  unfold IsNextUsed. rewrite (NextChunk_spec _ _ _ Hg). rewrite geb_ltb.
  destruct l2 as [|y l2].
  - simpl in Hc2. destruct (Z.ltb_spec (off z + csz z) (msize (memory a))); [lia|].
    simpl. auto.
  - simpl in Hc2. destruct Hc2 as [Ey Hc2].
    inversion Hs2' as [|? ? [Hy16 _] Hs2'']; subst.
    pose proof (contig_le _ _ _ Hc2 Hs2'').
    destruct (Z.ltb_spec (off z + csz z) (msize (memory a))); [|lia].
    cbn [negb obind]. rewrite <- Ey.
    assert (Hy : In y (l1 ++ z :: y :: l2)) by (apply in_or_app; right; right; now left).
    pose proof (IsSelfUsed_tags _ _ (Htags y Hy)) as Hsu. unfold IsSelfUsed in Hsu.
    split; [|reflexivity].
    destruct (NextChunk a (Some (off y))) as [[n|]|]; simpl in Hsu |- *; auto.
Qed.

Lemma prev_reads (a : Allocator) (l1 l2 : list chunk) (p z : chunk) :
  pool_ok a ((l1 ++ [p]) ++ z :: l2) ->
  off z <> 0 /\ OffsetOf (off z) = off z
  /\ IsPrevUsed (memory a) (off z) = Some (used p)
  /\ (used p = false -> PrevChunk a (off z) = Some (Some (off p))).
Proof.
  intros (HP & Hne & Hc & Hs & Htags).
  assert (Hp : In p ((l1 ++ [p]) ++ z :: l2)).
  { apply in_or_app; left. apply in_or_app; right. now left. }
  assert (Hz : In z ((l1 ++ [p]) ++ z :: l2)) by (apply in_or_app; right; now left).
  destruct (Htags p Hp) as (Hg & Hf & Hfoot).
  destruct (contig_bounds _ _ _ _ Hc Hs Hp) as [Hp0 _].
  destruct (contig_bounds _ _ _ _ Hc Hs Hz) as [_ Hz1].
  pose proof Hs as Hs'. rewrite Forall_forall in Hs'.
  destruct (Hs' p Hp) as [Hp16 _]. destruct (Hs' z Hz) as [Hz16 _].
  apply contig_app in Hc. destruct Hc as (r0 & Hc1 & Hc2). simpl in Hc2.
  destruct Hc2 as [Eo Hc2]. subst r0.
  apply contig_app in Hc1. destruct Hc1 as (r0 & Hc1 & Hc1'). simpl in Hc1'.
  destruct Hc1' as [Ep Ez]. subst r0.
  destruct (Z.ltb_spec (off p + csz p) (msize (memory a))); [|lia].
  rewrite Ez in Hf, Hfoot.
  assert (Eoff : OffsetOf (off z) = off z).
  { unfold OffsetOf. apply u32_small. lia. }
  split; [lia|]. split; [exact Eoff|]. split; [exact Hf|].
  intros Hu. unfold PrevChunk. rewrite Hf, Hu, Eoff. cbn [obind orb].
  destruct (Z.eqb_spec (off z) 0); [lia|].
  unfold PrevSize, sizeofSize. rewrite (Hfoot Hu). cbn [obind].
  unfold PlaceChunkRelative. do 2 f_equal.
  assert (Et : toInt (u32 (- csz p)) = - csz p).
  { unfold u32. replace (- csz p) with (4294967296 - csz p + (-1) * 4294967296) by lia.
    rewrite Z.mod_add by lia. rewrite Z.mod_small by lia.
    unfold toInt. destruct (Z.ltb_spec (4294967296 - csz p) 2147483648); lia. }
  rewrite Et. lia.
Qed.

End Neighbours.

Section FreePtr.

Lemma pool_inv_ext (a a' : Allocator) (cl : list chunk) (bl : list (list Z)) :
  memory a' = memory a -> chunkBins a' = chunkBins a ->
  finalPrevIsUsed a' = finalPrevIsUsed a ->
  freeBlocks a' = freeBlocks a -> usedBlocks a' = usedBlocks a ->
  freeMem a' = freeMem a -> usedMem a' = usedMem a ->
  pool_inv a cl bl -> pool_inv a' cl bl.
Proof.
  intros Hm Hb Hf E1 E2 E3 E4 ((HP & Hne & Hc & Hs & Ht) & Hbins & Hcov & Hst).
  split; [|split; [|split]].
  - split; [rewrite Hm; exact HP|]. split; [exact Hne|]. split; [rewrite Hm; exact Hc|].
    split; [exact Hs|]. intros x Hx. apply (tags_same_mem a); auto.
  - apply (bins_ok_same_mem a); auto.
  - exact Hcov.
  - unfold stats_ok in *. rewrite E1, E2, E3, E4. exact Hst.
Qed.

Lemma used_chunks_snoc_free (l : list chunk) (p : chunk) :
  used p = false -> used_chunks (l ++ [p]) = used_chunks l.
Proof.
  intros H. rewrite used_chunks_app, used_chunks_cons, H. simpl. now rewrite app_nil_r.
Qed.

(** [FreePtr] on the user pointer of a used chunk. *)
Lemma FreePtr_spec (a : Allocator) (cl : list chunk) (bl : list (list Z)) (c : chunk) :
  alloc_inv a cl bl -> In c cl -> used c = true ->
  exists a' cl' bl', FreePtr a (Some (off c + 4)) = Some a'
    /\ msize (memory a') = msize (memory a)
    /\ alloc_inv a' cl' bl'
    /\ (forall x, In x (used_chunks cl') <-> In x (used_chunks cl) /\ x <> c)
    /\ frees a' = u32 (frees a + 1) /\ fails a' = fails a
    /\ allocations a' = allocations a.
Proof.
  intros Hinv Hin Hused. apply alloc_inv_pool_inv in Hinv. destruct Hinv as [Hpi Hnadj].
  pose proof Hpi as ((HP & Hne & Hc & Hs & Htags) & _).
  pose proof (nafl_of_offsets _ _ _ Hc Hs Hnadj) as Hnafl.
  destruct (mark_free a cl bl c Hpi Hin Hused)
    as (a1 & a2 & bl1 & l1 & l2 & Ecl & Ha1 & Ha2 & Hpi3 & M5 & M6 & M7 & M8).
  set (o := off c) in *. set (sz := csz c) in *.
  set (a3 := AllocationBytesUsed a2 (- toInt sz)) in *.
  set (cf := mkChunk o sz false) in *.
  rewrite Ecl in Hnafl. apply nafl_app in Hnafl. destruct Hnafl as [Hnafl1 Hnafl2].
  (* the chunks of [l1] and [l2] are not [c] *)
  assert (Hused_eq : forall x, In x (used_chunks l1 ++ used_chunks l2)
                       <-> In x (used_chunks cl) /\ x <> c).
  { rewrite Ecl in Hc, Hs.
    destruct (split_around _ _ _ Hc Hs ltac:(apply in_or_app; right; now left))
      as (k1 & k2 & Ek & Hk1 & Hk2 & Hks1 & Hks2 & Hbef & Haft & _).
    assert (Hbef' : forall x, In x l1 -> x <> c).
    { intros x Hx ->. apply contig_app in Hc. destruct Hc as (r & Hr1 & Hr2).
      simpl in Hr2. destruct Hr2 as [Er _]. subst r.
      apply Forall_app in Hs. destruct Hs as [Hs1 _].
      destruct (contig_bounds _ _ _ _ Hr1 Hs1 Hx).
      rewrite Forall_forall in Hs1. destruct (Hs1 _ Hx). lia. }
    assert (Haft' : forall x, In x l2 -> x <> c).
    { intros x Hx ->. apply contig_app in Hc. destruct Hc as (r & Hr1 & Hr2).
      simpl in Hr2. destruct Hr2 as [Er Hr2]. subst r.
      apply Forall_app in Hs. destruct Hs as [_ Hs2]. inversion Hs2 as [|? ? [H16 _] Hs2']; subst.
      destruct (contig_bounds _ _ _ _ Hr2 Hs2' Hx). lia. }
    intros x. rewrite Ecl, used_chunks_mid, Hused, !in_app_iff. simpl.
    split.
    - intros [Hx|Hx]; (split; [tauto|]); apply in_used_chunks in Hx; destruct Hx; auto.
    - intros [[?|[[<-|[]]|?]] Hn]; tauto. }
  (* coalesce with the chunk after *)
  assert (Hnext : exists nu a4 bl2 z l2z,
    IsNextUsed a3 o = Some nu
    /\ (if negb nu then
          nx <- NextChunk a3 (Some o) ;;
          match nx with
          | Some n => MergeSecondIntoFirst a3 o n
          | None => None
          end
        else Some a3) = Some a4
    /\ pool_inv a4 (l1 ++ z :: l2z) bl2
    /\ off z = o /\ used z = false /\ nafl (z :: l2z)
    /\ used_chunks l2z = used_chunks l2
    /\ sum_sizes (z :: l2z) = sum_sizes (c :: l2)
    /\ frees a4 = frees a /\ fails a4 = fails a /\ allocations a4 = allocations a).
  { destruct (next_reads a3 l1 l2 cf (proj1 Hpi3)) as [Hnu Hnx]. simpl off in Hnu, Hnx.
    rewrite Hnu.
    destruct l2 as [|y l2'].
    - exists true, a3, bl1, cf, []. cbn [negb].
      split; [reflexivity|]. split; [reflexivity|]. split; [exact Hpi3|]. split; [reflexivity|].
      split; [reflexivity|]. split; [exact I|]. split; [reflexivity|].
      split; [reflexivity|].
      split; [|split]; simpl; congruence.
    - destruct (used y) eqn:Huy.
      + exists true, a3, bl1, cf, (y :: l2'). cbn [negb].
        split; [reflexivity|]. split; [reflexivity|]. split; [exact Hpi3|]. split; [reflexivity|].
        split; [reflexivity|]. split.
        { apply nafl_cons2. split; [auto|]. eapply nafl_tail; eauto. }
        split; [reflexivity|]. split; [reflexivity|].
        split; [|split]; simpl; congruence.
      + destruct (merge_spec a3 _ bl1 l1 l2' cf y Hpi3 eq_refl eq_refl Huy)
          as (a4 & bl2 & Ha4 & Hpi4 & N1 & N2 & N3 & N4).
        simpl off in Ha4.
        exists false, a4, bl2, (mkChunk o (sz + csz y) false), l2'.
        cbn [negb]. rewrite Hnx. cbn [obind].
        split; [reflexivity|]. split; [exact Ha4|]. split; [exact Hpi4|]. split; [reflexivity|].
        split; [reflexivity|]. split.
        { eapply nafl_cons_free; [|exact Huy]. eapply nafl_tail; eauto. }
        split; [rewrite used_chunks_cons, Huy; reflexivity|].
        split; [cbn [sum_sizes csz]; unfold sz; lia|].
        split; [|split]; simpl in *; congruence. }
  destruct Hnext as (nu & a4 & bl2 & z & l2z & Hnu & Hrun4 & Hpi4 & Ez & Huz & Hnz & Hu2
                     & Hsum4 & F1 & F2 & F3).
  (* coalesce with the chunk before *)
  assert (Hprev : exists pu a5 cl5 bl5,
    IsPrevUsed (memory a4) o = Some pu
    /\ (if negb pu && negb (OffsetOf o =? 0) then
          pc <- PrevChunk a4 o ;;
          match pc with
          | Some pchunk => MergeSecondIntoFirst a4 pchunk o
          | None => None
          end
        else Some a4) = Some a5
    /\ pool_inv a5 cl5 bl5 /\ nafl cl5
    /\ used_chunks cl5 = used_chunks l1 ++ used_chunks l2
    /\ sum_sizes cl5 = sum_sizes (l1 ++ z :: l2z)
    /\ frees a5 = frees a /\ fails a5 = fails a /\ allocations a5 = allocations a).
  { assert (Hl1 : l1 = [] \/ exists l1' p, l1 = l1' ++ [p]).
    { destruct l1 as [|h t]; [now left|right].
      destruct (@exists_last _ (h :: t)) as (l1' & p & E); [discriminate|]. eauto. }
    destruct Hl1 as [E|(l1' & p & E)].
    - (* the first chunk *)
      subst l1. simpl app in *.
      pose proof Hpi4 as ((_ & _ & Hc4 & _ & Ht4) & _).
      simpl in Hc4. destruct Hc4 as [Ez0 _].
      assert (Eo0 : o = 0) by lia.
      destruct (Ht4 z (or_introl eq_refl)) as (Hg4 & _).
      apply GetSize_load in Hg4. destruct Hg4 as (w & Hw & _).
      exists (wflag w), a4, (z :: l2z), bl2.
      split; [rewrite <- Ez; apply IsPrevUsed_load; eauto|].
      rewrite Eo0. change (OffsetOf 0 =? 0) with true. rewrite andb_false_r.
      split; [reflexivity|]. split; [exact Hpi4|]. split; [exact Hnz|].
      split; [rewrite used_chunks_cons, Huz, Hu2; reflexivity|].
      split; [reflexivity|]. auto.
    - subst l1.
      destruct (prev_reads a4 l1' l2z p z (proj1 Hpi4)) as (Hz0 & Eoff & Hpu & Hpc).
      rewrite Ez in *.
      destruct (used p) eqn:Hup.
      + exists true, a4, ((l1' ++ [p]) ++ z :: l2z), bl2.
        split; [exact Hpu|]. cbn [negb andb].
        split; [reflexivity|]. split; [exact Hpi4|]. split.
        { apply nafl_app. split; [|exact Hnz].
          apply nafl_snoc_after_used; [|exact Hup]. eapply nafl_prefix; eauto. }
        split; [rewrite used_chunks_app, used_chunks_cons, Huz, Hu2; reflexivity|].
        split; [reflexivity|]. auto.
      + rewrite <- app_assoc in Hpi4. simpl app in Hpi4.
        destruct (merge_spec a4 _ bl2 l1' l2z p z Hpi4 eq_refl Hup Huz)
          as (a5 & bl5 & Ha5 & Hpi5 & N1 & N2 & N3 & N4).
        rewrite Ez in Ha5.
        exists false, a5, (l1' ++ mkChunk (off p) (csz p + csz z) false :: l2z), bl5.
        split; [exact Hpu|]. cbn [negb andb]. rewrite Eoff.
        destruct (Z.eqb_spec o 0); [lia|]. cbn [negb].
        rewrite (Hpc eq_refl). cbn [obind].
        split; [exact Ha5|]. split; [exact Hpi5|]. split.
        { apply nafl_app. split.
          - eapply nafl_snoc_free; [|exact Hup]. eapply nafl_prefix; eauto.
          - eapply nafl_cons_free; eauto. }
        split.
        { rewrite used_chunks_mid. cbn [used app].
          rewrite (used_chunks_snoc_free l1' p Hup), Hu2. reflexivity. }
        split; [rewrite !sum_sizes_app; cbn [sum_sizes csz]; lia|].
        repeat split; congruence. }
  destruct Hprev as (pu & a5 & cl5 & bl5 & Hpu & Hrun5 & Hpi5 & Hn5 & Hu5 & Hsum5
                     & G1 & G2 & G3).
  exists (set_frees a5 (u32 (frees a5 + 1))), cl5, bl5.
  split.
  { unfold FreePtr, userDeltaBytes, sizeofSize.
    replace (o + 4 - 4) with o by lia.
    pose proof (proj1 (Htags c Hin)) as Hg0. fold o in Hg0.
    rewrite Hg0. cbn [obind]. fold sz. rewrite Ha1. cbn [obind].
    rewrite Ha2. cbn [obind]. fold a3. rewrite Hnu. cbn [obind].
    rewrite Hrun4. cbn [obind]. rewrite Hpu. cbn [obind]. rewrite Hrun5. reflexivity. }
  split.
  { pose proof Hpi5 as ((_ & _ & Hc5 & _) & _).
    apply contig_sum in Hc5. apply contig_sum in Hc.
    simpl memory. rewrite Hc5, Hc, Hsum5, Ecl, !sum_sizes_app, Hsum4. reflexivity. }
  split.
  { apply alloc_inv_pool_inv. split.
    - apply (pool_inv_ext a5); auto.
    - destruct Hpi5 as ((_ & _ & Hc5 & Hs5 & _) & _).
      eapply offsets_of_nafl; eauto. }
  split; [intros x; rewrite Hu5; apply Hused_eq|].
  simpl. repeat split; congruence.
Qed.

End FreePtr.


(** * The collector: handle table and client writes *)

Section UserWrites.

(** A header byte is in no user area. *)
Lemma header_not_user (cl : list chunk) (P : Z) (x c : chunk) (b : Z) :
  contig 0 cl P -> Forall size_ok cl -> In x cl -> In c cl ->
  off x <= b < off x + 4 ->
  b < off c + 4 \/ off c + csz c <= b.
Proof.
  intros Hc Hs Hx Hcin Hb.
  rewrite Forall_forall in Hs.
  pose proof (Hs x Hx) as [Hx16 _]. pose proof (Hs c Hcin) as [Hc16 _].
  rewrite <- Forall_forall in Hs.
  destruct (contig_disjoint _ _ _ _ _ Hc Hs Hx Hcin) as [E|[H|H]].
  - subst c. lia.
  - lia.
  - lia.
Qed.

(** A byte of a free chunk is in no user area. *)
Lemma free_not_user (cl : list chunk) (P : Z) (x c : chunk) (b : Z) :
  contig 0 cl P -> Forall size_ok cl -> In x cl -> In c cl ->
  used x = false -> used c = true ->
  off x <= b < off x + csz x ->
  b < off c + 4 \/ off c + csz c <= b.
Proof.
  intros Hc Hs Hx Hcin Hux Huc Hb.
  destruct (contig_disjoint _ _ _ _ _ Hc Hs Hx Hcin) as [E|[H|H]].
  - subst c. congruence.
  - lia.
  - lia.
Qed.

(** Writes inside the user areas of used chunks keep the allocator's
    invariant. *)
Lemma user_write_inv (a : Allocator) (m' : Mem) (cl : list chunk) (bl : list (list Z)) :
  alloc_inv a cl bl -> msize m' = msize (memory a) ->
  (forall b, 0 <= b ->
     (forall c, In c cl -> used c = true -> b < off c + 4 \/ off c + csz c <= b) ->
     byte_at m' b = byte_at (memory a) b) ->
  alloc_inv (set_memory a m') cl bl.
Proof.
  intros (Hpool & Hnadj & Hbins & Hcov & Hstats) Hz Hfr.
  destruct Hpool as (HP & Hne & Hc & Hs & Htags).
  pose proof Hs as Hs'. rewrite Forall_forall in Hs'.
  assert (Hhdr : forall x b, In x cl -> off x <= b < off x + 4 ->
                 byte_at m' b = byte_at (memory a) b).
  { intros x b Hx Hb.
    destruct (contig_bounds _ _ _ _ Hc Hs Hx) as [Ho0 _].
    apply Hfr; [lia|]. intros c Hcin _.
    exact (header_not_user cl _ x c b Hc Hs Hx Hcin Hb). }
  assert (Hfree : forall x b, In x cl -> used x = false -> off x <= b < off x + csz x ->
                  byte_at m' b = byte_at (memory a) b).
  { intros x b Hx Hux Hb.
    destruct (contig_bounds _ _ _ _ Hc Hs Hx) as [Ho0 _].
    apply Hfr; [lia|]. intros c Hcin Huc.
    exact (free_not_user cl _ x c b Hc Hs Hx Hcin Hux Huc Hb). }
  split.
  { split; [simpl; lia|]. split; [exact Hne|]. split; [simpl; rewrite Hz; exact Hc|].
    split; [exact Hs|].
    intros x Hx. apply (tags_transfer a); [simpl; exact Hz| | | | |auto].
    - apply GetSize_frame; [exact Hz|]. intros b Hb. eapply Hhdr; eauto.
    - intros Hlt. destruct (contig_next _ _ _ _ Hc Hs Hx Hlt) as (c' & Hc' & Eo).
      apply IsPrevUsed_frame; [exact Hz|]. intros b Hb. apply (Hhdr c'); [auto|lia].
    - reflexivity.
    - intros Hux. apply load32_frame; [exact Hz|]. intros b Hb.
      destruct (Hs' x Hx) as [H16 _]. apply (Hfree x); auto. lia. }
  split; [exact Hnadj|].
  split.
  { apply (bins_ok_frame a); [exact Hbins|reflexivity|exact Hz|].
    intros x b Hx Hb. destruct (cover_nodes _ _ _ Hcov Hx) as (c & Hcin & Eo).
    apply in_free_chunks in Hcin. destruct Hcin as [Hcin Hcu].
    destruct (Hs' c Hcin) as [H16 _]. apply (Hfree c); auto. lia. }
  split; [exact Hcov|exact Hstats].
Qed.

End UserWrites.

Section Refs.

Lemma nth_error_list_set {A : Type} (l : list A) (i j : nat) (x : A) :
  (i < length l)%nat ->
  nth_error (list_set l i x) j = if Nat.eqb j i then Some x else nth_error l j.
Proof.
  intros Hi. unfold list_set.
  assert (Hl : length (firstn i l) = i) by (rewrite length_firstn; lia).
  destruct (Nat.eqb_spec j i) as [->|Hne].
  - rewrite nth_error_app2 by lia. rewrite Hl, Nat.sub_diag. reflexivity.
  - destruct (Nat.lt_ge_cases j i) as [Hlt|Hge].
    + rewrite nth_error_app1 by lia. rewrite nth_error_firstn.
      destruct (Nat.ltb_spec j i); [reflexivity|lia].
    + rewrite nth_error_app2 by lia. rewrite Hl.
      destruct (j - i)%nat as [|k] eqn:Ek; [lia|]. cbn [nth_error].
      rewrite nth_error_skipn. f_equal. lia.
Qed.

Lemma length_list_set {A : Type} (l : list A) (i : nat) (x : A) :
  (i < length l)%nat -> length (list_set l i x) = length l.
Proof.
  intros Hi. unfold list_set.
  rewrite length_app, length_firstn, length_cons, length_skipn. lia.
Qed.

Lemma find_free_some (rs : list RefHolder) (k i : Z) :
  find_free rs k = Some i ->
  k <= i < k + Z.of_nat (length rs)
  /\ exists r, nth_error rs (Z.to_nat (i - k)) = Some r /\ rsize r = 0.
Proof.
  revert k. induction rs as [|r rs IH]; intros k H; simpl in H; [discriminate|].
  destruct (Z.eqb_spec (rsize r) 0) as [E|E].
  - injection H as <-. split; [simpl length; lia|].
    exists r. rewrite Z.sub_diag. simpl. auto.
  - destruct (IH _ H) as (Hr & r' & Hn & Hz).
    split; [simpl length; lia|]. exists r'. split; [|exact Hz].
    replace (Z.to_nat (i - k)) with (S (Z.to_nat (i - (k + 1)))) by lia. exact Hn.
Qed.

Lemma find_free_none (rs : list RefHolder) (k : Z) :
  find_free rs k = None -> forall r, In r rs -> rsize r <> 0.
Proof.
  revert k. induction rs as [|r rs IH]; intros k H r' Hin; simpl in *; [tauto|].
  destruct (Z.eqb_spec (rsize r) 0) as [E|E]; [discriminate|].
  destruct Hin as [<-|Hin]; [exact E|]. eapply IH; eauto.
Qed.

(** The first free slot is the lowest one. *)
Lemma find_free_lowest (rs : list RefHolder) (k i : Z) :
  find_free rs k = Some i ->
  forall j r, (j < Z.to_nat (i - k))%nat -> nth_error rs j = Some r -> rsize r <> 0.
Proof.
  revert k. induction rs as [|r rs IH]; intros k H j r' Hj Hn; simpl in H; [discriminate|].
  destruct (Z.eqb_spec (rsize r) 0) as [E|E].
  - injection H as <-. lia.
  - destruct j as [|j]; simpl in Hn.
    + injection Hn as <-. exact E.
    + apply (IH _ H j r'); [|exact Hn].
      destruct (find_free_some _ _ _ H) as [Hr _]. lia.
Qed.

(** Changing the layout keeps the handle table consistent when the chunks
    the refs point at stay. *)
Lemma refs_ok_layout (rs : list RefHolder) (cl cl' : list chunk) :
  refs_ok rs cl ->
  (forall c j r, In c cl -> used c = true -> nth_error rs j = Some r ->
     pointer r = Some (off c + 4) -> In c cl') ->
  sum_sizes cl' = sum_sizes cl ->
  refs_ok rs cl'.
Proof.
  intros (R1 & R2 & R3 & R4) Hkeep Hsum.
  split; [|split; [exact R2|split; [exact R3|rewrite Hsum; exact R4]]].
  intros i r p Hn Hp. destruct (R1 i r p Hn Hp) as (c & Hc & Hu & ->).
  exists c. split; [|auto]. eapply Hkeep; eauto.
Qed.

Lemma refs_ok_set (rs : list RefHolder) (cl : list chunk) (i : nat) (r' : RefHolder) :
  refs_ok rs cl -> (i < length rs)%nat ->
  (forall p, pointer r' = Some p ->
     (exists c, In c cl /\ used c = true /\ p = off c + 4)
     /\ (forall j r, nth_error rs j = Some r -> j <> i -> pointer r <> Some p)) ->
  (rsize r' <> 0 -> pointer r' <> None) ->
  refs_ok (list_set rs i r') cl.
Proof.
  intros (R1 & R2 & R3 & R4) Hi Hp' Hs'.
  split; [|split; [|split]].
  - intros j r p Hn Hp. rewrite nth_error_list_set in Hn by exact Hi.
    destruct (Nat.eqb_spec j i) as [->|Hne].
    + injection Hn as <-. apply (Hp' p Hp).
    + eapply R1; eauto.
  - intros j k r1 r2 p Hn1 Hn2 Hp1 Hp2.
    rewrite nth_error_list_set in Hn1, Hn2 by exact Hi.
    destruct (Nat.eqb_spec j i) as [->|Hne1]; destruct (Nat.eqb_spec k i) as [->|Hne2].
    + reflexivity.
    + injection Hn1 as <-. destruct (Hp' p Hp1) as [_ Hfresh].
      exfalso. exact (Hfresh k r2 Hn2 Hne2 Hp2).
    + injection Hn2 as <-. destruct (Hp' p Hp2) as [_ Hfresh].
      exfalso. exact (Hfresh j r1 Hn1 Hne1 Hp1).
    + eapply R2; eauto.
  - intros r Hin. apply In_nth_error in Hin. destruct Hin as [j Hn].
    rewrite nth_error_list_set in Hn by exact Hi.
    destruct (Nat.eqb_spec j i) as [E|Hne].
    + injection Hn as <-. exact Hs'.
    + apply R3. eapply nth_error_In; eauto.
  - rewrite length_list_set by exact Hi. exact R4.
Qed.

Lemma refs_ok_app (rs : list RefHolder) (cl : list chunk) (r' : RefHolder) (p : Z) :
  refs_ok rs cl -> pointer r' = Some p ->
  (exists c, In c cl /\ used c = true /\ p = off c + 4) ->
  (forall j r, nth_error rs j = Some r -> pointer r <> Some p) ->
  Z.of_nat (length rs) + 1 <= Z.max 100 (sum_sizes cl / 16) ->
  refs_ok (rs ++ [r']) cl.
Proof.
  intros (R1 & R2 & R3 & R4) Hp Hc Hfresh Hlen.
  assert (Hnth : forall j r, nth_error (rs ++ [r']) j = Some r ->
            ((j < length rs)%nat /\ nth_error rs j = Some r) \/ (j = length rs /\ r = r')).
  { intros j r Hn. destruct (Nat.lt_ge_cases j (length rs)) as [Hlt|Hge].
    - rewrite nth_error_app1 in Hn by exact Hlt. auto.
    - rewrite nth_error_app2 in Hn by exact Hge.
      destruct (j - length rs)%nat as [|k] eqn:Ek; simpl in Hn.
      + injection Hn as <-. right. split; [lia|reflexivity].
      + destruct k; discriminate. }
  split; [|split; [|split]].
  - intros j r q Hn Hq. destruct (Hnth _ _ Hn) as [[_ Hn']|[_ ->]].
    + eapply R1; eauto.
    + rewrite Hp in Hq. injection Hq as <-. exact Hc.
  - intros j k r1 r2 q Hn1 Hn2 Hq1 Hq2.
    destruct (Hnth _ _ Hn1) as [[Hl1 Hn1']|[Ej E1]];
      destruct (Hnth _ _ Hn2) as [[Hl2 Hn2']|[Ek E2]].
    + eapply R2; eauto.
    + subst r2. rewrite Hp in Hq2. injection Hq2 as <-.
      exfalso. exact (Hfresh _ _ Hn1' Hq1).
    + subst r1. rewrite Hp in Hq1. injection Hq1 as <-.
      exfalso. exact (Hfresh _ _ Hn2' Hq2).
    + congruence.
  - intros r Hin. apply in_app_or in Hin. destruct Hin as [Hin|[<-|[]]].
    + apply R3. exact Hin.
    + intros _. rewrite Hp. discriminate.
  - rewrite length_app. simpl length. lia.
Qed.

End Refs.

Section RefCount.

(** Refs that all hold pointers are at most as many as the used chunks: a
    used chunk that no ref points at leaves room for one more ref. *)
Lemma refs_count (rs : list RefHolder) (cl : list chunk) (P : Z) (c0 : chunk) :
  refs_ok rs cl -> contig 0 cl P -> Forall size_ok cl ->
  (forall r, In r rs -> pointer r <> None) ->
  In c0 cl -> used c0 = true ->
  (forall j r, nth_error rs j = Some r -> pointer r <> Some (off c0 + 4)) ->
  16 * (Z.of_nat (length rs) + 1) <= P.
Proof.
  intros (R1 & R2 & R3 & R4) Hc Hs Hall Hin0 Hu0 Hfresh.
  set (L := map pointer rs).
  set (U := map (fun c => Some (off c + 4)) (used_chunks cl)).
  assert (HndL : NoDup L).
  { apply NoDup_nth_error. intros i j Hi E.
    unfold L in *. rewrite length_map in Hi. rewrite !nth_error_map in E.
    destruct (nth_error rs i) as [r|] eqn:Hni; [|apply nth_error_None in Hni; lia].
    destruct (nth_error rs j) as [r'|] eqn:Hnj; [|discriminate].
    simpl in E. injection E as E.
    destruct (pointer r) as [p|] eqn:Hp.
    - eapply R2; eauto.
    - exfalso. apply (Hall r); [eapply nth_error_In; eauto|exact Hp]. }
  assert (Hnd : NoDup (Some (off c0 + 4) :: L)).
  { constructor; [|exact HndL]. unfold L. intros Hx. apply in_map_iff in Hx.
    destruct Hx as (r & Hp & Hr). apply In_nth_error in Hr. destruct Hr as [j Hj].
    exact (Hfresh j r Hj Hp). }
  assert (Hincl : incl (Some (off c0 + 4) :: L) U).
  { intros x [<-|Hx].
    - unfold U. apply in_map_iff. exists c0. split; [reflexivity|].
      apply in_used_chunks. auto.
    - unfold L in Hx. apply in_map_iff in Hx. destruct Hx as (r & Hp & Hr).
      apply In_nth_error in Hr. destruct Hr as [j Hj].
      destruct (pointer r) as [p|] eqn:Hpr.
      + destruct (R1 j r p Hj Hpr) as (c & Hcin & Hcu & ->).
        subst x. unfold U. apply in_map_iff. exists c. split; [reflexivity|].
        apply in_used_chunks. auto.
      + exfalso. apply (Hall r); [eapply nth_error_In; eauto|exact Hpr]. }
  pose proof (NoDup_incl_length Hnd Hincl) as Hlen.
  unfold U, L in Hlen. simpl length in Hlen. rewrite !length_map in Hlen.
  pose proof (layout_counts cl P Hc Hs) as (_ & Hcnt & Hsum & Hf0 & _).
  lia.
Qed.

End RefCount.

Section GetFreeRef.

Lemma refs_length_u32 (rs : list RefHolder) (cl : list chunk) (P : Z) :
  refs_ok rs cl -> contig 0 cl P -> P < 2147483648 ->
  Z.of_nat (length rs) < 134217728.
Proof.
  intros (_ & _ & _ & R4) Hc HP. apply contig_sum in Hc. rewrite Z.add_0_l in Hc.
  rewrite <- Hc in R4.
  assert (P / 16 < 134217728) by (apply Z.div_lt_upper_bound; lia). lia.
Qed.

(** [GetFreeRef] always yields a valid handle: the lowest free slot, or a
    new slot at the end of the table. *)
Lemma GetFreeRef_spec (g : GarbageCollector) (cl : list chunk) (P : Z) (c0 : chunk) (n : Z) :
  refs_ok (refs g) cl -> contig 0 cl P -> Forall size_ok cl -> P < 2147483648 ->
  In c0 cl -> used c0 = true ->
  (forall j r, nth_error (refs g) j = Some r -> pointer r <> Some (off c0 + 4)) ->
  exists h g',
    GetFreeRef g (Some (off c0 + 4)) n = Some (h, g')
    /\ h <> InvalidRef /\ 0 <= h < Z.of_nat (length (refs g'))
    /\ base g' = base g
    /\ collections g' = collections g /\ swaps g' = swaps g /\ bytesMoved g' = bytesMoved g
    /\ refs_ok (refs g') cl
    /\ ref_get g' h = Some (mkRefHolder 1 n (Some (off c0 + 4)))
    /\ (forall j, j <> h -> ref_get g' j = ref_get g j \/ ref_get g j = None)
    /\ ((find_free (refs g) 0 = Some h /\ length (refs g') = length (refs g))
        \/ (find_free (refs g) 0 = None /\ h = Z.of_nat (length (refs g))
            /\ refs g' = refs g ++ [mkRefHolder 1 n (Some (off c0 + 4))])).
Proof.
  intros Hrefs Hc Hs HP Hin0 Hu0 Hfresh.
  pose proof (refs_length_u32 _ _ _ Hrefs Hc HP) as Hlen.
  set (r' := mkRefHolder 1 n (Some (off c0 + 4))).
  unfold GetFreeRef. fold r'.
  destruct (find_free (refs g) 0) as [i|] eqn:Hff.
  - destruct (find_free_some _ _ _ Hff) as (Hi & r & Hn & Hz).
    rewrite Z.sub_0_r in Hn. rewrite Z.add_0_l in Hi.
    unfold ref_set.
    destruct (Z.leb_spec 0 i); [|lia]. destruct (Z.ltb_spec i (Z.of_nat (length (refs g)))); [|lia].
    cbn [andb obind].
    assert (Hin : (Z.to_nat i < length (refs g))%nat) by lia.
    exists (u32 i), (set_refs g (list_set (refs g) (Z.to_nat i) r')).
    rewrite (u32_small i) by lia.
    split; [reflexivity|]. split; [unfold InvalidRef; lia|].
    split; [simpl; rewrite length_list_set by exact Hin; lia|].
    split; [reflexivity|]. split; [reflexivity|]. split; [reflexivity|]. split; [reflexivity|].
    split.
    { simpl. apply refs_ok_set; auto.
      - intros p Hp. simpl in Hp. injection Hp as <-. split.
        + exists c0. auto.
        + intros j r0 Hj _. eapply Hfresh; eauto.
      - intros _. simpl. discriminate. }
    split.
    { unfold ref_get. destruct (Z.leb_spec 0 i); [|lia]. simpl.
      rewrite nth_error_list_set by exact Hin. rewrite Nat.eqb_refl. reflexivity. }
    split.
    { intros j Hj. left. unfold ref_get. destruct (Z.leb_spec 0 j); [|reflexivity]. simpl.
      rewrite nth_error_list_set by exact Hin.
      destruct (Nat.eqb_spec (Z.to_nat j) (Z.to_nat i)); [lia|reflexivity]. }
    left. split; [reflexivity|]. simpl. apply length_list_set. exact Hin.
  - pose proof (find_free_none _ _ Hff) as Hnz.
    assert (Hall : forall r, In r (refs g) -> pointer r <> None).
    { intros r Hr. destruct Hrefs as (_ & _ & R3 & _). apply R3; auto. }
    pose proof (refs_count _ _ _ _ Hrefs Hc Hs Hall Hin0 Hu0 Hfresh) as Hcnt.
    cbn [set_refs refs]. rewrite length_app. simpl length.
    replace (Z.of_nat (length (refs g) + 1) - 1) with (Z.of_nat (length (refs g))) by lia.
    rewrite u32_small by lia.
    eexists _, _. split; [reflexivity|].
    split; [unfold InvalidRef; lia|].
    split; [simpl; rewrite length_app; simpl length; lia|].
    split; [reflexivity|]. split; [reflexivity|]. split; [reflexivity|]. split; [reflexivity|].
    split.
    { simpl. apply (refs_ok_app _ _ _ (off c0 + 4)); auto.
      - exists c0. auto.
      - pose proof Hc as Hsum. apply contig_sum in Hsum. rewrite Z.add_0_l in Hsum.
        rewrite <- Hsum.
        assert (Z.of_nat (length (refs g)) + 1 <= P / 16)
          by (apply Z.div_le_lower_bound; lia).
        lia. }
    split.
    { unfold ref_get. destruct (Z.leb_spec 0 (Z.of_nat (length (refs g)))); [|lia]. simpl.
      rewrite nth_error_app2 by lia. rewrite Nat2Z.id, Nat.sub_diag. reflexivity. }
    split.
    { intros j Hj. unfold ref_get. destruct (Z.leb_spec 0 j); [|now left]. simpl.
      destruct (Nat.lt_ge_cases (Z.to_nat j) (length (refs g))) as [Hlt|Hge].
      - left. apply nth_error_app1. exact Hlt.
      - right. apply nth_error_None. exact Hge. }
    right. auto.
Qed.

End GetFreeRef.

Section AllocRef.

Lemma alloc_inv_sum (a : Allocator) (cl : list chunk) (bl : list (list Z)) :
  alloc_inv a cl bl -> sum_sizes cl = msize (memory a).
Proof.
  intros ((_ & _ & Hc & _) & _). apply contig_sum in Hc. lia.
Qed.

(** [AllocRef]: either a free chunk fits, and the result is a valid handle
    of the new used chunk, or none fits and the result is [InvalidRef]. *)
Lemma AllocRef_spec (g : GarbageCollector) (cl : list chunk) (bl : list (list Z)) (n : Z) :
  gc_inv g cl bl ->
  (exists c a' cl' bl' u k h g',
      In c cl /\ used c = false /\ bytesNeeded n <= csz c
      /\ AllocPtr (base g) n = Some (Some (u + 4), a')
      /\ GetFreeRef (set_base g a') (Some (u + 4)) n = Some (h, g')
      /\ AllocRef g n = Some (h, g')
      /\ h <> InvalidRef /\ 0 <= h < Z.of_nat (length (refs g'))
      /\ gc_inv g' cl' bl'
      /\ base g' = a'
      /\ ref_get g' h = Some (mkRefHolder 1 n (Some (u + 4)))
      /\ In (mkChunk u k true) cl' /\ bytesNeeded n <= k
      /\ ((find_free (refs g) 0 = Some h /\ length (refs g') = length (refs g))
          \/ (find_free (refs g) 0 = None /\ h = Z.of_nat (length (refs g))
              /\ refs g' = refs g ++ [mkRefHolder 1 n (Some (u + 4))])))
  \/ (AllocPtr (base g) n = Some (None, set_fails (base g) (u32 (fails (base g) + 1)))
      /\ AllocRef g n
         = Some (InvalidRef, set_base g (set_fails (base g) (u32 (fails (base g) + 1))))
      /\ gc_inv (set_base g (set_fails (base g) (u32 (fails (base g) + 1)))) cl bl
      /\ forall c, In c cl -> used c = false -> csz c < bytesNeeded n).
Proof.
  intros [Hinv Hrefs].
  destruct (AllocPtr_spec (base g) cl bl n Hinv)
    as [(c & a' & cl' & bl' & u & k & Hcin & Hcu & Hfit & Hrun & Hz & Hinv' & Hnew & Hk
         & Hou & Huk & Hkeep & Hused' & Hfails)|(Hrun & Hnone)].
  - left.
    pose proof Hinv as ((HP & _ & Hc & Hs & _) & _).
    pose proof Hinv' as ((HP' & _ & Hc' & Hs' & _) & _).
    pose proof (bytesNeeded_range n) as (Hn16 & _).
    assert (Hrefs' : refs_ok (refs g) cl').
    { apply (refs_ok_layout _ cl); auto.
      - intros x j r Hx Hxu _ _. apply Hkeep; auto. intros ->. congruence.
      - rewrite (alloc_inv_sum _ _ _ Hinv), (alloc_inv_sum _ _ _ Hinv'). auto. }
    assert (Hfresh : forall j r, nth_error (refs g) j = Some r ->
                       pointer r <> Some (u + 4)).
    { intros j r Hj Hp. destruct Hrefs as (R1 & _).
      destruct (R1 j r _ Hj Hp) as (x & Hx & Hxu & Ex).
      assert (Hne : x <> c) by (intros ->; congruence).
      assert (Exn : x = mkChunk u k true).
      { apply (contig_off_inj cl' 0 (msize (memory a'))); auto. simpl. lia. }
      destruct (contig_disjoint _ _ _ _ _ Hc Hs Hx Hcin) as [E|[H|H]];
        [contradiction| |]; rewrite Exn in H; simpl in H; lia. }
    destruct (GetFreeRef_spec (set_base g a') cl' (msize (memory a')) (mkChunk u k true) n)
      as (h & g' & Hgf & Hh & Hhr & Hb & _ & _ & _ & Hrefs2 & Hget & _ & Hslot); auto.
    simpl off in Hgf, Hget, Hslot.
    exists c, a', cl', bl', u, k, h, g'.
    split; [exact Hcin|]. split; [exact Hcu|]. split; [exact Hfit|]. split; [exact Hrun|].
    split; [exact Hgf|].
    split.
    { unfold AllocRef. rewrite Hrun. cbn [obind]. rewrite Hgf. cbn [obind].
      destruct (Z.eqb_spec h InvalidRef); [contradiction|reflexivity]. }
    split; [exact Hh|]. split; [exact Hhr|].
    split; [split; [rewrite Hb; exact Hinv'|exact Hrefs2]|].
    split; [exact Hb|]. split; [exact Hget|]. split; [exact Hnew|]. split; [exact Hk|].
    exact Hslot.
  - right. split; [exact Hrun|]. split.
    { unfold AllocRef. rewrite Hrun. reflexivity. }
    split; [|exact Hnone].
    split; [|exact Hrefs]. simpl.
    apply alloc_inv_pool_inv. apply alloc_inv_pool_inv in Hinv. destruct Hinv as [Hpi Hn].
    split; [|exact Hn]. apply (pool_inv_ext (base g)); auto.
Qed.

End AllocRef.

Section RefOps.

Lemma refs_ok_same_ptr (rs : list RefHolder) (cl : list chunk) (i : nat) (r r' : RefHolder) :
  refs_ok rs cl -> nth_error rs i = Some r -> pointer r' = pointer r ->
  (rsize r' <> 0 -> pointer r' <> None) ->
  refs_ok (list_set rs i r') cl.
Proof.
  intros Hrefs Hn Hp Hs.
  assert (Hi : (i < length rs)%nat) by (apply nth_error_Some; congruence).
  apply refs_ok_set; auto.
  intros p Hp'. destruct Hrefs as (R1 & R2 & _). rewrite Hp in Hp'. split.
  - eapply R1; eauto.
  - intros j r0 Hj Hne Hq. apply Hne. eapply R2; eauto.
Qed.

Lemma ref_get_nth (g : GarbageCollector) (h : Z) (r : RefHolder) :
  ref_get g h = Some r ->
  0 <= h < Z.of_nat (length (refs g)) /\ nth_error (refs g) (Z.to_nat h) = Some r.
Proof.
  unfold ref_get. intros H. destruct (Z.leb_spec 0 h); [|discriminate].
  split; [|exact H].
  assert (Z.to_nat h < length (refs g))%nat by (apply nth_error_Some; congruence). lia.
Qed.

Lemma ref_set_some (g : GarbageCollector) (h : Z) (r : RefHolder) :
  0 <= h < Z.of_nat (length (refs g)) ->
  ref_set g h r = Some (set_refs g (list_set (refs g) (Z.to_nat h) r)).
Proof.
  intros Hh. unfold ref_set.
  destruct (Z.leb_spec 0 h); [|lia].
  destruct (Z.ltb_spec h (Z.of_nat (length (refs g)))); [|lia]. reflexivity.
Qed.

Lemma FreeRef_spec (g : GarbageCollector) (cl : list chunk) (bl : list (list Z)) (h : Z) :
  gc_inv g cl bl -> live g h ->
  exists g' cl' bl', FreeRef g h = Some g' /\ gc_inv g' cl' bl'.
Proof.
  intros [Hinv Hrefs] (r & p & Hget & Hp).
  destruct (ref_get_nth _ _ _ Hget) as [Hh Hn].
  pose proof Hrefs as (R1 & R2 & _).
  destruct (R1 _ _ _ Hn Hp) as (c & Hcin & Hcu & Ep).
  destruct (FreePtr_spec (base g) cl bl c Hinv Hcin Hcu)
    as (a' & cl' & bl' & Hrun & Hz & Hinv' & Hused & _).
  set (r0 := mkRefHolder InvalidRef 0 None).
  exists (set_refs (set_base g a') (list_set (refs g) (Z.to_nat h) r0)), cl', bl'.
  split.
  { unfold FreeRef. rewrite Hget. cbn [obind]. rewrite Hp, Ep, Hrun. cbn [obind].
    apply (ref_set_some (set_base g a')). exact Hh. }
  split; [exact Hinv'|]. simpl.
  assert (Hi : (Z.to_nat h < length (refs g))%nat) by lia.
  apply (refs_ok_layout _ cl).
  - apply refs_ok_set; auto. intros q Hq. discriminate.
  - intros x j rj Hx Hxu Hj Hq.
    rewrite nth_error_list_set in Hj by exact Hi.
    destruct (Nat.eqb_spec j (Z.to_nat h)) as [E|Hne].
    + injection Hj as <-. discriminate.
    + assert (Hxc : x <> c).
      { intros ->. apply Hne. apply (R2 j (Z.to_nat h) rj r (off c + 4)); congruence. }
      assert (Hx' : In x (used_chunks cl')).
      { apply Hused. split; [|exact Hxc]. apply in_used_chunks. auto. }
      apply in_used_chunks in Hx'. tauto.
  - rewrite (alloc_inv_sum _ _ _ Hinv), (alloc_inv_sum _ _ _ Hinv'). auto.
Qed.

Lemma IncrRef_spec (g : GarbageCollector) (cl : list chunk) (bl : list (list Z)) (h : Z) :
  gc_inv g cl bl -> live g h ->
  exists g', IncrRef g h = Some g' /\ gc_inv g' cl bl.
Proof.
  intros [Hinv Hrefs] (r & p & Hget & Hp).
  destruct (ref_get_nth _ _ _ Hget) as [Hh Hn].
  eexists. split.
  { unfold IncrRef. rewrite Hget. cbn [obind]. apply ref_set_some. exact Hh. }
  split; [exact Hinv|]. simpl.
  apply (refs_ok_same_ptr _ _ _ r); auto. simpl. intros _. congruence.
Qed.

Lemma DecrRef_spec (g : GarbageCollector) (cl : list chunk) (bl : list (list Z)) (h : Z) :
  gc_inv g cl bl -> live g h ->
  exists b g' cl' bl', DecrRef g h = Some (b, g') /\ gc_inv g' cl' bl'.
Proof.
  intros Hg Hlive. pose proof Hlive as (r & p & Hget & Hp).
  destruct (ref_get_nth _ _ _ Hget) as [Hh Hn].
  unfold DecrRef. rewrite Hget. cbn [obind].
  destruct (refCount r >? 1).
  - rewrite (ref_set_some g h) by exact Hh. cbn [obind].
    eexists _, _, cl, bl. split; [reflexivity|].
    destruct Hg as [Hinv Hrefs]. split; [exact Hinv|]. simpl.
    apply (refs_ok_same_ptr _ _ _ r); auto. simpl. intros _. congruence.
  - destruct (FreeRef_spec g cl bl h Hg Hlive) as (g' & cl' & bl' & Hrun & Hg').
    rewrite Hrun. cbn [obind]. eexists _, _, cl', bl'. split; [reflexivity|exact Hg'].
Qed.

(** The allocator's own [AllocPtr] and [FreePtr], called by the client. *)
Lemma raw_AllocPtr_inv (g : GarbageCollector) (cl : list chunk) (bl : list (list Z))
  (n : Z) (p : option Z) (a' : Allocator) :
  gc_inv g cl bl -> AllocPtr (base g) n = Some (p, a') ->
  exists cl' bl', gc_inv (set_base g a') cl' bl'.
Proof.
  intros [Hinv Hrefs] Hrun.
  destruct (AllocPtr_spec (base g) cl bl n Hinv)
    as [(c & a1 & cl' & bl' & u & k & Hcin & Hcu & Hfit & Hrun' & Hz & Hinv' & Hnew & Hk
         & Hou & Huk & Hkeep & Hused' & Hfails)|(Hrun' & Hnone)].
  - rewrite Hrun' in Hrun. injection Hrun as <- <-.
    exists cl', bl'. split; [exact Hinv'|]. simpl.
    apply (refs_ok_layout _ cl); auto.
    + intros x j r Hx Hxu _ _. apply Hkeep; auto. intros ->. congruence.
    + rewrite (alloc_inv_sum _ _ _ Hinv), (alloc_inv_sum _ _ _ Hinv'). auto.
  - rewrite Hrun' in Hrun. injection Hrun as <- <-.
    exists cl, bl. split; [|exact Hrefs]. simpl.
    apply alloc_inv_pool_inv. apply alloc_inv_pool_inv in Hinv. destruct Hinv as [Hpi Hn].
    split; [|exact Hn]. apply (pool_inv_ext (base g)); auto.
Qed.

Lemma raw_FreePtr_inv (g : GarbageCollector) (cl : list chunk) (bl : list (list Z))
  (p : Z) (a' : Allocator) :
  gc_inv g cl bl -> raw_pointer g p -> FreePtr (base g) (Some p) = Some a' ->
  exists cl' bl', gc_inv (set_base g a') cl' bl'.
Proof.
  intros [Hinv Hrefs] [(cl0 & c & Hpc & Hcin & Hcu & Ep) Hraw] Hrun.
  pose proof Hinv as (Hpool & _).
  rewrite (pool_chunks_spec _ _ Hpool) in Hpc. injection Hpc as <-.
  destruct (FreePtr_spec (base g) cl bl c Hinv Hcin Hcu)
    as (a1 & cl' & bl' & Hrun' & Hz & Hinv' & Hused & _).
  rewrite Ep, Hrun' in Hrun. injection Hrun as <-.
  exists cl', bl'. split; [exact Hinv'|]. simpl.
  apply (refs_ok_layout _ cl); auto.
  - intros x j r Hx Hxu Hj Hq.
    assert (Hxc : x <> c).
    { intros ->. apply (Hraw r); [eapply nth_error_In; eauto|congruence]. }
    assert (Hx' : In x (used_chunks cl')).
    { apply Hused. split; [|exact Hxc]. apply in_used_chunks. auto. }
    apply in_used_chunks in Hx'. tauto.
  - rewrite (alloc_inv_sum _ _ _ Hinv), (alloc_inv_sum _ _ _ Hinv'). auto.
Qed.

Lemma poke_inv (g : GarbageCollector) (cl : list chunk) (bl : list (list Z)) (x v : Z) :
  gc_inv g cl bl -> user_byte (base g) x -> gc_inv (poke g x v) cl bl.
Proof.
  intros [Hinv Hrefs] (cl0 & c & Hpc & Hcin & Hcu & Hx).
  pose proof Hinv as (Hpool & _).
  rewrite (pool_chunks_spec _ _ Hpool) in Hpc. injection Hpc as <-.
  destruct Hpool as (HP & _ & Hc & Hs & _).
  destruct (contig_bounds _ _ _ _ Hc Hs Hcin) as [Ho0 Ho1].
  assert (Hxr : 0 <= x < msize (memory (base g))) by lia.
  split; [|exact Hrefs]. unfold poke. cbn [base set_base].
  apply user_write_inv; auto.
  - apply msize_upd. exact Hxr.
  - intros b Hb Hout. rewrite byte_at_upd by auto.
    destruct (Z.eqb_spec x b) as [->|]; [|reflexivity].
    specialize (Hout c Hcin Hcu). lia.
Qed.

End RefOps.

Section Construction.

(** For an odd pool size the constructor's root chunk ends one byte before
    the end of the pool, and [WriteHeaderAndFooter] reads a successor header
    that does not fit. *)
Lemma Allocator_new_odd (P : Z) :
  20 <= P < 4294967296 -> P mod 2 = 1 -> Allocator_new P = None.
Proof.
  intros HP Ho. unfold Allocator_new, GetChunkAbsolute.
  assert (He : (P - 1) mod 2 = 0).
  { pose proof (Z.div_mod P 2 ltac:(lia)).
    symmetry. apply Z.mod_unique with (q := P / 2); lia. }
  rewrite (u32_small (P - 1)) by lia. rewrite RoundUp_even by (auto; lia).
  set (a0 := mkAllocator (repeat 0 (Z.to_nat P)) (repeat InvalidSize BIN_INDICES)
               false 0 0 0 0 0 0 0 0).
  assert (Hz0 : msize (memory a0) = P) by (apply msize_repeat; lia).
  unfold WriteHeaderAndFooter, assert, sizeofSize.
  destruct (Z.geb_spec (P - 1) 4); [|lia]. cbn [obind].
  destruct (SetSize_spec (memory a0) 0 (P - 1)) as (m1 & Hm1 & Hz1 & Hg1 & _); try lia.
  rewrite Hm1. cbn [obind].
  rewrite (NextChunk_spec _ 0 (P - 1)) by exact Hg1. cbn [obind memory set_memory].
  rewrite Hz1, Hz0. destruct (Z.geb_spec (0 + (P - 1)) P); [lia|].
  unfold SetPrevUsed, load32, inb. rewrite Hz1, Hz0.
  destruct (Z.leb_spec (0 + (P - 1) + 4) P); [lia|].
  rewrite andb_false_r. reflexivity.
Qed.

Lemma refs_ok_new (cl : list chunk) :
  refs_ok (repeat (mkRefHolder 0 0 None) 100) cl.
Proof.
  assert (Hall : forall r, In r (repeat (mkRefHolder 0 0 None) 100) ->
                   r = mkRefHolder 0 0 None).
  { intros r Hr. apply repeat_spec in Hr. exact Hr. }
  split; [|split; [|split]].
  - intros i r p Hn Hp. apply nth_error_In in Hn. rewrite (Hall r Hn) in Hp. discriminate.
  - intros i j r r' p Hn _ Hp _. apply nth_error_In in Hn. rewrite (Hall r Hn) in Hp.
    discriminate.
  - intros r Hr Hs. rewrite (Hall r Hr) in Hs. simpl in Hs. congruence.
  - rewrite repeat_length. lia.
Qed.

(** The constructor establishes the invariant: one free chunk covers the
    whole pool. *)
Lemma GC_new_spec (P : Z) (g : GarbageCollector) :
  20 <= P < 2147483648 -> GC_new P = Some g ->
  P mod 2 = 0
  /\ exists bl, gc_inv g [mkChunk 0 P false] bl
      /\ msize (memory (base g)) = P
      /\ finalPrevIsUsed (base g) = false
      /\ refs g = repeat (mkRefHolder 0 0 None) 100.
Proof.
  intros HP Hrun. unfold GC_new in Hrun.
  assert (He : P mod 2 = 0).
  { pose proof (Z.mod_pos_bound P 2 ltac:(lia)).
    destruct (Z.eq_dec (P mod 2) 0) as [E|E]; [exact E|].
    rewrite Allocator_new_odd in Hrun by lia. discriminate. }
  split; [exact He|].
  destruct (Allocator_new_spec P ltac:(lia) He)
    as (a & bl & Hnew & Hz & Ht & Hb & Hcov & Hfin & S1 & S2 & S3 & S4 & _).
  rewrite Hnew in Hrun. cbn [obind] in Hrun.
  assert (Eg : g = mkGC a (repeat (mkRefHolder 0 0 None) 100) 0 0 0) by congruence.
  rewrite Eg. exists bl. unfold gc_inv. cbn [base refs].
  split; [|auto].
  split; [|apply refs_ok_new].
  split.
  { split; [lia|]. split; [discriminate|]. split; [simpl; lia|].
    split; [constructor; [split; [simpl; lia|exact He]|constructor]|].
    intros c [<-|[]]. exact Ht. }
  split.
  { intros c1 c2 [<-|[]] [<-|[]]. simpl. lia. }
  split; [exact Hb|]. split; [exact Hcov|].
  unfold stats_ok. simpl. rewrite S1, S2, S3, S4. lia.
Qed.

End Construction.


(** * Compact: stamping the refs and unlinking the free chunks *)

Section Memmove.

Lemma memmove_spec (m : Mem) (dst src n : Z) :
  0 <= dst -> 0 <= src -> 0 <= n -> dst + n <= msize m -> src + n <= msize m ->
  exists m', memmove m dst src n = Some m'
    /\ msize m' = msize m
    /\ (forall b, 0 <= b ->
          byte_at m' b = if (dst <=? b) && (b <? dst + n)
                         then byte_at m (src + (b - dst)) else byte_at m b).
Proof.
  intros Hd Hs Hn Hdn Hsn. unfold memmove, inb.
  destruct (Z.leb_spec 0 dst); [|lia]. destruct (Z.leb_spec (dst + n) (msize m)); [|lia].
  destruct (Z.leb_spec 0 src); [|lia]. destruct (Z.leb_spec (src + n) (msize m)); [|lia].
  destruct (Z.leb_spec 0 n); [|lia]. cbn [andb].
  eexists. split; [reflexivity|].
  unfold msize in *.
  assert (L1 : length (firstn (Z.to_nat dst) m) = Z.to_nat dst)
    by (rewrite length_firstn; lia).
  assert (L2 : length (firstn (Z.to_nat n) (skipn (Z.to_nat src) m)) = Z.to_nat n)
    by (rewrite length_firstn, length_skipn; lia).
  split.
  { rewrite !length_app, L1, L2, length_skipn. lia. }
  intros b Hb. unfold byte_at.
  destruct (Z.leb_spec dst b); destruct (Z.ltb_spec b (dst + n)); cbn [andb].
  - rewrite app_nth2 by lia. rewrite L1.
    rewrite app_nth1 by lia.
    rewrite nth_firstn. destruct (Nat.ltb_spec (Z.to_nat b - Z.to_nat dst) (Z.to_nat n)); [|lia].
    rewrite nth_skipn. f_equal. lia.
  - rewrite app_nth2 by lia. rewrite L1.
    rewrite app_nth2 by lia. rewrite L2.
    rewrite nth_skipn. f_equal. lia.
  - rewrite app_nth1 by lia.
    rewrite nth_firstn. destruct (Nat.ltb_spec (Z.to_nat b) (Z.to_nat dst)); [|lia].
    reflexivity.
  - lia.
Qed.

End Memmove.

Section Stamp.

Lemma u32_idem (x : Z) : u32 (u32 x) = u32 x.
Proof. unfold u32. apply Z.mod_mod. lia. Qed.

Lemma ptrs_sep_tail (P : Z) (r : RefHolder) (rs : list RefHolder) :
  ptrs_sep P (r :: rs) -> ptrs_sep P rs.
Proof.
  intros [Hb Hsep]. split.
  - intros j r0 p Hn Hp. apply (Hb (S j) r0 p); auto.
  - intros j k r1 r2 p p' Hn1 Hn2 Hp1 Hp2.
    destruct (Hsep (S j) (S k) r1 r2 p p' Hn1 Hn2 Hp1 Hp2) as [E|H]; [left; lia|right; exact H].
Qed.

(** Phase 1 of [Compact]: every word a ref points at holds the ref's index,
    and [backing] holds the words that were there. *)
Lemma stamp_spec (rs : list RefHolder) (i : Z) (m : Mem) :
  ptrs_sep (msize m) rs ->
  exists m1 bk, stamp rs i m = Some (m1, bk)
    /\ msize m1 = msize m /\ length bk = length rs
    /\ (forall b, 0 <= b ->
          (forall j r p, nth_error rs j = Some r -> pointer r = Some p ->
             b < p \/ p + 4 <= b) ->
          byte_at m1 b = byte_at m b)
    /\ (forall j r p, nth_error rs j = Some r -> pointer r = Some p ->
          load32 m1 p = Some (u32 (i + Z.of_nat j))
          /\ exists w, load32 m p = Some w /\ nth_error bk j = Some w).
Proof.
  revert i m. induction rs as [|r rs IH]; intros i m Hsep.
  - exists m, []. simpl. split; [reflexivity|]. split; [reflexivity|]. split; [reflexivity|].
    split; [reflexivity|]. intros [|j] r p Hn; discriminate.
  - pose proof (ptrs_sep_tail _ _ _ Hsep) as Hsep'.
    destruct Hsep as [Hb Hdis]. cbn [stamp].
    destruct (pointer r) as [p|] eqn:Hp.
    + destruct (Hb 0%nat r p eq_refl Hp) as [Hp0 Hp1].
      destruct (load32_some m p Hp0 Hp1) as [w Hw].
      destruct (store32_some m p (u32 i) Hp0 Hp1) as [m1 Hm1].
      pose proof (store32_msize _ _ _ _ Hm1) as Hz1.
      rewrite Hw, Hm1. cbn [obind].
      destruct (IH (i + 1) m1) as (m2 & bk & Hrun & Hz2 & Hlen & Hfr & Hst).
      { rewrite Hz1. exact Hsep'. }
      rewrite Hrun. cbn [obind]. exists m2, (w :: bk).
      split; [reflexivity|]. split; [lia|]. split; [simpl; lia|].
      split.
      { intros b Hb0 Hout. rewrite Hfr; auto.
        - apply (store32_other _ _ _ _ _ Hm1); auto. apply (Hout 0%nat r p); auto.
        - intros j r0 p0 Hn Hp0'. apply (Hout (S j) r0 p0); auto. }
      intros [|j] r0 p0 Hn Hp0'.
      * simpl in Hn. injection Hn as <-. rewrite Hp in Hp0'. injection Hp0' as <-.
        split; [|exists w; auto].
        rewrite (load32_frame m1 m2); [|lia|].
        -- rewrite (load32_store32_same _ _ _ _ Hm1). rewrite u32_idem.
           f_equal. f_equal. simpl. lia.
        -- intros b Hbr. apply Hfr; [lia|]. intros j r1 p1 Hn1 Hp1'.
           destruct (Hdis 0%nat (S j) r r1 p p1) as [E|H]; auto; [discriminate|lia].
      * simpl in Hn. destruct (Hst j r0 p0 Hn Hp0') as (Hl & w0 & Hw0 & Hbk).
        split.
        -- rewrite Hl. f_equal. f_equal. lia.
        -- exists w0. split; [|exact Hbk].
           rewrite <- Hw0. symmetry. apply (load32_store32_other _ _ _ _ _ Hm1).
           destruct (Hdis 0%nat (S j) r r0 p p0) as [E|H]; auto; [discriminate|lia].
    + destruct (IH (i + 1) m Hsep') as (m2 & bk & Hrun & Hz2 & Hlen & Hfr & Hst).
      rewrite Hrun. cbn [obind]. exists m2, (0 :: bk).
      split; [reflexivity|]. split; [lia|]. split; [simpl; lia|].
      split.
      { intros b Hb0 Hout. apply Hfr; auto.
        intros j r0 p0 Hn Hp0'. apply (Hout (S j) r0 p0); auto. }
      intros [|j] r0 p0 Hn Hp0'.
      * simpl in Hn. injection Hn as <-. congruence.
      * simpl in Hn. destruct (Hst j r0 p0 Hn Hp0') as (Hl & w0 & Hw0 & Hbk).
        split.
        -- rewrite Hl. f_equal. f_equal. lia.
        -- exists w0. auto.
Qed.

End Stamp.

Section Detach.

Lemma refs_ptrs_sep (rs : list RefHolder) (cl : list chunk) (P : Z) :
  refs_ok rs cl -> contig 0 cl P -> Forall size_ok cl -> ptrs_sep P rs.
Proof.
  intros (R1 & R2 & _) Hc Hs. pose proof Hs as Hs'. rewrite Forall_forall in Hs'. split.
  - intros j r p Hn Hp. destruct (R1 j r p Hn Hp) as (c & Hcin & _ & ->).
    destruct (contig_bounds _ _ _ _ Hc Hs Hcin). destruct (Hs' c Hcin). lia.
  - intros j k r r' p p' Hn Hn' Hp Hp'.
    destruct (R1 j r p Hn Hp) as (c & Hcin & _ & Ep).
    destruct (R1 k r' p' Hn' Hp') as (c' & Hcin' & _ & Ep').
    destruct (Hs' c Hcin). destruct (Hs' c' Hcin').
    destruct (contig_disjoint _ _ _ _ _ Hc Hs Hcin Hcin') as [E|H3].
    + left. subst c'. apply (R2 j k r r' p); congruence.
    + right. lia.
Qed.

(** The chunks after a chunk of a layout start after it. *)
Lemma contig_after (rest : list chunk) (lo hi : Z) (x : chunk) :
  contig lo rest hi -> Forall size_ok rest -> In x rest -> lo <= off x.
Proof.
  intros Hc Hs Hx. destruct (contig_bounds _ _ _ _ Hc Hs Hx). lia.
Qed.

Lemma free_chunks_tail (c : chunk) (rest : list chunk) (lo hi : Z) :
  contig lo (c :: rest) hi -> Forall size_ok (c :: rest) ->
  forall x, In x (free_chunks rest) <-> In x (free_chunks (c :: rest)) /\ off x <> off c.
Proof.
  intros Hc Hs x. simpl in Hc. destruct Hc as [Eo Hc].
  inversion Hs as [|c0 r0 Hc16 Hs']; subst c0 r0. destruct Hc16 as [Hc16 _].
  rewrite !in_free_chunks. split.
  - intros [Hx Hu]. split; [split; [now right|exact Hu]|].
    pose proof (contig_after _ _ _ _ Hc Hs' Hx). lia.
  - intros [[[->|Hx] Hu] Hne]; [congruence|auto].
Qed.

Lemma length_le_sum (cl : list chunk) :
  Forall size_ok cl -> 16 * Z.of_nat (length cl) <= sum_sizes cl.
Proof.
  induction 1 as [|c r [Hc _] _ IH]; simpl sum_sizes; simpl length; lia.
Qed.

End Detach.

Section DetachLoop.

Lemma detach_step (a : Allocator) (cl done rest : list chunk) (bl : list (list Z)) (c : chunk) :
  pool_ok a cl -> cl = done ++ c :: rest ->
  bins_ok a bl -> cover (free_chunks (c :: rest)) bl ->
  Z.of_nat (length (free_chunks (c :: rest))) <= freeBlocks a < 4294967296 ->
  exists a1 bl1,
    (if negb (used c)
     then RemoveFromFreeList (set_freeBlocks a (u32 (freeBlocks a - 1))) (off c)
     else Some a) = Some a1
    /\ pool_ok a1 cl /\ bins_ok a1 bl1 /\ cover (free_chunks rest) bl1
    /\ msize (memory a1) = msize (memory a)
    /\ finalPrevIsUsed a1 = finalPrevIsUsed a
    /\ stats_eq (set_freeBlocks a (freeBlocks a - (if used c then 0 else 1))) a1
    /\ Z.of_nat (length (free_chunks rest)) <= freeBlocks a1 < 4294967296
    /\ (forall b, 0 <= b ->
          (forall x, In x (c :: rest) -> used x = false -> b < off x + 4 \/ off x + 12 <= b) ->
          byte_at (memory a1) b = byte_at (memory a) b).
Proof.
  intros Hpool Ecl Hbins Hcov Hfb.
  pose proof Hpool as (HP & Hne & Hc & Hs & Htags).
  assert (Hcr : contig (off c) (c :: rest) (msize (memory a)) /\ Forall size_ok (c :: rest)).
  { rewrite Ecl in Hc, Hs. apply contig_app in Hc. destruct Hc as (mid & _ & Hc2).
    apply Forall_app in Hs. destruct Hs as [_ Hs2]. split; [|exact Hs2].
    pose proof Hc2 as Hc2'. simpl in Hc2'. destruct Hc2' as [<- _]. exact Hc2. }
  destruct Hcr as [Hcr Hsr].
  assert (Hin : In c cl) by (rewrite Ecl; apply in_or_app; right; now left).
  destruct (used c) eqn:Hu; cbn [negb].
  - exists a, bl. split; [reflexivity|]. split; [exact Hpool|]. split; [exact Hbins|].
    split.
    { unfold free_chunks in *. cbn [filter] in Hcov. unfold is_free in Hcov at 1.
      rewrite Hu in Hcov. exact Hcov. }
    split; [reflexivity|]. split; [reflexivity|].
    split.
    { unfold stats_eq. simpl. rewrite Z.sub_0_r. tauto. }
    split.
    { unfold free_chunks in *. cbn [filter] in Hfb. unfold is_free in Hfb at 1.
      rewrite Hu in Hfb. exact Hfb. }
    reflexivity.
  - set (a0 := set_freeBlocks a (u32 (freeBlocks a - 1))).
    assert (Hlen : Z.of_nat (length (free_chunks (c :: rest)))
                   = 1 + Z.of_nat (length (free_chunks rest))).
    { unfold free_chunks. cbn [filter]. unfold is_free at 1. rewrite Hu.
      cbn [negb length]. lia. }
    assert (W1 : msize (memory a0) < 4294967296) by (simpl; lia).
    assert (W2 : incl (free_chunks (c :: rest)) cl).
    { intros x Hx. apply in_free_chunks in Hx. rewrite Ecl. apply in_or_app. tauto. }
    assert (W3 : bins_ok a0 bl) by (apply (bins_ok_same_mem a); auto).
    assert (W4 : In c (free_chunks (c :: rest))).
    { apply in_free_chunks. split; [now left|exact Hu]. }
    assert (W5 : GetSize (memory a0) (off c) = Some (csz c)) by (apply (Htags c Hin)).
    destruct (remove_chunk a0 cl (free_chunks (c :: rest)) bl c W1 Hc Hs W2 W3 Hcov W4 W5) as
      (a1 & bl1 & Ha1 & Hbins1 & Hcov1 & Hz1 & Hfin1 & Hst1 & Hfr1).
    exists a1, bl1. split; [exact Ha1|].
    assert (Hfr : forall b, 0 <= b ->
              (forall x, In x (c :: rest) -> used x = false ->
                 b < off x + 4 \/ off x + 12 <= b) ->
              byte_at (memory a1) b = byte_at (memory a) b).
    { intros b Hb Hout. rewrite Hfr1; auto.
      intros x Hx. apply in_free_chunks in Hx. apply Hout; tauto. }
    split.
    { split; [rewrite Hz1; simpl; lia|]. split; [exact Hne|].
      split; [rewrite Hz1; exact Hc|].
      split; [exact Hs|]. intros x Hx.
      assert (Hfl : forall b, 0 <= b ->
                (forall y, In y cl -> b < off y + 4 \/ off y + 12 <= b) ->
                byte_at (memory a1) b = byte_at (memory a0) b).
      { intros b Hb Hout. rewrite Hfr; auto. intros y Hy _. apply Hout.
        rewrite Ecl. apply in_or_app. now right. }
      apply (tags_links a0 a1 cl Hc Hs Hz1 Hfin1 Hfl x Hx).
      apply (tags_same_mem a); auto. }
    split; [exact Hbins1|].
    split.
    { apply Hcov1. apply (free_chunks_tail c rest (off c) (msize (memory a))); auto. }
    split; [exact Hz1|]. split; [exact Hfin1|].
    assert (Eu : u32 (freeBlocks a - 1) = freeBlocks a - 1) by (apply u32_small; lia).
    split.
    { unfold stats_eq in *. unfold a0 in Hst1. simpl in Hst1. simpl.
      rewrite Eu in Hst1. exact Hst1. }
    split.
    { destruct Hst1 as (E & _). unfold a0 in E. simpl in E. rewrite E, Eu. lia. }
    exact Hfr.
Qed.

End DetachLoop.

Section DetachSpec.

(** Phase 2 of [Compact]: every free chunk is unlinked; only link words of
    free chunks change. *)
Lemma detach_spec (rest : list chunk) :
  forall (fuel : nat) (a : Allocator) (done : list chunk) (bl : list (list Z)) (c : chunk),
  (length (c :: rest) <= fuel)%nat ->
  pool_ok a (done ++ c :: rest) -> bins_ok a bl -> cover (free_chunks (c :: rest)) bl ->
  Z.of_nat (length (free_chunks (c :: rest))) <= freeBlocks a < 4294967296 ->
  exists a2 bl2, detach fuel a (off c) = Some a2
    /\ pool_ok a2 (done ++ c :: rest) /\ bins_ok a2 bl2 /\ cover [] bl2
    /\ msize (memory a2) = msize (memory a)
    /\ finalPrevIsUsed a2 = finalPrevIsUsed a
    /\ stats_eq (set_freeBlocks a
                   (freeBlocks a - Z.of_nat (length (free_chunks (c :: rest))))) a2
    /\ (forall b, 0 <= b ->
          (forall x, In x (c :: rest) -> used x = false -> b < off x + 4 \/ off x + 12 <= b) ->
          byte_at (memory a2) b = byte_at (memory a) b).
Proof.
  induction rest as [|c' rest IH]; intros fuel a done bl c Hfuel Hpool Hbins Hcov Hfb.
  - destruct fuel as [|f]; [simpl in Hfuel; lia|]. cbn [detach].
    destruct (detach_step a _ done [] bl c Hpool eq_refl Hbins Hcov Hfb)
      as (a1 & bl1 & Ha1 & Hpool1 & Hbins1 & Hcov1 & Hz1 & Hfin1 & Hst1 & Hfb1 & Hfr1).
    pose proof Hpool as (_ & _ & Hc & Hs & Htags).
    assert (Hin : In c (done ++ [c])) by (apply in_or_app; right; now left).
    rewrite (IsSelfUsed_tags a c (Htags c Hin)). cbn [obind].
    rewrite Ha1. cbn [obind].
    destruct Hpool1 as (HP1 & Hne1 & Hc1 & Hs1 & Htags1).
    rewrite (NextChunk_spec a1 (off c) (csz c)) by (apply (Htags1 c Hin)). cbn [obind].
    assert (Eend : off c + csz c = msize (memory a1)).
    { apply contig_app in Hc1. destruct Hc1 as (mid & _ & Hc2). simpl in Hc2. lia. }
    destruct (Z.geb_spec (off c + csz c) (msize (memory a1))); [|lia].
    exists a1, bl1. split; [reflexivity|].
    split; [exact (conj HP1 (conj Hne1 (conj Hc1 (conj Hs1 Htags1))))|].
    split; [exact Hbins1|]. split; [exact Hcov1|]. split; [exact Hz1|]. split; [exact Hfin1|].
    split; [|exact Hfr1].
    rewrite free_chunks_cons. rewrite app_nil_r.
    destruct (used c); exact Hst1.
  - destruct fuel as [|f]; [simpl in Hfuel; lia|]. cbn [detach].
    destruct (detach_step a _ done (c' :: rest) bl c Hpool eq_refl Hbins Hcov Hfb)
      as (a1 & bl1 & Ha1 & Hpool1 & Hbins1 & Hcov1 & Hz1 & Hfin1 & Hst1 & Hfb1 & Hfr1).
    pose proof Hpool as (_ & _ & Hc & Hs & Htags).
    assert (Hin : In c (done ++ c :: c' :: rest)) by (apply in_or_app; right; now left).
    rewrite (IsSelfUsed_tags a c (Htags c Hin)). cbn [obind].
    rewrite Ha1. cbn [obind].
    pose proof Hpool1 as (HP1 & Hne1 & Hc1 & Hs1 & Htags1).
    rewrite (NextChunk_spec a1 (off c) (csz c)) by (apply (Htags1 c Hin)). cbn [obind].
    assert (Hnext : off c' = off c + csz c /\ off c' + csz c' <= msize (memory a1)
                    /\ 16 <= csz c').
    { apply contig_app in Hc1. destruct Hc1 as (mid & _ & Hc2).
      apply Forall_app in Hs1. destruct Hs1 as [_ Hs2].
      inversion Hs2 as [|x0 l0 _ Hs3]; subst x0 l0.
      inversion Hs3 as [|x0 l0 [H16 _] Hs4]; subst x0 l0.
      simpl in Hc2. destruct Hc2 as (Eo & E & Hc3).
      apply contig_le in Hc3; [|exact Hs4]. lia. }
    destruct Hnext as (En & Hle & H16).
    destruct (Z.geb_spec (off c + csz c) (msize (memory a1))); [lia|].
    rewrite <- En.
    assert (Hpool1' : pool_ok a1 ((done ++ [c]) ++ c' :: rest)).
    { rewrite <- app_assoc. exact Hpool1. }
    destruct (IH f a1 (done ++ [c]) bl1 c' ltac:(simpl in *; lia) Hpool1' Hbins1 Hcov1 Hfb1)
      as (a2 & bl2 & Ha2 & Hpool2 & Hbins2 & Hcov2 & Hz2 & Hfin2 & Hst2 & Hfr2).
    exists a2, bl2. split; [exact Ha2|].
    split; [rewrite <- app_assoc in Hpool2; exact Hpool2|].
    split; [exact Hbins2|]. split; [exact Hcov2|]. split; [lia|]. split; [congruence|].
    split.
    { rewrite (free_chunks_cons (c' :: rest) c). rewrite length_app.
      unfold stats_eq in *. simpl in *.
      destruct Hst1 as (A1 & A2 & A3 & A4 & A5 & A6 & A7 & A8).
      destruct Hst2 as (B1 & B2 & B3 & B4 & B5 & B6 & B7 & B8).
      rewrite B1, B2, B3, B4, B5, B6, B7, B8, A1, A2, A3, A4, A5, A6, A7, A8.
      repeat split; auto. destruct (used c); simpl length; lia. }
    intros b Hb Hout. rewrite Hfr2; auto.
    intros x Hx. apply Hout. now right.
Qed.

End DetachSpec.


(** * Compact: moving the used chunks down *)

Section Pack.

Lemma pack_app (lo : Z) (l1 l2 : list chunk) :
  pack lo (l1 ++ l2) = pack lo l1 ++ pack (lo + sum_sizes l1) l2.
Proof.
  revert lo. induction l1 as [|c r IH]; intros lo; simpl.
  - rewrite Z.add_0_r. reflexivity.
  - rewrite IH. rewrite Z.add_assoc. reflexivity.
Qed.

Lemma pack_contig (lo : Z) (l : list chunk) : contig lo (pack lo l) (lo + sum_sizes l).
Proof.
  revert lo. induction l as [|c r IH]; intros lo; simpl.
  - lia.
  - split; [reflexivity|]. rewrite Z.add_assoc. apply IH.
Qed.

Lemma pack_size_ok (lo : Z) (l : list chunk) :
  Forall size_ok l -> Forall size_ok (pack lo l).
Proof.
  intros H. revert lo. induction H as [|c r Hc _ IH]; intros lo; simpl; constructor; auto.
Qed.

Lemma sum_sizes_pack (lo : Z) (l : list chunk) : sum_sizes (pack lo l) = sum_sizes l.
Proof.
  revert lo. induction l as [|c r IH]; intros lo; simpl; [reflexivity|].
  rewrite IH. reflexivity.
Qed.

Lemma length_pack (lo : Z) (l : list chunk) : length (pack lo l) = length l.
Proof.
  revert lo. induction l as [|c r IH]; intros lo; simpl; [reflexivity|].
  rewrite IH. reflexivity.
Qed.

Lemma pack_used (lo : Z) (l : list chunk) (x : chunk) : In x (pack lo l) -> used x = true.
Proof.
  revert lo. induction l as [|c r IH]; intros lo; simpl; [tauto|].
  intros [<-|H]; [reflexivity|eauto].
Qed.

Lemma used_chunks_all (l : list chunk) :
  (forall x, In x l -> used x = true) -> used_chunks l = l.
Proof.
  induction l as [|c r IH]; intros H; [reflexivity|].
  rewrite used_chunks_cons. rewrite (H c (or_introl eq_refl)). simpl.
  rewrite IH; [reflexivity|]. intros x Hx. apply H. now right.
Qed.

Lemma free_chunks_all_used (l : list chunk) :
  (forall x, In x l -> used x = true) -> free_chunks l = [].
Proof.
  induction l as [|c r IH]; intros H; [reflexivity|].
  rewrite free_chunks_cons. rewrite (H c (or_introl eq_refl)). simpl.
  apply IH. intros x Hx. apply H. now right.
Qed.


Lemma pack_bounds (lo : Z) (l : list chunk) (x : chunk) :
  Forall size_ok l -> In x (pack lo l) ->
  lo <= off x /\ off x + csz x <= lo + sum_sizes l /\ 16 <= csz x.
Proof.
  intros Hs Hx.
  pose proof (pack_size_ok lo l Hs) as Hs'.
  destruct (contig_bounds _ _ _ _ (pack_contig lo l) Hs' Hx).
  rewrite Forall_forall in Hs'. destruct (Hs' x Hx). lia.
Qed.

Lemma used_chunks_size_ok (l : list chunk) :
  Forall size_ok l -> Forall size_ok (used_chunks l).
Proof.
  intros H. rewrite Forall_forall in *. intros x Hx.
  apply in_used_chunks in Hx. apply H. tauto.
Qed.

End Pack.

Section SlideStep.

(** One used chunk of [sz] bytes at [cur] is moved to [nw]. *)
Lemma slide_used (a : Allocator) (cur nw sz : Z) :
  msize (memory a) < 2147483648 ->
  0 <= nw <= cur -> (nw < cur -> nw + 16 <= cur) ->
  16 <= sz -> sz mod 2 = 0 -> cur + sz <= msize (memory a) ->
  (cur + sz < msize (memory a) -> cur + sz + 16 <= msize (memory a)) ->
  exists m1 a',
    (if cur =? nw then Some (memory a) else memmove (memory a) nw cur sz) = Some m1
    /\ WriteHeaderAndFooter (set_memory a m1) nw sz true = Some a'
    /\ msize (memory a') = msize (memory a)
    /\ chunkBins a' = chunkBins a
    /\ stats_eq a a'
    /\ GetSize (memory a') nw = Some sz
    /\ (forall k, 4 <= k < sz -> byte_at (memory a') (nw + k) = byte_at (memory a) (cur + k))
    /\ (forall b, 0 <= b < nw -> byte_at (memory a') b = byte_at (memory a) b)
    /\ (forall b, cur + sz + 4 <= b -> byte_at (memory a') b = byte_at (memory a) b)
    /\ (cur + sz < msize (memory a) ->
          GetSize (memory a') (cur + sz) = GetSize (memory a) (cur + sz)
          /\ finalPrevIsUsed a' = finalPrevIsUsed a)
    /\ (nw + sz = msize (memory a) -> finalPrevIsUsed a' = true).
Proof.
  intros HP Hnw Hgap Hsz Hev Hend Hnext.
  assert (Hm1 : exists m1,
    (if cur =? nw then Some (memory a) else memmove (memory a) nw cur sz) = Some m1
    /\ msize m1 = msize (memory a)
    /\ (forall b, 0 <= b ->
          byte_at m1 b = if (nw <=? b) && (b <? nw + sz)
                         then byte_at (memory a) (cur + (b - nw)) else byte_at (memory a) b)).
  { destruct (Z.eqb_spec cur nw) as [E|E].
    - exists (memory a). split; [reflexivity|]. split; [reflexivity|].
      intros b Hb. destruct ((nw <=? b) && (b <? nw + sz)); [|reflexivity].
      f_equal. lia.
    - apply memmove_spec; lia. }
  destruct Hm1 as (m1 & Hm1 & Hz1 & Hb1).
  set (a1 := set_memory a m1).
  assert (Hza : msize (memory a1) = msize (memory a)) by exact Hz1.
  destruct (WriteHeaderAndFooter_spec a1 nw sz true) as
    (a' & Ha' & Hz' & Hbins' & Hst' & Hg' & _ & Hnx' & _ & Hfr'); try lia.
  exists m1, a'. split; [exact Hm1|]. split; [exact Ha'|].
  split; [lia|]. split; [exact Hbins'|]. split; [exact Hst'|]. split; [exact Hg'|].
  split.
  { intros k Hk. rewrite Hfr' by lia. simpl memory. rewrite Hb1 by lia.
    destruct (Z.leb_spec nw (nw + k)); [|lia].
    destruct (Z.ltb_spec (nw + k) (nw + sz)); [|lia]. cbn [andb]. f_equal. lia. }
  split.
  { intros b Hb. rewrite Hfr' by lia. simpl memory. rewrite Hb1 by lia.
    destruct (Z.leb_spec nw b); [lia|]. reflexivity. }
  split.
  { intros b Hb. rewrite Hfr' by lia. simpl memory. rewrite Hb1 by lia.
    destruct (Z.ltb_spec b (nw + sz)); [lia|]. rewrite andb_false_r. reflexivity. }
  split.
  { intros Hlt. rewrite Hza in Hnx'.
    destruct (Z.ltb_spec (nw + sz) (msize (memory a))) as [Hl|Hl]; [|lia].
    destruct Hnx' as (Hgn & _ & Hfin). split; [|exact Hfin].
    destruct (Z.eq_dec cur nw) as [E|E].
    - rewrite E. rewrite Hgn. simpl memory.
      apply GetSize_frame; [exact Hz1|]. intros b Hb. rewrite Hb1 by lia.
      destruct (Z.ltb_spec b (nw + sz)); [lia|]. rewrite andb_false_r. reflexivity.
    - apply GetSize_frame; [lia|]. intros b Hb. rewrite Hfr' by lia. simpl memory.
      rewrite Hb1 by lia.
      destruct (Z.ltb_spec b (nw + sz)); [lia|]. rewrite andb_false_r. reflexivity. }
  intros E. rewrite Hza in Hnx'.
  destruct (Z.ltb_spec (nw + sz) (msize (memory a))) as [Hl|Hl]; [lia|]. exact Hnx'.
Qed.

End SlideStep.

Section Packed.

Lemma wadd_step (s k n : Z) : 0 < k -> 0 <= n -> wadd (u32 (s + k)) n = wadd s (k + n).
Proof.
  intros Hk Hn. unfold wadd.
  destruct (Z.eqb_spec (k + n) 0); [lia|].
  destruct (Z.eqb_spec n 0) as [->|].
  - rewrite Z.add_0_r. reflexivity.
  - unfold u32. rewrite Zplus_mod_idemp_l. f_equal. lia.
Qed.

Lemma used_le_all (l : list chunk) :
  Forall size_ok l ->
  0 <= sum_sizes (used_chunks l) <= sum_sizes l
  /\ (sum_sizes (used_chunks l) < sum_sizes l -> sum_sizes (used_chunks l) + 16 <= sum_sizes l).
Proof.
  induction 1 as [|c r [Hc _] _ IH]; [simpl; lia|].
  rewrite used_chunks_cons. destruct (used c); cbn [app sum_sizes]; lia.
Qed.

Lemma packed_from_snoc (m0 m m' : Mem) (l : list chunk) (c : chunk) :
  Forall size_ok l -> msize m' = msize m -> packed_from m0 m l ->
  (forall b, 0 <= b < sum_sizes l -> byte_at m' b = byte_at m b) ->
  GetSize m' (sum_sizes l) = Some (csz c) ->
  (forall k, 4 <= k < csz c -> byte_at m' (sum_sizes l + k) = byte_at m0 (off c + k)) ->
  packed_from m0 m' (l ++ [c]).
Proof.
  intros Hs Hz [Hg Hp] Hfr Hgn Hpn. unfold packed_from.
  rewrite (pack_app 0 l [c]). cbn [pack]. rewrite Z.add_0_l.
  split.
  - intros x Hx. apply in_app_or in Hx. destruct Hx as [Hx|[<-|[]]].
    + rewrite <- (Hg x Hx). apply GetSize_frame; [exact Hz|].
      intros b Hb. apply Hfr. destruct (pack_bounds 0 l x Hs Hx) as (? & ? & ?). lia.
    + exact Hgn.
  - intros x Hx. apply in_app_or in Hx. destruct Hx as [Hx|[<-|[]]].
    + destruct (Hp x Hx) as (x' & Hx' & Esz & Hbytes).
      exists x'. split; [apply in_or_app; now left|]. split; [exact Esz|].
      intros k Hk. rewrite <- (Hbytes k Hk). apply Hfr.
      destruct (pack_bounds 0 l x' Hs Hx') as (? & ? & ?). lia.
    + exists (mkChunk (sum_sizes l) (csz c) true).
      split; [apply in_or_app; right; now left|]. split; [reflexivity|].
      exact Hpn.
Qed.

Lemma IsSelfUsed_of (a : Allocator) (c s : Z) (u : bool) :
  GetSize (memory a) c = Some s ->
  (if c + s <? msize (memory a)
   then IsPrevUsed (memory a) (c + s) = Some u else finalPrevIsUsed a = u) ->
  IsSelfUsed a (Some c) = Some u.
Proof.
  intros Hg Hf. unfold IsSelfUsed. rewrite (NextChunk_spec a c s Hg). cbn [obind].
  destruct (Z.ltb_spec (c + s) (msize (memory a))); destruct (Z.geb_spec (c + s) (msize (memory a)));
    try lia; [exact Hf|congruence].
Qed.

End Packed.

Section SlideLoop.

Variable a0 : Allocator.
Variable cl : list chunk.
Hypothesis Hpool : pool_ok a0 cl.

Lemma slide_layout (done rest : list chunk) (c : chunk) :
  cl = done ++ c :: rest ->
  off c = sum_sizes done
  /\ 16 <= csz c /\ csz c mod 2 = 0
  /\ off c + csz c <= msize (memory a0)
  /\ (off c + csz c < msize (memory a0) -> off c + csz c + 16 <= msize (memory a0))
  /\ (rest = [] -> off c + csz c = msize (memory a0))
  /\ (forall c' r', rest = c' :: r' -> off c' = off c + csz c
                                      /\ off c + csz c < msize (memory a0))
  /\ 0 <= sum_sizes (used_chunks done) <= off c
  /\ (sum_sizes (used_chunks done) < off c -> sum_sizes (used_chunks done) + 16 <= off c)
  /\ tags a0 c.
Proof.
  intros Ecl. destruct Hpool as (HP & Hne & Hc & Hs & Htags).
  assert (Hin : In c cl) by (rewrite Ecl; apply in_or_app; right; now left).
  rewrite Ecl in Hc, Hs.
  apply contig_app in Hc. destruct Hc as (mid & Hc1 & Hc2).
  apply Forall_app in Hs. destruct Hs as [Hs1 Hs2].
  inversion Hs2 as [|x0 l0 [H16 Hev] Hs3]; subst x0 l0.
  apply contig_sum in Hc1. simpl in Hc2. destruct Hc2 as [Eo Hc3].
  pose proof (contig_le _ _ _ Hc3 Hs3) as Hle.
  pose proof (used_le_all done Hs1) as [Hu1 Hu2].
  split; [lia|]. split; [exact H16|]. split; [exact Hev|]. split; [lia|].
  split.
  { intros Hlt. destruct rest as [|c' r']; [simpl in Hc3; lia|].
    inversion Hs3 as [|x0 l0 [H16' _] Hs4]; subst x0 l0.
    simpl in Hc3. destruct Hc3 as [Eo' Hc4]. apply contig_le in Hc4; [|exact Hs4]. lia. }
  split; [intros ->; simpl in Hc3; lia|].
  split.
  { intros c' r' ->. inversion Hs3 as [|x0 l0 [H16' _] Hs4]; subst x0 l0.
    simpl in Hc3. destruct Hc3 as [Eo' Hc4]. apply contig_le in Hc4; [|exact Hs4]. lia. }
  split; [lia|]. split; [lia|]. apply Htags. exact Hin.
Qed.

Lemma used_chunks_snoc (l : list chunk) (c : chunk) :
  used_chunks (l ++ [c]) = used_chunks l ++ (if used c then [c] else []).
Proof.
  rewrite used_chunks_app, used_chunks_cons. simpl. rewrite app_nil_r. reflexivity.
Qed.

End SlideLoop.

Section SlideChunk.

Variable a0 : Allocator.
Variable cl : list chunk.
Hypothesis Hpool : pool_ok a0 cl.

(** One iteration of the loop of phase 3, on the chunk [c]. *)
Lemma slide_step (g : GarbageCollector) (done rest : list chunk) (c : chunk) (nw : Z) :
  cl = done ++ c :: rest ->
  msize (memory (base g)) = msize (memory a0) ->
  GetSize (memory (base g)) (off c) = Some (csz c) ->
  (forall b, off c + 4 <= b -> byte_at (memory (base g)) b = byte_at (memory a0) b) ->
  finalPrevIsUsed (base g) = finalPrevIsUsed a0 ->
  nw = sum_sizes (used_chunks done) ->
  packed_from (memory a0) (memory (base g)) (used_chunks done) ->
  NextChunk (base g) (Some (off c))
  = Some (if off c + csz c >=? msize (memory a0) then None else Some (off c + csz c))
  /\ IsSelfUsed (base g) (Some (off c)) = Some (used c)
  /\ exists g1,
      (if used c then
         sz <- GetSize (memory (base g)) (off c) ;;
         m1 <- (if off c =? nw then Some (memory (base g))
                else memmove (memory (base g)) nw (off c) sz) ;;
         a2 <- WriteHeaderAndFooter (set_memory (base g) m1) nw sz true ;;
         Some (mkGC a2 (refs g) (collections g) (u32 (swaps g + 1))
                 (u32 (bytesMoved g + sz)),
               nw + sz, u32 (nw + sz))
       else Some (g, nw, nw))
      = Some (g1, sum_sizes (used_chunks (done ++ [c])),
              sum_sizes (used_chunks (done ++ [c])))
      /\ msize (memory (base g1)) = msize (memory a0)
      /\ chunkBins (base g1) = chunkBins (base g)
      /\ stats_eq (base g) (base g1)
      /\ refs g1 = refs g /\ collections g1 = collections g
      /\ swaps g1 = (if used c then u32 (swaps g + 1) else swaps g)
      /\ bytesMoved g1 = (if used c then u32 (bytesMoved g + csz c) else bytesMoved g)
      /\ (forall b, off c + csz c + 4 <= b ->
            byte_at (memory (base g1)) b = byte_at (memory a0) b)
      /\ (off c + csz c < msize (memory a0) ->
            GetSize (memory (base g1)) (off c + csz c)
            = GetSize (memory a0) (off c + csz c)
            /\ finalPrevIsUsed (base g1) = finalPrevIsUsed a0)
      /\ packed_from (memory a0) (memory (base g1)) (used_chunks (done ++ [c]))
      /\ (sum_sizes (used_chunks (done ++ [c])) = msize (memory a0) ->
            finalPrevIsUsed (base g1) = true).
Proof.
  intros Ecl Hz Hg Hfr Hfin Hnw Hpk.
  destruct (slide_layout a0 cl Hpool done rest c Ecl)
    as (Eo & H16 & Hev & Hend & Hnext & _ & _ & Hu1 & Hu2 & Ht).
  pose proof Hpool as (HP & _ & _ & Hs & _).
  assert (Hsd : Forall size_ok (used_chunks done)).
  { apply used_chunks_size_ok. rewrite Ecl in Hs. apply Forall_app in Hs. tauto. }
  destruct Ht as (Hg0 & Hf0 & _).
  split.
  { rewrite (NextChunk_spec _ _ _ Hg). rewrite Hz. reflexivity. }
  split.
  { apply (IsSelfUsed_of _ _ (csz c)); [exact Hg|]. rewrite Hz.
    destruct (Z.ltb_spec (off c + csz c) (msize (memory a0))) as [Hl|Hl].
    - rewrite <- Hf0. apply IsPrevUsed_frame; [exact Hz|].
      intros b Hb. apply Hfr. lia.
    - congruence. }
  rewrite used_chunks_snoc, sum_sizes_app.
  destruct (used c) eqn:Hu.
  - (* the chunk moves *)
    cbn [sum_sizes]. rewrite Z.add_0_r. rewrite <- Hnw.
    destruct (slide_used (base g) (off c) nw (csz c)) as
      (m1 & a' & Hm1 & Ha' & Hz' & Hb' & Hst' & Hg' & Hpay & Hlow & Hhigh & Hnx & Hlast);
      try lia.
    rewrite Hg. cbn [obind]. rewrite Hm1. cbn [obind]. rewrite Ha'. cbn [obind].
    rewrite (u32_small (nw + csz c)) by lia.
    eexists. split; [reflexivity|]. cbn [base refs collections swaps bytesMoved].
    split; [lia|]. split; [exact Hb'|]. split; [exact Hst'|].
    split; [reflexivity|]. split; [reflexivity|]. split; [reflexivity|].
    split; [reflexivity|].
    split.
    { intros b Hb. rewrite Hhigh by lia. apply Hfr. lia. }
    split.
    { intros Hlt. rewrite Hz in Hnx. destruct (Hnx Hlt) as [E1 E2].
      split; [|congruence]. rewrite E1. apply GetSize_frame; [exact Hz|].
      intros b Hb. apply Hfr. lia. }
    split.
    { apply (packed_from_snoc _ (memory (base g)) _ _ _ Hsd Hz' Hpk).
      - intros b Hb. apply Hlow. lia.
      - rewrite <- Hnw. exact Hg'.
      - intros k Hk. rewrite <- Hnw. rewrite Hpay by exact Hk. apply Hfr. lia. }
    intros E. apply Hlast. lia.
  - (* a free chunk is skipped *)
    cbn [sum_sizes]. rewrite Z.add_0_r. rewrite <- Hnw.
    exists g. split; [reflexivity|].
    split; [exact Hz|]. split; [reflexivity|]. split; [apply stats_eq_refl|].
    split; [reflexivity|]. split; [reflexivity|]. split; [reflexivity|].
    split; [reflexivity|].
    split; [intros b Hb; apply Hfr; lia|].
    split.
    { intros Hlt. split; [|exact Hfin]. apply GetSize_frame; [exact Hz|].
      intros b Hb. apply Hfr. lia. }
    split; [rewrite app_nil_r; exact Hpk|].
    intros E. lia.
Qed.

End SlideChunk.

Section SlideSpec.

Variable a0 : Allocator.
Variable cl : list chunk.
Hypothesis Hpool : pool_ok a0 cl.

(** Phase 3 of [Compact]: the used chunks are packed at the low end, with
    their sizes in the headers and their user bytes. *)
Lemma slide_spec (rest : list chunk) :
  forall (fuel : nat) (g : GarbageCollector) (done : list chunk) (c : chunk) (nw : Z),
  cl = done ++ c :: rest ->
  (length (c :: rest) <= fuel)%nat ->
  msize (memory (base g)) = msize (memory a0) ->
  GetSize (memory (base g)) (off c) = Some (csz c) ->
  (forall b, off c + 4 <= b -> byte_at (memory (base g)) b = byte_at (memory a0) b) ->
  finalPrevIsUsed (base g) = finalPrevIsUsed a0 ->
  nw = sum_sizes (used_chunks done) ->
  packed_from (memory a0) (memory (base g)) (used_chunks done) ->
  exists g3,
    slide fuel g (off c) nw nw
    = Some (g3, sum_sizes (used_chunks cl), sum_sizes (used_chunks cl))
    /\ msize (memory (base g3)) = msize (memory a0)
    /\ chunkBins (base g3) = chunkBins (base g)
    /\ stats_eq (base g) (base g3)
    /\ refs g3 = refs g /\ collections g3 = collections g
    /\ swaps g3 = wadd (swaps g) (Z.of_nat (length (used_chunks (c :: rest))))
    /\ bytesMoved g3 = wadd (bytesMoved g) (sum_sizes (used_chunks (c :: rest)))
    /\ packed_from (memory a0) (memory (base g3)) (used_chunks cl)
    /\ (sum_sizes (used_chunks cl) = msize (memory a0) -> finalPrevIsUsed (base g3) = true).
Proof.
  induction rest as [|c' rest' IH]; intros fuel g done c nw Ecl Hfuel Hz Hg Hfr Hfin Hnw Hpk.
  - destruct fuel as [|f]; [simpl in Hfuel; lia|]. cbn [slide].
    destruct (slide_step a0 cl Hpool g done [] c nw Ecl Hz Hg Hfr Hfin Hnw Hpk)
      as (Hnx & Hsu & g1 & Hrun & Hz1 & Hb1 & Hst1 & Hr1 & Hc1 & Hsw1 & Hbm1 & Hfr1 & Hn1
          & Hpk1 & Hlast1).
    destruct (slide_layout a0 cl Hpool done [] c Ecl)
      as (Eo & H16 & Hev & Hend & _ & Hnil & _ & Hu1 & Hu2 & Ht).
    rewrite Hnx, Hsu. cbn [obind]. rewrite Hrun. cbn [obind].
    destruct (Z.geb_spec (off c + csz c) (msize (memory a0))) as [_|Hl];
      [|specialize (Hnil eq_refl); lia].
    rewrite <- Ecl in *.
    exists g1. split; [reflexivity|]. split; [exact Hz1|]. split; [exact Hb1|].
    split; [exact Hst1|]. split; [exact Hr1|]. split; [exact Hc1|].
    pose proof (used_chunks_size_ok done) as Hsd.
    split.
    { rewrite Hsw1. rewrite used_chunks_cons. destruct (used c); reflexivity. }
    split.
    { rewrite Hbm1. rewrite used_chunks_cons. destruct (used c); [|reflexivity].
      cbn [app sum_sizes used_chunks filter]. unfold wadd.
      destruct (Z.eqb_spec (csz c + 0) 0); [lia|]. rewrite Z.add_0_r. reflexivity. }
    split; [exact Hpk1|exact Hlast1].
  - destruct fuel as [|f]; [simpl in Hfuel; lia|]. cbn [slide].
    destruct (slide_step a0 cl Hpool g done (c' :: rest') c nw Ecl Hz Hg Hfr Hfin Hnw Hpk)
      as (Hnx & Hsu & g1 & Hrun & Hz1 & Hb1 & Hst1 & Hr1 & Hc1 & Hsw1 & Hbm1 & Hfr1 & Hn1
          & Hpk1 & Hlast1).
    destruct (slide_layout a0 cl Hpool done (c' :: rest') c Ecl)
      as (Eo & H16 & Hev & Hend & _ & _ & Hcons & Hu1 & Hu2 & Ht).
    destruct (Hcons c' rest' eq_refl) as [En Hlt].
    rewrite Hnx, Hsu. cbn [obind]. rewrite Hrun. cbn [obind].
    destruct (Z.geb_spec (off c + csz c) (msize (memory a0))) as [Hge|_]; [lia|].
    rewrite <- En.
    assert (Ecl' : cl = (done ++ [c]) ++ c' :: rest') by (rewrite <- app_assoc; exact Ecl).
    destruct (slide_layout a0 cl Hpool (done ++ [c]) rest' c' Ecl')
      as (_ & _ & _ & _ & _ & _ & _ & _ & _ & Ht').
    destruct (Hn1 Hlt) as [Hgn Hfin1].
    assert (Hg1 : GetSize (memory (base g1)) (off c') = Some (csz c')).
    { rewrite En, Hgn, <- En. apply Ht'. }
    assert (Hfr1' : forall b, off c' + 4 <= b ->
                      byte_at (memory (base g1)) b = byte_at (memory a0) b).
    { intros b Hb. apply Hfr1. lia. }
    destruct (IH f g1 (done ++ [c]) c' (sum_sizes (used_chunks (done ++ [c]))) Ecl'
                ltac:(simpl in *; lia) Hz1 Hg1 Hfr1' Hfin1 eq_refl Hpk1) as
      (g3 & Hrun3 & Hz3 & Hb3 & Hst3 & Hr3 & Hc3 & Hsw3 & Hbm3 & Hpk3 & Hlast3).
    exists g3. split; [exact Hrun3|]. split; [exact Hz3|]. split; [congruence|].
    split; [eapply stats_eq_trans; eauto|]. split; [congruence|]. split; [congruence|].
    assert (Hlen0 : 0 <= Z.of_nat (length (used_chunks (c' :: rest')))) by lia.
    assert (Hsum0 : 0 <= sum_sizes (used_chunks (c' :: rest'))).
    { apply sum_sizes_nonneg. apply used_chunks_size_ok.
      destruct Hpool as (_ & _ & _ & Hs & _). rewrite Ecl in Hs.
      apply Forall_app in Hs. destruct Hs as [_ Hs]. inversion Hs; auto. }
    split.
    { rewrite Hsw3, Hsw1. rewrite (used_chunks_cons (c' :: rest') c).
      destruct (used c); [|reflexivity].
      rewrite wadd_step by lia. f_equal. cbn [app length]. lia. }
    split.
    { rewrite Hbm3, Hbm1. rewrite (used_chunks_cons (c' :: rest') c).
      destruct (used c); [|reflexivity].
      rewrite wadd_step by lia. reflexivity. }
    split; [exact Hpk3|exact Hlast3].
Qed.

End SlideSpec.


(** * Compact: the free tail, the flags and the refs *)

Section CompactedLayout.

Lemma sum_even (l : list chunk) : Forall size_ok l -> sum_sizes l mod 2 = 0.
Proof.
  induction 1 as [|c r [_ Hc] _ IH]; [reflexivity|].
  simpl. rewrite Zplus_mod, Hc, IH. reflexivity.
Qed.

Variable cl : list chunk.
Variable P : Z.
Hypothesis Hc : contig 0 cl P.
Hypothesis Hs : Forall size_ok cl.

Lemma used_total :
  0 <= sum_sizes (used_chunks cl) <= P
  /\ (sum_sizes (used_chunks cl) < P -> sum_sizes (used_chunks cl) + 16 <= P)
  /\ (P - sum_sizes (used_chunks cl)) mod 2 = 0.
Proof.
  pose proof (contig_sum _ _ _ Hc) as E. rewrite Z.add_0_l in E.
  pose proof (used_le_all cl Hs) as [H1 H2].
  split; [lia|]. split; [lia|].
  pose proof (sum_even cl Hs) as E1.
  pose proof (sum_even _ (used_chunks_size_ok cl Hs)) as E2.
  rewrite E. rewrite Zminus_mod, E1, E2. reflexivity.
Qed.

Lemma compacted_contig : contig 0 (compacted P cl) P.
Proof.
  unfold compacted. apply contig_app. exists (sum_sizes (used_chunks cl)).
  split.
  - pose proof (pack_contig 0 (used_chunks cl)) as H. rewrite Z.add_0_l in H. exact H.
  - destruct (Z.ltb_spec (sum_sizes (used_chunks cl)) P) as [Hl|Hl].
    + simpl. split; [reflexivity|lia].
    + simpl. pose proof used_total. lia.
Qed.

Lemma compacted_size_ok : Forall size_ok (compacted P cl).
Proof.
  unfold compacted. apply Forall_app. split.
  - apply pack_size_ok. apply used_chunks_size_ok. exact Hs.
  - destruct (Z.ltb_spec (sum_sizes (used_chunks cl)) P) as [Hl|Hl]; [|constructor].
    constructor; [|constructor]. pose proof used_total as (H1 & H2 & H3).
    split; simpl; [lia|exact H3].
Qed.

Lemma compacted_used : used_chunks (compacted P cl) = pack 0 (used_chunks cl).
Proof.
  unfold compacted. rewrite used_chunks_app.
  rewrite (used_chunks_all (pack 0 _)) by (intros x Hx; eapply pack_used; eauto).
  destruct (sum_sizes (used_chunks cl) <? P); simpl; apply app_nil_r.
Qed.

Lemma compacted_free :
  free_chunks (compacted P cl)
  = if sum_sizes (used_chunks cl) <? P
    then [mkChunk (sum_sizes (used_chunks cl)) (P - sum_sizes (used_chunks cl)) false]
    else [].
Proof.
  unfold compacted. rewrite free_chunks_app.
  rewrite (free_chunks_all_used (pack 0 _)) by (intros x Hx; eapply pack_used; eauto).
  destruct (sum_sizes (used_chunks cl) <? P); reflexivity.
Qed.

Lemma compacted_no_adjacent_free : no_adjacent_free (compacted P cl).
Proof.
  intros c1 c2 H1 H2 Eo Hf.
  assert (Hin1 : In c1 (free_chunks (compacted P cl))) by (apply in_free_chunks; auto).
  rewrite compacted_free in Hin1.
  destruct (sum_sizes (used_chunks cl) <? P); [|contradiction].
  destruct Hin1 as [<-|[]]. simpl in Eo.
  destruct (contig_bounds _ _ _ _ compacted_contig compacted_size_ok H2).
  pose proof compacted_size_ok as Hs'. rewrite Forall_forall in Hs'.
  destruct (Hs' c2 H2). lia.
Qed.

End CompactedLayout.

Section TailChunk.

Lemma cover_nil_concat (bl : list (list Z)) : cover [] bl -> concat bl = [].
Proof.
  intros Hcov. apply concat_nil_Forall. apply Forall_forall. intros l Hl.
  destruct (In_nth _ _ [] Hl) as (i & _ & Ei).
  destruct l as [|x t]; [reflexivity|]. exfalso.
  assert (Hx : In x (nth i bl [])) by (rewrite Ei; now left).
  apply Hcov in Hx. destruct Hx as (c & [] & _).
Qed.

Lemma bins_ok_nil_frame (a a' : Allocator) (bl : list (list Z)) :
  bins_ok a bl -> cover [] bl -> chunkBins a' = chunkBins a ->
  msize (memory a') = msize (memory a) -> bins_ok a' bl.
Proof.
  intros Hb Hcov Hbins Hz. apply (bins_ok_frame a); auto.
  intros x b Hx. rewrite (cover_nil_concat bl Hcov) in Hx. contradiction.
Qed.

End TailChunk.

Section TailChunkSpec.

Variable a : Allocator.
Variable cl : list chunk.
Variable bl : list (list Z).
Hypothesis Hc : contig 0 cl (msize (memory a)).
Hypothesis Hs : Forall size_ok cl.
Hypothesis HP : msize (memory a) < 2147483648.
Hypothesis Hhdr : forall x, In x (pack 0 (used_chunks cl)) ->
                    GetSize (memory a) (off x) = Some (csz x).
Hypothesis Hbins : bins_ok a bl.
Hypothesis Hcov : cover [] bl.
Hypothesis Hfb : freeBlocks a = 0.
Hypothesis Hfin : sum_sizes (used_chunks cl) = msize (memory a) -> finalPrevIsUsed a = true.

(** Phase 4 of [Compact]. *)
Lemma tail_chunk_spec :
  exists a5 bl5,
    tail_chunk a (sum_sizes (used_chunks cl)) (sum_sizes (used_chunks cl))
    = Some (a5, if sum_sizes (used_chunks cl) <? msize (memory a)
                then Some (sum_sizes (used_chunks cl)) else None)
    /\ msize (memory a5) = msize (memory a)
    /\ bins_ok a5 bl5
    /\ cover (free_chunks (compacted (msize (memory a)) cl)) bl5
    /\ (forall x, In x (compacted (msize (memory a)) cl) ->
          GetSize (memory a5) (off x) = Some (csz x))
    /\ (sum_sizes (used_chunks cl) < msize (memory a) ->
          IsPrevUsed (memory a5) (sum_sizes (used_chunks cl)) = Some true
          /\ load32 (memory a5) (msize (memory a) - 4)
             = Some (msize (memory a) - sum_sizes (used_chunks cl)))
    /\ finalPrevIsUsed a5 = negb (sum_sizes (used_chunks cl) <? msize (memory a))
    /\ freeBlocks a5 = Z.of_nat (length (free_chunks (compacted (msize (memory a)) cl)))
    /\ freeMem a5 = msize (memory a) - sum_sizes (used_chunks cl)
    /\ usedBlocks a5 = usedBlocks a /\ usedMem a5 = usedMem a
    /\ merges a5 = merges a /\ allocations a5 = allocations a
    /\ frees a5 = frees a /\ fails a5 = fails a
    /\ (forall b, 0 <= b < sum_sizes (used_chunks cl) ->
          byte_at (memory a5) b = byte_at (memory a) b).
Proof.
  pose proof (used_total cl _ Hc Hs) as (HU & Hgap & Hev).
  pose proof (msize_nonneg (memory a)) as HP0.
  set (P := msize (memory a)) in *. set (U := sum_sizes (used_chunks cl)) in *.
  unfold tail_chunk, size. fold P.
  rewrite (u32_small P) by lia. rewrite (u32_small (P - U)) by lia.
  rewrite (compacted_free cl P). fold U.
  destruct (Z.ltb_spec U P) as [Hlt|Hge].
  - specialize (Hgap Hlt).
    destruct (Z.gtb_spec (P - U) 0); [|lia].
    unfold assert, sizeofChunk, sizeofSize.
    destruct (Z.geb_spec (P - U) (12 + 4)); [|lia]. cbn [obind].
    cbn [freeBlocks set_freeMem]. rewrite Hfb.
    set (a4 := set_freeBlocks (set_freeMem a (P - U)) (u32 (0 + 1))).
    assert (Hz4 : msize (memory a4) = P) by reflexivity.
    destruct (WriteHeaderAndFooter_spec a4 U (P - U) false) as
      (a6 & Ha6 & Hz6 & Hb6 & Hst6 & Hg6 & _ & Hnx6 & Hft6 & Hfr6); try (rewrite ?Hz4; lia).
    rewrite Ha6. cbn [obind].
    rewrite Hz4 in Hnx6. replace (U + (P - U)) with P in Hnx6, Hft6 by lia.
    rewrite Z.ltb_irrefl in Hnx6. specialize (Hft6 eq_refl).
    destruct (SetPrevUsed_spec (memory a6) U true) as (m5 & Hm5 & Hz5 & Hg5 & Hp5 & Hfr5);
      try lia.
    rewrite Hm5. cbn [obind].
    set (a7 := set_memory a6 m5).
    set (cf := mkChunk U (P - U) false).
    assert (Hz7 : msize (memory a7) = P) by (simpl; lia).
    assert (W1 : msize (memory a7) < 4294967296) by lia.
    assert (W2 : contig 0 (compacted P cl) (msize (memory a7))).
    { rewrite Hz7. apply compacted_contig; auto. }
    assert (W3 : Forall size_ok (compacted P cl)) by (apply compacted_size_ok; auto).
    assert (W4 : incl [] (compacted P cl)) by (intros x []).
    assert (W5 : bins_ok a7 bl).
    { apply (bins_ok_nil_frame a); auto; simpl; rewrite ?Hb6; auto; lia. }
    assert (W6 : In cf (compacted P cl)).
    { unfold compacted. fold U. apply in_or_app. right.
      destruct (Z.ltb_spec U P); [now left|lia]. }
    assert (W7 : forall x, In x [] -> off x <> off cf) by (intros x []).
    assert (W8 : GetSize (memory a7) (off cf) = Some (csz cf)).
    { simpl. rewrite Hg5. exact Hg6. }
    destruct (add_chunk a7 (compacted P cl) [] bl cf W1 W2 W3 W4 W5 Hcov W6 W7 W8) as
      (a5 & bl5 & Ha5 & Hbins5 & Hcov5 & Hz5' & Hfin5 & Hst5 & Hfr5').
    simpl off in Ha5. rewrite Ha5. cbn [obind].
    exists a5, bl5. split; [reflexivity|]. split; [lia|]. split; [exact Hbins5|].
    split.
    { apply Hcov5. intros x. simpl. intuition. }
    assert (Hlow : forall b, 0 <= b < U -> byte_at (memory a5) b = byte_at (memory a) b).
    { intros b Hb. rewrite Hfr5' by (auto; try lia; intros x [<-|[]]; simpl; lia).
      simpl memory. rewrite Hfr5 by lia. rewrite Hfr6 by lia. reflexivity. }
    assert (Hu5 : GetSize (memory a5) U = Some (P - U)
                  /\ IsPrevUsed (memory a5) U = Some true).
    { split.
      - rewrite <- Hg6, <- Hg5. apply GetSize_frame; [lia|].
        intros b Hb. apply Hfr5'; [lia|]. intros x [<-|[]]. simpl. lia.
      - rewrite <- Hp5. apply IsPrevUsed_frame; [lia|].
        intros b Hb. apply Hfr5'; [lia|]. intros x [<-|[]]. simpl. lia. }
    split.
    { intros x Hx. unfold compacted in Hx. fold U in Hx. apply in_app_or in Hx.
      destruct (Z.ltb_spec U P); [|lia].
      destruct Hx as [Hx|[<-|[]]].
      - rewrite <- (Hhdr x Hx). apply GetSize_frame; [lia|].
        intros b Hb. apply Hlow.
        destruct (pack_bounds 0 _ x (used_chunks_size_ok cl Hs) Hx) as (B1 & B2 & B3).
        fold U in B2. lia.
      - apply Hu5. }
    split.
    { intros _. split; [apply Hu5|].
      rewrite <- Hft6. apply load32_frame; [lia|]. intros b Hb.
      rewrite Hfr5'; [|lia|intros x [<-|[]]; simpl; lia].
      simpl memory. apply Hfr5; lia. }
    split; [rewrite Hfin5; simpl; exact Hnx6|].
    unfold stats_eq in *. unfold a7, a4 in *. simpl in Hst5, Hst6. simpl.
    destruct Hst6 as (A1 & A2 & A3 & A4 & A5 & A6 & A7 & A8).
    destruct Hst5 as (B1 & B2 & B3 & B4 & B5 & B6 & B7 & B8).
    rewrite B1, B2, B3, B4, B5, B6, B7, B8, A1, A2, A3, A4, A5, A6, A7, A8.
    repeat split; auto.
  - assert (E : U = P) by lia.
    destruct (Z.gtb_spec (P - U) 0); [lia|].
    exists (set_freeMem a (P - U)), bl.
    split; [reflexivity|]. split; [reflexivity|].
    split; [apply (bins_ok_same_mem a); auto|]. split; [exact Hcov|].
    split.
    { intros x Hx. unfold compacted in Hx. fold U in Hx.
      destruct (Z.ltb_spec U P); [lia|]. rewrite app_nil_r in Hx. simpl. auto. }
    split; [intros Hlt; lia|].
    split; [simpl; auto|].
    simpl. rewrite Hfb. repeat split; auto.
Qed.

End TailChunkSpec.

Section MarkUsed.

Lemma contig_mid (done rest : list chunk) (c : chunk) (lo hi : Z) :
  contig lo (done ++ c :: rest) hi -> Forall size_ok (done ++ c :: rest) ->
  lo <= off c /\ off c + csz c <= hi /\ 16 <= csz c
  /\ (rest = [] -> off c + csz c = hi)
  /\ (forall c' r', rest = c' :: r' -> off c' = off c + csz c /\ off c' + 16 <= hi)
  /\ (forall x, In x rest -> off c + csz c <= off x /\ off x + csz x <= hi /\ 16 <= csz x).
Proof.
  intros Hc Hs.
  apply contig_app in Hc. destruct Hc as (mid & Hc1 & Hc2).
  apply Forall_app in Hs. destruct Hs as [Hs1 Hs2].
  inversion Hs2 as [|x0 l0 [H16 Hev] Hs3]; subst x0 l0.
  pose proof (contig_le _ _ _ Hc1 Hs1) as Hle1.
  simpl in Hc2. destruct Hc2 as [Eo Hc3].
  pose proof (contig_le _ _ _ Hc3 Hs3) as Hle.
  split; [lia|]. split; [lia|]. split; [exact H16|].
  split; [intros ->; simpl in Hc3; lia|].
  split.
  { intros c' r' ->. inversion Hs3 as [|x0 l0 [H16' _] Hs4]; subst x0 l0.
    simpl in Hc3. destruct Hc3 as [Eo' Hc4]. apply contig_le in Hc4; [|exact Hs4]. lia. }
  intros x Hx. destruct (contig_bounds _ _ _ _ Hc3 Hs3 Hx).
  rewrite Forall_forall in Hs3. destruct (Hs3 x Hx). lia.
Qed.

(** The loop that sets [IsPrevUsed] in the headers of the packed chunks. *)
Lemma mark_used_spec (U : Z) (rest : list chunk) :
  forall (fuel : nat) (a : Allocator) (done : list chunk) (c : chunk),
  (length (c :: rest) <= fuel)%nat ->
  contig 0 (done ++ c :: rest) U -> Forall size_ok (done ++ c :: rest) ->
  U <= msize (memory a) -> (U < msize (memory a) -> U + 4 <= msize (memory a)) ->
  (forall x, In x (c :: rest) -> GetSize (memory a) (off x) = Some (csz x)) ->
  exists a',
    mark_used fuel a (Some (off c)) (if U <? msize (memory a) then Some U else None)
    = Some a'
    /\ msize (memory a') = msize (memory a)
    /\ chunkBins a' = chunkBins a
    /\ finalPrevIsUsed a' = finalPrevIsUsed a
    /\ stats_eq a a'
    /\ (forall x, In x (c :: rest) ->
          GetSize (memory a') (off x) = Some (csz x)
          /\ IsPrevUsed (memory a') (off x) = Some true)
    /\ (forall b, 0 <= b -> (forall x, In x (c :: rest) -> b < off x \/ off x + 4 <= b) ->
          byte_at (memory a') b = byte_at (memory a) b).
Proof.
  induction rest as [|c' rest' IH]; intros fuel a done c Hfuel Hc Hs HU HU4 Hhdr.
  - destruct fuel as [|f]; [simpl in Hfuel; lia|]. cbn [mark_used].
    destruct (contig_mid done [] c 0 U Hc Hs) as (Ho0 & Ho1 & H16 & Hnil & _ & _).
    specialize (Hnil eq_refl).
    destruct (SetPrevUsed_spec (memory a) (off c) true) as (m1 & Hm1 & Hz1 & Hg1 & Hp1 & Hfr1);
      try lia.
    rewrite Hm1. cbn [obind].
    assert (Hgc : GetSize (memory (set_memory a m1)) (off c) = Some (csz c)).
    { simpl. rewrite Hg1. apply Hhdr. now left. }
    rewrite (NextChunk_spec _ _ _ Hgc). cbn [obind]. simpl memory. rewrite Hz1, Hnil.
    assert (Heq : optZ_eqb (if U >=? msize (memory a) then None else Some U)
                           (if U <? msize (memory a) then Some U else None) = true).
    { destruct (Z.geb_spec U (msize (memory a))); destruct (Z.ltb_spec U (msize (memory a)));
        try lia; simpl; [reflexivity|apply Z.eqb_refl]. }
    rewrite Heq. exists (set_memory a m1).
    split; [reflexivity|]. split; [exact Hz1|]. split; [reflexivity|]. split; [reflexivity|].
    split; [unfold stats_eq; simpl; tauto|].
    split.
    { intros x [<-|[]]. split; [exact Hgc|exact Hp1]. }
    intros b Hb Hout. simpl. apply Hfr1; [exact Hb|]. apply Hout. now left.
  - destruct fuel as [|f]; [simpl in Hfuel; lia|]. cbn [mark_used].
    destruct (contig_mid done (c' :: rest') c 0 U Hc Hs) as (Ho0 & Ho1 & H16 & _ & Hcons & Hafter).
    destruct (Hcons c' rest' eq_refl) as [En Hn16].
    destruct (SetPrevUsed_spec (memory a) (off c) true) as (m1 & Hm1 & Hz1 & Hg1 & Hp1 & Hfr1);
      try lia.
    rewrite Hm1. cbn [obind].
    assert (Hgc : GetSize (memory (set_memory a m1)) (off c) = Some (csz c)).
    { simpl. rewrite Hg1. apply Hhdr. now left. }
    rewrite (NextChunk_spec _ _ _ Hgc). cbn [obind]. simpl memory. rewrite Hz1, <- En.
    destruct (Z.geb_spec (off c') (msize (memory a))); [lia|].
    assert (Hneq : optZ_eqb (Some (off c'))
                            (if U <? msize (memory a) then Some U else None) = false).
    { destruct (Z.ltb_spec U (msize (memory a))); simpl; [|reflexivity].
      apply Z.eqb_neq. lia. }
    rewrite Hneq.
    set (a1 := set_memory a m1).
    assert (Hc' : contig 0 ((done ++ [c]) ++ c' :: rest') U) by (rewrite <- app_assoc; exact Hc).
    assert (Hs' : Forall size_ok ((done ++ [c]) ++ c' :: rest'))
      by (rewrite <- app_assoc; exact Hs).
    assert (Hhdr' : forall x, In x (c' :: rest') ->
                      GetSize (memory a1) (off x) = Some (csz x)).
    { intros x Hx. rewrite <- (Hhdr x (or_intror Hx)). simpl.
      apply GetSize_frame; [exact Hz1|]. intros b Hb. apply Hfr1; [|].
      - destruct (Hafter x Hx). lia.
      - destruct (Hafter x Hx). lia. }
    destruct (IH f a1 (done ++ [c]) c' ltac:(simpl in *; lia) Hc' Hs') as
      (a' & Hrun & Hz' & Hb' & Hfin' & Hst' & Hres & Hfr'); auto;
      try (simpl memory; rewrite Hz1; auto).
    simpl memory in Hrun. rewrite Hz1 in Hrun.
    exists a'. split; [exact Hrun|]. simpl memory in Hz'.
    split; [lia|]. split; [exact Hb'|]. split; [exact Hfin'|].
    split; [exact Hst'|].
    assert (Hc0 : forall b, off c <= b < off c + 4 ->
                    byte_at (memory a') b = byte_at m1 b).
    { intros b Hb. apply Hfr'; [lia|]. intros x Hx. destruct (Hafter x Hx). lia. }
    split.
    { intros x [<-|Hx]; [|apply Hres; exact Hx]. split.
      - rewrite <- Hgc. simpl. apply GetSize_frame; [lia|exact Hc0].
      - rewrite <- Hp1. apply IsPrevUsed_frame; [lia|exact Hc0]. }
    intros b Hb Hout. rewrite Hfr'; [|exact Hb|].
    + unfold a1. simpl memory. apply Hfr1; [exact Hb|apply Hout; now left].
    + intros x Hx. apply Hout. now right.
Qed.

End MarkUsed.

Section CompactedInv.

Variable cl : list chunk.
Variable a : Allocator.
Hypothesis Hc : contig 0 cl (msize (memory a)).
Hypothesis Hs : Forall size_ok cl.

Lemma compacted_cases (x : chunk) :
  In x (compacted (msize (memory a)) cl) ->
  (In x (pack 0 (used_chunks cl)) /\ used x = true
   /\ off x + csz x <= sum_sizes (used_chunks cl))
  \/ (sum_sizes (used_chunks cl) < msize (memory a)
      /\ x = mkChunk (sum_sizes (used_chunks cl))
                     (msize (memory a) - sum_sizes (used_chunks cl)) false).
Proof.
  unfold compacted. intros Hx. apply in_app_or in Hx. destruct Hx as [Hx|Hx].
  - left. split; [exact Hx|]. split; [eapply pack_used; eauto|].
    destruct (pack_bounds 0 _ x (used_chunks_size_ok cl Hs) Hx) as (? & ? & ?). lia.
  - right. destruct (Z.ltb_spec (sum_sizes (used_chunks cl)) (msize (memory a)));
      [|contradiction]. destruct Hx as [<-|[]]. auto.
Qed.

(** The boundary tags of the compacted layout, from the headers. *)
Lemma compacted_tags :
  (forall x, In x (compacted (msize (memory a)) cl) ->
     GetSize (memory a) (off x) = Some (csz x)
     /\ IsPrevUsed (memory a) (off x) = Some true) ->
  finalPrevIsUsed a = negb (sum_sizes (used_chunks cl) <? msize (memory a)) ->
  (sum_sizes (used_chunks cl) < msize (memory a) ->
     load32 (memory a) (msize (memory a) - 4)
     = Some (msize (memory a) - sum_sizes (used_chunks cl))) ->
  forall x, In x (compacted (msize (memory a)) cl) -> tags a x.
Proof.
  intros Hhdr Hfin Hfoot x Hx.
  pose proof (used_total cl _ Hc Hs) as (HU & Hgap & _).
  pose proof (compacted_contig cl _ Hc Hs) as Hc'.
  pose proof (compacted_size_ok cl _ Hc Hs) as Hs'.
  split; [apply Hhdr; exact Hx|]. split.
  - destruct (Z.ltb_spec (off x + csz x) (msize (memory a))) as [Hlt|Hge].
    + destruct (contig_next _ _ _ _ Hc' Hs' Hx Hlt) as (c' & Hc'in & Eo).
      rewrite <- Eo. destruct (Hhdr c' Hc'in) as [_ ->]. f_equal.
      destruct (compacted_cases x Hx) as [(_ & Hu & _)|(_ & ->)]; [congruence|].
      simpl in Hlt. lia.
    + rewrite Hfin.
      destruct (compacted_cases x Hx) as [(_ & Hu & Hle)|(Hlt & ->)].
      * rewrite Hu. destruct (Z.ltb_spec (sum_sizes (used_chunks cl)) (msize (memory a)));
          [lia|reflexivity].
      * simpl. destruct (Z.ltb_spec (sum_sizes (used_chunks cl)) (msize (memory a)));
          [reflexivity|lia].
  - intros Hu. destruct (compacted_cases x Hx) as [(_ & Hu' & _)|(Hlt & ->)]; [congruence|].
    simpl. rewrite <- (Hfoot Hlt). f_equal. lia.
Qed.

End CompactedInv.

Section CompactDetach.

Lemma load32_shift (m m' : Mem) (p p' : Z) :
  0 <= p -> p + 4 <= msize m -> 0 <= p' -> p' + 4 <= msize m' ->
  (forall k, 0 <= k < 4 -> byte_at m' (p' + k) = byte_at m (p + k)) ->
  load32 m' p' = load32 m p.
Proof.
  intros Hp0 Hp1 Hp0' Hp1' Hb. unfold load32, inb.
  destruct (Z.leb_spec 0 p); [|lia]. destruct (Z.leb_spec (p + 4) (msize m)); [|lia].
  destruct (Z.leb_spec 0 p'); [|lia]. destruct (Z.leb_spec (p' + 4) (msize m')); [|lia].
  cbn [andb].
  pose proof (Hb 0 ltac:(lia)) as Hb0. rewrite !Z.add_0_r in Hb0.
  rewrite Hb0, (Hb 1), (Hb 2), (Hb 3) by lia. reflexivity.
Qed.

Variable g : GarbageCollector.
Variable cl : list chunk.
Variable bl : list (list Z).
Hypothesis Hinv : gc_inv g cl bl.

(** Phases 1 and 2 of [Compact]. *)
Lemma compact_detach :
  exists m1 bk a2 bl2 c0 rest0,
    cl = c0 :: rest0 /\ off c0 = 0
    /\ stamp (refs g) 0 (memory (base g)) = Some (m1, bk)
    /\ length bk = length (refs g)
    /\ detach (S (length (memory (base g)))) (set_memory (base g) m1) 0 = Some a2
    /\ pool_ok a2 cl /\ bins_ok a2 bl2 /\ cover [] bl2
    /\ msize (memory a2) = msize (memory (base g))
    /\ finalPrevIsUsed a2 = finalPrevIsUsed (base g)
    /\ stats_eq (set_freeBlocks (base g) 0) a2
    /\ (forall j r p, nth_error (refs g) j = Some r -> pointer r = Some p ->
          load32 (memory a2) p = Some (Z.of_nat j)
          /\ exists w, load32 (memory (base g)) p = Some w /\ nth_error bk j = Some w)
    /\ (forall x, In x cl -> used x = true -> forall k, 8 <= k < csz x ->
          byte_at (memory a2) (off x + k) = byte_at (memory (base g)) (off x + k)).
Proof.
  destruct Hinv as [Ha Hrefs].
  pose proof Ha as (Hpool & Hnadj & Hbins & Hcov & Hstats).
  pose proof Hpool as (HP & Hne & Hc & Hs & Htags).
  pose proof Hs as Hs'. rewrite Forall_forall in Hs'.
  pose proof (refs_ptrs_sep _ _ _ Hrefs Hc Hs) as Hsep.
  pose proof (refs_length_u32 _ _ _ Hrefs Hc HP) as Hlen.
  destruct (stamp_spec (refs g) 0 (memory (base g)) Hsep)
    as (m1 & bk & Hst & Hz1 & Hlbk & Hfr1 & Hst1).
  set (a1 := set_memory (base g) m1).
  assert (Hptr : forall b j r p, nth_error (refs g) j = Some r -> pointer r = Some p ->
            p <= b < p + 4 ->
            exists c, In c cl /\ used c = true /\ off c + 4 <= b < off c + 8).
  { intros b j r p Hn Hp Hb. destruct Hrefs as (R1 & _).
    destruct (R1 j r p Hn Hp) as (c & Hcin & Hcu & ->). exists c. repeat split; auto; lia. }
  assert (Hfr1' : forall b, 0 <= b ->
            (forall c, In c cl -> used c = true -> b < off c + 4 \/ off c + 8 <= b) ->
            byte_at m1 b = byte_at (memory (base g)) b).
  { intros b Hb Hout. apply Hfr1; [exact Hb|]. intros j r p Hn Hp.
    destruct (Z.lt_ge_cases b p) as [|Hge]; [now left|].
    destruct (Z.le_gt_cases (p + 4) b) as [|Hlt]; [now right|].
    destruct (Hptr b j r p Hn Hp ltac:(lia)) as (c & Hcin & Hcu & Hr).
    specialize (Hout c Hcin Hcu). lia. }
  assert (Ha1 : alloc_inv a1 cl bl).
  { apply user_write_inv; auto. intros b Hb Hout. apply Hfr1'; [exact Hb|].
    intros c Hcin Hcu. specialize (Hout c Hcin Hcu). destruct (Hs' c Hcin). lia. }
  destruct cl as [|c0 rest0] eqn:Ecl; [contradiction|]. rewrite <- Ecl in *.
  assert (Eo0 : off c0 = 0) by (rewrite Ecl in Hc; simpl in Hc; tauto).
  pose proof Ha1 as (Hpool1 & _ & Hbins1 & Hcov1 & Hstats1).
  pose proof (length_le_sum cl Hs) as Hlsum.
  pose proof (contig_sum _ _ _ Hc) as Hsum. rewrite Z.add_0_l in Hsum.
  pose proof (layout_counts cl _ Hc Hs) as (Hfc & _ & _ & _ & _).
  pose proof (layout_counts cl _ Hc Hs) as (_ & _ & Hfu & Hf0 & Hu0).
  assert (Hfb : Z.of_nat (length (free_chunks cl)) <= freeBlocks a1 < 4294967296).
  { destruct Hstats1 as (E & _). rewrite E. lia. }
  assert (Hfuel : (length cl <= S (length (memory (base g))))%nat).
  { unfold msize in *. lia. }
  rewrite Ecl in Hpool1, Hcov1, Hfb, Hfuel.
  destruct (detach_spec rest0 _ a1 [] bl c0 Hfuel Hpool1 Hbins1 Hcov1 Hfb)
    as (a2 & bl2 & Ha2 & Hpool2 & Hbins2 & Hcov2 & Hz2 & Hfin2 & Hst2 & Hfr2).
  rewrite <- Ecl in *. simpl app in Hpool2.
  assert (Hfr2' : forall b, 0 <= b ->
            (forall x, In x cl -> used x = false -> b < off x \/ off x + csz x <= b) ->
            byte_at (memory a2) b = byte_at m1 b).
  { intros b Hb Hout. apply Hfr2; [exact Hb|]. intros x Hx Hxu.
    specialize (Hout x Hx Hxu). destruct (Hs' x Hx). lia. }
  assert (Huser : forall x b, In x cl -> used x = true -> off x <= b < off x + csz x ->
            byte_at (memory a2) b = byte_at m1 b).
  { intros x b Hx Hxu Hb. destruct (contig_bounds _ _ _ _ Hc Hs Hx).
    apply Hfr2'; [lia|]. intros y Hy Hyu.
    destruct (contig_disjoint _ _ _ _ _ Hc Hs Hx Hy) as [E|H3]; [congruence|lia]. }
  exists m1, bk, a2, bl2, c0, rest0.
  split; [exact Ecl|]. split; [exact Eo0|]. split; [exact Hst|]. split; [exact Hlbk|].
  split; [rewrite <- Eo0; exact Ha2|]. split; [exact Hpool2|]. split; [exact Hbins2|].
  split; [exact Hcov2|]. split; [simpl in Hz2; lia|]. split; [exact Hfin2|].
  split.
  { destruct Hstats1 as (E & _). rewrite E, Z.sub_diag in Hst2.
    unfold stats_eq in *. unfold a1 in Hst2. simpl in Hst2. simpl. exact Hst2. }
  split.
  { intros j r p Hn Hp. destruct (Hst1 j r p Hn Hp) as [Hl Hw]. split; [|exact Hw].
    rewrite Z.add_0_l in Hl. rewrite u32_small in Hl.
    - rewrite <- Hl. apply load32_frame; [simpl in Hz2; lia|].
      intros b Hb. destruct (Hptr b j r p Hn Hp Hb) as (c & Hcin & Hcu & Hr).
      apply (Huser c); auto. destruct (Hs' c Hcin). lia.
    - assert ((j < length (refs g))%nat) by (apply nth_error_Some; congruence). lia. }
  intros x Hx Hxu k Hk.
  destruct (contig_bounds _ _ _ _ Hc Hs Hx).
  rewrite (Huser x) by (auto; lia).
  apply Hfr1'; [lia|]. intros c Hcin Hcu.
  destruct (contig_disjoint _ _ _ _ _ Hc Hs Hx Hcin) as [E|H3]; [subst c; lia|].
  destruct (Hs' c Hcin). lia.
Qed.

End CompactDetach.

Section CompactTail.

Lemma packed_from_frame (m0 m m' : Mem) (l : list chunk) :
  packed_from m0 m l ->
  (forall x, In x (pack 0 l) -> GetSize m' (off x) = Some (csz x)) ->
  (forall x, In x (pack 0 l) -> forall k, 4 <= k < csz x ->
     byte_at m' (off x + k) = byte_at m (off x + k)) ->
  packed_from m0 m' l.
Proof.
  intros [Hg Hp] Hg' Hfr. split; [exact Hg'|].
  intros x Hx. destruct (Hp x Hx) as (x' & Hx' & Esz & Hb).
  exists x'. split; [exact Hx'|]. split; [exact Esz|].
  intros k Hk. rewrite Hfr by (auto; lia). apply Hb. exact Hk.
Qed.

Variable g : GarbageCollector.
Variable cl : list chunk.
Variable bl : list (list Z).
Hypothesis Hinv : gc_inv g cl bl.

(** Phases 1 to 4 of [Compact]: what is left to run, and the state it runs
    on. *)
Lemma compact_to_tail :
  exists bk g3 a5 bl5 m2,
    Compact g
    = (a6 <- mark_used (S (length (memory (base g)))) a5 (Some 0)
               (if sum_sizes (used_chunks cl) <? msize (memory (base g))
                then Some (sum_sizes (used_chunks cl)) else None) ;;
       g7 <- restore (S (length (memory (base g)))) (set_base g3 a6) bk (Some 0)
               (if sum_sizes (used_chunks cl) <? msize (memory (base g))
                then Some (sum_sizes (used_chunks cl)) else None) ;;
       Some (mkGC (base g7) (refs g7) (u32 (collections g7 + 1)) (swaps g7)
               (bytesMoved g7)))
    /\ msize (memory a5) = msize (memory (base g))
    /\ bins_ok a5 bl5
    /\ cover (free_chunks (compacted (msize (memory (base g))) cl)) bl5
    /\ (forall x, In x (compacted (msize (memory (base g))) cl) ->
          GetSize (memory a5) (off x) = Some (csz x))
    /\ (sum_sizes (used_chunks cl) < msize (memory (base g)) ->
          IsPrevUsed (memory a5) (sum_sizes (used_chunks cl)) = Some true
          /\ load32 (memory a5) (msize (memory (base g)) - 4)
             = Some (msize (memory (base g)) - sum_sizes (used_chunks cl)))
    /\ finalPrevIsUsed a5
       = negb (sum_sizes (used_chunks cl) <? msize (memory (base g)))
    /\ freeBlocks a5
       = Z.of_nat (length (free_chunks (compacted (msize (memory (base g))) cl)))
    /\ freeMem a5 = msize (memory (base g)) - sum_sizes (used_chunks cl)
    /\ usedBlocks a5 = usedBlocks (base g) /\ usedMem a5 = usedMem (base g)
    /\ merges a5 = merges (base g) /\ allocations a5 = allocations (base g)
    /\ frees a5 = frees (base g) /\ fails a5 = fails (base g)
    /\ refs g3 = refs g /\ collections g3 = collections g
    /\ swaps g3 = wadd (swaps g) (Z.of_nat (length (used_chunks cl)))
    /\ bytesMoved g3 = wadd (bytesMoved g) (sum_sizes (used_chunks cl))
    /\ length bk = length (refs g)
    /\ msize m2 = msize (memory (base g))
    /\ packed_from m2 (memory a5) (used_chunks cl)
    /\ (forall j r p, nth_error (refs g) j = Some r -> pointer r = Some p ->
          load32 m2 p = Some (Z.of_nat j)
          /\ exists w, load32 (memory (base g)) p = Some w /\ nth_error bk j = Some w)
    /\ (forall x, In x cl -> used x = true -> forall k, 8 <= k < csz x ->
          byte_at m2 (off x + k) = byte_at (memory (base g)) (off x + k)).
Proof.
  destruct (compact_detach g cl bl Hinv) as
    (m1 & bk & a2 & bl2 & c0 & rest0 & Ecl & Eo0 & Hst & Hlbk & Hdet & Hpool2 & Hbins2
     & Hcov2 & Hz2 & Hfin2 & Hst2 & Hstamps & Hpay).
  pose proof Hpool2 as (HP2 & Hne2 & Hc2 & Hs2 & Htags2).
  pose proof (length_le_sum cl Hs2) as Hlsum.
  pose proof (contig_sum _ _ _ Hc2) as Hsum. rewrite Z.add_0_l in Hsum.
  assert (Hfuel : (length (c0 :: rest0) <= S (length (memory (base g))))%nat).
  { rewrite <- Ecl. unfold msize in *. lia. }
  assert (Hin0 : In c0 cl) by (rewrite Ecl; now left).
  assert (Hpk0 : packed_from (memory a2) (memory a2) (used_chunks [])).
  { split; simpl; intros x []. }
  destruct (slide_spec a2 cl Hpool2 rest0 _ (set_base g a2) [] c0 0 Ecl Hfuel eq_refl
              (proj1 (Htags2 c0 Hin0)) (fun b _ => eq_refl) eq_refl eq_refl Hpk0)
    as (g3 & Hsl & Hz3 & Hb3 & Hst3 & Hr3 & Hc3 & Hsw3 & Hbm3 & Hpk3 & Hlast3).
  rewrite Eo0 in Hsl. simpl base in Hz3, Hb3, Hst3. rewrite <- Ecl in Hsw3, Hbm3.
  assert (Hc3' : contig 0 cl (msize (memory (base g3)))) by (rewrite Hz3; exact Hc2).
  assert (HP3 : msize (memory (base g3)) < 2147483648) by lia.
  assert (Hbins3 : bins_ok (base g3) bl2) by (apply (bins_ok_nil_frame a2); auto).
  assert (Hfb3 : freeBlocks (base g3) = 0).
  { destruct Hst3 as (E & _). destruct Hst2 as (E2 & _). simpl in E2. congruence. }
  assert (Hlast3' : sum_sizes (used_chunks cl) = msize (memory (base g3)) ->
                    finalPrevIsUsed (base g3) = true) by (rewrite Hz3; exact Hlast3).
  destruct (tail_chunk_spec (base g3) cl bl2 Hc3' Hs2 HP3 (proj1 Hpk3) Hbins3 Hcov2 Hfb3
              Hlast3')
    as (a5 & bl5 & Htl & Hz5 & Hbins5 & Hcov5 & Hhdr5 & Hfree5 & Hfin5 & Hfb5 & Hfm5
        & S1 & S2 & S3 & S4 & S5 & S6 & Hlow5).
  assert (E3 : msize (memory (base g3)) = msize (memory (base g))) by congruence.
  rewrite E3 in Htl, Hz5, Hcov5, Hhdr5, Hfree5, Hfin5, Hfb5, Hfm5.
  exists bk, g3, a5, bl5, (memory a2).
  split.
  { unfold Compact, GetChunkAbsolute. rewrite Hst. cbn [obind]. rewrite Hdet. cbn [obind].
    rewrite Hsl. cbn [obind]. rewrite Htl. cbn [obind]. reflexivity. }
  split; [exact Hz5|]. split; [exact Hbins5|]. split; [exact Hcov5|].
  split; [exact Hhdr5|]. split; [exact Hfree5|]. split; [exact Hfin5|].
  split; [exact Hfb5|]. split; [exact Hfm5|].
  unfold stats_eq in Hst2, Hst3. simpl in Hst2.
  destruct Hst2 as (A1 & A2 & A3 & A4 & A5 & A6 & A7 & A8).
  destruct Hst3 as (B1 & B2 & B3 & B4 & B5 & B6 & B7 & B8).
  split; [congruence|]. split; [congruence|]. split; [congruence|]. split; [congruence|].
  split; [congruence|]. split; [congruence|].
  split; [exact Hr3|]. split; [exact Hc3|]. split; [exact Hsw3|]. split; [exact Hbm3|].
  split; [exact Hlbk|]. split; [exact Hz2|].
  split.
  { apply (packed_from_frame _ (memory (base g3))); [exact Hpk3| |].
    - intros x Hx. apply Hhdr5. unfold compacted. apply in_or_app. now left.
    - intros x Hx k Hk. apply Hlow5.
      destruct (pack_bounds 0 _ x (used_chunks_size_ok cl Hs2) Hx) as (? & ? & ?). lia. }
  split; [exact Hstamps|exact Hpay].
Qed.

End CompactTail.

Section CompactMarked.

Variable g : GarbageCollector.
Variable cl : list chunk.
Variable bl : list (list Z).
Hypothesis Hinv : gc_inv g cl bl.

(** Without a used chunk the loop that marks the chunks walks off the end
    of the pool: the free chunk is the first chunk, and the loop looks for
    it after the first chunk. *)
Lemma Compact_no_used : used_chunks cl = [] -> Compact g = None.
Proof.
  intros Hnone.
  destruct (compact_to_tail g cl bl Hinv) as
    (bk & g3 & a5 & bl5 & m2 & Hrun & Hz5 & _ & _ & Hhdr5 & _).
  destruct Hinv as [((HP & Hne & Hc & Hs & _) & _) _].
  pose proof (contig_sum _ _ _ Hc) as Hsum. rewrite Z.add_0_l in Hsum.
  pose proof (length_le_sum cl Hs) as Hlsum.
  assert (Hlen : (0 < length cl)%nat) by (destruct cl; [contradiction|simpl; lia]).
  rewrite Hrun. rewrite Hnone in *. simpl sum_sizes in *.
  destruct (Z.ltb_spec 0 (msize (memory (base g)))) as [Hlt|Hge]; [|lia].
  assert (Hg0 : GetSize (memory a5) 0 = Some (msize (memory (base g)))).
  { specialize (Hhdr5 (mkChunk 0 (msize (memory (base g)) - 0) false)).
    simpl in Hhdr5. rewrite Z.sub_0_r in Hhdr5. apply Hhdr5.
    unfold compacted. rewrite Hnone. simpl.
    destruct (Z.ltb_spec 0 (msize (memory (base g)))); [|lia].
    left. rewrite Z.sub_0_r. reflexivity. }
  cbn [mark_used].
  destruct (SetPrevUsed_spec (memory a5) 0 true) as (m1 & Hm1 & Hz1 & Hg1 & _); try lia.
  rewrite Hm1. cbn [obind].
  assert (Hgc : GetSize (memory (set_memory a5 m1)) 0 = Some (msize (memory (base g)))).
  { simpl. rewrite Hg1. exact Hg0. }
  rewrite (NextChunk_spec _ _ _ Hgc). cbn [obind]. simpl memory. rewrite Hz1, Hz5.
  destruct (Z.geb_spec (0 + msize (memory (base g))) (msize (memory (base g)))); [|lia].
  cbn [optZ_eqb].
  destruct (length (memory (base g))); reflexivity.
Qed.

End CompactMarked.

Section CompactMarked2.

Variable g : GarbageCollector.
Variable cl : list chunk.
Variable bl : list (list Z).
Hypothesis Hinv : gc_inv g cl bl.
Hypothesis Hsome : used_chunks cl <> [].

(** Phases 1 to 4 and the marking loop: the allocator is consistent again,
    on the compacted layout; the refs are still to be redirected. *)
Lemma compact_marked :
  exists bk g3 a6 bl' m2,
    Compact g
    = (g7 <- restore (S (length (memory (base g)))) (set_base g3 a6) bk (Some 0)
               (if sum_sizes (used_chunks cl) <? msize (memory (base g))
                then Some (sum_sizes (used_chunks cl)) else None) ;;
       Some (mkGC (base g7) (refs g7) (u32 (collections g7 + 1)) (swaps g7)
               (bytesMoved g7)))
    /\ alloc_inv a6 (compacted (msize (memory (base g))) cl) bl'
    /\ msize (memory a6) = msize (memory (base g))
    /\ merges a6 = merges (base g) /\ allocations a6 = allocations (base g)
    /\ frees a6 = frees (base g) /\ fails a6 = fails (base g)
    /\ refs g3 = refs g /\ collections g3 = collections g
    /\ swaps g3 = wadd (swaps g) (Z.of_nat (length (used_chunks cl)))
    /\ bytesMoved g3 = wadd (bytesMoved g) (sum_sizes (used_chunks cl))
    /\ length bk = length (refs g)
    /\ msize m2 = msize (memory (base g))
    /\ packed_from m2 (memory a6) (used_chunks cl)
    /\ (forall j r p, nth_error (refs g) j = Some r -> pointer r = Some p ->
          load32 m2 p = Some (Z.of_nat j)
          /\ exists w, load32 (memory (base g)) p = Some w /\ nth_error bk j = Some w)
    /\ (forall x, In x cl -> used x = true -> forall k, 8 <= k < csz x ->
          byte_at m2 (off x + k) = byte_at (memory (base g)) (off x + k)).
Proof.
  destruct (compact_to_tail g cl bl Hinv) as
    (bk & g3 & a5 & bl5 & m2 & Hrun & Hz5 & Hbins5 & Hcov5 & Hhdr5 & Hfree5 & Hfin5 & Hfb5
     & Hfm5 & S1 & S2 & S3 & S4 & S5 & S6 & Hr3 & Hc3 & Hsw3 & Hbm3 & Hlbk & Hzm2 & Hpk5
     & Hstamps & Hpay).
  destruct Hinv as [(Hpool & _ & _ & _ & Hstats) _].
  destruct Hpool as (HP & Hne & Hc & Hs & _).
  pose proof (used_total cl _ Hc Hs) as (HU & Hgap & _).
  pose proof (used_chunks_size_ok cl Hs) as Hsu.
  pose proof (length_le_sum _ Hsu) as Hlsum.
  set (P := msize (memory (base g))) in *. set (U := sum_sizes (used_chunks cl)) in *.
  destruct (pack 0 (used_chunks cl)) as [|c1 rest1] eqn:Epk.
  { destruct (used_chunks cl); [contradiction|discriminate]. }
  assert (Hcpk : contig 0 ([] ++ c1 :: rest1) U).
  { simpl app. rewrite <- Epk. apply (pack_contig 0). }
  assert (Hspk : Forall size_ok ([] ++ c1 :: rest1)).
  { simpl app. rewrite <- Epk. apply pack_size_ok. exact Hsu. }
  assert (Eo1 : off c1 = 0) by (simpl in Hcpk; tauto).
  assert (Hfuel : (length (c1 :: rest1) <= S (length (memory (base g))))%nat).
  { rewrite <- Epk, length_pack. unfold P, msize in *. lia. }
  assert (Hin_pk : forall x, In x (c1 :: rest1) -> In x (compacted P cl)).
  { intros x Hx. unfold compacted. apply in_or_app. left. rewrite Epk. exact Hx. }
  destruct (mark_used_spec U rest1 _ a5 [] c1 Hfuel Hcpk Hspk) as
    (a6 & Hmk & Hz6 & Hb6 & Hfin6 & Hst6 & Hres6 & Hfr6); try lia.
  { intros x Hx. apply Hhdr5. apply Hin_pk. exact Hx. }
  rewrite Hz5, Eo1 in Hmk.
  assert (Hout : forall b, 0 <= b ->
            (forall x, In x (c1 :: rest1) -> b < off x \/ off x + 4 <= b) ->
            byte_at (memory a6) b = byte_at (memory a5) b) by exact Hfr6.
  assert (Hhigh : forall b, U <= b -> byte_at (memory a6) b = byte_at (memory a5) b).
  { intros b Hb. apply Hout; [lia|]. intros x Hx.
    destruct (contig_mid [] rest1 c1 0 U Hcpk Hspk) as (_ & Hc1 & H16 & _ & _ & Haft).
    destruct Hx as [<-|Hx]; [lia|]. destruct (Haft x Hx). lia. }
  assert (Hc6 : contig 0 cl (msize (memory a6))) by (rewrite Hz6, Hz5; exact Hc).
  assert (Hz6' : msize (memory a6) = P) by lia.
  exists bk, g3, a6, bl5, m2. split.
  { rewrite Hrun. fold P U. rewrite Hmk. reflexivity. }
  split.
  { (* the invariant *)
    split.
    { split; [lia|]. split.
      { unfold compacted. rewrite Epk. discriminate. }
      split; [rewrite Hz6'; apply compacted_contig; auto|].
      split; [apply compacted_size_ok; auto|].
      rewrite <- Hz6'. apply (compacted_tags cl a6 Hc6 Hs).
      - rewrite Hz6'. intros x Hx.
        unfold compacted in Hx. rewrite Epk in Hx. apply in_app_or in Hx.
        destruct Hx as [Hx|Hx]; [apply Hres6; exact Hx|].
        fold U in Hx. destruct (Z.ltb_spec U P) as [Hlt|]; [|contradiction].
        destruct Hx as [<-|[]]. simpl off. simpl csz.
        destruct (Hfree5 Hlt) as [Hp5 _]. split.
        + assert (Hh : GetSize (memory a5) U = Some (P - U)).
          { apply (Hhdr5 (mkChunk U (P - U) false)).
            unfold compacted. apply in_or_app. right. fold U.
            destruct (Z.ltb_spec U P); [now left|lia]. }
          rewrite <- Hh. apply GetSize_frame; [lia|]. intros b Hb. apply Hhigh. lia.
        + rewrite <- Hp5. apply IsPrevUsed_frame; [lia|]. intros b Hb. apply Hhigh. lia.
      - rewrite Hz6', Hfin6. exact Hfin5.
      - rewrite Hz6'. intros Hlt. destruct (Hfree5 Hlt) as [_ Hft].
        etransitivity; [|exact Hft].
        apply load32_frame; [lia|]. intros b Hb. apply Hhigh. specialize (Hgap Hlt). lia. }
    split; [apply compacted_no_adjacent_free; auto|].
    split.
    { apply (bins_ok_frame a5); auto. intros x b Hx Hb.
      destruct (cover_nodes _ _ _ Hcov5 Hx) as (c & Hcin & Eo).
      rewrite (compacted_free cl P) in Hcin. fold U in Hcin.
      destruct (Z.ltb_spec U P); [|contradiction]. destruct Hcin as [<-|[]].
      simpl in Eo. apply Hhigh. lia. }
    split; [exact Hcov5|].
    destruct Hst6 as (A1 & A2 & A3 & A4 & _).
    destruct Hstats as (_ & B2 & B3 & _).
    unfold stats_ok. rewrite A1, A2, A3, A4, Hfb5, Hfm5, S1, S2, B2, B3.
    rewrite (compacted_used cl P), (compacted_free cl P). fold U.
    rewrite length_pack, sum_sizes_pack. fold U.
    split; [reflexivity|]. split; [reflexivity|]. split; [reflexivity|].
    destruct (Z.ltb_spec U P); simpl; lia. }
  split; [exact Hz6'|].
  destruct Hst6 as (_ & _ & _ & _ & A5 & A6 & A7 & A8).
  split; [congruence|]. split; [congruence|]. split; [congruence|]. split; [congruence|].
  split; [exact Hr3|]. split; [exact Hc3|]. split; [exact Hsw3|]. split; [exact Hbm3|].
  split; [exact Hlbk|]. split; [exact Hzm2|].
  split; [|split; [exact Hstamps|exact Hpay]].
  apply (packed_from_frame _ (memory a5)); [exact Hpk5| |].
  - rewrite Epk. intros x Hx. apply Hres6. exact Hx.
  - rewrite Epk. intros x Hx k Hk.
    destruct (contig_bounds _ _ _ _ Hcpk Hspk Hx) as [Hx0 Hx1]. simpl app in *.
    apply Hout; [lia|]. intros y Hy.
    destruct (contig_disjoint _ _ _ _ _ Hcpk Hspk Hx Hy) as [E|H3]; [subst y; lia|].
    rewrite Forall_forall in Hspk. destruct (Hspk y Hy). lia.
Qed.

End CompactMarked2.


(** * Compact: redirecting the refs *)

Section RestoreStep.

Variable cl' : list chunk.
Variable bl' : list (list Z).
Variable ms : Mem.
Variable rs0 : list RefHolder.
Variable bk : list Z.

(** The body of the loop of phase 5 on the used chunk [c]. *)
Lemma restore_body (g g1 : GarbageCollector) (done rest : list chunk) (c : chunk) :
  alloc_inv (base g) cl' bl' -> In c cl' -> used c = true ->
  (forall x, In x rest -> In x cl' /\ x <> c) ->
  (forall x, In x (c :: rest) ->
     load32 (memory (base g)) (off x + 4) = load32 ms (off x + 4)) ->
  refs_restored ms rs0 (refs g) done (c :: rest) ->
  (index <- load32 (memory (base g)) (off c + sizeofSize) ;;
   b <- nth_error bk (Z.to_nat index) ;;
   m1 <- store32 (memory (base g)) (off c + sizeofSize) b ;;
   rh <- ref_get g index ;;
   ref_set (set_base g (set_memory (base g) m1)) index
     (mkRefHolder (refCount rh) (rsize rh) (Some (off c + sizeofSize)))) = Some g1 ->
  alloc_inv (base g1) cl' bl'
  /\ (forall x, In x rest ->
        load32 (memory (base g1)) (off x + 4) = load32 ms (off x + 4))
  /\ refs_restored ms rs0 (refs g1) (done ++ [c]) rest
  /\ msize (memory (base g1)) = msize (memory (base g))
  /\ stats_eq (base g) (base g1)
  /\ collections g1 = collections g /\ swaps g1 = swaps g /\ bytesMoved g1 = bytesMoved g
  /\ (forall b, 0 <= b -> b < off c + 4 \/ off c + 8 <= b ->
        byte_at (memory (base g1)) b = byte_at (memory (base g)) b)
  /\ (exists j w, load32 ms (off c + 4) = Some (Z.of_nat j)
        /\ nth_error bk j = Some w
        /\ load32 (memory (base g1)) (off c + 4) = Some (u32 w)).
Proof.
  intros Hinv Hcin Hcu Hrest Hmem (Hlen & Hsame & Hptr) Hrun.
  unfold sizeofSize in Hrun.
  destruct (load32 (memory (base g)) (off c + 4)) as [w|] eqn:Hw; [|discriminate].
  cbn [obind] in Hrun.
  destruct (nth_error bk (Z.to_nat w)) as [b|] eqn:Hb; [|discriminate].
  cbn [obind] in Hrun.
  destruct (store32 (memory (base g)) (off c + 4) b) as [m1|] eqn:Hm1; [|discriminate].
  cbn [obind] in Hrun.
  destruct (ref_get g w) as [rh|] eqn:Hrh; [|discriminate].
  cbn [obind] in Hrun.
  destruct (ref_get_nth _ _ _ Hrh) as [Hwr Hn].
  rewrite (ref_set_some (set_base g (set_memory (base g) m1))) in Hrun by exact Hwr.
  injection Hrun as <-. cbn [base refs set_refs set_base collections swaps bytesMoved].
  pose proof (store32_msize _ _ _ _ Hm1) as Hz1.
  pose proof Hinv as ((HP & _ & Hc & Hs & _) & _).
  pose proof Hs as Hs'. rewrite Forall_forall in Hs'.
  set (j0 := Z.to_nat w) in *.
  assert (Ej0 : Z.of_nat j0 = w) by (unfold j0; lia).
  assert (Hi : (j0 < length (refs g))%nat) by (apply nth_error_Some; congruence).
  assert (Hst0 : stamp_at ms c j0).
  { unfold stamp_at. rewrite <- (Hmem c (or_introl eq_refl)), Ej0. exact Hw. }
  split.
  { apply user_write_inv; auto. intros x Hx Hout.
    apply (store32_other _ _ _ _ _ Hm1); [exact Hx|].
    specialize (Hout c Hcin Hcu). destruct (Hs' c Hcin). lia. }
  split.
  { intros x Hx. rewrite <- (Hmem x (or_intror Hx)). simpl memory.
    apply (load32_store32_other _ _ _ _ _ Hm1).
    destruct (Hrest x Hx) as [Hxin Hne].
    destruct (Hs' c Hcin). destruct (Hs' x Hxin).
    destruct (contig_disjoint _ _ _ _ _ Hc Hs Hxin Hcin) as [E|H3]; [contradiction|lia]. }
  split.
  { split; [rewrite length_list_set by exact Hi; exact Hlen|].
    split.
    - intros j r Hj. rewrite nth_error_list_set in Hj by exact Hi.
      destruct (Nat.eqb_spec j j0) as [E|Hne].
      + injection Hj as <-. subst j. destruct (Hsame j0 rh Hn) as (r0 & Hr0 & E1 & E2 & E3).
        exists r0. split; [exact Hr0|]. split; [exact E1|]. split; [exact E2|].
        intros _. simpl. discriminate.
      + apply Hsame. exact Hj.
    - intros j r p Hj Hp. rewrite nth_error_list_set in Hj by exact Hi.
      destruct (Nat.eqb_spec j j0) as [E|Hne].
      + injection Hj as <-. simpl in Hp. injection Hp as <-. subst j.
        left. exists c. split; [apply in_or_app; right; now left|]. split; [reflexivity|].
        exact Hst0.
      + destruct (Hptr j r p Hj Hp) as [(x & Hx & Ep & Hsx)|(x & Hx & Hsx)].
        * left. exists x. split; [apply in_or_app; now left|]. auto.
        * right. exists x. split; [|exact Hsx].
          destruct Hx as [<-|Hx]; [|exact Hx]. exfalso.
          unfold stamp_at in Hst0, Hsx. rewrite Hst0 in Hsx. injection Hsx as E. lia. }
  split; [exact Hz1|]. split; [unfold stats_eq; simpl; tauto|].
  split; [reflexivity|]. split; [reflexivity|]. split; [reflexivity|].
  split.
  { intros x Hx Hout. apply (store32_other _ _ _ _ _ Hm1); [exact Hx|lia]. }
  exists j0, b. split; [exact Hst0|]. split; [exact Hb|].
  apply (load32_store32_same _ _ _ _ Hm1).
Qed.

End RestoreStep.

Section RestoreLoop.

Variable cl' : list chunk.
Variable bl' : list (list Z).
Variable ms : Mem.
Variable rs0 : list RefHolder.
Variable bk : list Z.
Variable pk tl : list chunk.
Variable U P : Z.
Hypothesis Hcl : cl' = pk ++ tl.
Hypothesis HU : contig 0 pk U.
Hypothesis Hused : forall x, In x pk -> used x = true.

(** Phase 5 of [Compact], when it returns. *)
Lemma restore_spec (rest : list chunk) :
  forall (fuel : nat) (g g7 : GarbageCollector) (done : list chunk) (c : chunk),
  pk = done ++ c :: rest ->
  msize (memory (base g)) = P ->
  alloc_inv (base g) cl' bl' ->
  (forall x, In x (c :: rest) ->
     load32 (memory (base g)) (off x + 4) = load32 ms (off x + 4)) ->
  refs_restored ms rs0 (refs g) done (c :: rest) ->
  restore fuel g bk (Some (off c)) (if U <? P then Some U else None) = Some g7 ->
  alloc_inv (base g7) cl' bl'
  /\ refs_restored ms rs0 (refs g7) pk []
  /\ msize (memory (base g7)) = P
  /\ stats_eq (base g) (base g7)
  /\ collections g7 = collections g /\ swaps g7 = swaps g /\ bytesMoved g7 = bytesMoved g
  /\ (forall b, 0 <= b -> (forall x, In x (c :: rest) -> b < off x + 4 \/ off x + 8 <= b) ->
        byte_at (memory (base g7)) b = byte_at (memory (base g)) b).
Proof.
  induction rest as [|c' rest' IH]; intros fuel g g7 done c Epk Hz Hinv Hmem Hrefs Hrun.
  - destruct fuel as [|f]; [discriminate|]. cbn [restore] in Hrun.
    pose proof Hinv as ((HP & _ & Hc & Hs & Htags) & _).
    assert (Hs_pk : Forall size_ok pk).
    { rewrite Hcl in Hs. apply Forall_app in Hs. tauto. }
    assert (Hcpk : In c pk) by (rewrite Epk; apply in_or_app; right; now left).
    assert (Hcin : In c cl') by (rewrite Hcl; apply in_or_app; now left).
    pose proof (Hused c Hcpk) as Hcu.
    rewrite (IsSelfUsed_tags _ c (Htags c Hcin)), Hcu in Hrun. cbn [obind] in Hrun.
    apply obind_some in Hrun. destruct Hrun as (g1 & Hbody & Hrun).
    destruct (restore_body cl' bl' ms rs0 bk g g1 done [] c Hinv Hcin Hcu
                ltac:(intros x []) Hmem Hrefs Hbody)
      as (Hinv1 & Hmem1 & Hrefs1 & Hz1 & Hst1 & Hc1 & Hsw1 & Hbm1 & Hfr1 & _).
    pose proof Hinv1 as ((_ & _ & _ & _ & Htags1) & _).
    rewrite (NextChunk_spec _ _ _ (proj1 (Htags1 c Hcin))) in Hrun. cbn [obind] in Hrun.
    rewrite Epk in HU, Hs_pk.
    destruct (contig_mid done [] c 0 U HU Hs_pk) as (_ & _ & _ & Hnil & _ & _).
    specialize (Hnil eq_refl). rewrite Hz1, Hz, Hnil in Hrun.
    assert (Heq : optZ_eqb (if U >=? P then None else Some U)
                           (if U <? P then Some U else None) = true).
    { destruct (Z.geb_spec U P); destruct (Z.ltb_spec U P);
        try lia; simpl; [reflexivity|apply Z.eqb_refl]. }
    rewrite Heq in Hrun. injection Hrun as <-.
    split; [exact Hinv1|]. split; [rewrite Epk; exact Hrefs1|]. split; [lia|].
    split; [exact Hst1|]. split; [exact Hc1|]. split; [exact Hsw1|]. split; [exact Hbm1|].
    intros b Hb Hout. apply Hfr1; [exact Hb|]. apply Hout. now left.
  - destruct fuel as [|f]; [discriminate|]. cbn [restore] in Hrun.
    pose proof Hinv as ((HP & _ & Hc & Hs & Htags) & _).
    assert (Hs_pk : Forall size_ok pk).
    { rewrite Hcl in Hs. apply Forall_app in Hs. tauto. }
    assert (Hcpk : In c pk) by (rewrite Epk; apply in_or_app; right; now left).
    assert (Hcin : In c cl') by (rewrite Hcl; apply in_or_app; now left).
    pose proof (Hused c Hcpk) as Hcu.
    rewrite (IsSelfUsed_tags _ c (Htags c Hcin)), Hcu in Hrun. cbn [obind] in Hrun.
    apply obind_some in Hrun. destruct Hrun as (g1 & Hbody & Hrun).
    pose proof HU as HU'. pose proof Hs_pk as Hs_pk'. rewrite Epk in HU', Hs_pk'.
    destruct (contig_mid done (c' :: rest') c 0 U HU' Hs_pk')
      as (_ & _ & H16 & _ & Hcons & Haft).
    destruct (Hcons c' rest' eq_refl) as [En Hn16].
    assert (Hrest : forall x, In x (c' :: rest') -> In x cl' /\ x <> c).
    { intros x Hx. split.
      - rewrite Hcl, Epk. apply in_or_app. left. apply in_or_app. right. now right.
      - intros ->. destruct (Haft c Hx). lia. }
    destruct (restore_body cl' bl' ms rs0 bk g g1 done (c' :: rest') c Hinv Hcin Hcu
                Hrest Hmem Hrefs Hbody)
      as (Hinv1 & Hmem1 & Hrefs1 & Hz1 & Hst1 & Hc1 & Hsw1 & Hbm1 & Hfr1 & _).
    pose proof Hinv1 as ((_ & _ & Hc1' & _ & Htags1) & _).
    rewrite (NextChunk_spec _ _ _ (proj1 (Htags1 c Hcin))) in Hrun. cbn [obind] in Hrun.
    rewrite Hz1, Hz, <- En in Hrun.
    assert (HUP : U <= P).
    { rewrite Hcl in Hc. apply contig_app in Hc. destruct Hc as (mid & Hc1a & Hc2a).
      pose proof (contig_sum _ _ _ Hc1a). pose proof (contig_sum _ _ _ HU).
      rewrite Hcl in Hs. apply Forall_app in Hs. destruct Hs as [_ Hs2].
      pose proof (contig_le _ _ _ Hc2a Hs2). lia. }
    destruct (Z.geb_spec (off c') P); [lia|].
    assert (Hneq : optZ_eqb (Some (off c')) (if U <? P then Some U else None) = false).
    { destruct (Z.ltb_spec U P); simpl; [|reflexivity]. apply Z.eqb_neq. lia. }
    rewrite Hneq in Hrun.
    assert (Epk' : pk = (done ++ [c]) ++ c' :: rest') by (rewrite <- app_assoc; exact Epk).
    destruct (IH f g1 g7 (done ++ [c]) c' Epk' ltac:(lia) Hinv1 Hmem1 Hrefs1 Hrun)
      as (Hinv7 & Hrefs7 & Hz7 & Hst7 & Hc7 & Hsw7 & Hbm7 & Hfr7).
    split; [exact Hinv7|]. split; [exact Hrefs7|]. split; [exact Hz7|].
    split; [eapply stats_eq_trans; eauto|].
    split; [congruence|]. split; [congruence|]. split; [congruence|].
    intros b Hb Hout. rewrite Hfr7; [|exact Hb|].
    + apply Hfr1; [exact Hb|]. apply Hout. now left.
    + intros x Hx. apply Hout. now right.
Qed.

End RestoreLoop.

Section CompactSpec.

Lemma wadd_pos (s n : Z) : 0 < n -> wadd s n = u32 (s + n).
Proof. intros H. unfold wadd. destruct (Z.eqb_spec n 0); [lia|reflexivity]. Qed.

Lemma refs_restored_ok (ms : Mem) (rs0 rs : list RefHolder) (cl cl' pk tl : list chunk)
  (U P : Z) :
  refs_ok rs0 cl -> refs_restored ms rs0 rs pk [] ->
  cl' = pk ++ tl -> contig 0 pk U -> Forall size_ok pk ->
  (forall x, In x pk -> used x = true) ->
  sum_sizes cl' = sum_sizes cl ->
  refs_ok rs cl'.
Proof.
  intros (_ & _ & R3 & R4) (Hlen & Hsame & Hptr) Hcl HU Hs Hused Hsum.
  assert (Hleft : forall j r p, nth_error rs j = Some r -> pointer r = Some p ->
            exists x, In x pk /\ p = off x + 4 /\ stamp_at ms x j).
  { intros j r p Hj Hp. destruct (Hptr j r p Hj Hp) as [H|(x & [] & _)]. exact H. }
  split; [|split; [|split]].
  - intros j r p Hj Hp. destruct (Hleft j r p Hj Hp) as (x & Hx & Ep & _).
    exists x. split; [rewrite Hcl; apply in_or_app; now left|]. split; [auto|exact Ep].
  - intros i j r r' p Hi Hj Hp Hp'.
    destruct (Hleft i r p Hi Hp) as (x & Hx & Ep & Hsx).
    destruct (Hleft j r' p Hj Hp') as (x' & Hx' & Ep' & Hsx').
    assert (E : x = x') by (apply (contig_off_inj pk 0 U); auto; lia).
    subst x'. unfold stamp_at in *. rewrite Hsx in Hsx'. injection Hsx' as E. lia.
  - intros r Hr Hnz. apply In_nth_error in Hr. destruct Hr as [j Hj].
    destruct (Hsame j r Hj) as (r0 & Hr0 & E1 & _ & E3).
    apply E3. apply R3; [eapply nth_error_In; eauto|congruence].
  - rewrite Hlen, Hsum. exact R4.
Qed.

End CompactSpec.

Section CompactTheorem.

Variable g g' : GarbageCollector.
Variable cl : list chunk.
Variable bl : list (list Z).
Hypothesis Hinv : gc_inv g cl bl.
Hypothesis Hrun : Compact g = Some g'.

(** [Compact], when it returns: the layout is the compacted one, the
    invariant holds again, the counters are as the loops leave them, and the
    user bytes after the first word of every used chunk have moved with
    their chunk. *)
Lemma Compact_spec :
  used_chunks cl <> []
  /\ exists bl',
      gc_inv g' (compacted (msize (memory (base g))) cl) bl'
      /\ msize (memory (base g')) = msize (memory (base g))
      /\ collections g' = u32 (collections g + 1)
      /\ swaps g' = u32 (swaps g + Z.of_nat (length (used_chunks cl)))
      /\ bytesMoved g' = u32 (bytesMoved g + sum_sizes (used_chunks cl))
      /\ merges (base g') = merges (base g)
      /\ allocations (base g') = allocations (base g)
      /\ frees (base g') = frees (base g) /\ fails (base g') = fails (base g)
      /\ length (refs g') = length (refs g)
      /\ (forall j r', nth_error (refs g') j = Some r' ->
            exists r, nth_error (refs g) j = Some r /\ rsize r' = rsize r
              /\ refCount r' = refCount r /\ (pointer r <> None -> pointer r' <> None))
      /\ (forall x, In x (used_chunks cl) ->
            exists x', In x' (pack 0 (used_chunks cl)) /\ csz x' = csz x
              /\ forall k, 8 <= k < csz x ->
                   byte_at (memory (base g')) (off x' + k)
                   = byte_at (memory (base g)) (off x + k)).
Proof.
  assert (Hsome : used_chunks cl <> []).
  { intros E. rewrite (Compact_no_used g cl bl Hinv E) in Hrun. discriminate. }
  split; [exact Hsome|].
  destruct (compact_marked g cl bl Hinv Hsome) as
    (bk & g3 & a6 & bl' & m2 & Hc & Hinv6 & Hz6 & S3 & S4 & S5 & S6 & Hr3 & Hc3 & Hsw3
     & Hbm3 & Hlbk & Hzm2 & Hpk6 & Hstamps & Hpay).
  rewrite Hc in Hrun. apply obind_some in Hrun. destruct Hrun as (g7 & Hres & Hg').
  injection Hg' as <-. cbn [base refs collections swaps bytesMoved].
  destruct Hinv as [Ha Hrefs].
  pose proof Ha as ((HP & _ & Hcc & Hs & _) & _).
  pose proof (used_total cl _ Hcc Hs) as (HU & Hgap & _).
  pose proof (used_chunks_size_ok cl Hs) as Hsu.
  set (P := msize (memory (base g))) in *. set (U := sum_sizes (used_chunks cl)) in *.
  destruct (pack 0 (used_chunks cl)) as [|c1 rest1] eqn:Epk.
  { exfalso. destruct (used_chunks cl); [contradiction|discriminate]. }
  assert (Hcpk : contig 0 (c1 :: rest1) U).
  { rewrite <- Epk. apply (pack_contig 0). }
  assert (Hspk : Forall size_ok (c1 :: rest1)).
  { rewrite <- Epk. apply pack_size_ok. exact Hsu. }
  assert (Hupk : forall x, In x (c1 :: rest1) -> used x = true).
  { intros x Hx. rewrite <- Epk in Hx. eapply pack_used; eauto. }
  assert (Eo1 : off c1 = 0) by (simpl in Hcpk; tauto).
  assert (Hcl' : compacted P cl
                 = (c1 :: rest1) ++ (if U <? P then [mkChunk U (P - U) false] else [])).
  { unfold compacted. fold U. rewrite Epk. reflexivity. }
  assert (Hinit : refs_restored (memory a6) (refs g) (refs (set_base g3 a6)) []
                    (c1 :: rest1)).
  { simpl refs. rewrite Hr3. split; [reflexivity|]. split.
    - intros j r Hj. exists r. auto.
    - intros j r p Hj Hp. right.
      destruct Hrefs as (R1 & _). destruct (R1 j r p Hj Hp) as (c & Hcin & Hcu & Ep).
      destruct (Hpk6) as [_ Hp6].
      destruct (Hp6 c) as (x' & Hx' & Esz & Hb); [apply in_used_chunks; auto|].
      rewrite Epk in Hx'.
      exists x'. split; [exact Hx'|]. unfold stamp_at.
      destruct (Hstamps j r p Hj Hp) as [Hl _]. rewrite <- Hl, Ep.
      destruct (contig_bounds _ _ _ _ Hcc Hs Hcin).
      rewrite Forall_forall in Hs. destruct (Hs c Hcin).
      destruct (contig_bounds _ _ _ _ Hcpk Hspk Hx').
      apply load32_shift; try lia.
      intros k Hk. rewrite <- !Z.add_assoc. apply Hb. lia. }
  rewrite <- Eo1 in Hres.
  destruct (restore_spec (compacted P cl) bl' (memory a6) (refs g) bk (c1 :: rest1) _ U P
              Hcl' Hcpk Hupk rest1 _ (set_base g3 a6) g7 [] c1 eq_refl Hz6 Hinv6
              (fun x _ => eq_refl) Hinit Hres)
    as (Hinv7 & Hrefs7 & Hz7 & Hst7 & Hc7 & Hsw7 & Hbm7 & Hfr7).
  simpl in Hst7, Hc7, Hsw7, Hbm7, Hfr7.
  exists bl'. split.
  { split; [exact Hinv7|]. cbn [refs].
    apply (refs_restored_ok (memory a6) (refs g) _ cl _ (c1 :: rest1) _ U P
             Hrefs Hrefs7 Hcl' Hcpk Hspk Hupk).
    rewrite (alloc_inv_sum _ _ _ Hinv7), (alloc_inv_sum _ _ _ Ha). lia. }
  split; [exact Hz7|].
  assert (Hn : 0 < Z.of_nat (length (used_chunks cl))).
  { destruct (used_chunks cl); [contradiction|simpl length; lia]. }
  assert (HUpos : 0 < U).
  { pose proof (sum_sizes_pack 0 (used_chunks cl)) as E.
    rewrite Epk in E. fold U in E.
    inversion Hspk as [|x0 l0 [H16 _] Hs3]; subst x0 l0.
    pose proof (sum_sizes_nonneg _ Hs3). simpl in E. lia. }
  split; [congruence|].
  split; [rewrite Hsw7, Hsw3; apply wadd_pos; exact Hn|].
  split; [rewrite Hbm7, Hbm3; apply wadd_pos; exact HUpos|].
  destruct Hst7 as (_ & _ & _ & _ & A5 & A6 & A7 & A8).
  split; [congruence|]. split; [congruence|]. split; [congruence|]. split; [congruence|].
  destruct Hrefs7 as (Hlen7 & Hsame7 & _).
  split; [exact Hlen7|]. split; [exact Hsame7|].
  intros x Hx. destruct Hpk6 as [_ Hp6]. destruct (Hp6 x Hx) as (x' & Hx' & Esz & Hb).
  rewrite Epk in Hx'.
  exists x'. split; [exact Hx'|]. split; [exact Esz|].
  intros k Hk. apply in_used_chunks in Hx. destruct Hx as [Hxin Hxu].
  rewrite <- (Hpay x Hxin Hxu k Hk). rewrite <- (Hb k ltac:(lia)).
  destruct (contig_bounds _ _ _ _ Hcpk Hspk Hx') as [Hx0 Hx1].
  apply Hfr7; [lia|]. intros y Hy.
  destruct (contig_disjoint _ _ _ _ _ Hcpk Hspk Hx' Hy) as [E|H3]; [subst y; lia|].
  rewrite Forall_forall in Hspk. destruct (Hspk y Hy). lia.
Qed.

End CompactTheorem.


(** * The reachable states and the claims of the specification *)

Section Reachable.

(** Every reachable state satisfies the invariant of the collector. *)
Lemma reachable_inv (g : GarbageCollector) :
  reachable g -> exists cl bl, gc_inv g cl bl.
Proof.
  induction 1 as [P g HP Hnew
                 |g g' n h _ IH Hn Hrun
                 |g g' h _ IH Hlive Hrun
                 |g g' h _ IH Hlive Hrun
                 |g g' h b _ IH Hlive Hrun
                 |g g' _ IH Hrun
                 |g n p a' _ IH Hn Hrun
                 |g p a' _ IH Hraw Hrun
                 |g x v _ IH Hx].
  - destruct (GC_new_spec P g HP Hnew) as (_ & bl & Hinv & _). eauto.
  - destruct IH as (cl & bl & Hinv).
    destruct (AllocRef_spec g cl bl n Hinv)
      as [(c & a' & cl' & bl' & u & k & h' & g'' & _ & _ & _ & _ & _ & Hrun' & _ & _
           & Hinv' & _)|(_ & Hrun' & Hinv' & _)].
    + rewrite Hrun' in Hrun. injection Hrun as _ <-. eauto.
    + rewrite Hrun' in Hrun. injection Hrun as _ <-. eauto.
  - destruct IH as (cl & bl & Hinv).
    destruct (FreeRef_spec g cl bl h Hinv Hlive) as (g'' & cl' & bl' & Hrun' & Hinv').
    rewrite Hrun' in Hrun. injection Hrun as <-. eauto.
  - destruct IH as (cl & bl & Hinv).
    destruct (IncrRef_spec g cl bl h Hinv Hlive) as (g'' & Hrun' & Hinv').
    rewrite Hrun' in Hrun. injection Hrun as <-. eauto.
  - destruct IH as (cl & bl & Hinv).
    destruct (DecrRef_spec g cl bl h Hinv Hlive) as (b' & g'' & cl' & bl' & Hrun' & Hinv').
    rewrite Hrun' in Hrun. injection Hrun as _ <-. eauto.
  - destruct IH as (cl & bl & Hinv).
    destruct (Compact_spec g g' cl bl Hinv Hrun) as (_ & bl' & Hinv' & _). eauto.
  - destruct IH as (cl & bl & Hinv). eapply raw_AllocPtr_inv; eauto.
  - destruct IH as (cl & bl & Hinv). eapply raw_FreePtr_inv; eauto.
  - destruct IH as (cl & bl & Hinv). exists cl, bl. apply poke_inv; auto.
Qed.

(** The chunk walk of a reachable state reads the layout of the invariant. *)
Lemma reachable_chunks (g : GarbageCollector) :
  reachable g ->
  exists cl bl, pool_chunks (base g) = Some cl /\ gc_inv g cl bl.
Proof.
  intros H. destruct (reachable_inv g H) as (cl & bl & Hinv).
  exists cl, bl. split; [|exact Hinv].
  apply pool_chunks_spec. apply Hinv.
Qed.

End Reachable.

Section BinMembers.

Lemma bin_walk_spec (m : Mem) (h : Z) (l2 : list Z) :
  forall (cur : Z) (fuel : nat),
  path m (cur :: l2 ++ [h]) -> ~ In h l2 -> (length l2 < fuel)%nat ->
  bin_walk fuel m h cur = Some (cur :: l2).
Proof.
  induction l2 as [|y l2 IH]; intros cur fuel Hp Hh Hf.
  - destruct fuel as [|f]; [simpl in Hf; lia|].
    simpl app in Hp. rewrite path_cons2 in Hp. destruct Hp as (Hn & _).
    cbn [bin_walk]. rewrite Hn. cbn [obind]. rewrite Z.eqb_refl. reflexivity.
  - destruct fuel as [|f]; [simpl in Hf; lia|].
    change (cur :: (y :: l2) ++ [h]) with (cur :: y :: (l2 ++ [h])) in Hp.
    rewrite path_cons2 in Hp. destruct Hp as (Hn & _ & Hp).
    cbn [bin_walk]. rewrite Hn. cbn [obind].
    destruct (Z.eqb_spec y h) as [->|Hne]; [exfalso; apply Hh; now left|].
    rewrite (IH y f Hp); [reflexivity| |simpl in Hf; lia].
    intros Hin. apply Hh. now right.
Qed.

(** The walk of a bin's circular list reads the list of the invariant. *)
Lemma bin_members_spec (a : Allocator) (bl : list (list Z)) (i : Z) :
  bins_ok a bl -> msize (memory a) < 4294967296 -> 0 <= i < 17 ->
  bin_members a i = Some (nth (Z.to_nat i) bl []).
Proof.
  intros Hbins HP Hi. pose proof Hbins as (Hcb & Hlen & Hcyc & Hnodes).
  unfold bin_members.
  rewrite (bin_get_spec a bl) by (rewrite ?Hlen; unfold BIN_INDICES; auto; lia).
  cbn [obind].
  set (l := nth (Z.to_nat i) bl []).
  assert (Hl_in : forall x, In x l -> In x (concat bl))
    by (intros x Hx; eapply in_nth_concat; eauto).
  destruct l as [|h t] eqn:El.
  - simpl bin_head. rewrite Z.eqb_refl. reflexivity.
  - simpl bin_head.
    destruct Hnodes as (Hnd & Hb & Hsep).
    destruct (Hb h (Hl_in h (or_introl eq_refl))) as [Hh0 Hh12].
    destruct (Z.eqb_spec h InvalidSize) as [E|_]; [unfold InvalidSize in E; lia|].
    assert (Hndl : NoDup (h :: t)).
    { assert (Hi' : (Z.to_nat i < length bl)%nat) by (rewrite Hlen; unfold BIN_INDICES; lia).
      destruct (nth_split bl [] Hi') as (B1 & B2 & Ebl & _). fold l in Ebl. rewrite El in Ebl.
      rewrite Ebl, concat_middle in Hnd. apply NoDup_app_remove_l in Hnd.
      now apply NoDup_app_remove_r in Hnd. }
    assert (Hcl : cyc (memory a) (h :: t)).
    { apply Hcyc. rewrite <- El. apply nth_In. rewrite Hlen. unfold BIN_INDICES. lia. }
    assert (Hfuel : (length t < S (length (memory a)))%nat).
    { pose proof (nodes_count _ _ (conj Hnd (conj Hb Hsep))) as Hc.
      assert (Hle : (length (h :: t) <= length (concat bl))%nat).
      { apply NoDup_incl_length; [exact Hndl|]. intros x Hx. now apply Hl_in. }
      unfold msize in Hc. rewrite Nat2Z.id in Hc. simpl in Hle. lia. }
    apply bin_walk_spec; [exact Hcl| |exact Hfuel].
    inversion Hndl; assumption.
Qed.


End BinMembers.

(** * The claims *)

Section Examples.

Lemma ex_new_reachable : reachable ex_new.
Proof. apply (reach_new 64); [lia|vm_compute; reflexivity]. Qed.

Lemma ex_one_reachable : reachable ex_one.
Proof.
  apply (reach_AllocRef ex_new ex_one 8 0);
    [exact ex_new_reachable|unfold is_u32; lia|vm_compute; reflexivity].
Qed.

Lemma ex_packed_reachable : reachable ex_packed.
Proof.
  apply (reach_Compact ex_one); [exact ex_one_reachable|vm_compute; reflexivity].
Qed.

End Examples.

Section Invariants.





End Invariants.

Section OutOfMemory.



End OutOfMemory.

Section Handles.

Lemma ref_get_of_nth (g : GarbageCollector) (j : nat) :
  ref_get g (Z.of_nat j) = nth_error (refs g) j.
Proof.
  unfold ref_get. destruct (Z.leb_spec 0 (Z.of_nat j)); [|lia]. now rewrite Nat2Z.id.
Qed.

(** C9: [AllocPtr] raises every request, also [n < 4] and [n = 0], to a
    chunk of at least [minFreeSize] = 16 bytes, so the user area of every
    used chunk has at least 12 bytes; in every reachable state the pointer
    of every ref is the user pointer of a used chunk, the word of 4 bytes at
    it lies inside that chunk, and the stamp phase of [Compact] returns and
    changes no byte outside these words. *)
Theorem C9_stamp_inside_chunk (g : GarbageCollector) :
  reachable g ->
  (forall n, minFreeSize <= bytesNeeded n)
  /\ (forall n p a', AllocPtr (base g) n = Some (Some p, a') ->
        exists cl' c, pool_chunks a' = Some cl' /\ In c cl' /\ used c = true
          /\ p = off c + sizeofSize /\ minFreeSize <= csz c)
  /\ exists cl, pool_chunks (base g) = Some cl
       /\ (forall c, In c cl -> used c = true -> 12 <= csz c - sizeofSize)
       /\ (forall h r p, ref_get g h = Some r -> pointer r = Some p ->
             exists c, In c cl /\ used c = true /\ p = off c + sizeofSize
               /\ p + 4 <= off c + csz c)
       /\ exists m1 bk, stamp (refs g) 0 (memory (base g)) = Some (m1, bk)
            /\ forall b, 0 <= b ->
                 (forall h r p, ref_get g h = Some r -> pointer r = Some p ->
                    b < p \/ p + 4 <= b) ->
                 byte_at m1 b = byte_at (memory (base g)) b.
Proof.
  intros Hr.
  split.
  { intros n. pose proof (bytesNeeded_range n). rewrite minFreeSize_val. lia. }
  destruct (reachable_chunks g Hr) as (cl & bl & Hpc & Hinv).
  pose proof Hinv as [Ha Hrefs].
  pose proof Ha as ((HP & _ & Hc & Hs & _) & _).
  pose proof Hs as Hs'. rewrite Forall_forall in Hs'.
  split.
  { intros n p a' Hrun.
    destruct (AllocPtr_spec (base g) cl bl n Ha)
      as [(c & a1 & cl' & bl' & u & k & _ & _ & _ & Hrun' & _ & Hinv' & Hnew & Hk & _)
         |(Hrun' & _)]; rewrite Hrun' in Hrun; [|discriminate].
    injection Hrun as <- <-.
    exists cl', (mkChunk u k true). split; [apply pool_chunks_spec; apply Hinv'|].
    split; [exact Hnew|]. split; [reflexivity|]. split; [reflexivity|].
    simpl. pose proof (bytesNeeded_range n). rewrite minFreeSize_val. lia. }
  exists cl. split; [exact Hpc|]. unfold sizeofSize.
  split.
  { intros c Hcin _. destruct (Hs' c Hcin). lia. }
  split.
  { intros h r p Hget Hp. destruct (ref_get_nth _ _ _ Hget) as [_ Hn].
    destruct Hrefs as (R1 & _). destruct (R1 _ _ _ Hn Hp) as (c & Hcin & Hcu & Ep).
    exists c. destruct (Hs' c Hcin). repeat split; auto. lia. }
  destruct (stamp_spec (refs g) 0 (memory (base g)) (refs_ptrs_sep _ _ _ Hrefs Hc Hs))
    as (m1 & bk & Hst & _ & _ & Hfr & _).
  exists m1, bk. split; [exact Hst|]. intros b Hb Hout. apply Hfr; [exact Hb|].
  intros j r p Hn Hp. apply (Hout (Z.of_nat j) r p); [|exact Hp].
  rewrite ref_get_of_nth. exact Hn.
Qed.

Lemma C9_stamp_inside_chunk_witness :
  reachable ex_one
  /\ (forall n, minFreeSize <= bytesNeeded n)
  /\ (forall n p a', AllocPtr (base ex_one) n = Some (Some p, a') ->
        exists cl' c, pool_chunks a' = Some cl' /\ In c cl' /\ used c = true
          /\ p = off c + sizeofSize /\ minFreeSize <= csz c)
  /\ exists cl, pool_chunks (base ex_one) = Some cl
       /\ (forall c, In c cl -> used c = true -> 12 <= csz c - sizeofSize)
       /\ (forall h r p, ref_get ex_one h = Some r -> pointer r = Some p ->
             exists c, In c cl /\ used c = true /\ p = off c + sizeofSize
               /\ p + 4 <= off c + csz c)
       /\ exists m1 bk, stamp (refs ex_one) 0 (memory (base ex_one)) = Some (m1, bk)
            /\ forall b, 0 <= b ->
                 (forall h r p, ref_get ex_one h = Some r -> pointer r = Some p ->
                    b < p \/ p + 4 <= b) ->
                 byte_at m1 b = byte_at (memory (base ex_one)) b.
Proof.
  assert (H : reachable ex_one).
  { apply (reach_AllocRef ex_new ex_one 8 0); [|unfold is_u32; lia|vm_compute; reflexivity].
    apply (reach_new 64); [lia|vm_compute; reflexivity]. }
  split; [exact H|]. exact (C9_stamp_inside_chunk ex_one H).
Defined.

(** C10: in every reachable state [AllocRef(n)] returns, and it returns
    [InvalidRef] if and only if its call of [AllocPtr(n)] returns [nullptr].
    When [AllocPtr] returns a pointer, [GetFreeRef] yields a handle inside
    the table that is not [InvalidRef] (so the branch of [AllocRef] that
    frees the pointer again is not taken): the lowest slot whose [size] is
    0, or else a new slot at the end of the table. *)
Theorem C10_AllocRef_invalid_iff_null (g : GarbageCollector) (n : Z) :
  reachable g ->
  exists p a' h g',
    AllocPtr (base g) n = Some (p, a') /\ AllocRef g n = Some (h, g')
    /\ (h = InvalidRef <-> p = None)
    /\ (p <> None ->
        GetFreeRef (set_base g a') p n = Some (h, g')
        /\ 0 <= h < Z.of_nat (length (refs g'))
        /\ ref_get g' h = Some (mkRefHolder 1 n p)
        /\ ((find_free (refs g) 0 = Some h /\ length (refs g') = length (refs g)
             /\ forall j r, 0 <= j < h -> ref_get g j = Some r -> rsize r <> 0)
            \/ (find_free (refs g) 0 = None /\ h = Z.of_nat (length (refs g))
                /\ refs g' = refs g ++ [mkRefHolder 1 n p]))).
Proof.
  intros Hr. destruct (reachable_inv g Hr) as (cl & bl & Hinv).
  destruct (AllocRef_spec g cl bl n Hinv)
    as [(c & a' & cl' & bl' & u & k & h & g' & _ & _ & _ & Hptr & Hgf & Hrun & Hh & Hhr
         & _ & _ & Hget & _ & _ & Hslot)|(Hptr & Hrun & _)].
  - exists (Some (u + 4)), a', h, g'. split; [exact Hptr|]. split; [exact Hrun|].
    split; [split; [contradiction|discriminate]|].
    intros _. split; [exact Hgf|]. split; [exact Hhr|]. split; [exact Hget|].
    destruct Hslot as [[Hff Hlen]|Hnew]; [left|right; exact Hnew].
    split; [exact Hff|]. split; [exact Hlen|].
    intros j r Hj Hgj. destruct (ref_get_nth _ _ _ Hgj) as [_ Hn].
    apply (find_free_lowest _ _ _ Hff (Z.to_nat j) r); [lia|exact Hn].
  - eexists None, _, InvalidRef, _. split; [exact Hptr|]. split; [exact Hrun|].
    split; [tauto|]. intros H. contradiction.
Qed.

Lemma C10_AllocRef_invalid_iff_null_witness :
  reachable ex_one
  /\ exists p a' h g',
       AllocPtr (base ex_one) 8 = Some (p, a') /\ AllocRef ex_one 8 = Some (h, g')
       /\ (h = InvalidRef <-> p = None)
       /\ (p <> None ->
           GetFreeRef (set_base ex_one a') p 8 = Some (h, g')
           /\ 0 <= h < Z.of_nat (length (refs g'))
           /\ ref_get g' h = Some (mkRefHolder 1 8 p)
           /\ ((find_free (refs ex_one) 0 = Some h
                /\ length (refs g') = length (refs ex_one)
                /\ forall j r, 0 <= j < h -> ref_get ex_one j = Some r -> rsize r <> 0)
               \/ (find_free (refs ex_one) 0 = None
                   /\ h = Z.of_nat (length (refs ex_one))
                   /\ refs g' = refs ex_one ++ [mkRefHolder 1 8 p]))).
Proof.
  assert (H : reachable ex_one).
  { apply (reach_AllocRef ex_new ex_one 8 0); [|unfold is_u32; lia|vm_compute; reflexivity].
    apply (reach_new 64); [lia|vm_compute; reflexivity]. }
  split; [exact H|]. exact (C10_AllocRef_invalid_iff_null ex_one 8 H).
Defined.

End Handles.

Section Constructor.

(** C7, the counterexample: a pool of 64 bytes is one free chunk of 64
    bytes, which is [roundEven(64 - 1)] but not less than 64: no byte is
    left over at the high end. *)
Lemma C7_counterexample :
  exists a c, Allocator_new 64 = Some a /\ pool_chunks a = Some [c]
    /\ csz c = RoundUp (u32 (64 - 1)) /\ ~ csz c < 64.
Proof.
  exists (base ex_new), (mkChunk 0 64 false).
  split; [vm_compute; reflexivity|]. split; [vm_compute; reflexivity|].
  split; [vm_compute; reflexivity|]. simpl. lia.
Qed.

(** C7, amended: for every even pool size [P] with 20 <= P < 2^31 the
    constructor writes a single free chunk of [roundEven(P - 1)] = [P]
    bytes, the whole pool, with [finalPrevIsUsed = false], [freeBlocks = 1],
    [usedBlocks = 0], [usedMem = 0] and [freeMem = P]; for an odd [P] the
    chunk of [P - 1] bytes has a successor header at [P - 1] that does not
    fit in the pool, and the constructor's access to it is undefined. *)
Theorem C7_constructor (P : Z) :
  20 <= P < 2147483648 ->
  (P mod 2 = 0 ->
   exists a, Allocator_new P = Some a
     /\ pool_chunks a = Some [mkChunk 0 (RoundUp (u32 (P - 1))) false]
     /\ RoundUp (u32 (P - 1)) = P
     /\ msize (memory a) = P
     /\ finalPrevIsUsed a = false
     /\ freeBlocks a = 1 /\ usedBlocks a = 0 /\ usedMem a = 0 /\ freeMem a = P)
  /\ (P mod 2 = 1 -> Allocator_new P = None).
Proof.
  intros HP. split.
  - intros He.
    destruct (Allocator_new_spec P ltac:(lia) He)
      as (a & bl & Hnew & Hz & _ & _ & _ & Hfin & S1 & S2 & S3 & S4 & _).
    assert (Hg : GC_new P = Some (mkGC a (repeat (mkRefHolder 0 0 None) 100) 0 0 0)).
    { unfold GC_new. rewrite Hnew. reflexivity. }
    destruct (GC_new_spec P _ HP Hg) as (_ & bl' & [(Hpool & _) _] & _).
    cbn [base] in Hpool.
    exists a. split; [exact Hnew|].
    rewrite (RoundUp_pred_even P) by (auto; lia).
    split; [apply pool_chunks_spec; exact Hpool|]. auto 10.
  - intros Ho. apply Allocator_new_odd; lia.
Qed.

Lemma C7_constructor_witness :
  20 <= 64 < 2147483648
  /\ (64 mod 2 = 0 ->
      exists a, Allocator_new 64 = Some a
        /\ pool_chunks a = Some [mkChunk 0 (RoundUp (u32 (64 - 1))) false]
        /\ RoundUp (u32 (64 - 1)) = 64
        /\ msize (memory a) = 64
        /\ finalPrevIsUsed a = false
        /\ freeBlocks a = 1 /\ usedBlocks a = 0 /\ usedMem a = 0 /\ freeMem a = 64)
  /\ (64 mod 2 = 1 -> Allocator_new 64 = None).
Proof.
  assert (H : 20 <= 64 < 2147483648) by lia.
  split; [exact H|]. exact (C7_constructor 64 H).
Defined.

End Constructor.

Section RequestSize.

(** C3, the counterexample: [AllocRef(1)] on a new pool of 64 bytes returns
    the handle 0, which is live and whose [size] is 1: the request is
    neither rejected nor padded to 4 bytes. *)
Lemma C3_counterexample :
  reachable ex_new
  /\ AllocRef ex_new 1 = Some (0, ex_small) /\ 0 <> InvalidRef
  /\ live ex_small 0 /\ SizeFromRef ex_small 0 = Some 1 /\ ~ 4 <= 1.
Proof.
  split; [exact ex_new_reachable|]. split; [vm_compute; reflexivity|].
  split; [discriminate|]. split.
  - exists (mkRefHolder 1 1 (Some 52)), 52. split; vm_compute; reflexivity.
  - split; [vm_compute; reflexivity|lia].
Qed.

(** C3, amended: [AllocRef(n)] stores the requested size [n] as it is, also
    when [n < 4]: whenever it returns a handle, the handle is live, its
    [size] is [n], and its pointer is the user pointer of a used chunk with
    at least 12 user bytes, which is what the stamp of [Compact] needs. *)
Theorem C3_AllocRef_keeps_size (g g' : GarbageCollector) (n h : Z) :
  reachable g -> AllocRef g n = Some (h, g') -> h <> InvalidRef ->
  SizeFromRef g' h = Some n /\ RefCount g' h = Some 1 /\ live g' h
  /\ exists cl c p, pool_chunks (base g') = Some cl
       /\ PointerFromRef g' h = Some (Some p)
       /\ In c cl /\ used c = true /\ p = off c + sizeofSize
       /\ p + 12 <= off c + csz c.
Proof.
  intros Hr Hrun Hh. destruct (reachable_inv g Hr) as (cl & bl & Hinv).
  destruct (AllocRef_spec g cl bl n Hinv)
    as [(c & a' & cl' & bl' & u & k & h' & g'' & _ & _ & _ & _ & _ & Hrun' & _ & _
         & Hinv' & _ & Hget & Hnew & Hk & _)|(_ & Hrun' & _)];
    rewrite Hrun' in Hrun; injection Hrun as <- <-; [|contradiction].
  unfold SizeFromRef, RefCount, PointerFromRef. rewrite Hget. cbn [obind rsize refCount pointer].
  split; [reflexivity|]. split; [reflexivity|].
  split; [exists (mkRefHolder 1 n (Some (u + 4))), (u + 4); auto|].
  exists cl', (mkChunk u k true), (u + 4).
  split; [apply pool_chunks_spec; apply Hinv'|]. split; [reflexivity|].
  split; [exact Hnew|]. split; [reflexivity|]. split; [reflexivity|].
  simpl. pose proof (bytesNeeded_range n). lia.
Qed.

Lemma C3_AllocRef_keeps_size_witness :
  reachable ex_new /\ AllocRef ex_new 1 = Some (0, ex_small) /\ 0 <> InvalidRef
  /\ SizeFromRef ex_small 0 = Some 1 /\ RefCount ex_small 0 = Some 1 /\ live ex_small 0
  /\ exists cl c p, pool_chunks (base ex_small) = Some cl
       /\ PointerFromRef ex_small 0 = Some (Some p)
       /\ In c cl /\ used c = true /\ p = off c + sizeofSize
       /\ p + 12 <= off c + csz c.
Proof.
  assert (H : reachable ex_new) by (apply (reach_new 64); [lia|vm_compute; reflexivity]).
  assert (E : AllocRef ex_new 1 = Some (0, ex_small)) by (vm_compute; reflexivity).
  assert (N : 0 <> InvalidRef) by discriminate.
  split; [exact H|]. split; [exact E|]. split; [exact N|].
  exact (C3_AllocRef_keeps_size ex_new ex_small 1 0 H E N).
Defined.

End RequestSize.

Section CompactTwice.





End CompactTwice.

Section CompactFailures.

(** C4, at the failing input: on a new collector with a pool of 64 bytes,
    where no chunk is used, [Compact] leaves the pool: the loop that marks
    the chunks as used starts at the first chunk, which is the free chunk
    it looks for, steps to [nullptr] and dereferences it. *)
Theorem C4_Compact_new_collector :
  GC_new 64 = Some ex_new
  /\ pool_chunks (base ex_new) = Some [mkChunk 0 64 false]
  /\ Compact ex_new = None.
Proof. repeat split; vm_compute; reflexivity. Qed.

(** C1, at the failing input: in a pool of 64 bytes [AllocRef(0)] returns
    the handle 0 and stores the size 0, which marks the slot as free, so
    [AllocRef(8)] returns the handle 0 again, for the chunk at 32, and the
    chunk at 48 has no ref.  The client writes 7 to byte 7 of the 8 bytes.
    [Compact] moves the chunk of the handle to 0 and the other one to 16,
    reads the index 0 in both, and leaves the handle 0 with the pointer of
    the second: the handle does not point at its relocated chunk, and byte
    7 behind it is 0, while the 7 is at byte 7 of the chunk at 0. *)
Theorem C1_Compact_redirects_handle :
  AllocRef ex_new 0 = Some (0, ex_zero)
  /\ (exists g, AllocRef ex_zero 8 = Some (0, g) /\ ex_leak = poke g 43 7)
  /\ pool_chunks (base ex_leak)
     = Some [mkChunk 0 32 false; mkChunk 32 16 true; mkChunk 48 16 true]
  /\ PointerFromRef ex_leak 0 = Some (Some 36) /\ SizeFromRef ex_leak 0 = Some 8
  /\ byte_at (memory (base ex_leak)) (36 + 7) = 7
  /\ Compact ex_leak = Some ex_leak_packed
  /\ pool_chunks (base ex_leak_packed)
     = Some [mkChunk 0 16 true; mkChunk 16 16 true; mkChunk 32 32 false]
  /\ PointerFromRef ex_leak_packed 0 = Some (Some 20)
  /\ byte_at (memory (base ex_leak_packed)) (20 + 7) = 0
  /\ byte_at (memory (base ex_leak_packed)) (4 + 7) = 7.
Proof.
  split; [vm_compute; reflexivity|].
  split.
  { eexists. split; vm_compute; reflexivity. }
  repeat split; vm_compute; reflexivity.
Qed.

End CompactFailures.


(** * Further properties of the allocator *)

Ltac reach_ex_new := apply (reach_new 64); [lia|vm_compute; reflexivity].

Ltac reach_ex_one :=
  apply (reach_AllocRef ex_new ex_one 8 0);
    [reach_ex_new|unfold is_u32; lia|vm_compute; reflexivity].

(** Inversion of the runs [_ = Some _] of the option monad in the context. *)
Ltac inv_all :=
  repeat match goal with
  | H : obind _ _ = Some _ |- _ =>
      let x := fresh "x" in
      let E := fresh "E" in
      apply obind_some in H; destruct H as (x & E & H)
  | H : (if ?b then _ else _) = Some _ |- _ => destruct b eqn:?
  | H : match ?o with Some _ => _ | None => _ end = Some _ |- _ => destruct o eqn:?
  | H : None = Some _ |- _ => discriminate H
  | H : Some ?x = Some ?y |- _ =>
      first [is_var y; injection H as <- | is_var x; injection H as -> | injection H as H]
  end.

Section PoolFacts.

Lemma GetIndex_16 (s : Z) : 16 <= s -> 7 <= GetIndex s.
Proof.
  intros H. change 7 with (GetIndex 16). apply GetIndex_mono. lia.
Qed.

Lemma nth_concat_NoDup (bl : list (list Z)) (i : nat) :
  NoDup (concat bl) -> NoDup (nth i bl []).
Proof.
  revert i. induction bl as [|l bl IH]; intros i H.
  - destruct i; constructor.
  - simpl in H. destruct i as [|i]; simpl.
    + eapply NoDup_app_remove_r; eauto.
    + apply IH. eapply NoDup_app_remove_l; eauto.
Qed.

(** The chunks of the walk tile the pool, and the counters of the allocator
    count them: [usedBlocks] and [freeBlocks] are the numbers of used and
    of free chunks, [usedMem] and [freeMem] the sums of their sizes, which
    add up to the size of the pool. *)
Theorem pool_partition (g : GarbageCollector) :
  reachable g ->
  exists cl, pool_chunks (base g) = Some cl
    /\ contig 0 cl (msize (memory (base g)))
    /\ sum_sizes cl = msize (memory (base g))
    /\ freeBlocks (base g) = Z.of_nat (length (free_chunks cl))
    /\ usedBlocks (base g) = Z.of_nat (length (used_chunks cl))
    /\ freeBlocks (base g) + usedBlocks (base g) = Z.of_nat (length cl)
    /\ freeMem (base g) = sum_sizes (free_chunks cl)
    /\ usedMem (base g) = sum_sizes (used_chunks cl)
    /\ freeMem (base g) + usedMem (base g) = msize (memory (base g)).
Proof.
  intros Hr. destruct (reachable_chunks g Hr) as (cl & bl & Hpc & Hinv).
  destruct Hinv as [((_ & _ & Hc & _ & _) & _ & _ & _ & (S1 & S2 & S3 & S4)) _].
  pose proof (contig_sum _ _ _ Hc) as Hsum.
  pose proof (length_free_used cl) as Hlen. pose proof (sum_free_used cl) as Hsz.
  exists cl. repeat split; auto; lia.
Qed.

Lemma pool_partition_witness :
  reachable ex_one
  /\ exists cl, pool_chunks (base ex_one) = Some cl
       /\ contig 0 cl (msize (memory (base ex_one)))
       /\ sum_sizes cl = msize (memory (base ex_one))
       /\ freeBlocks (base ex_one) = Z.of_nat (length (free_chunks cl))
       /\ usedBlocks (base ex_one) = Z.of_nat (length (used_chunks cl))
       /\ freeBlocks (base ex_one) + usedBlocks (base ex_one) = Z.of_nat (length cl)
       /\ freeMem (base ex_one) = sum_sizes (free_chunks cl)
       /\ usedMem (base ex_one) = sum_sizes (used_chunks cl)
       /\ freeMem (base ex_one) + usedMem (base ex_one) = msize (memory (base ex_one)).
Proof.
  assert (H : reachable ex_one) by reach_ex_one.
  split; [exact H|]. exact (pool_partition ex_one H).
Defined.

(** Every free chunk has its size in its footer and is linked once, in the
    bin of its size and in no other bin; and every offset linked in a bin
    is that of a free chunk of the bin's size class. *)
Theorem free_chunks_binned (g : GarbageCollector) :
  reachable g ->
  exists cl, pool_chunks (base g) = Some cl
    /\ (forall c, In c cl -> used c = false ->
          load32 (memory (base g)) (off c + csz c - 4) = Some (csz c)
          /\ (exists l, bin_members (base g) (GetIndex (csz c)) = Some l
                /\ In (off c) l /\ NoDup l)
          /\ (forall i l, 0 <= i < 17 -> bin_members (base g) i = Some l ->
                In (off c) l -> i = GetIndex (csz c)))
    /\ (forall i l x, 0 <= i < 17 -> bin_members (base g) i = Some l -> In x l ->
          exists c, In c cl /\ used c = false /\ off c = x /\ GetIndex (csz c) = i).
Proof.
  intros Hr. destruct (reachable_chunks g Hr) as (cl & bl & Hpc & Hinv).
  destruct Hinv as [(Hpool & _ & Hbins & Hcov & _) _].
  pose proof Hpool as (HP & _ & Hc & Hs & Htags).
  pose proof Hs as Hs'. rewrite Forall_forall in Hs'.
  pose proof Hbins as (_ & _ & _ & (Hnd & _)).
  assert (Hmem : forall i, 0 <= i < 17 ->
            bin_members (base g) i = Some (nth (Z.to_nat i) bl [])).
  { intros i Hi. apply bin_members_spec; auto. lia. }
  assert (Hback : forall i x, 0 <= i < 17 -> In x (nth (Z.to_nat i) bl []) ->
            exists c, In c cl /\ used c = false /\ off c = x /\ GetIndex (csz c) = i).
  { intros i x Hi Hx. apply (proj1 (Hcov (Z.to_nat i) x)) in Hx.
    destruct Hx as (c & Hcin & Eo & Ei). apply in_free_chunks in Hcin.
    exists c. repeat split; try tauto. lia. }
  exists cl. split; [exact Hpc|]. split.
  - intros c Hcin Hcu. destruct (Hs' c Hcin) as [H16 _].
    pose proof (GetIndex_range (csz c) ltac:(lia)) as Hidx.
    split; [apply (Htags c Hcin); exact Hcu|]. split.
    + exists (nth (Z.to_nat (GetIndex (csz c))) bl []).
      split; [apply Hmem; exact Hidx|]. split.
      * apply (cover_in (free_chunks cl)); [exact Hcov| |lia].
        apply in_free_chunks. auto.
      * apply nth_concat_NoDup. exact Hnd.
    + intros i l Hi Hm Hx. rewrite (Hmem i Hi) in Hm. injection Hm as <-.
      destruct (Hback i (off c) Hi Hx) as (c' & Hc'in & _ & Eo & Ei).
      assert (c' = c) by (apply (contig_off_inj cl 0 (msize (memory (base g)))); auto).
      subst c'. lia.
  - intros i l x Hi Hm Hx. rewrite (Hmem i Hi) in Hm. injection Hm as <-.
    apply Hback; auto.
Qed.

Lemma free_chunks_binned_witness :
  reachable ex_one
  /\ exists cl, pool_chunks (base ex_one) = Some cl
    /\ (forall c, In c cl -> used c = false ->
          load32 (memory (base ex_one)) (off c + csz c - 4) = Some (csz c)
          /\ (exists l, bin_members (base ex_one) (GetIndex (csz c)) = Some l
                /\ In (off c) l /\ NoDup l)
          /\ (forall i l, 0 <= i < 17 -> bin_members (base ex_one) i = Some l ->
                In (off c) l -> i = GetIndex (csz c)))
    /\ (forall i l x, 0 <= i < 17 -> bin_members (base ex_one) i = Some l -> In x l ->
          exists c, In c cl /\ used c = false /\ off c = x /\ GetIndex (csz c) = i).
Proof.
  assert (H : reachable ex_one) by reach_ex_one.
  split; [exact H|]. exact (free_chunks_binned ex_one H).
Defined.

(** No chunk is smaller than 16 bytes, so the bins of the sizes below 16
    stay empty: [bins[0]] to [bins[6]] hold [InvalidSize]. *)
Theorem small_bins_empty (g : GarbageCollector) (i : Z) :
  reachable g -> 0 <= i < 7 -> bin_get (base g) i = Some InvalidSize.
Proof.
  intros Hr Hi. destruct (reachable_inv g Hr) as (cl & bl & Hinv).
  destruct Hinv as [(Hpool & _ & Hbins & Hcov & _) _].
  pose proof Hpool as (_ & _ & _ & Hs & _). rewrite Forall_forall in Hs.
  pose proof Hbins as (Hcb & Hlen & _).
  rewrite (bin_get_spec (base g) bl i Hcb) by (rewrite Hlen; unfold BIN_INDICES; lia).
  destruct (nth (Z.to_nat i) bl []) as [|x t] eqn:E; [reflexivity|].
  exfalso.
  assert (Hx : In x (nth (Z.to_nat i) bl [])) by (rewrite E; now left).
  apply (proj1 (Hcov (Z.to_nat i) x)) in Hx. destruct Hx as (c & Hcin & _ & Ei).
  apply in_free_chunks in Hcin. destruct (Hs c (proj1 Hcin)) as [H16 _].
  pose proof (GetIndex_16 (csz c) H16). lia.
Qed.

Lemma small_bins_empty_witness :
  reachable ex_one /\ 0 <= 6 < 7 /\ bin_get (base ex_one) 6 = Some InvalidSize.
Proof.
  assert (Hr : reachable ex_one) by reach_ex_one.
  assert (H : 0 <= 6 < 7) by lia.
  split; [exact Hr|]. split; [exact H|].
  exact (small_bins_empty ex_one 6 Hr H).
Defined.

End PoolFacts.

Section RequestSizes.

Lemma bytesNeeded_wrap (n : Z) :
  4294967291 <= n < 4294967296 -> bytesNeeded n = bytesNeeded 0.
Proof.
  intros H.
  assert (E : n = 4294967291 \/ n = 4294967292 \/ n = 4294967293 \/ n = 4294967294
              \/ n = 4294967295) by lia.
  destruct E as [->|[->|[->|[->| ->]]]]; reflexivity.
Qed.

(** The request size is added to [sizeof(Size)] in [uint32_t]: for the
    five largest values of [byteSizeRequested] the sum wraps, and
    [AllocPtr] does what it does for a request of 0 bytes. *)
Theorem AllocPtr_wraps (a : Allocator) (n : Z) :
  4294967291 <= n < 4294967296 -> AllocPtr a n = AllocPtr a 0.
Proof.
  intros H. unfold AllocPtr. rewrite (bytesNeeded_wrap n H). reflexivity.
Qed.

Lemma AllocPtr_wraps_witness :
  4294967291 <= 4294967295 < 4294967296
  /\ AllocPtr (base ex_new) 4294967295 = AllocPtr (base ex_new) 0.
Proof.
  assert (H : 4294967291 <= 4294967295 < 4294967296) by lia.
  split; [exact H|]. exact (AllocPtr_wraps (base ex_new) 4294967295 H).
Defined.

(** A pool of less than 12 bytes has no room for the header and the links
    of the root chunk: the constructor writes outside the vector, or, for
    0 bytes, fails the assertion of [WriteHeaderAndFooter]. *)
Theorem Allocator_new_tiny (P : Z) : 0 <= P < 12 -> Allocator_new P = None.
Proof.
  intros H.
  assert (E : P = 0 \/ P = 1 \/ P = 2 \/ P = 3 \/ P = 4 \/ P = 5 \/ P = 6 \/ P = 7
              \/ P = 8 \/ P = 9 \/ P = 10 \/ P = 11) by lia.
  repeat (destruct E as [->|E]; [vm_compute; reflexivity|]).
  subst P. vm_compute. reflexivity.
Qed.

Lemma Allocator_new_tiny_witness : 0 <= 8 < 12 /\ Allocator_new 8 = None.
Proof.
  assert (H : 0 <= 8 < 12) by lia.
  split; [exact H|]. exact (Allocator_new_tiny 8 H).
Defined.

End RequestSizes.

(** * The counters along the operations *)

Section Counters.

Lemma bin_set_stats (a a' : Allocator) (i v : Z) :
  bin_set a i v = Some a' -> stats_eq a a' /\ memory a' = memory a.
Proof.
  unfold bin_set. destruct ((0 <=? i) && (i <? Z.of_nat (length (chunkBins a))));
    [|discriminate].
  intros H. injection H as <-. split; [unfold stats_eq; simpl; tauto|reflexivity].
Qed.

Lemma RemoveFromFreeList_stats (a a' : Allocator) (c : Z) :
  RemoveFromFreeList a c = Some a' -> stats_eq a a'.
Proof.
  unfold RemoveFromFreeList. intros H. inv_all.
  - apply bin_set_stats in E1. destruct E1 as [E1 _].
    eapply stats_eq_trans; [exact E1|]. unfold stats_eq; simpl; tauto.
  - unfold stats_eq; simpl; tauto.
Qed.

Lemma AddToFreeList_stats (a a' : Allocator) (c : Z) :
  AddToFreeList a c = Some a' -> stats_eq a a'.
Proof.
  unfold AddToFreeList. intros H. inv_all.
  - apply bin_set_stats in E1. destruct E1 as [E1 _].
    eapply stats_eq_trans; [exact E1|]. unfold stats_eq; simpl; tauto.
  - unfold stats_eq; simpl; tauto.
Qed.

Lemma WriteHeaderAndFooter_stats (a a' : Allocator) (c s : Z) (u : bool) :
  WriteHeaderAndFooter a c s u = Some a' -> stats_eq a a'.
Proof.
  unfold WriteHeaderAndFooter. intros H. inv_all; unfold stats_eq; simpl; tauto.
Qed.

End Counters.

Section AllocFree.

Lemma AllocPtr_counters (a a' : Allocator) (n p : Z) :
  AllocPtr a n = Some (Some p, a') ->
  allocations a' = u32 (allocations a + 1) /\ frees a' = frees a
  /\ merges a' = merges a /\ fails a' = fails a.
Proof.
  unfold AllocPtr. intros H. inv_all.
  all: repeat match goal with
         | E : RemoveFromFreeList _ _ = Some _ |- _ => apply RemoveFromFreeList_stats in E
         | E : AddToFreeList _ _ = Some _ |- _ => apply AddToFreeList_stats in E
         | E : WriteHeaderAndFooter _ _ _ _ = Some _ |- _ =>
             apply WriteHeaderAndFooter_stats in E
         end.
  all: subst a'; unfold stats_eq in *; simpl in *; repeat split; intuition congruence.
Qed.

Lemma contig_head_bound (r : list chunk) (lo hi : Z) (x : chunk) :
  contig lo r hi -> Forall size_ok r -> In x r -> lo <= off x.
Proof. intros Hc Hs Hx. destruct (contig_bounds _ _ _ _ Hc Hs Hx). lia. Qed.

(** A layout without two free chunks in a row is determined by its used
    chunks. *)
Lemma layout_unique (l1 : list chunk) :
  forall (l2 : list chunk) (lo hi : Z),
  contig lo l1 hi -> contig lo l2 hi -> Forall size_ok l1 -> Forall size_ok l2 ->
  nafl l1 -> nafl l2 ->
  (forall x, In x (used_chunks l1) <-> In x (used_chunks l2)) ->
  l1 = l2.
Proof.
  induction l1 as [|c1 r1 IH]; intros l2 lo hi C1 C2 S1 S2 N1 N2 HU.
  - destruct l2 as [|c2 r2]; [reflexivity|]. exfalso.
    simpl in C1, C2. destruct C2 as [_ C2].
    inversion S2 as [|? ? [H16 _] S2']; subst.
    pose proof (contig_le _ _ _ C2 S2'). lia.
  - destruct l2 as [|c2 r2].
    { exfalso. simpl in C1, C2. destruct C1 as [_ C1].
      inversion S1 as [|? ? [H16 _] S1']; subst.
      pose proof (contig_le _ _ _ C1 S1'). lia. }
    pose proof C1 as C1full. pose proof C2 as C2full.
    simpl in C1, C2. destruct C1 as [O1 C1]. destruct C2 as [O2 C2].
    pose proof (Forall_inv S1) as [H16a _]. pose proof (Forall_inv_tail S1) as S1'.
    pose proof (Forall_inv S2) as [H16b _]. pose proof (Forall_inv_tail S2) as S2'.
    assert (Hin1 : forall x, In x r1 -> off c1 + csz c1 <= off x).
    { intros x Hx. rewrite O1. apply (contig_head_bound r1 _ hi); auto. }
    assert (Hin2 : forall x, In x r2 -> off c2 + csz c2 <= off x).
    { intros x Hx. rewrite O2. apply (contig_head_bound r2 _ hi); auto. }
    assert (E : c1 = c2).
    { destruct (used c1) eqn:U1.
      - assert (H : In c1 (used_chunks (c2 :: r2))).
        { apply HU. apply in_used_chunks. split; [now left|exact U1]. }
        apply in_used_chunks in H. destruct H as [[H|H] _]; [auto|].
        specialize (Hin2 c1 H). lia.
      - destruct (used c2) eqn:U2.
        + assert (H : In c2 (used_chunks (c1 :: r1))).
          { apply HU. apply in_used_chunks. split; [now left|exact U2]. }
          apply in_used_chunks in H. destruct H as [[H|H] _]; [auto|].
          specialize (Hin1 c2 H). lia.
        + assert (Esz : csz c1 = csz c2).
          { destruct (Z.lt_trichotomy (csz c1) (csz c2)) as [Hlt|[Heq|Hgt]]; [|exact Heq|].
            - exfalso. destruct r1 as [|d r1'].
              + simpl in C1. pose proof (contig_le _ _ _ C2 S2'). lia.
              + apply nafl_cons2 in N1. destruct N1 as [Hd _]. specialize (Hd U1).
                assert (Ed : off d = off c1 + csz c1) by (simpl in C1; destruct C1; lia).
                assert (H : In d (used_chunks (c2 :: r2))).
                { apply HU. apply in_used_chunks. split; [right; now left|exact Hd]. }
                apply in_used_chunks in H. destruct H as [[H|H] _]; [congruence|].
                specialize (Hin2 d H). lia.
            - exfalso. destruct r2 as [|d r2'].
              + simpl in C2. pose proof (contig_le _ _ _ C1 S1'). lia.
              + apply nafl_cons2 in N2. destruct N2 as [Hd _]. specialize (Hd U2).
                assert (Ed : off d = off c2 + csz c2) by (simpl in C2; destruct C2; lia).
                assert (H : In d (used_chunks (c1 :: r1))).
                { apply HU. apply in_used_chunks. split; [right; now left|exact Hd]. }
                apply in_used_chunks in H. destruct H as [[H|H] _]; [congruence|].
                specialize (Hin1 d H). lia. }
          destruct c1, c2; simpl in *; subst; reflexivity. }
    subst c2. f_equal.
    apply (IH r2 (lo + csz c1) hi); auto.
    + eapply nafl_tail; eauto.
    + eapply nafl_tail; eauto.
    + intros x. split; intros Hx.
      * assert (H : In x (used_chunks (c1 :: r2))).
        { apply HU. apply in_used_chunks. apply in_used_chunks in Hx. split; [right|]; tauto. }
        apply in_used_chunks in H. apply in_used_chunks.
        destruct H as [[H|H] Hu]; [|tauto].
        subst x. apply in_used_chunks in Hx. specialize (Hin1 c1 (proj1 Hx)). lia.
      * assert (H : In x (used_chunks (c1 :: r1))).
        { apply HU. apply in_used_chunks. apply in_used_chunks in Hx. split; [right|]; tauto. }
        apply in_used_chunks in H. apply in_used_chunks.
        destruct H as [[H|H] Hu]; [|tauto].
        subst x. apply in_used_chunks in Hx. specialize (Hin2 c1 (proj1 Hx)). lia.
Qed.

Lemma contig_NoDup (cl : list chunk) :
  forall lo hi, contig lo cl hi -> Forall size_ok cl -> NoDup cl.
Proof.
  induction cl as [|c r IH]; intros lo hi Hc Hs; [constructor|].
  simpl in Hc. destruct Hc as [Ho Hc].
  pose proof (Forall_inv Hs) as [H16 _]. pose proof (Forall_inv_tail Hs) as Hs'.
  constructor; [|eapply IH; eauto].
  intros Hin. pose proof (contig_head_bound r _ hi c Hc Hs' Hin). lia.
Qed.

Lemma sum_sizes_perm (l l' : list chunk) :
  Permutation l l' -> sum_sizes l = sum_sizes l'.
Proof. induction 1; simpl; lia. Qed.

(** The layouts before and after a successful [AllocPtr]. *)
Lemma alloc_layout (a a' : Allocator) (cl : list chunk) (bl : list (list Z)) (n p : Z) :
  alloc_inv a cl bl -> AllocPtr a n = Some (Some p, a') ->
  exists c cl' bl' k,
    In c cl /\ used c = false
    /\ msize (memory a') = msize (memory a)
    /\ alloc_inv a' cl' bl'
    /\ In (mkChunk (p - 4) k true) cl' /\ bytesNeeded n <= k
    /\ off c <= p - 4 /\ p - 4 + k = off c + csz c
    /\ (forall x, In x cl -> used x = true ->
          In x cl' /\ (off x + csz x <= p - 4 \/ p - 4 + k <= off x))
    /\ Permutation (used_chunks cl') (mkChunk (p - 4) k true :: used_chunks cl).
Proof.
  intros Hinv Hrun.
  destruct (AllocPtr_spec a cl bl n Hinv)
    as [(c & a1 & cl' & bl' & u & k & Hcin & Hcu & Hfit & Hrun' & Hz & Hinv' & Hnew & Hk
         & Hou & Huk & Hkeep & Hused' & _)|(Hrun' & _)];
    rewrite Hrun' in Hrun; [|discriminate].
  injection Hrun as <- <-. replace (u + 4 - 4) with u by lia.
  pose proof Hinv as ((_ & _ & Hc & Hs & _) & _).
  pose proof Hinv' as ((_ & _ & Hc' & Hs' & _) & _).
  pose proof Hs as Hsf. rewrite Forall_forall in Hsf.
  pose proof (bytesNeeded_range n) as [Hn16 _].
  assert (Hdis : forall x, In x cl -> used x = true ->
            off x + csz x <= u \/ u + k <= off x).
  { intros x Hx Hxu.
    destruct (contig_disjoint _ _ _ _ _ Hc Hs Hx Hcin) as [E|H]; [subst x; congruence|lia]. }
  assert (Hfresh : ~ In (mkChunk u k true) (used_chunks cl)).
  { intros H. apply in_used_chunks in H. destruct H as [H Hu].
    destruct (Hdis _ H Hu) as [H1|H1]; simpl in H1; lia. }
  exists c, cl', bl', k.
  split; [exact Hcin|]. split; [exact Hcu|]. split; [exact Hz|]. split; [exact Hinv'|].
  split; [exact Hnew|]. split; [exact Hk|]. split; [exact Hou|]. split; [exact Huk|].
  split.
  - intros x Hx Hxu. split; [|apply Hdis; auto].
    apply Hkeep; [assumption|]. intros ->. congruence.
  - apply NoDup_Permutation.
    + apply NoDup_filter. eapply contig_NoDup; eauto.
    + constructor; [exact Hfresh|]. apply NoDup_filter. eapply contig_NoDup; eauto.
    + intros x. split; intros Hx.
      * apply in_used_chunks in Hx. destruct Hx as [Hx Hxu].
        destruct (Hused' x Hx Hxu) as [->|[Hx1 Hx2]]; [now left|].
        right. apply in_used_chunks. auto.
      * destruct Hx as [<-|Hx]; [apply in_used_chunks; auto|].
        apply in_used_chunks in Hx. destruct Hx as [Hx Hxu]. apply in_used_chunks.
        split; [|exact Hxu]. apply Hkeep; [exact Hx|]. intros ->. congruence.
Qed.

(** A successful [AllocPtr(n)] carves the block from the tail of a free
    chunk: the new used chunk has at least [bytesNeeded n] bytes, which is
    room for the [n] bytes asked for unless [n + 4] wraps, it overlaps no
    used chunk, the used chunks stay where they are, and [usedBlocks],
    [usedMem] and [allocations] count it. *)
Theorem AllocPtr_block (g : GarbageCollector) (n p : Z) (a' : Allocator) :
  reachable g -> AllocPtr (base g) n = Some (Some p, a') ->
  exists cl cl' c k,
    pool_chunks (base g) = Some cl /\ pool_chunks a' = Some cl'
    /\ In c cl /\ used c = false
    /\ In (mkChunk (p - 4) k true) cl'
    /\ off c <= p - 4 /\ p - 4 + k = off c + csz c
    /\ bytesNeeded n <= k
    /\ (0 <= n < 4294967291 -> p + n <= p - 4 + k)
    /\ (forall x, In x cl -> used x = true ->
          In x cl' /\ (off x + csz x <= p - 4 \/ p - 4 + k <= off x))
    /\ usedBlocks a' = usedBlocks (base g) + 1
    /\ usedMem a' = usedMem (base g) + k
    /\ allocations a' = u32 (allocations (base g) + 1)
    /\ msize (memory a') = msize (memory (base g)).
Proof.
  intros Hr Hrun. destruct (reachable_chunks g Hr) as (cl & bl & Hpc & [Hinv _]).
  destruct (alloc_layout _ _ cl bl n p Hinv Hrun)
    as (c & cl' & bl' & k & Hcin & Hcu & Hz & Hinv' & Hnew & Hk & Hou & Huk & Hkeep & Hperm).
  destruct (AllocPtr_counters _ _ _ _ Hrun) as (Hal & _).
  destruct Hinv as (_ & _ & _ & _ & (_ & S2 & S3 & _)).
  pose proof Hinv' as (Hpool' & _ & _ & _ & (_ & S2' & S3' & _)).
  exists cl, cl', c, k. split; [exact Hpc|]. split; [apply pool_chunks_spec; exact Hpool'|].
  split; [exact Hcin|]. split; [exact Hcu|]. split; [exact Hnew|]. split; [exact Hou|].
  split; [exact Huk|]. split; [exact Hk|].
  split; [intros Hn; pose proof (bytesNeeded_fits n); lia|].
  split; [exact Hkeep|].
  split; [rewrite S2', S2, (Permutation_length Hperm); simpl length; lia|].
  split; [rewrite S3', S3, (sum_sizes_perm _ _ Hperm); simpl; lia|].
  split; [exact Hal|exact Hz].
Qed.

Lemma AllocPtr_block_witness :
  reachable ex_new
  /\ AllocPtr (base ex_new) 8 = Some (Some 52, base ex_one)
  /\ exists cl cl' c k,
    pool_chunks (base ex_new) = Some cl /\ pool_chunks (base ex_one) = Some cl'
    /\ In c cl /\ used c = false
    /\ In (mkChunk (52 - 4) k true) cl'
    /\ off c <= 52 - 4 /\ 52 - 4 + k = off c + csz c
    /\ bytesNeeded 8 <= k
    /\ (0 <= 8 < 4294967291 -> 52 + 8 <= 52 - 4 + k)
    /\ (forall x, In x cl -> used x = true ->
          In x cl' /\ (off x + csz x <= 52 - 4 \/ 52 - 4 + k <= off x))
    /\ usedBlocks (base ex_one) = usedBlocks (base ex_new) + 1
    /\ usedMem (base ex_one) = usedMem (base ex_new) + k
    /\ allocations (base ex_one) = u32 (allocations (base ex_new) + 1)
    /\ msize (memory (base ex_one)) = msize (memory (base ex_new)).
Proof.
  assert (H : reachable ex_new) by reach_ex_new.
  assert (E : AllocPtr (base ex_new) 8 = Some (Some 52, base ex_one))
    by (vm_compute; reflexivity).
  split; [exact H|]. split; [exact E|].
  exact (AllocPtr_block ex_new 8 52 (base ex_one) H E).
Defined.

Lemma chunk_eq_dec (x y : chunk) : {x = y} + {x <> y}.
Proof. decide equality; auto using Bool.bool_dec, Z.eq_dec. Qed.

Lemma contig_at (cl : list chunk) :
  forall lo hi b, contig lo cl hi -> Forall size_ok cl -> lo <= b < hi ->
  exists c, In c cl /\ off c <= b < off c + csz c.
Proof.
  induction cl as [|c r IH]; intros lo hi b Hc Hs Hb; simpl in Hc; [lia|].
  destruct Hc as [Ho Hc]. pose proof (Forall_inv_tail Hs) as Hs'.
  destruct (Z_lt_le_dec b (lo + csz c)) as [Hlt|Hge].
  - exists c. split; [now left|lia].
  - destruct (IH (lo + csz c) hi b Hc Hs' ltac:(lia)) as (x & Hx & Hbx).
    exists x. split; [now right|exact Hbx].
Qed.

(** The layouts before and after [FreePtr] of the used chunk [c]. *)
Lemma free_layout (a : Allocator) (cl : list chunk) (bl : list (list Z)) (c : chunk) :
  alloc_inv a cl bl -> In c cl -> used c = true ->
  exists a' cl' bl' f,
    FreePtr a (Some (off c + 4)) = Some a'
    /\ msize (memory a') = msize (memory a)
    /\ alloc_inv a' cl' bl'
    /\ (forall x, In x (used_chunks cl') <-> In x (used_chunks cl) /\ x <> c)
    /\ Permutation (used_chunks cl) (c :: used_chunks cl')
    /\ In f cl' /\ used f = false /\ off f <= off c /\ off c + csz c <= off f + csz f
    /\ frees a' = u32 (frees a + 1) /\ fails a' = fails a
    /\ allocations a' = allocations a.
Proof.
  intros Hinv Hcin Hcu.
  destruct (FreePtr_spec a cl bl c Hinv Hcin Hcu)
    as (a' & cl' & bl' & Hrun & Hz & Hinv' & Hused & Hfr & Hfl & Hal).
  pose proof Hinv as ((_ & _ & Hc & Hs & _) & _).
  pose proof Hinv' as ((_ & _ & Hc' & Hs' & _) & Hnadj' & _).
  pose proof Hs as Hsf. rewrite Forall_forall in Hsf.
  pose proof Hs' as Hsf'. rewrite Forall_forall in Hsf'.
  destruct (Hsf c Hcin) as [Hc16 _].
  destruct (contig_bounds _ _ _ _ Hc Hs Hcin) as [Hc0 Hc1].
  assert (Hov : forall x, In x cl' -> used x = true ->
            off x + csz x <= off c \/ off c + csz c <= off x).
  { intros x Hx Hxu.
    assert (H : In x (used_chunks cl) /\ x <> c).
    { apply Hused. apply in_used_chunks. auto. }
    destruct H as [H Hne]. apply in_used_chunks in H.
    destruct (contig_disjoint _ _ _ _ _ Hc Hs (proj1 H) Hcin) as [E|E]; [contradiction|exact E]. }
  destruct (contig_at cl' 0 _ (off c) Hc' Hs' ltac:(lia)) as (f & Hf & Hbf).
  destruct (Hsf' f Hf) as [Hf16 _].
  assert (Hfu : used f = false).
  { destruct (used f) eqn:E; [|reflexivity]. destruct (Hov f Hf E); lia. }
  assert (Hfend : off c + csz c <= off f + csz f).
  { destruct (Z_le_gt_dec (off c + csz c) (off f + csz f)) as [H|H]; [exact H|]. exfalso.
    destruct (contig_next _ _ _ f Hc' Hs' Hf ltac:(lia)) as (d & Hd & Ed).
    pose proof (Hnadj' f d Hf Hd Ed Hfu) as Hdu.
    destruct (Hsf' d Hd) as [Hd16 _].
    destruct (Hov d Hd Hdu); lia. }
  exists a', cl', bl', f.
  split; [exact Hrun|]. split; [exact Hz|]. split; [exact Hinv'|]. split; [exact Hused|].
  split.
  { apply NoDup_Permutation.
    - apply NoDup_filter. eapply contig_NoDup; eauto.
    - constructor.
      + intros H. apply Hused in H. tauto.
      + apply NoDup_filter. eapply contig_NoDup; eauto.
    - intros x. split; intros Hx.
      + destruct (chunk_eq_dec x c) as [->|Hne]; [now left|].
        right. apply Hused. auto.
      + destruct Hx as [<-|Hx]; [apply in_used_chunks; auto|]. apply Hused in Hx. tauto. }
  split; [exact Hf|]. split; [exact Hfu|]. split; [lia|]. split; [exact Hfend|].
  auto.
Qed.



(** The round trip of the allocator: [FreePtr] of the pointer that
    [AllocPtr] has just returned is defined and restores the chunk layout
    and the gauges [freeBlocks], [usedBlocks], [freeMem] and [usedMem];
    [allocations] and [frees] have counted the two calls. *)
Lemma alloc_free_round_trip (a a1 : Allocator) (cl : list chunk) (bl : list (list Z))
  (n p : Z) :
  alloc_inv a cl bl -> AllocPtr a n = Some (Some p, a1) ->
  exists a2 bl2, FreePtr a1 (Some p) = Some a2
    /\ alloc_inv a2 cl bl2
    /\ msize (memory a2) = msize (memory a)
    /\ allocations a2 = u32 (allocations a + 1)
    /\ frees a2 = u32 (frees a + 1) /\ fails a2 = fails a.
Proof.
  intros Hinv Hrun.
  destruct (alloc_layout _ _ cl bl n p Hinv Hrun)
    as (c & cl1 & bl1 & k & Hcin & Hcu & Hz1 & Hinv1 & Hnew & Hk & Hou & Huk & Hkeep & Hperm).
  destruct (AllocPtr_counters _ _ _ _ Hrun) as (Hal & Hfr & _ & Hfl).
  destruct (free_layout a1 cl1 bl1 _ Hinv1 Hnew eq_refl)
    as (a2 & cl2 & bl2 & f & Hrun2 & Hz2 & Hinv2 & Hused2 & _ & _ & _ & _ & _
        & Hfr2 & Hfl2 & Hal2).
  simpl off in Hrun2. replace (p - 4 + 4) with p in Hrun2 by lia.
  pose proof Hinv as ((_ & _ & Hc & Hs & _) & Hn & _).
  pose proof Hinv2 as ((_ & _ & Hc2 & Hs2 & _) & Hn2 & _).
  assert (E : cl2 = cl).
  { apply (layout_unique cl2 cl 0 (msize (memory a))); auto.
    - rewrite <- Hz1, <- Hz2. exact Hc2.
    - eapply nafl_of_offsets; eauto.
    - eapply nafl_of_offsets; eauto.
    - intros x. rewrite Hused2. split.
      + intros [Hx Hne]. apply (Permutation_in _ Hperm) in Hx.
        destruct Hx as [<-|Hx]; [contradiction|exact Hx].
      + intros Hx. split.
        * apply (Permutation_in _ (Permutation_sym Hperm)). now right.
        * intros ->. apply in_used_chunks in Hx. destruct Hx as [Hx _].
          destruct (contig_disjoint _ _ _ _ _ Hc Hs Hx Hcin) as [E|E];
            [rewrite <- E in Hcu; discriminate|].
          pose proof (bytesNeeded_range n). simpl in E. lia. }
  subst cl2. exists a2, bl2.
  split; [exact Hrun2|]. split; [exact Hinv2|]. split; [lia|].
  split; [congruence|]. split; congruence.
Qed.

Theorem AllocPtr_FreePtr_round_trip (g : GarbageCollector) (n p : Z) (a1 : Allocator) :
  reachable g -> AllocPtr (base g) n = Some (Some p, a1) ->
  exists a2, FreePtr a1 (Some p) = Some a2
    /\ pool_chunks a2 = pool_chunks (base g)
    /\ freeBlocks a2 = freeBlocks (base g) /\ usedBlocks a2 = usedBlocks (base g)
    /\ freeMem a2 = freeMem (base g) /\ usedMem a2 = usedMem (base g)
    /\ allocations a2 = u32 (allocations (base g) + 1)
    /\ frees a2 = u32 (frees (base g) + 1) /\ fails a2 = fails (base g).
Proof.
  intros Hr Hrun. destruct (reachable_chunks g Hr) as (cl & bl & Hpc & [Hinv _]).
  destruct (alloc_free_round_trip _ _ cl bl n p Hinv Hrun)
    as (a2 & bl2 & Hrun2 & Hinv2 & _ & Hal & Hfr & Hfl).
  exists a2. split; [exact Hrun2|].
  destruct Hinv as (_ & _ & _ & _ & (S1 & S2 & S3 & S4)).
  destruct Hinv2 as (Hpool2 & _ & _ & _ & (T1 & T2 & T3 & T4)).
  split; [rewrite Hpc; apply pool_chunks_spec; exact Hpool2|].
  repeat split; congruence.
Qed.

Lemma AllocPtr_FreePtr_round_trip_witness :
  reachable ex_new /\ AllocPtr (base ex_new) 8 = Some (Some 52, base ex_raw)
  /\ exists a2, FreePtr (base ex_raw) (Some 52) = Some a2
    /\ pool_chunks a2 = pool_chunks (base ex_new)
    /\ freeBlocks a2 = freeBlocks (base ex_new) /\ usedBlocks a2 = usedBlocks (base ex_new)
    /\ freeMem a2 = freeMem (base ex_new) /\ usedMem a2 = usedMem (base ex_new)
    /\ allocations a2 = u32 (allocations (base ex_new) + 1)
    /\ frees a2 = u32 (frees (base ex_new) + 1) /\ fails a2 = fails (base ex_new).
Proof.
  assert (H : reachable ex_new) by reach_ex_new.
  assert (E : AllocPtr (base ex_new) 8 = Some (Some 52, base ex_raw))
    by (vm_compute; reflexivity).
  split; [exact H|]. split; [exact E|].
  exact (AllocPtr_FreePtr_round_trip ex_new 8 52 (base ex_raw) H E).
Defined.

End AllocFree.

(** * Further properties of the handles *)

Section HandleFacts.

Lemma list_set_twice {A : Type} (l : list A) (i : nat) (x y : A) :
  (i < length l)%nat -> list_set (list_set l i x) i y = list_set l i y.
Proof.
  intros Hi. apply nth_error_ext. intros j.
  rewrite !nth_error_list_set by (rewrite ?length_list_set; assumption).
  destruct (Nat.eqb j i); reflexivity.
Qed.

Lemma list_set_same {A : Type} (l : list A) (i : nat) (x : A) :
  nth_error l i = Some x -> list_set l i x = l.
Proof.
  intros Hx. assert (Hi : (i < length l)%nat) by (apply nth_error_Some; congruence).
  apply nth_error_ext. intros j. rewrite nth_error_list_set by assumption.
  destruct (Nat.eqb_spec j i) as [->|]; [symmetry; exact Hx|reflexivity].
Qed.

(** [IncrRef] and then [DecrRef] of a handle whose count is at least 1 and
    below the largest value give back the state, and [DecrRef] reports the
    handle alive. *)
Theorem IncrRef_DecrRef_round_trip (g : GarbageCollector) (h : Z) (r : RefHolder) :
  ref_get g h = Some r -> 1 <= refCount r < 4294967295 ->
  exists g1, IncrRef g h = Some g1
    /\ RefCount g1 h = Some (refCount r + 1)
    /\ DecrRef g1 h = Some (true, g).
Proof.
  intros Hget Hc. destruct (ref_get_nth _ _ _ Hget) as [Hh Hn].
  assert (Hi : (Z.to_nat h < length (refs g))%nat) by lia.
  set (r1 := mkRefHolder (u32 (refCount r + 1)) (rsize r) (pointer r)).
  exists (set_refs g (list_set (refs g) (Z.to_nat h) r1)).
  assert (E1 : u32 (refCount r + 1) = refCount r + 1) by (apply u32_small; lia).
  assert (Hget1 : ref_get (set_refs g (list_set (refs g) (Z.to_nat h) r1)) h = Some r1).
  { unfold ref_get. destruct (Z.leb_spec 0 h); [|lia]. cbn [refs set_refs].
    rewrite nth_error_list_set by exact Hi. rewrite Nat.eqb_refl. reflexivity. }
  split; [unfold IncrRef; rewrite Hget; cbn [obind]; apply ref_set_some; exact Hh|].
  split; [unfold RefCount; rewrite Hget1; cbn [obind]; unfold r1; cbn [refCount]; congruence|].
  unfold DecrRef. rewrite Hget1. cbn [obind].
  assert (Hgt : (refCount r1 >? 1) = true).
  { unfold r1. cbn [refCount]. rewrite E1. apply Z.gtb_lt. lia. }
  rewrite Hgt.
  rewrite ref_set_some by (cbn [refs set_refs]; rewrite length_list_set; assumption).
  cbn [obind refs set_refs].
  assert (Er : mkRefHolder (u32 (refCount r1 - 1)) (rsize r1) (pointer r1) = r).
  { unfold r1. cbn [refCount rsize pointer]. rewrite E1.
    replace (refCount r + 1 - 1) with (refCount r) by lia.
    rewrite (u32_small (refCount r)) by lia. destruct r; reflexivity. }
  rewrite Er, list_set_twice by exact Hi.
  rewrite (list_set_same (refs g) (Z.to_nat h) r Hn). destruct g; reflexivity.
Qed.

Lemma IncrRef_DecrRef_round_trip_witness :
  ref_get ex_one 0 = Some (mkRefHolder 1 8 (Some 52))
  /\ 1 <= refCount (mkRefHolder 1 8 (Some 52)) < 4294967295
  /\ exists g1, IncrRef ex_one 0 = Some g1
       /\ RefCount g1 0 = Some (refCount (mkRefHolder 1 8 (Some 52)) + 1)
       /\ DecrRef g1 0 = Some (true, ex_one).
Proof.
  assert (E : ref_get ex_one 0 = Some (mkRefHolder 1 8 (Some 52)))
    by (vm_compute; reflexivity).
  assert (H : 1 <= refCount (mkRefHolder 1 8 (Some 52)) < 4294967295) by (simpl; lia).
  split; [exact E|]. split; [exact H|].
  exact (IncrRef_DecrRef_round_trip ex_one 0 _ E H).
Defined.

(** A freed slot keeps [refCount = InvalidRef] and a null pointer: a second
    [FreeRef] of the handle fails the assertion of [FreePtr], while
    [DecrRef] only decrements the count and reports the handle alive. *)
Theorem FreeRef_then_misuse (g g1 : GarbageCollector) (h : Z) :
  FreeRef g h = Some g1 ->
  ref_get g1 h = Some (mkRefHolder InvalidRef 0 None)
  /\ FreeRef g1 h = None
  /\ exists g2, DecrRef g1 h = Some (true, g2)
       /\ ref_get g2 h = Some (mkRefHolder (InvalidRef - 1) 0 None)
       /\ base g2 = base g1.
Proof.
  unfold FreeRef. intros H. inv_all.
  destruct (ref_get_nth _ _ _ E) as [Hh Hn].
  assert (Hi : (Z.to_nat h < length (refs g))%nat) by lia.
  rewrite ref_set_some in H by (cbn [refs set_base]; exact Hh).
  injection H as <-.
  set (r0 := mkRefHolder InvalidRef 0 None).
  set (g1 := set_refs (set_base g x0) (list_set (refs g) (Z.to_nat h) r0)).
  assert (Hget1 : ref_get g1 h = Some r0).
  { unfold ref_get. destruct (Z.leb_spec 0 h); [|lia]. unfold g1. cbn [refs set_refs set_base].
    rewrite nth_error_list_set by exact Hi. rewrite Nat.eqb_refl. reflexivity. }
  assert (Hlen1 : length (refs g1) = length (refs g)).
  { unfold g1. cbn [refs set_refs set_base]. apply length_list_set. exact Hi. }
  split; [exact Hget1|]. split.
  { rewrite Hget1. cbn [obind]. reflexivity. }
  unfold DecrRef. rewrite Hget1. cbn [obind]. unfold r0 at 1. cbn [refCount].
  change (InvalidRef >? 1) with true. cbv iota.
  rewrite ref_set_some by (rewrite Hlen1; exact Hh). cbn [obind].
  eexists. split; [reflexivity|]. split; [|reflexivity].
  unfold ref_get. destruct (Z.leb_spec 0 h); [|lia]. cbn [refs set_refs].
  rewrite nth_error_list_set by (rewrite Hlen1; exact Hi). rewrite Nat.eqb_refl.
  reflexivity.
Qed.

Lemma FreeRef_then_misuse_witness :
  FreeRef ex_one 0 = Some ex_freed
  /\ ref_get ex_freed 0 = Some (mkRefHolder InvalidRef 0 None)
  /\ FreeRef ex_freed 0 = None
  /\ exists g2, DecrRef ex_freed 0 = Some (true, g2)
       /\ ref_get g2 0 = Some (mkRefHolder (InvalidRef - 1) 0 None)
       /\ base g2 = base ex_freed.
Proof.
  assert (E : FreeRef ex_one 0 = Some ex_freed) by (vm_compute; reflexivity).
  split; [exact E|]. exact (FreeRef_then_misuse ex_one ex_freed 0 E).
Defined.

(** [FreeRef] of a live handle in a state of the invariant. *)
Lemma FreeRef_layout (g : GarbageCollector) (cl : list chunk) (bl : list (list Z))
  (h : Z) (r : RefHolder) (p : Z) :
  gc_inv g cl bl -> ref_get g h = Some r -> pointer r = Some p ->
  exists a' cl' bl' c,
    FreeRef g h
    = Some (set_refs (set_base g a')
              (list_set (refs g) (Z.to_nat h) (mkRefHolder InvalidRef 0 None)))
    /\ In c cl /\ used c = true /\ off c + 4 = p
    /\ FreePtr (base g) (Some p) = Some a'
    /\ alloc_inv a' cl' bl'
    /\ (forall x, In x (used_chunks cl') <-> In x (used_chunks cl) /\ x <> c)
    /\ Permutation (used_chunks cl) (c :: used_chunks cl').
Proof.
  intros [Hinv Hrefs] Hget Hp.
  destruct (ref_get_nth _ _ _ Hget) as [Hh Hn].
  destruct Hrefs as (R1 & _). destruct (R1 _ _ _ Hn Hp) as (c & Hcin & Hcu & Ep).
  destruct (free_layout _ cl bl c Hinv Hcin Hcu)
    as (a' & cl' & bl' & f & Hrun & _ & Hinv' & Hused & Hperm & _).
  rewrite <- Ep in Hrun.
  exists a', cl', bl', c. split.
  { unfold FreeRef. rewrite Hget. cbn [obind]. rewrite Hp, Hrun. cbn [obind].
    rewrite ref_set_some by (cbn [refs set_base]; exact Hh). reflexivity. }
  split; [exact Hcin|]. split; [exact Hcu|]. split; [lia|]. split; [exact Hrun|].
  split; [exact Hinv'|]. split; [exact Hused|exact Hperm].
Qed.

(** [DecrRef] of a live handle: with a count above 1 it only decrements
    the count and returns [true]; otherwise it frees the chunk of the
    handle, clears the slot to [(InvalidRef, 0, nullptr)] and returns
    [false]. *)
Theorem DecrRef_result (g : GarbageCollector) (h : Z) (r : RefHolder) (p : Z) :
  reachable g -> ref_get g h = Some r -> pointer r = Some p ->
  (refCount r > 1 ->
     DecrRef g h
     = Some (true, set_refs g (list_set (refs g) (Z.to_nat h)
                                 (mkRefHolder (u32 (refCount r - 1)) (rsize r) (Some p)))))
  /\ (refCount r <= 1 ->
      exists g' cl cl' c,
        DecrRef g h = Some (false, g')
        /\ ref_get g' h = Some (mkRefHolder InvalidRef 0 None)
        /\ length (refs g') = length (refs g)
        /\ pool_chunks (base g) = Some cl /\ pool_chunks (base g') = Some cl'
        /\ In c cl /\ used c = true /\ off c + 4 = p
        /\ (forall x, In x (used_chunks cl') <-> In x (used_chunks cl) /\ x <> c)
        /\ usedBlocks (base g') = usedBlocks (base g) - 1
        /\ usedMem (base g') = usedMem (base g) - csz c).
Proof.
  intros Hr Hget Hp. destruct (ref_get_nth _ _ _ Hget) as [Hh Hn].
  assert (Hi : (Z.to_nat h < length (refs g))%nat) by lia.
  split.
  - intros Hc. unfold DecrRef. rewrite Hget. cbn [obind].
    destruct (Z.gtb_spec (refCount r) 1); [|lia].
    rewrite ref_set_some by exact Hh. cbn [obind]. rewrite Hp. reflexivity.
  - intros Hc. destruct (reachable_chunks g Hr) as (cl & bl & Hpc & Hinv).
    destruct (FreeRef_layout g cl bl h r p Hinv Hget Hp)
      as (a' & cl' & bl' & c & Hrun & Hcin & Hcu & Ep & _ & Hinv' & Hused & Hperm).
    destruct Hinv as [(_ & _ & _ & _ & (_ & S2 & S3 & _)) _].
    pose proof Hinv' as (Hpool' & _ & _ & _ & (_ & S2' & S3' & _)).
    eexists _, cl, cl', c. split.
    { unfold DecrRef. rewrite Hget. cbn [obind].
      destruct (Z.gtb_spec (refCount r) 1); [lia|]. rewrite Hrun. reflexivity. }
    cbn [base refs set_refs set_base].
    split.
    { unfold ref_get. destruct (Z.leb_spec 0 h); [|lia]. cbn [refs set_refs].
      rewrite nth_error_list_set by exact Hi. rewrite Nat.eqb_refl. reflexivity. }
    split; [apply length_list_set; exact Hi|].
    split; [exact Hpc|]. split; [apply pool_chunks_spec; exact Hpool'|].
    split; [exact Hcin|]. split; [exact Hcu|]. split; [exact Ep|]. split; [exact Hused|].
    split; [rewrite S2', S2, (Permutation_length Hperm); simpl length; lia|].
    rewrite S3', S3, (sum_sizes_perm _ _ Hperm). simpl. lia.
Qed.

Lemma DecrRef_result_witness :
  reachable ex_one /\ ref_get ex_one 0 = Some (mkRefHolder 1 8 (Some 52))
  /\ pointer (mkRefHolder 1 8 (Some 52)) = Some 52
  /\ (refCount (mkRefHolder 1 8 (Some 52)) > 1 ->
        DecrRef ex_one 0
        = Some (true, set_refs ex_one
                        (list_set (refs ex_one) (Z.to_nat 0)
                           (mkRefHolder (u32 (refCount (mkRefHolder 1 8 (Some 52)) - 1))
                              (rsize (mkRefHolder 1 8 (Some 52))) (Some 52)))))
  /\ (refCount (mkRefHolder 1 8 (Some 52)) <= 1 ->
      exists g' cl cl' c,
        DecrRef ex_one 0 = Some (false, g')
        /\ ref_get g' 0 = Some (mkRefHolder InvalidRef 0 None)
        /\ length (refs g') = length (refs ex_one)
        /\ pool_chunks (base ex_one) = Some cl /\ pool_chunks (base g') = Some cl'
        /\ In c cl /\ used c = true /\ off c + 4 = 52
        /\ (forall x, In x (used_chunks cl') <-> In x (used_chunks cl) /\ x <> c)
        /\ usedBlocks (base g') = usedBlocks (base ex_one) - 1
        /\ usedMem (base g') = usedMem (base ex_one) - csz c).
Proof.
  assert (H : reachable ex_one) by reach_ex_one.
  assert (E : ref_get ex_one 0 = Some (mkRefHolder 1 8 (Some 52)))
    by (vm_compute; reflexivity).
  assert (P : pointer (mkRefHolder 1 8 (Some 52)) = Some 52) by reflexivity.
  split; [exact H|]. split; [exact E|]. split; [exact P|].
  exact (DecrRef_result ex_one 0 _ 52 H E P).
Defined.

(** The round trip of the handles: [FreeRef] of the handle that [AllocRef]
    has just returned is defined and restores the chunk layout and the
    gauges of the allocator; the slot of the handle is left with
    [(InvalidRef, 0, nullptr)]. *)
Theorem AllocRef_FreeRef_round_trip (g g1 : GarbageCollector) (n h : Z) :
  reachable g -> AllocRef g n = Some (h, g1) -> h <> InvalidRef ->
  exists g2, FreeRef g1 h = Some g2
    /\ pool_chunks (base g2) = pool_chunks (base g)
    /\ freeBlocks (base g2) = freeBlocks (base g)
    /\ usedBlocks (base g2) = usedBlocks (base g)
    /\ freeMem (base g2) = freeMem (base g) /\ usedMem (base g2) = usedMem (base g)
    /\ ref_get g2 h = Some (mkRefHolder InvalidRef 0 None)
    /\ length (refs g2) = length (refs g1).
Proof.
  intros Hr Hrun Hh. destruct (reachable_chunks g Hr) as (cl & bl & Hpc & Hinv).
  destruct (AllocRef_spec g cl bl n Hinv)
    as [(c & a' & cl' & bl' & u & k & h' & g' & _ & _ & _ & Hptr & _ & Hrun' & _ & Hhr
         & _ & Hbase & Hget & _)|(_ & Hrun' & _)];
    rewrite Hrun' in Hrun; injection Hrun as <- <-; [|contradiction].
  destruct Hinv as [Hinv _].
  destruct (alloc_free_round_trip _ _ cl bl n _ Hinv Hptr)
    as (a2 & bl2 & Hrun2 & Hinv2 & _).
  assert (Hi : (Z.to_nat h' < length (refs g'))%nat) by lia.
  eexists. split.
  { unfold FreeRef. rewrite Hget. cbn [obind pointer]. rewrite Hbase, Hrun2. cbn [obind].
    apply ref_set_some. cbn [refs set_base]. exact Hhr. }
  cbn [base refs set_refs set_base].
  destruct Hinv as (_ & _ & _ & _ & (S1 & S2 & S3 & S4)).
  destruct Hinv2 as (Hpool2 & _ & _ & _ & (T1 & T2 & T3 & T4)).
  split; [rewrite Hpc; apply pool_chunks_spec; exact Hpool2|].
  split; [congruence|]. split; [congruence|]. split; [congruence|]. split; [congruence|].
  split.
  { unfold ref_get. destruct (Z.leb_spec 0 h'); [|lia]. cbn [refs set_refs].
    rewrite nth_error_list_set by exact Hi. rewrite Nat.eqb_refl. reflexivity. }
  apply length_list_set. exact Hi.
Qed.

Lemma AllocRef_FreeRef_round_trip_witness :
  reachable ex_new /\ AllocRef ex_new 8 = Some (0, ex_one) /\ 0 <> InvalidRef
  /\ exists g2, FreeRef ex_one 0 = Some g2
    /\ pool_chunks (base g2) = pool_chunks (base ex_new)
    /\ freeBlocks (base g2) = freeBlocks (base ex_new)
    /\ usedBlocks (base g2) = usedBlocks (base ex_new)
    /\ freeMem (base g2) = freeMem (base ex_new)
    /\ usedMem (base g2) = usedMem (base ex_new)
    /\ ref_get g2 0 = Some (mkRefHolder InvalidRef 0 None)
    /\ length (refs g2) = length (refs ex_one).
Proof.
  assert (H : reachable ex_new) by reach_ex_new.
  assert (E : AllocRef ex_new 8 = Some (0, ex_one)) by (vm_compute; reflexivity).
  assert (N : 0 <> InvalidRef) by discriminate.
  split; [exact H|]. split; [exact E|]. split; [exact N|].
  exact (AllocRef_FreeRef_round_trip ex_new ex_one 8 0 H E N).
Defined.

Lemma find_free_at (rs : list RefHolder) :
  forall (k : Z) (i : nat) (r : RefHolder),
  nth_error rs i = Some r -> rsize r = 0 ->
  (forall j r', (j < i)%nat -> nth_error rs j = Some r' -> rsize r' <> 0) ->
  find_free rs k = Some (k + Z.of_nat i).
Proof.
  induction rs as [|r0 rs IH]; intros k i r Hn Hz Hlow; [destruct i; discriminate|].
  destruct i as [|i].
  - injection Hn as ->. simpl. rewrite Hz. simpl. f_equal. lia.
  - simpl. destruct (Z.eqb_spec (rsize r0) 0) as [E|E].
    + exfalso. apply (Hlow O r0); [lia|reflexivity|exact E].
    + rewrite (IH (k + 1) i r Hn Hz); [f_equal; lia|].
      intros j r' Hj Hr'. apply (Hlow (S j) r'); [lia|exact Hr'].
Qed.

(** The refs after [GetFreeRef] has filled the slot [h]. *)
Lemma GetFreeRef_refs (g g' : GarbageCollector) (ptr : option Z) (n h : Z) :
  GetFreeRef g ptr n = Some (h, g') -> Z.of_nat (length (refs g)) < 4294967295 ->
  0 <= h
  /\ nth_error (refs g') (Z.to_nat h) = Some (mkRefHolder 1 n ptr)
  /\ (forall j, j <> Z.to_nat h -> (j < length (refs g))%nat ->
        nth_error (refs g') j = nth_error (refs g) j)
  /\ (forall j r, (j < Z.to_nat h)%nat -> nth_error (refs g) j = Some r -> rsize r <> 0)
  /\ (h < Z.of_nat (length (refs g)) ->
      find_free (refs g) 0 = Some h /\ length (refs g') = length (refs g))
  /\ h <= Z.of_nat (length (refs g)).
Proof.
  unfold GetFreeRef. intros H Hlen.
  destruct (find_free (refs g) 0) as [i|] eqn:Hff.
  - destruct (find_free_some _ _ _ Hff) as (Hi & r & Hn & Hz).
    rewrite Z.sub_0_r in Hn. rewrite Z.add_0_l in Hi.
    rewrite ref_set_some in H by lia. cbn [obind] in H.
    rewrite u32_small in H by lia. injection H as <- <-. cbn [refs set_refs].
    assert (Hi' : (Z.to_nat i < length (refs g))%nat) by lia.
    split; [lia|]. split.
    { rewrite nth_error_list_set by exact Hi'. rewrite Nat.eqb_refl. reflexivity. }
    split.
    { intros j Hj _. rewrite nth_error_list_set by exact Hi'.
      destruct (Nat.eqb_spec j (Z.to_nat i)); [contradiction|reflexivity]. }
    split.
    { intros j r' Hj Hr'. apply (find_free_lowest _ _ _ Hff j r'); [lia|exact Hr']. }
    split; [|lia].
    intros _. split; [reflexivity|]. apply length_list_set. exact Hi'.
  - injection H as <- <-. cbn [refs set_refs]. rewrite length_app. simpl length.
    rewrite u32_small by lia.
    replace (Z.of_nat (length (refs g) + 1) - 1) with (Z.of_nat (length (refs g))) by lia.
    rewrite Nat2Z.id.
    split; [lia|]. split.
    { rewrite nth_error_app2 by lia. rewrite Nat.sub_diag. reflexivity. }
    split.
    { intros j _ Hj. apply nth_error_app1. exact Hj. }
    split.
    { intros j r' _ Hr'. apply (find_free_none _ _ Hff). eapply nth_error_In; eauto. }
    split; lia.
Qed.

(** [AllocRef(0)] stores the size 0, which [GetFreeRef] takes for the mark
    of a free slot: the next [AllocRef] that returns a handle returns the
    same handle again and overwrites the slot, and the chunk of the first
    call stays allocated with no ref left that points at it. *)
Theorem AllocRef_zero_slot_reused (g g1 g2 : GarbageCollector) (h h2 n : Z) :
  reachable g -> AllocRef g 0 = Some (h, g1) -> h <> InvalidRef ->
  AllocRef g1 n = Some (h2, g2) -> h2 <> InvalidRef ->
  h2 = h
  /\ exists p1 p2,
       PointerFromRef g1 h = Some (Some p1) /\ SizeFromRef g1 h = Some 0
       /\ PointerFromRef g2 h = Some (Some p2) /\ p1 <> p2
       /\ raw_pointer g2 p1.
Proof.
  intros Hr Hrun1 Hh Hrun2 Hh2.
  destruct (reachable_inv g Hr) as (cl & bl & Hinv).
  destruct (AllocRef_spec g cl bl 0 Hinv)
    as [(c & a1 & cl1 & bl1 & u & k & h' & g' & _ & _ & _ & Hptr1 & Hgf1 & Hrun' & _ & Hhr1
         & Hinv1 & Hbase1 & Hget1 & Hnew1 & Hk1 & _)|(_ & Hrun' & _)];
    rewrite Hrun' in Hrun1; injection Hrun1 as <- <-; [|contradiction].
  pose proof Hinv as [((HP & _ & Hc & Hs & _) & _) Hrefs].
  pose proof (refs_length_u32 _ _ _ Hrefs Hc HP) as Hlen.
  destruct (GetFreeRef_refs _ _ _ _ _ Hgf1 ltac:(cbn [refs set_base]; lia))
    as (Hh0 & Hn1 & Hoth1 & Hlow1 & _ & Hle1).
  cbn [refs set_base] in Hoth1, Hlow1, Hle1.
  assert (Hff : find_free (refs g') 0 = Some h').
  { replace h' with (0 + Z.of_nat (Z.to_nat h')) by lia.
    apply (find_free_at _ 0 _ _ Hn1); [reflexivity|].
    intros j r' Hj Hr'. rewrite Hoth1 in Hr' by lia. eapply Hlow1; eauto. }
  destruct (AllocRef_spec g' cl1 bl1 n Hinv1)
    as [(c2 & a2 & cl2 & bl2 & u2 & k2 & h2' & g2' & _ & _ & _ & Hptr2 & Hgf2 & Hrun2' & _
         & Hhr2 & Hinv2 & Hbase2 & Hget2 & Hnew2 & Hk2 & Hslot2)|(_ & Hrun2' & _)];
    rewrite Hrun2' in Hrun2; injection Hrun2 as <- <-; [|contradiction].
  assert (Eh : h2' = h').
  { destruct Hslot2 as [[H _]|[H _]]; congruence. }
  subst h2'. split; [reflexivity|].
  pose proof Hinv1 as [Ha1 Hrefs1].
  pose proof Ha1 as ((HP1 & _ & Hc1 & Hs1 & _) & _).
  destruct (alloc_layout _ _ cl1 bl1 n _ Ha1 Hptr2)
    as (c3 & cl3 & bl3 & k3 & _ & _ & _ & Hinv3 & Hnew3 & Hk3 & _ & _ & Hkeep & _).
  replace (u2 + 4 - 4) with u2 in * by lia.
  rewrite Forall_forall in Hs1. destruct (Hs1 _ Hnew1) as [Hk16 _]. simpl in Hk16.
  pose proof (bytesNeeded_range n) as [Hn16 _].
  destruct (Hkeep _ Hnew1 eq_refl) as [Hin3 Hdis]. simpl in Hdis.
  exists (u + 4), (u2 + 4).
  split; [unfold PointerFromRef; rewrite Hget1; reflexivity|].
  split; [unfold SizeFromRef; rewrite Hget1; reflexivity|].
  split; [unfold PointerFromRef; rewrite Hget2; reflexivity|].
  split; [lia|].
  split.
  - exists cl3, (mkChunk u k true). rewrite Hbase2.
    split; [apply pool_chunks_spec; apply Hinv3|]. split; [exact Hin3|].
    split; reflexivity.
  - intros r Hin Hp. apply In_nth_error in Hin. destruct Hin as [j Hj].
    pose proof (refs_length_u32 _ _ _ Hrefs1 Hc1 HP1) as Hlen1.
    destruct (GetFreeRef_refs _ _ _ _ _ Hgf2 ltac:(cbn [refs set_base]; lia))
      as (_ & Hn2 & Hoth2 & _ & Hsame2 & _).
    cbn [refs set_base] in Hoth2, Hsame2.
    destruct (Hsame2 ltac:(lia)) as [_ Hlen2].
    destruct (Nat.eq_dec j (Z.to_nat h')) as [->|Hne].
    + rewrite Hn2 in Hj. injection Hj as <-. simpl in Hp. injection Hp as E. lia.
    + assert (Hjl : (j < length (refs g'))%nat).
      { rewrite <- Hlen2. apply nth_error_Some. congruence. }
      rewrite (Hoth2 j Hne Hjl) in Hj.
      destruct Hrefs1 as (_ & R2 & _).
      apply Hne. apply (R2 j (Z.to_nat h') r _ (u + 4) Hj Hn1 Hp eq_refl).
Qed.

Lemma AllocRef_zero_slot_reused_witness :
  reachable ex_new /\ AllocRef ex_new 0 = Some (0, ex_zero) /\ 0 <> InvalidRef
  /\ AllocRef ex_zero 8 = Some (0, ex_zero2)
  /\ 0 = 0
  /\ exists p1 p2,
       PointerFromRef ex_zero 0 = Some (Some p1) /\ SizeFromRef ex_zero 0 = Some 0
       /\ PointerFromRef ex_zero2 0 = Some (Some p2) /\ p1 <> p2
       /\ raw_pointer ex_zero2 p1.
Proof.
  assert (H : reachable ex_new) by reach_ex_new.
  assert (E1 : AllocRef ex_new 0 = Some (0, ex_zero)) by (vm_compute; reflexivity).
  assert (N : 0 <> InvalidRef) by discriminate.
  assert (E2 : AllocRef ex_zero 8 = Some (0, ex_zero2)) by (vm_compute; reflexivity).
  split; [exact H|]. split; [exact E1|]. split; [exact N|]. split; [exact E2|].
  exact (AllocRef_zero_slot_reused ex_new ex_zero ex_zero2 0 0 8 H E1 N E2 N).
Defined.

End HandleFacts.

(** * Further properties of the compaction *)

Section CompactFacts.

(** Without a used chunk [Compact] has no result: its loop that marks the
    chunks as used starts at the free chunk that it should stop at, steps to
    [nullptr] and dereferences it. *)
Theorem Compact_without_used_chunk (g : GarbageCollector) :
  reachable g -> usedBlocks (base g) = 0 -> Compact g = None.
Proof.
  intros Hr Hu. destruct (reachable_inv g Hr) as (cl & bl & Hinv).
  apply (Compact_no_used g cl bl Hinv).
  destruct Hinv as [(_ & _ & _ & _ & (_ & S2 & _)) _].
  destruct (used_chunks cl); [reflexivity|]. simpl length in S2. lia.
Qed.

Lemma Compact_without_used_chunk_witness :
  reachable ex_freed /\ usedBlocks (base ex_freed) = 0 /\ Compact ex_freed = None.
Proof.
  assert (H : reachable ex_freed).
  { apply (reach_FreeRef ex_one ex_freed 0); [reach_ex_one| |vm_compute; reflexivity].
    exists (mkRefHolder 1 8 (Some 52)), 52. split; vm_compute; reflexivity. }
  assert (E : usedBlocks (base ex_freed) = 0) by reflexivity.
  split; [exact H|]. split; [exact E|].
  exact (Compact_without_used_chunk ex_freed H E).
Defined.

(** When [Compact] returns, the used chunks are packed at the low end of
    the pool in their order and with their sizes, and the rest of the pool,
    if any, is one free chunk: [freeBlocks] is 0 or 1, [usedBlocks] and
    [usedMem] are unchanged, [freeMem] is the rest.  [collections] has
    counted the call, [swaps] every used chunk and [bytesMoved] its size,
    whether or not the chunk had to move. *)
Theorem Compact_layout (g g' : GarbageCollector) :
  reachable g -> Compact g = Some g' ->
  exists cl,
    pool_chunks (base g) = Some cl /\ used_chunks cl <> []
    /\ pool_chunks (base g')
       = Some (pack 0 (used_chunks cl)
               ++ (if usedMem (base g) <? msize (memory (base g))
                   then [mkChunk (usedMem (base g))
                           (msize (memory (base g)) - usedMem (base g)) false]
                   else []))
    /\ msize (memory (base g')) = msize (memory (base g))
    /\ usedBlocks (base g') = usedBlocks (base g)
    /\ usedMem (base g') = usedMem (base g)
    /\ freeMem (base g') = msize (memory (base g)) - usedMem (base g)
    /\ freeBlocks (base g')
       = (if usedMem (base g) <? msize (memory (base g)) then 1 else 0)
    /\ collections g' = u32 (collections g + 1)
    /\ swaps g' = u32 (swaps g + usedBlocks (base g))
    /\ bytesMoved g' = u32 (bytesMoved g + usedMem (base g))
    /\ merges (base g') = merges (base g)
    /\ allocations (base g') = allocations (base g)
    /\ frees (base g') = frees (base g) /\ fails (base g') = fails (base g).
Proof.
  intros Hr Hrun. destruct (reachable_chunks g Hr) as (cl & bl & Hpc & Hinv).
  destruct (Compact_spec g g' cl bl Hinv Hrun)
    as (Hsome & bl' & Hinv' & Hz & Hco & Hsw & Hbm & M1 & M2 & M3 & M4 & _).
  destruct Hinv as [(_ & _ & _ & _ & (S1 & S2 & S3 & S4)) _].
  destruct Hinv' as [(Hpool' & _ & _ & _ & (T1 & T2 & T3 & T4)) _].
  set (P := msize (memory (base g))) in *.
  rewrite compacted_free in T1, T4. rewrite compacted_used in T2, T3.
  rewrite length_pack in T2. rewrite sum_sizes_pack in T3.
  exists cl. split; [exact Hpc|]. split; [exact Hsome|].
  split.
  { rewrite (pool_chunks_spec _ _ Hpool'). unfold compacted. rewrite S3. reflexivity. }
  split; [exact Hz|]. split; [congruence|]. split; [congruence|].
  rewrite S3.
  split.
  { rewrite T4. destruct (sum_sizes (used_chunks cl) <? P) eqn:E; simpl; [lia|].
    apply Z.ltb_ge in E.
    pose proof Hpool' as (_ & _ & Hc' & Hs' & _).
    apply contig_sum in Hc'. rewrite <- (sum_free_used (compacted P cl)) in Hc'.
    rewrite compacted_free, compacted_used, sum_sizes_pack in Hc'.
    apply Z.ltb_ge in E. rewrite E in Hc'. simpl in Hc'. lia. }
  split.
  { rewrite T1. destruct (sum_sizes (used_chunks cl) <? P); reflexivity. }
  split; [exact Hco|]. split; [rewrite S2; exact Hsw|]. split; [exact Hbm|].
  auto.
Qed.

Lemma Compact_layout_witness :
  reachable ex_one /\ Compact ex_one = Some ex_packed
  /\ exists cl,
    pool_chunks (base ex_one) = Some cl /\ used_chunks cl <> []
    /\ pool_chunks (base ex_packed)
       = Some (pack 0 (used_chunks cl)
               ++ (if usedMem (base ex_one) <? msize (memory (base ex_one))
                   then [mkChunk (usedMem (base ex_one))
                           (msize (memory (base ex_one)) - usedMem (base ex_one)) false]
                   else []))
    /\ msize (memory (base ex_packed)) = msize (memory (base ex_one))
    /\ usedBlocks (base ex_packed) = usedBlocks (base ex_one)
    /\ usedMem (base ex_packed) = usedMem (base ex_one)
    /\ freeMem (base ex_packed) = msize (memory (base ex_one)) - usedMem (base ex_one)
    /\ freeBlocks (base ex_packed)
       = (if usedMem (base ex_one) <? msize (memory (base ex_one)) then 1 else 0)
    /\ collections ex_packed = u32 (collections ex_one + 1)
    /\ swaps ex_packed = u32 (swaps ex_one + usedBlocks (base ex_one))
    /\ bytesMoved ex_packed = u32 (bytesMoved ex_one + usedMem (base ex_one))
    /\ merges (base ex_packed) = merges (base ex_one)
    /\ allocations (base ex_packed) = allocations (base ex_one)
    /\ frees (base ex_packed) = frees (base ex_one)
    /\ fails (base ex_packed) = fails (base ex_one).
Proof.
  assert (H : reachable ex_one) by reach_ex_one.
  assert (E : Compact ex_one = Some ex_packed) by (vm_compute; reflexivity).
  split; [exact H|]. split; [exact E|]. exact (Compact_layout ex_one ex_packed H E).
Defined.

End CompactFacts.


(** * The integrity check *)

Section CheckLinks.

(** In a circular bin list every node is linked with its two neighbours. *)
Lemma cyc_neighbours (m : Mem) (l : list Z) (x : Z) :
  cyc m l -> In x l ->
  exists y z, In y l /\ In z l
    /\ nextOffset m x = Some y /\ prevOffset m y = Some x
    /\ prevOffset m x = Some z /\ nextOffset m z = Some x.
Proof.
  intros Hc Hx. apply in_split in Hx. destruct Hx as (l1 & l2 & ->).
  apply cyc_rot in Hc. simpl app in Hc.
  assert (Hin : forall y, In y (x :: l2 ++ l1) -> In y (l1 ++ x :: l2)).
  { intros y [<-|Hy]; [apply in_or_app; right; now left|].
    apply in_app_or in Hy. apply in_or_app. destruct Hy; [right; now right|now left]. }
  remember (l2 ++ l1) as r eqn:Er. clear Er.
  unfold cyc in Hc.
  destruct r as [|y r'].
  - simpl in Hc. destruct Hc as (Hn & Hp & _).
    exists x, x. repeat split; auto; apply Hin; now left.
  - destruct (exists_last (l := y :: r') ltac:(discriminate)) as (r0 & z & Er).
    assert (Hy : In y (x :: y :: r')) by (right; now left).
    assert (Hz : In z (x :: y :: r')).
    { right. rewrite Er. apply in_or_app. right. now left. }
    exists y, z. split; [apply Hin; exact Hy|]. split; [apply Hin; exact Hz|].
    pose proof Hc as Hc1. change ((x :: y :: r') ++ [x]) with (x :: y :: (r' ++ [x])) in Hc1.
    rewrite path_cons2 in Hc1. destruct Hc1 as (Hn & Hp & _).
    split; [exact Hn|]. split; [exact Hp|].
    rewrite Er in Hc. change ((x :: r0 ++ [z]) ++ [x]) with (x :: (r0 ++ [z]) ++ [x]) in Hc.
    rewrite <- app_assoc in Hc. change (x :: r0 ++ [z] ++ [x]) with ((x :: r0) ++ z :: [x]) in Hc.
    apply path_app in Hc. destruct Hc as [_ Hc]. simpl in Hc. tauto.
Qed.

End CheckLinks.

Section CheckPasses.

Variable a : Allocator.
Variable cl : list chunk.
Variable bl : list (list Z).
Hypothesis Hinv : alloc_inv a cl bl.

Lemma free_chunk_links (c : chunk) :
  In c cl -> used c = false ->
  In (off c) (nth (Z.to_nat (GetIndex (csz c))) bl [])
  /\ 7 <= GetIndex (csz c) < 17
  /\ exists y z,
      nextOffset (memory a) (off c) = Some y /\ prevOffset (memory a) y = Some (off c)
      /\ prevOffset (memory a) (off c) = Some z /\ nextOffset (memory a) z = Some (off c)
      /\ 0 <= y < 2147483648 /\ 0 <= z < 2147483648.
Proof.
  intros Hcin Hcu. destruct Hinv as (Hpool & _ & Hbins & Hcov & _).
  pose proof Hpool as (HP & _ & Hc & Hs & _). rewrite Forall_forall in Hs.
  destruct (Hs c Hcin) as [H16 _].
  pose proof (GetIndex_range (csz c) ltac:(lia)) as Hidx.
  pose proof (GetIndex_16 (csz c) H16) as H7.
  assert (Hin : In (off c) (nth (Z.to_nat (GetIndex (csz c))) bl [])).
  { apply (cover_in (free_chunks cl)); [exact Hcov| |lia]. apply in_free_chunks. auto. }
  split; [exact Hin|]. split; [lia|].
  destruct Hbins as (_ & Hlen & Hcyc & (_ & Hb & _)).
  assert (Hl : In (nth (Z.to_nat (GetIndex (csz c))) bl []) bl).
  { apply nth_In. rewrite Hlen. unfold BIN_INDICES. lia. }
  destruct (cyc_neighbours _ _ _ (Hcyc _ Hl) Hin) as (y & z & Hy & Hz & H1 & H2 & H3 & H4).
  exists y, z. repeat split; auto.
  - apply (Hb y). eapply in_nth_concat; eauto.
  - destruct (Hb y); [eapply in_nth_concat; eauto|]. lia.
  - apply (Hb z). eapply in_nth_concat; eauto.
  - destruct (Hb z); [eapply in_nth_concat; eauto|]. lia.
Qed.

(** [CheckChunk] accepts every chunk of the layout. *)
Lemma CheckChunk_ok (c : chunk) : In c cl -> CheckChunk a (off c) = Some (Ret tt).
Proof.
  intros Hcin. pose proof Hinv as (Hpool & _).
  pose proof Hpool as (HP & _ & Hc & Hs & Htags). rewrite Forall_forall in Hs.
  destruct (Hs c Hcin) as [H16 _].
  destruct (contig_bounds _ _ _ _ Hc ltac:(rewrite Forall_forall; exact Hs) Hcin) as [Ho0 Ho1].
  destruct (Htags c Hcin) as (Hg & Hnx & _).
  unfold CheckChunk. rewrite Hg. cbn [lift rbind].
  destruct (Z.ltb_spec (csz c) 16); [lia|].
  rewrite (NextChunk_spec _ _ _ Hg). cbn [lift rbind].
  destruct (Z.geb_spec (off c + csz c) (msize (memory a))); [reflexivity|].
  destruct (Z.ltb_spec (off c + csz c) (msize (memory a))); [|lia].
  rewrite Hnx. cbn [lift rbind].
  destruct (used c) eqn:Hcu; [reflexivity|]. cbn [negb].
  destruct (free_chunk_links c Hcin Hcu)
    as (_ & _ & y & z & L1 & L2 & L3 & L4 & Hy & Hz).
  rewrite L1. cbn [lift rbind].
  destruct (Z.eqb_spec y InvalidSize) as [E|_]; [unfold InvalidSize in E; lia|].
  rewrite L3. cbn [lift rbind].
  destruct (Z.eqb_spec z InvalidSize) as [E|_]; [unfold InvalidSize in E; lia|].
  cbn [rbind]. unfold GetChunkAbsolute, OffsetOf. rewrite L2. cbn [lift rbind].
  rewrite (u32_small (off c)) by lia. rewrite Z.eqb_refl. cbn [negb].
  rewrite L4. cbn [lift rbind]. rewrite Z.eqb_refl. reflexivity.
Qed.

Lemma bin_count_spec (h chunk : Z) (l2 : list Z) :
  forall (cur count : Z) (found : bool) (fuel : nat),
  path (memory a) (cur :: l2 ++ [h]) -> ~ In h l2 -> 0 <= count ->
  count + 1 + Z.of_nat (length l2) <= u32 (freeBlocks a * 10) ->
  (length l2 < fuel)%nat ->
  exists f', bin_count fuel a h chunk cur count found
             = Some (count + 1 + Z.of_nat (length l2), f')
    /\ (found = true \/ In chunk (cur :: l2) -> f' = true).
Proof.
  assert (HL : u32 (freeBlocks a * 10) < 4294967296).
  { unfold u32. apply Z.mod_pos_bound. lia. }
  induction l2 as [|y l2 IH]; intros cur count found fuel Hp Hh Hc Hle Hf.
  - destruct fuel as [|f]; [simpl in Hf; lia|].
    simpl app in Hp. rewrite path_cons2 in Hp. destruct Hp as (Hn & _).
    simpl length in *. cbn [bin_count]. rewrite Hn. cbn [obind]. unfold GetChunkAbsolute.
    rewrite (u32_small (count + 1)) by lia.
    destruct (Z.gtb_spec (count + 1) (u32 (freeBlocks a * 10))); [lia|].
    rewrite Z.eqb_refl. eexists. split; [f_equal; f_equal; lia|].
    intros [->|[<-|[]]]; [reflexivity|]. rewrite Z.eqb_refl. apply orb_true_r.
  - destruct fuel as [|f]; [simpl in Hf; lia|].
    change (cur :: (y :: l2) ++ [h]) with (cur :: y :: (l2 ++ [h])) in Hp.
    rewrite path_cons2 in Hp. destruct Hp as (Hn & _ & Hp).
    simpl length in *. cbn [bin_count]. rewrite Hn. cbn [obind]. unfold GetChunkAbsolute.
    rewrite (u32_small (count + 1)) by lia.
    destruct (Z.gtb_spec (count + 1) (u32 (freeBlocks a * 10))); [lia|].
    destruct (Z.eqb_spec y h) as [->|Hne]; [exfalso; apply Hh; now left|].
    destruct (IH y (count + 1) (found || (cur =? chunk)) f Hp) as (f' & Hrun & Hfound);
      [intros Hin; apply Hh; now right|lia|lia|lia|].
    exists f'. split; [rewrite Hrun; f_equal; f_equal; lia|].
    intros Hor. apply Hfound. destruct Hor as [->|[<-|Hor]].
    + left. reflexivity.
    + left. rewrite Z.eqb_refl. apply orb_true_r.
    + right. exact Hor.
Qed.

Lemma bin_length (i : nat) :
  Z.of_nat (length (nth i bl [])) <= freeBlocks a.
Proof.
  destruct Hinv as (_ & _ & Hbins & Hcov & (S1 & _)).
  destruct Hbins as (_ & _ & _ & (Hnd & _)).
  rewrite S1. apply inj_le.
  rewrite <- (length_map off (free_chunks cl)).
  apply NoDup_incl_length; [apply nth_concat_NoDup; exact Hnd|].
  intros x Hx. apply (proj1 (Hcov i x)) in Hx. destruct Hx as (c & Hc & <- & _).
  apply in_map. exact Hc.
Qed.

Lemma CheckInBin_ok (c : chunk) :
  In c cl -> used c = false ->
  CheckInBin a (off c)
  = Some (Ret (Z.of_nat (length (nth (Z.to_nat (GetIndex (csz c))) bl [])))).
Proof.
  intros Hcin Hcu. pose proof Hinv as (Hpool & _ & Hbins & Hcov & (S1 & _)).
  pose proof Hpool as (HP & _ & Hc & Hs & Htags).
  destruct (Htags c Hcin) as (Hg & _).
  destruct (free_chunk_links c Hcin Hcu) as (Hin & Hidx & _).
  pose proof Hbins as (Hcb & Hlen & Hcyc & (Hnd & Hb & _)).
  unfold CheckInBin. rewrite Hg. cbn [lift rbind].
  rewrite (bin_get_spec a bl _ Hcb) by (rewrite Hlen; unfold BIN_INDICES; lia).
  cbn [lift rbind].
  set (i := Z.to_nat (GetIndex (csz c))) in *.
  pose proof (bin_length i) as Hbl.
  assert (Hl : In (nth i bl []) bl).
  { apply nth_In. rewrite Hlen. unfold BIN_INDICES, i. lia. }
  pose proof (Hcyc _ Hl) as Hcy.
  pose proof (nth_concat_NoDup bl i Hnd) as Hndl.
  destruct (nth i bl []) as [|h t] eqn:El; [contradiction|].
  simpl bin_head.
  destruct (Hb h) as [Hh0 Hh1]; [eapply in_nth_concat; rewrite El; now left|].
  destruct (Z.eqb_spec h InvalidSize) as [E|_]; [unfold InvalidSize in E; lia|].
  unfold GetChunkAbsolute.
  assert (HF : 0 <= freeBlocks a * 10 < 4294967296).
  { pose proof (layout_counts cl _ Hc Hs) as (H1 & _ & _ & H4).
    pose proof (sum_free_used cl). pose proof (contig_sum _ _ _ Hc).
    assert (0 <= sum_sizes (used_chunks cl)).
    { apply sum_sizes_nonneg. apply Forall_size_filter. exact Hs. }
    rewrite S1. lia. }
  assert (EL : u32 (freeBlocks a * 10) = freeBlocks a * 10) by (apply u32_small; exact HF).
  simpl length in Hbl.
  destruct (bin_count_spec h (off c) t h 0 false (S (Z.to_nat (u32 (freeBlocks a * 10)))))
    as (f' & Hrun & Hfound).
  - exact Hcy.
  - inversion Hndl; assumption.
  - lia.
  - rewrite EL. lia.
  - rewrite EL. lia.
  - rewrite Hrun. cbn [lift rbind]. rewrite Hfound by (right; exact Hin).
    cbn [negb]. simpl length. do 2 f_equal. lia.
Qed.

Lemma prefix_counts (l1 l2 : list chunk) :
  cl = l1 ++ l2 ->
  0 <= sum_sizes l1 <= msize (memory a)
  /\ 16 * Z.of_nat (length (free_chunks l1)) <= sum_sizes (free_chunks l1)
  /\ 16 * Z.of_nat (length (used_chunks l1)) <= sum_sizes (used_chunks l1)
  /\ sum_sizes (free_chunks l1) + sum_sizes (used_chunks l1) = sum_sizes l1.
Proof.
  intros E. destruct Hinv as ((_ & _ & Hc & Hs & _) & _).
  rewrite E in Hc, Hs. apply contig_app in Hc. destruct Hc as (mid & Hc1 & Hc2).
  apply Forall_size_app in Hs. destruct Hs as [Hs1 Hs2].
  pose proof (layout_counts l1 mid Hc1 Hs1) as (H1 & H2 & H3 & _).
  pose proof (contig_sum _ _ _ Hc1). pose proof (contig_le _ _ _ Hc2 Hs2).
  pose proof (contig_le _ _ _ Hc1 Hs1). lia.
Qed.

Lemma tally_snoc (done : list chunk) (c : chunk) (tot tot' : Z) :
  tally_of (done ++ [c]) tot'
  = let t := tally_of done tot in
    if used c
    then mkTally (freeCountA t) (freeMemA t) (usedCountA t + 1) (usedMemA t + csz c) tot'
    else mkTally (freeCountA t + 1) (freeMemA t + csz c) (usedCountA t) (usedMemA t) tot'.
Proof.
  unfold tally_of. cbn [freeCountA freeMemA usedCountA usedMemA totalMemUsedA].
  rewrite free_chunks_mid, used_chunks_mid.
  destruct (used c); cbn [app free_chunks used_chunks filter];
    rewrite ?app_nil_r, ?length_app, ?sum_sizes_app; cbn [length sum_sizes];
    f_equal; lia.
Qed.

Lemma tally_bounds (l1 l2 : list chunk) (tot : Z) :
  cl = l1 ++ l2 ->
  0 <= freeCountA (tally_of l1 tot) /\ 0 <= usedCountA (tally_of l1 tot)
  /\ 0 <= freeMemA (tally_of l1 tot) /\ 0 <= usedMemA (tally_of l1 tot)
  /\ 16 * freeCountA (tally_of l1 tot) <= freeMemA (tally_of l1 tot)
  /\ 16 * usedCountA (tally_of l1 tot) <= usedMemA (tally_of l1 tot)
  /\ freeMemA (tally_of l1 tot) + usedMemA (tally_of l1 tot) = sum_sizes l1
  /\ sum_sizes l1 <= msize (memory a).
Proof.
  intros E. destruct (prefix_counts l1 l2 E) as (B1 & B2 & B3 & B4).
  unfold tally_of. cbn [freeCountA freeMemA usedCountA usedMemA]. lia.
Qed.

Lemma check_walk_ok (z : chunk) (rest : list chunk) :
  forall (done : list chunk) (fuel : nat),
  cl = done ++ rest ++ [z] -> (length rest < fuel)%nat ->
  check_walk fuel a (off (hd z rest)) (tally_of done (sum_sizes done))
  = Some (Ret (tally_of (done ++ rest) (sum_sizes cl), off z)).
Proof.
  pose proof Hinv as (Hpool & _).
  pose proof Hpool as (HP & _ & Hc & Hs & Htags).
  pose proof Hs as Hs'. rewrite Forall_forall in Hs'.
  induction rest as [|c rest IH]; intros done fuel Ecl Hf.
  - destruct fuel as [|f]; [simpl in Hf; lia|]. simpl hd. simpl app in Ecl.
    assert (Hz : In z cl) by (rewrite Ecl; apply in_or_app; right; now left).
    destruct (Hs' z Hz) as [H16 _]. destruct (Htags z Hz) as (Hg & _).
    assert (Hend : off z + csz z = msize (memory a)).
    { rewrite Ecl in Hc. apply contig_app in Hc. destruct Hc as (mid & _ & H).
      simpl in H. lia. }
    destruct (prefix_counts done [z] Ecl) as (B1 & _).
    assert (Esum : sum_sizes cl = sum_sizes done + csz z).
    { rewrite Ecl, sum_sizes_app. simpl. lia. }
    pose proof (contig_sum _ _ _ Hc) as Htot.
    cbn [check_walk]. rewrite (CheckChunk_ok z Hz). cbn [rbind].
    rewrite (NextChunk_spec _ _ _ Hg). cbn [lift rbind].
    destruct (Z.geb_spec (off z + csz z) (msize (memory a))); [|lia].
    rewrite Hg. cbn [lift rbind]. unfold assert, sizeofSize.
    destruct (Z.geb_spec (csz z) 4); [|lia]. cbn [lift rbind].
    rewrite app_nil_r. unfold tally_of. cbn [freeCountA freeMemA usedCountA usedMemA totalMemUsedA].
    rewrite u32_small by lia. rewrite Esum. reflexivity.
  - destruct fuel as [|f]; [simpl in Hf; lia|]. simpl hd.
    assert (Hcin : In c cl).
    { rewrite Ecl. apply in_or_app. right. now left. }
    destruct (Hs' c Hcin) as [H16 _]. destruct (Htags c Hcin) as (Hg & Hnx & Hft).
    assert (Ecl' : cl = (done ++ [c]) ++ rest ++ [z]).
    { rewrite Ecl, <- app_assoc. reflexivity. }
    assert (Hnext : off (hd z rest) = off c + csz c
                    /\ off c + csz c + 16 <= msize (memory a)).
    { pose proof Hc as Hc2. rewrite Ecl in Hc2. apply contig_app in Hc2.
      destruct Hc2 as (mid & _ & Hc2). simpl in Hc2. destruct Hc2 as [Eo Hc2].
      assert (Hs2 : Forall size_ok (rest ++ [z])).
      { rewrite Ecl in Hs. apply Forall_size_app in Hs. destruct Hs as [_ Hs].
        eapply Forall_inv_tail; eauto. }
      destruct rest as [|d rest'].
      - simpl in Hc2. simpl hd. destruct (Forall_inv Hs2). lia.
      - simpl in Hc2. simpl hd. destruct Hc2 as [Ed Hc2].
        destruct (Forall_inv Hs2) as [Hd16 _].
        pose proof (contig_le _ _ _ Hc2 (Forall_inv_tail Hs2)). lia. }
    destruct Hnext as [Enx Hroom].
    pose proof (tally_bounds (done ++ [c]) (rest ++ [z]) (sum_sizes (done ++ [c])) Ecl')
      as Hb.
    rewrite (tally_snoc done c (sum_sizes done)) in Hb.
    cbn [check_walk]. rewrite (CheckChunk_ok c Hcin). cbn [rbind].
    rewrite (NextChunk_spec _ _ _ Hg). cbn [lift rbind].
    destruct (Z.geb_spec (off c + csz c) (msize (memory a))); [lia|].
    rewrite Hg. cbn [lift rbind]. unfold assert, sizeofSize.
    destruct (Z.geb_spec (csz c) 4); [|lia]. cbn [lift rbind].
    destruct (Z.ltb_spec (off c + csz c) (msize (memory a))); [|lia].
    rewrite Hnx. cbn [lift rbind].
    specialize (IH (done ++ [c]) f Ecl' ltac:(simpl in Hf; lia)).
    rewrite Enx in IH.
    replace ((done ++ [c]) ++ rest) with (done ++ c :: rest) in IH
      by (rewrite <- app_assoc; reflexivity).
    rewrite (tally_snoc done c (sum_sizes done)) in IH.
    rewrite sum_sizes_app in IH, Hb. simpl sum_sizes in IH, Hb.
    set (t := tally_of done (sum_sizes done)) in *.
    assert (Et : totalMemUsedA t = sum_sizes done) by reflexivity.
    cbv zeta in IH, Hb.
    destruct (used c) eqn:Hcu; cbn [negb].
    + cbn [rbind freeCountA freeMemA usedCountA usedMemA totalMemUsedA] in Hb |- *.
      rewrite <- IH. rewrite Et. rewrite !u32_small by lia.
      replace (sum_sizes done + csz c) with (sum_sizes done + (csz c + 0)) by lia.
      reflexivity.
    + rewrite (CheckInBin_ok c Hcin Hcu). cbn [rbind].
      unfold PrevSize, sizeofSize. rewrite (Hft eq_refl). cbn [lift rbind].
      rewrite Z.eqb_refl.
      cbn [negb rbind freeCountA freeMemA usedCountA usedMemA totalMemUsedA] in Hb |- *.
      rewrite <- IH. rewrite Et. rewrite !u32_small by lia.
      replace (sum_sizes done + csz c) with (sum_sizes done + (csz c + 0)) by lia.
      reflexivity.
Qed.

Lemma IntegrityCheck_ok : IntegrityCheck a = Some (Ret true).
Proof.
  pose proof Hinv as (Hpool & _ & _ & _ & Hst).
  pose proof Hpool as (HP & Hne & Hc & Hs & Htags).
  destruct (exists_last Hne) as (body & z & Ecl).
  assert (Ecl' : cl = [] ++ body ++ [z]) by exact Ecl.
  assert (Hz : In z cl) by (rewrite Ecl; apply in_or_app; right; now left).
  destruct (Htags z Hz) as (Hg & Hnx & _).
  assert (Hend : off z + csz z = msize (memory a)).
  { rewrite Ecl in Hc. apply contig_app in Hc. destruct Hc as (mid & _ & H).
    simpl in H. lia. }
  destruct (Z.ltb_spec (off z + csz z) (msize (memory a))); [lia|].
  assert (H0 : off (hd z body) = 0).
  { rewrite Ecl in Hc. destruct body as [|b body']; simpl in Hc |- *; lia. }
  destruct (prefix_counts body [z] Ecl) as (B1 & _).
  assert (Hlen : (length body < S (length (memory a)))%nat).
  { assert (Hs1 : Forall size_ok body).
    { rewrite Ecl in Hs. apply Forall_size_app in Hs. tauto. }
    assert (16 * Z.of_nat (length body) <= sum_sizes body).
    { clear - Hs1. induction Hs1 as [|x l Hx _ IH]; simpl length; simpl sum_sizes.
      - lia.
      - destruct Hx. lia. }
    unfold msize in B1. lia. }
  pose proof (check_walk_ok z body [] _ Ecl' Hlen) as Hw.
  rewrite H0 in Hw. simpl app in Hw.
  pose proof (tally_bounds cl [] (sum_sizes cl) (eq_sym (app_nil_r cl))) as Hb.
  pose proof (contig_sum _ _ _ Hc) as Htot.
  destruct Hst as (S1 & S2 & S3 & S4).
  change (freeBlocks a = freeCountA (tally_of cl (sum_sizes cl))) in S1.
  change (usedBlocks a = usedCountA (tally_of cl (sum_sizes cl))) in S2.
  change (usedMem a = usedMemA (tally_of cl (sum_sizes cl))) in S3.
  change (freeMem a = freeMemA (tally_of cl (sum_sizes cl))) in S4.
  assert (Ef : tally_of cl (sum_sizes cl)
               = tally_of (body ++ [z]) (sum_sizes cl)) by (rewrite <- Ecl; reflexivity).
  rewrite (tally_snoc body z (sum_sizes cl)) in Ef.
  rewrite Ef in Hb, S1, S2, S3, S4. clear Ef.
  unfold IntegrityCheck, GetChunkAbsolute.
  change (mkTally 0 0 0 0 0) with (tally_of [] (sum_sizes [])).
  rewrite Hw. cbn [rbind]. rewrite Hg. cbn [lift rbind].
  rewrite Hnx.
  set (t := tally_of body (sum_sizes cl)) in *.
  assert (Et : totalMemUsedA t = sum_sizes cl) by reflexivity.
  cbv zeta in Hb, S1, S2, S3, S4.
  destruct (used z);
    cbn [negb freeCountA freeMemA usedCountA usedMemA totalMemUsedA] in Hb, S1, S2, S3, S4 |- *;
    rewrite Et, S1, S2, S3, S4, !u32_small by lia;
    rewrite Htot, !Z.eqb_refl; reflexivity.
Qed.

End CheckPasses.

Lemma tally_snoc_any (done : list chunk) (c : chunk) (tot : Z) :
  tally_of (done ++ [c]) (tot + csz c)
  = let t := tally_of done tot in
    if used c
    then mkTally (freeCountA t) (freeMemA t) (usedCountA t + 1) (usedMemA t + csz c)
           (totalMemUsedA t + csz c)
    else mkTally (freeCountA t + 1) (freeMemA t + csz c) (usedCountA t) (usedMemA t)
           (totalMemUsedA t + csz c).
Proof.
  unfold tally_of. cbn [freeCountA freeMemA usedCountA usedMemA totalMemUsedA].
  rewrite free_chunks_mid, used_chunks_mid.
  destruct (used c); cbn [app free_chunks used_chunks filter];
    rewrite ?app_nil_r, ?length_app, ?sum_sizes_app; cbn [length sum_sizes];
    f_equal; lia.
Qed.

Section CheckSound.

Variable a : Allocator.

Lemma u32_add_l (x y : Z) : u32 (u32 x + y) = u32 (x + y).
Proof. unfold u32. apply Z.add_mod_idemp_l. lia. Qed.

Lemma CheckChunk_inv (s : Z) (u : unit) :
  CheckChunk a s = Some (Ret u) ->
  exists sz, GetSize (memory a) s = Some sz /\ 16 <= sz < 4294967296 /\ 0 <= s
             /\ s + 4 <= msize (memory a) /\ sz mod 2 = 0.
Proof.
  unfold CheckChunk. destruct (GetSize (memory a) s) as [sz|] eqn:Hg; [|discriminate].
  cbn [lift rbind]. destruct (Z.ltb_spec sz 16); [discriminate|]. intros _.
  exists sz. split; [reflexivity|].
  unfold GetSize in Hg. destruct (load32 (memory a) s) as [w|] eqn:Hl; [|discriminate].
  apply load32_inb in Hl. injection Hg as <-.
  pose proof (wsize_range w) as [Hw Hm]. unfold wsize in Hw, Hm. repeat split; auto; lia.
Qed.

Lemma check_walk_sound :
  forall (fuel : nat) (s tot : Z) (done : list chunk) (t' : tally) (prev : Z),
  check_walk fuel a s (tally_wrap (tally_of done tot)) = Some (Ret (t', prev)) ->
  exists rest z,
    walk fuel a s = Some (rest ++ [z]) /\ off z = prev
    /\ contig s (rest ++ [z]) (off z + csz z)
    /\ off z < msize (memory a) <= off z + csz z
    /\ Forall size_ok (rest ++ [z]) /\ csz z < 4294967296
    /\ GetSize (memory a) (off z) = Some (csz z)
    /\ used z = finalPrevIsUsed a
    /\ t' = tally_wrap (tally_of (done ++ rest) (tot + sum_sizes (rest ++ [z])))
    /\ (forall c, In c rest -> used c = false ->
          load32 (memory a) (off c + csz c - 4) = Some (csz c)).
Proof.
  induction fuel as [|f IH]; intros s tot done t' prev H; [discriminate|].
  cbn [check_walk] in H.
  destruct (CheckChunk a s) as [[u|e]|] eqn:HC; cbn [rbind] in H; try discriminate.
  destruct (CheckChunk_inv s u HC) as (sz & Hg & Hsz & Hs0 & Hs4 & Hev).
  cbn [walk]. unfold IsSelfUsed. unfold NextChunk in H |- *.
  rewrite Hg in H |- *. cbn [obind lift rbind] in H |- *.
  destruct (Z.geb_spec (s + sz) (msize (memory a))) as [Hge|Hlt].
  - cbn [lift rbind obind] in H |- *. unfold assert, sizeofSize in H.
    destruct (Z.geb_spec sz 4); [|lia]. cbn [lift rbind] in H.
    injection H as <- <-.
    exists [], (mkChunk s sz (finalPrevIsUsed a)). cbn [app off csz used contig sum_sizes].
    rewrite app_nil_r.
    split; [reflexivity|]. split; [reflexivity|]. split; [split; [reflexivity|reflexivity]|].
    split; [lia|]. split; [repeat constructor; simpl; [lia|exact Hev]|].
    split; [lia|]. split; [exact Hg|]. split; [reflexivity|]. split.
    + unfold tally_wrap, tally_of. cbn [freeCountA freeMemA usedCountA usedMemA totalMemUsedA].
      rewrite u32_add_l. f_equal. f_equal. lia.
    + intros c [].
  - cbn [lift rbind obind] in H |- *. unfold assert, sizeofSize in H.
    destruct (Z.geb_spec sz 4); [|lia]. cbn [lift rbind] in H.
    destruct (IsPrevUsed (memory a) (s + sz)) as [pu|] eqn:Hpu; [|discriminate].
    cbn [lift rbind obind] in H |- *.
    set (c := mkChunk s sz pu).
    assert (Hfoot : match check_walk f a (s + sz)
                            (tally_wrap (tally_of (done ++ [c]) (tot + sz))) with
                    | Some (Ret r) => Some (Ret r) = Some (Ret (t', prev))
                        /\ (pu = false ->
                            load32 (memory a) (s + sz - 4) = Some sz)
                    | _ => False
                    end).
    { change (tot + sz) with (tot + csz c).
      rewrite (tally_snoc_any done c tot). subst c. cbn [used csz].
      unfold tally_wrap, tally_of in H |- *.
      cbn [freeCountA freeMemA usedCountA usedMemA totalMemUsedA] in H |- *.
      cbv zeta.
      destruct pu; cbn [negb rbind] in H.
      - cbn [freeCountA freeMemA usedCountA usedMemA totalMemUsedA] in H |- *.
        rewrite !u32_add_l in H. rewrite H. split; [reflexivity|discriminate].
      - destruct (CheckInBin a s) as [[n|e]|]; cbn [rbind] in H; try discriminate.
        unfold PrevSize, sizeofSize in H.
        destruct (load32 (memory a) (s + sz - 4)) as [ps|] eqn:Hps; [|discriminate].
        cbn [lift rbind] in H.
        destruct (Z.eqb_spec ps sz) as [->|]; cbn [negb] in H; [|discriminate].
        cbn [rbind freeCountA freeMemA usedCountA usedMemA totalMemUsedA] in H |- *.
        rewrite !u32_add_l in H. rewrite H. split; [reflexivity|auto]. }
    destruct (check_walk f a (s + sz) (tally_wrap (tally_of (done ++ [c]) (tot + sz))))
      as [[r|e]|] eqn:Hrec; try contradiction.
    destruct Hfoot as [Er Hfoot]. injection Er as ->.
    destruct (IH _ _ _ _ _ Hrec)
      as (rest & z & Hw & Hz & Hct & Hend & Hsz' & Hzb & Hgz & Huz & Ht & Hft).
    rewrite Hw. cbn [obind]. fold c.
    exists (c :: rest), z. cbn [app].
    split; [reflexivity|]. split; [exact Hz|].
    split; [cbn [contig]; split; [reflexivity|exact Hct]|].
    split; [exact Hend|].
    split; [constructor; [split; simpl; [lia|exact Hev]|exact Hsz']|].
    split; [exact Hzb|]. split; [exact Hgz|]. split; [exact Huz|].
    split.
    + rewrite Ht. rewrite <- app_assoc. cbn [app sum_sizes csz c].
      f_equal. f_equal. lia.
    + intros d [<-|Hd] Hu; [|now apply Hft]. cbn [off csz used c] in Hu |- *. auto.
Qed.

(** A passed check is sound: when [IntegrityCheck] returns [true], the
    chunk walk from offset 0 ends, its chunks tile the pool exactly, every
    size is even and at least 16, the four counters of the allocator are
    the numbers and the bytes of the free and of the used chunks, and every
    free chunk before the last carries its size in its footer. *)
Theorem IntegrityCheck_sound :
  IntegrityCheck a = Some (Ret true) ->
  exists cl, pool_chunks a = Some cl /\ checked a cl.
Proof.
  unfold IntegrityCheck, GetChunkAbsolute, pool_chunks.
  change (mkTally 0 0 0 0 0) with (tally_wrap (tally_of [] 0)).
  destruct (check_walk (S (length (memory a))) a 0 (tally_wrap (tally_of [] 0)))
    as [[[t prev]|e]|] eqn:Hw; cbn [rbind]; try discriminate.
  destruct (check_walk_sound _ _ _ _ _ _ Hw)
    as (rest & z & Hwalk & Hz & Hct & Hend & Hsz & Hzb & Hgz & Huz & Ht & Hft).
  subst prev. rewrite Hgz. cbn [lift rbind]. cbn [app] in Ht.
  pose proof (contig_sum _ _ _ Hct) as Hsum.
  assert (Hsz1 : Forall size_ok rest).
  { apply Forall_size_app in Hsz. tauto. }
  assert (Hz16 : size_ok z).
  { apply Forall_size_app in Hsz. destruct Hsz as [_ Hsz]. now inversion Hsz. }
  destruct Hz16 as [Hz16 _].
  pose proof (sum_sizes_count _ (Forall_size_filter is_free rest Hsz1)) as L1.
  pose proof (sum_sizes_count _ (Forall_size_filter used rest Hsz1)) as L2.
  fold (free_chunks rest) in L1. fold (used_chunks rest) in L2.
  pose proof (sum_free_used rest) as L3.
  assert (L4 : sum_sizes (rest ++ [z]) = sum_sizes rest + csz z).
  { rewrite sum_sizes_app. simpl. lia. }
  intros H. exists (rest ++ [z]). split; [exact Hwalk|].
  assert (Htot : u32 (sum_sizes (rest ++ [z])) = msize (memory a)
                 -> sum_sizes (rest ++ [z]) = msize (memory a)).
  { unfold u32. intros E.
    pose proof (Z.mod_pos_bound (sum_sizes (rest ++ [z])) 4294967296 ltac:(lia)).
    pose proof (Z.div_mod (sum_sizes (rest ++ [z])) 4294967296 ltac:(lia)).
    assert (0 <= sum_sizes (rest ++ [z]) / 4294967296 < 1); [|lia].
    split.
    - apply Z.div_pos; lia.
    - apply Z.div_lt_upper_bound; lia. }
  rewrite Ht in H. unfold tally_wrap, tally_of in H.
  cbn [freeCountA freeMemA usedCountA usedMemA totalMemUsedA] in H.
  rewrite <- Huz in H.
  destruct (Z.eqb_spec
              (totalMemUsedA
                 (if negb (used z)
                  then mkTally (u32 (u32 (Z.of_nat (length (free_chunks rest))) + 1))
                         (u32 (u32 (sum_sizes (free_chunks rest)) + csz z))
                         (u32 (Z.of_nat (length (used_chunks rest))))
                         (u32 (sum_sizes (used_chunks rest)))
                         (u32 (0 + sum_sizes (rest ++ [z])))
                  else mkTally (u32 (Z.of_nat (length (free_chunks rest))))
                         (u32 (sum_sizes (free_chunks rest)))
                         (u32 (u32 (Z.of_nat (length (used_chunks rest))) + 1))
                         (u32 (u32 (sum_sizes (used_chunks rest)) + csz z))
                         (u32 (0 + sum_sizes (rest ++ [z])))))
              (msize (memory a))) as [Em|]; cbn [negb] in H; [|discriminate].
  assert (Em' : sum_sizes (rest ++ [z]) = msize (memory a)).
  { apply Htot. rewrite <- Em. destruct (used z); reflexivity. }
  assert (Hm : 0 <= msize (memory a) < 4294967296).
  { rewrite <- Em. destruct (used z); cbn [negb totalMemUsedA]; unfold u32;
      apply Z.mod_pos_bound; lia. }
  clear Em Htot.
  assert (Hst : stats_ok a (rest ++ [z])).
  { unfold stats_ok. rewrite free_chunks_mid, used_chunks_mid.
    rewrite !length_app, !sum_sizes_app.
    cbn [free_chunks used_chunks filter app].
    destruct (used z) eqn:Hu;
      cbn [negb freeCountA freeMemA usedCountA usedMemA totalMemUsedA length sum_sizes] in H |- *;
      rewrite !u32_add_l in H; rewrite !u32_small in H by lia;
      destruct (usedBlocks a =? _) eqn:E1; cbn [negb orb] in H; try discriminate;
      destruct (freeBlocks a =? _) eqn:E2; cbn [negb orb] in H; try discriminate;
      destruct (freeMem a =? _) eqn:E3; cbn [negb orb] in H; try discriminate;
      destruct (usedMem a =? _) eqn:E4; cbn [negb orb] in H; try discriminate;
      apply Z.eqb_eq in E1, E2, E3, E4; repeat split; lia. }
  split; [rewrite <- Em', <- (Z.add_0_l (sum_sizes _)), <- Hsum; exact Hct|].
  split; [exact Hsz|]. split; [exact Hst|].
  intros c Hc Hcu Hlt. apply in_app_or in Hc. destruct Hc as [Hc|[<-|[]]].
  - now apply Hft.
  - lia.
Qed.

End CheckSound.

Lemma IntegrityCheck_sound_witness :
  IntegrityCheck (base ex_one) = Some (Ret true)
  /\ exists cl, pool_chunks (base ex_one) = Some cl /\ checked (base ex_one) cl.
Proof.
  assert (H : IntegrityCheck (base ex_one) = Some (Ret true)) by (vm_compute; reflexivity).
  split; [exact H|]. exact (IntegrityCheck_sound (base ex_one) H).
Defined.

Section CheckReachable.

Variable g : GarbageCollector.
Hypothesis Hr : reachable g.

(** The check is complete on the states a client reaches: [IntegrityCheck]
    throws nothing, fails no assertion and returns [true]. *)
Theorem IntegrityCheck_passes : IntegrityCheck (base g) = Some (Ret true).
Proof.
  destruct (reachable_inv g Hr) as (cl & bl & Hinv & _).
  exact (IntegrityCheck_ok (base g) cl bl Hinv).
Qed.

(** [CheckChunk] accepts every chunk, and [CheckInBin] of a free chunk
    returns the number of chunks linked in the bin of its size. *)
Theorem CheckInBin_returns_bin_length (cl : list chunk) (c : chunk) :
  pool_chunks (base g) = Some cl -> In c cl ->
  CheckChunk (base g) (off c) = Some (Ret tt)
  /\ (used c = false ->
      exists l, bin_members (base g) (GetIndex (csz c)) = Some l /\ In (off c) l
        /\ CheckInBin (base g) (off c) = Some (Ret (Z.of_nat (length l)))).
Proof.
  intros Hpc Hc. destruct (reachable_chunks g Hr) as (cl' & bl & Hpc' & Hinv & _).
  rewrite Hpc in Hpc'. injection Hpc' as <-.
  split; [exact (CheckChunk_ok (base g) cl bl Hinv c Hc)|].
  intros Hu. pose proof Hinv as (Hpool & _ & Hbins & _).
  pose proof Hpool as (HP & _ & _ & Hs & _). rewrite Forall_forall in Hs.
  destruct (Hs c Hc) as [H16 _].
  destruct (free_chunk_links (base g) cl bl Hinv c Hc Hu) as (Hin & Hidx & _).
  exists (nth (Z.to_nat (GetIndex (csz c))) bl []).
  split; [apply bin_members_spec; auto; lia|].
  split; [|exact (CheckInBin_ok (base g) cl bl Hinv c Hc Hu)].
  exact Hin.
Qed.

End CheckReachable.

Lemma IntegrityCheck_passes_witness :
  reachable ex_one /\ IntegrityCheck (base ex_one) = Some (Ret true).
Proof.
  assert (H : reachable ex_one) by reach_ex_one.
  split; [exact H|]. exact (IntegrityCheck_passes ex_one H).
Defined.

Lemma CheckInBin_returns_bin_length_witness :
  reachable ex_one
  /\ pool_chunks (base ex_one) = Some [mkChunk 0 48 false; mkChunk 48 16 true]
  /\ In (mkChunk 0 48 false) [mkChunk 0 48 false; mkChunk 48 16 true]
  /\ CheckChunk (base ex_one) 0 = Some (Ret tt)
  /\ (false = false ->
      exists l, bin_members (base ex_one) (GetIndex 48) = Some l /\ In 0 l
        /\ CheckInBin (base ex_one) 0 = Some (Ret (Z.of_nat (length l)))).
Proof.
  assert (H : reachable ex_one) by reach_ex_one.
  assert (Hp : pool_chunks (base ex_one) = Some [mkChunk 0 48 false; mkChunk 48 16 true])
    by (vm_compute; reflexivity).
  assert (Hi : In (mkChunk 0 48 false) [mkChunk 0 48 false; mkChunk 48 16 true])
    by (simpl; left; reflexivity).
  split; [exact H|]. split; [exact Hp|]. split; [exact Hi|].
  exact (CheckInBin_returns_bin_length ex_one H _ (mkChunk 0 48 false) Hp Hi).
Defined.


(** * The cells of the pool hold bytes *)

Create HintDb bytes.

Ltac inv_run :=
  repeat match goal with
  | H : obind _ _ = Some _ |- _ =>
      let x := fresh "x" in
      let E := fresh "E" in
      apply obind_some in H; destruct H as (x & E & H)
  | H : (let '(_, _) := ?p in _) = Some _ |- _ => destruct p
  | H : (if ?b then _ else _) = Some _ |- _ => destruct b eqn:?
  | H : match ?o with Some _ => _ | None => _ end = Some _ |- _ => destruct o eqn:?
  | H : None = Some _ |- _ => discriminate H
  | H : Some _ = Some _ |- _ => injection H as H; subst
  | H : (_, _) = (_, _) |- _ => injection H as H; subst
  end.

Ltac mem_simpl :=
  cbn [memory set_memory set_final set_bins set_freeBlocks set_freeMem set_merges
       set_allocations set_frees set_fails AllocationBytesUsed base set_base set_refs
       refs fst snd] in *.

Ltac mem_goal :=
  progress cbn [memory set_memory set_final set_bins set_freeBlocks set_freeMem
                set_merges set_allocations set_frees set_fails AllocationBytesUsed
                base set_base set_refs refs fst snd].

#[local] Hint Extern 1 (bytes_ok _) => mem_goal : bytes.

Ltac bytes_run := inv_run; subst; mem_simpl; eauto 12 with bytes.

Lemma bytes_firstn (n : nat) (m : Mem) : bytes_ok m -> bytes_ok (firstn n m).
Proof.
  unfold bytes_ok. intros H. rewrite <- (firstn_skipn n m) in H.
  apply Forall_app in H. tauto.
Qed.

Lemma bytes_skipn (n : nat) (m : Mem) : bytes_ok m -> bytes_ok (skipn n m).
Proof.
  unfold bytes_ok. intros H. rewrite <- (firstn_skipn n m) in H.
  apply Forall_app in H. tauto.
Qed.

Lemma upd_bytes (m : Mem) (a v : Z) :
  bytes_ok m -> 0 <= v < 256 -> bytes_ok (upd m a v).
Proof.
  intros H Hv. unfold upd. apply Forall_app. split; [now apply bytes_firstn|].
  constructor; [exact Hv|now apply bytes_skipn].
Qed.

Lemma store32_keeps_bytes (m m' : Mem) (a v : Z) :
  store32 m a v = Some m' -> bytes_ok m -> bytes_ok m'.
Proof.
  unfold store32. intros H B. destruct (inb m a 4); [|discriminate]. injection H as <-.
  repeat apply upd_bytes; auto; apply Z.mod_pos_bound; lia.
Qed.

Lemma memmove_keeps_bytes (m m' : Mem) (dst src n : Z) :
  memmove m dst src n = Some m' -> bytes_ok m -> bytes_ok m'.
Proof.
  unfold memmove. intros H B.
  destruct (inb m dst n && inb m src n && (0 <=? n)); [|discriminate]. injection H as <-.
  apply Forall_app. split; [now apply bytes_firstn|].
  apply Forall_app. split; [apply bytes_firstn|]; now apply bytes_skipn.
Qed.

Lemma repeat_bytes (n : nat) : bytes_ok (repeat 0 n).
Proof. apply Forall_forall. intros x Hx. apply repeat_spec in Hx. lia. Qed.

#[local] Hint Resolve store32_keeps_bytes memmove_keeps_bytes repeat_bytes : bytes.

Lemma SetPrevUsed_bytes (m m' : Mem) (c : Z) (u : bool) :
  SetPrevUsed m c u = Some m' -> bytes_ok m -> bytes_ok m'.
Proof. unfold SetPrevUsed. intros H B. bytes_run. Qed.

#[local] Hint Resolve SetPrevUsed_bytes : bytes.

Lemma SetSize_bytes (m m' : Mem) (c s : Z) :
  SetSize m c s = Some m' -> bytes_ok m -> bytes_ok m'.
Proof. unfold SetSize. intros H B. bytes_run. Qed.

#[local] Hint Resolve SetSize_bytes : bytes.

Lemma bin_set_memory (a a' : Allocator) (i v : Z) :
  bin_set a i v = Some a' -> memory a' = memory a.
Proof. unfold bin_set. intros H. inv_run. reflexivity. Qed.

Lemma WriteHeaderAndFooter_bytes (a a' : Allocator) (c s : Z) (u : bool) :
  WriteHeaderAndFooter a c s u = Some a' -> bytes_ok (memory a) -> bytes_ok (memory a').
Proof. unfold WriteHeaderAndFooter. intros H B. bytes_run. Qed.

#[local] Hint Resolve WriteHeaderAndFooter_bytes : bytes.

Lemma AddToFreeList_bytes (a a' : Allocator) (c : Z) :
  AddToFreeList a c = Some a' -> bytes_ok (memory a) -> bytes_ok (memory a').
Proof.
  unfold AddToFreeList, set_nextOffset, set_prevOffset. intros H B. inv_run.
  - apply bin_set_memory in E1. mem_simpl. rewrite <- E1 in B. eauto 12 with bytes.
  - mem_simpl. eauto 12 with bytes.
Qed.

#[local] Hint Resolve AddToFreeList_bytes : bytes.

Lemma RemoveFromFreeList_bytes (a a' : Allocator) (c : Z) :
  RemoveFromFreeList a c = Some a' -> bytes_ok (memory a) -> bytes_ok (memory a').
Proof.
  unfold RemoveFromFreeList, set_nextOffset, set_prevOffset. intros H B. inv_run.
  - apply bin_set_memory in E1. mem_simpl. rewrite <- E1 in B. eauto 12 with bytes.
  - mem_simpl. eauto 12 with bytes.
Qed.

#[local] Hint Resolve RemoveFromFreeList_bytes : bytes.

Lemma MergeSecondIntoFirst_bytes (a a' : Allocator) (p c : Z) :
  MergeSecondIntoFirst a p c = Some a' -> bytes_ok (memory a) -> bytes_ok (memory a').
Proof. unfold MergeSecondIntoFirst. intros H B. bytes_run. Qed.

#[local] Hint Resolve MergeSecondIntoFirst_bytes : bytes.

Lemma Allocator_new_bytes (P : Z) (a : Allocator) :
  Allocator_new P = Some a -> bytes_ok (memory a).
Proof.
  unfold Allocator_new, set_nextOffset, set_prevOffset. intros H. inv_run.
  apply (AddToFreeList_bytes _ _ _ H). mem_simpl.
  apply WriteHeaderAndFooter_bytes in E; [|apply repeat_bytes]. eauto 12 with bytes.
Qed.

Lemma AllocPtr_bytes (a a' : Allocator) (n : Z) (p : option Z) :
  AllocPtr a n = Some (p, a') -> bytes_ok (memory a) -> bytes_ok (memory a').
Proof. unfold AllocPtr. intros H B. bytes_run. Qed.

Lemma FreePtr_bytes (a a' : Allocator) (p : option Z) :
  FreePtr a p = Some a' -> bytes_ok (memory a) -> bytes_ok (memory a').
Proof.
  unfold FreePtr. intros H B. destruct p as [p|]; [|discriminate].
  bytes_run.
Qed.

#[local] Hint Resolve AllocPtr_bytes FreePtr_bytes : bytes.


Lemma ref_set_base (g g' : GarbageCollector) (i : Z) (r : RefHolder) :
  ref_set g i r = Some g' -> base g' = base g.
Proof. unfold ref_set. intros H. inv_run. reflexivity. Qed.

Lemma GetFreeRef_base (g g' : GarbageCollector) (p : option Z) (n h : Z) :
  GetFreeRef g p n = Some (h, g') -> base g' = base g.
Proof.
  unfold GetFreeRef. intros H. destruct (find_free (refs g) 0); inv_run.
  - eapply ref_set_base; eauto.
  - reflexivity.
Qed.

Lemma AllocRef_bytes (g g' : GarbageCollector) (n h : Z) :
  AllocRef g n = Some (h, g') -> bytes_ok (memory (base g)) -> bytes_ok (memory (base g')).
Proof.
  unfold AllocRef. intros H B. inv_run; mem_simpl; eauto with bytes.
  - apply GetFreeRef_base in E0. mem_simpl. eapply FreePtr_bytes; [eassumption|].
    rewrite E0. eauto with bytes.
  - apply GetFreeRef_base in E0. mem_simpl. rewrite E0. eauto with bytes.
Qed.

Lemma FreeRef_bytes (g g' : GarbageCollector) (h : Z) :
  FreeRef g h = Some g' -> bytes_ok (memory (base g)) -> bytes_ok (memory (base g')).
Proof.
  unfold FreeRef. intros H B. inv_run. apply ref_set_base in H. rewrite H. mem_simpl.
  eauto with bytes.
Qed.

Lemma IncrRef_bytes (g g' : GarbageCollector) (h : Z) :
  IncrRef g h = Some g' -> bytes_ok (memory (base g)) -> bytes_ok (memory (base g')).
Proof.
  unfold IncrRef. intros H B. inv_run. apply ref_set_base in H. rewrite H. exact B.
Qed.

Lemma DecrRef_bytes (g g' : GarbageCollector) (h : Z) (b : bool) :
  DecrRef g h = Some (b, g') -> bytes_ok (memory (base g)) -> bytes_ok (memory (base g')).
Proof.
  unfold DecrRef. intros H B. inv_run.
  - apply ref_set_base in E0. rewrite E0. exact B.
  - eapply FreeRef_bytes; eauto.
Qed.

Lemma stamp_bytes (rs : list RefHolder) :
  forall (i : Z) (m m' : Mem) (bk : list Z),
  stamp rs i m = Some (m', bk) -> bytes_ok m -> bytes_ok m'.
Proof.
  induction rs as [|r rs IH]; intros i m m' bk H B; cbn [stamp] in H.
  - inv_run. exact B.
  - destruct (pointer r); inv_run; eauto with bytes.
Qed.

Lemma detach_bytes (fuel : nat) :
  forall (a a' : Allocator) (cur : Z),
  detach fuel a cur = Some a' -> bytes_ok (memory a) -> bytes_ok (memory a').
Proof.
  induction fuel as [|f IH]; intros a a' cur H B; cbn [detach] in H; [discriminate|].
  inv_run; mem_simpl; eauto 6 with bytes.
Qed.

Lemma slide_bytes (fuel : nat) :
  forall (g g' : GarbageCollector) (cur nw us nw' us' : Z),
  slide fuel g cur nw us = Some (g', nw', us') ->
  bytes_ok (memory (base g)) -> bytes_ok (memory (base g')).
Proof.
  induction fuel as [|f IH]; intros g g' cur nw us nw' us' H B; cbn [slide] in H;
    [discriminate|].
  inv_run; mem_simpl;
    try (eapply IH; [eassumption|]; mem_simpl); eauto 6 with bytes.
Qed.

Lemma tail_chunk_bytes (a a' : Allocator) (nw us : Z) (fc : option Z) :
  tail_chunk a nw us = Some (a', fc) -> bytes_ok (memory a) -> bytes_ok (memory a').
Proof. unfold tail_chunk. intros H B. bytes_run. Qed.

Lemma mark_used_bytes (fuel : nat) :
  forall (a a' : Allocator) (cur fc : option Z),
  mark_used fuel a cur fc = Some a' -> bytes_ok (memory a) -> bytes_ok (memory a').
Proof.
  induction fuel as [|f IH]; intros a a' cur fc H B; cbn [mark_used] in H; [discriminate|].
  inv_run; mem_simpl; eauto 6 with bytes.
Qed.

Lemma restore_bytes (fuel : nat) :
  forall (g g' : GarbageCollector) (bk : list Z) (cur fc : option Z),
  restore fuel g bk cur fc = Some g' ->
  bytes_ok (memory (base g)) -> bytes_ok (memory (base g')).
Proof.
  induction fuel as [|f IH]; intros g g' bk cur fc H B; cbn [restore] in H; [discriminate|].
  inv_run;
    repeat match goal with
    | H : ref_set _ _ _ = Some _ |- _ => apply ref_set_base in H
    end; mem_simpl;
    try (eapply IH; [eassumption|]);
    repeat match goal with
    | H : base _ = _ |- _ => rewrite H
    end; mem_simpl; eauto 6 with bytes.
Qed.

Lemma Compact_bytes (g g' : GarbageCollector) :
  Compact g = Some g' -> bytes_ok (memory (base g)) -> bytes_ok (memory (base g')).
Proof.
  unfold Compact, GetChunkAbsolute. intros H B. inv_run. mem_simpl.
  eapply restore_bytes; [eassumption|]. mem_simpl.
  eapply mark_used_bytes; [eassumption|].
  eapply tail_chunk_bytes; [eassumption|].
  eapply slide_bytes; [eassumption|]. mem_simpl.
  eapply detach_bytes; [eassumption|]. mem_simpl.
  eapply stamp_bytes; eassumption.
Qed.

(** In every reachable state the cells of the pool hold bytes. *)
Lemma reachable_bytes (g : GarbageCollector) :
  reachable g -> bytes_ok (memory (base g)).
Proof.
  induction 1 as [P g HP Hnew
                 |g g' n h _ IH Hn Hrun
                 |g g' h _ IH Hl Hrun
                 |g g' h _ IH Hl Hrun
                 |g g' h b _ IH Hl Hrun
                 |g g' _ IH Hrun
                 |g n p a' _ IH Hn Hrun
                 |g p a' _ IH Hp Hrun
                 |g x v _ IH Hx].
  - unfold GC_new in Hnew. inv_run. mem_simpl. eapply Allocator_new_bytes; eauto.
  - eapply AllocRef_bytes; eauto.
  - eapply FreeRef_bytes; eauto.
  - eapply IncrRef_bytes; eauto.
  - eapply DecrRef_bytes; eauto.
  - eapply Compact_bytes; eauto.
  - mem_simpl. eapply AllocPtr_bytes; eauto.
  - mem_simpl. eapply FreePtr_bytes; eauto.
  - unfold poke. mem_simpl. apply upd_bytes; [exact IH|]. apply Z.mod_pos_bound. lia.
Qed.


(** * Compact when every used chunk has its ref *)

Section Images.

Context {A B : Type}.
Variable R : A -> B -> Prop.

Lemma choose_images (l : list A) (l' : list B) :
  (forall x, In x l -> exists y, In y l' /\ R x y) ->
  exists ys, Forall2 R l ys /\ incl ys l'.
Proof.
  induction l as [|x l IH]; intros H.
  - exists []. split; [constructor|intros y []].
  - destruct (H x (or_introl eq_refl)) as (y & Hy & Hxy).
    destruct IH as (ys & Hf & Hi); [intros z Hz; apply H; now right|].
    exists (y :: ys). split; [constructor; assumption|].
    intros z [<-|Hz]; auto.
Qed.

Lemma Forall2_in_r (l : list A) (ys : list B) (y : B) :
  Forall2 R l ys -> In y ys -> exists x, In x l /\ R x y.
Proof.
  induction 1 as [|x y' l ys Hxy _ IH]; intros Hin; [destruct Hin|].
  destruct Hin as [<-|Hin].
  - exists x. split; [now left|exact Hxy].
  - destruct (IH Hin) as (x' & Hx' & Hr). exists x'. split; [now right|exact Hr].
Qed.

Lemma Forall2_NoDup (l : list A) (ys : list B) :
  Forall2 R l ys -> NoDup l ->
  (forall x1 x2 y, In x1 l -> In x2 l -> R x1 y -> R x2 y -> x1 = x2) ->
  NoDup ys.
Proof.
  induction 1 as [|x y l ys Hxy Hf IH]; intros Hnd Hinj; [constructor|].
  inversion Hnd as [|? ? Hx Hnd']; subst. constructor.
  - intros Hin. destruct (Forall2_in_r l ys y Hf Hin) as (x' & Hx' & Hr).
    assert (x = x') by (apply (Hinj x x' y); simpl; auto). subst x'. contradiction.
  - apply IH; [exact Hnd'|]. intros x1 x2 z H1 H2. apply Hinj; now right.
Qed.

(** An injective relation from [l] into a list of the same length reaches
    every element of it. *)
Lemma images_onto (l : list A) (l' : list B) :
  NoDup l -> NoDup l' -> length l' = length l ->
  (forall x, In x l -> exists y, In y l' /\ R x y) ->
  (forall x1 x2 y, In x1 l -> In x2 l -> R x1 y -> R x2 y -> x1 = x2) ->
  forall y, In y l' -> exists x, In x l /\ R x y.
Proof.
  intros Hnd Hnd' Hlen Hex Hinj y Hy.
  destruct (choose_images l l' Hex) as (ys & Hf & Hi).
  pose proof (Forall2_NoDup l ys Hf Hnd Hinj) as Hndy.
  pose proof (Forall2_length Hf) as Hl.
  assert (Hi' : incl l' ys).
  { apply NoDup_length_incl; [exact Hndy|lia|exact Hi]. }
  apply (Forall2_in_r l ys y Hf). apply Hi'. exact Hy.
Qed.

Lemma Forall2_apart (l : list A) (ys : list B) (y1 y2 : B) :
  Forall2 R l ys -> NoDup l -> In y1 ys -> In y2 ys -> y1 <> y2 ->
  exists x1 x2, In x1 l /\ In x2 l /\ x1 <> x2 /\ R x1 y1 /\ R x2 y2.
Proof.
  induction 1 as [|x y l ys Hxy Hf IH]; intros Hnd H1 H2 Hne; [destruct H1|].
  inversion Hnd as [|? ? Hx Hnd']; subst.
  destruct H1 as [<-|H1], H2 as [<-|H2].
  - contradiction.
  - destruct (Forall2_in_r l ys y2 Hf H2) as (x2 & Hx2 & Hr2).
    exists x, x2. split; [now left|]. split; [now right|].
    split; [intros ->; contradiction|]. split; assumption.
  - destruct (Forall2_in_r l ys y1 Hf H1) as (x1 & Hx1 & Hr1).
    exists x1, x. split; [now right|]. split; [now left|].
    split; [intros ->; contradiction|]. split; assumption.
  - destruct (IH Hnd' H1 H2 Hne) as (x1 & x2 & Hx1 & Hx2 & Hd & Hr1 & Hr2).
    exists x1, x2. split; [now right|]. split; [now right|]. auto.
Qed.

(** ... and distinct elements of it come from distinct elements of [l]. *)
Lemma images_apart (l : list A) (l' : list B) :
  NoDup l -> NoDup l' -> length l' = length l ->
  (forall x, In x l -> exists y, In y l' /\ R x y) ->
  (forall x1 x2 y, In x1 l -> In x2 l -> R x1 y -> R x2 y -> x1 = x2) ->
  forall y1 y2, In y1 l' -> In y2 l' -> y1 <> y2 ->
  exists x1 x2, In x1 l /\ In x2 l /\ x1 <> x2 /\ R x1 y1 /\ R x2 y2.
Proof.
  intros Hnd Hnd' Hlen Hex Hinj y1 y2 H1 H2 Hne.
  destruct (choose_images l l' Hex) as (ys & Hf & Hi).
  pose proof (Forall2_NoDup l ys Hf Hnd Hinj) as Hndy.
  pose proof (Forall2_length Hf) as Hl.
  assert (Hi' : incl l' ys).
  { apply NoDup_length_incl; [exact Hndy|lia|exact Hi]. }
  apply (Forall2_apart l ys y1 y2 Hf Hnd); auto.
Qed.

End Images.

Section RestoreRun.

Variable cl' : list chunk.
Variable bl' : list (list Z).
Variable ms : Mem.
Variable rs0 : list RefHolder.
Variable bk : list Z.
Variable pk tl : list chunk.
Variable U P : Z.
Hypothesis Hcl : cl' = pk ++ tl.
Hypothesis HU : contig 0 pk U.
Hypothesis Hused : forall x, In x pk -> used x = true.

(** The body of the loop of phase 5 returns on a chunk with a stamp inside
    the table. *)
Lemma restore_body_runs (g : GarbageCollector) (c : chunk) (j : nat) :
  load32 (memory (base g)) (off c + 4) = Some (Z.of_nat j) ->
  (j < length bk)%nat -> (j < length (refs g))%nat ->
  exists g1,
    (index <- load32 (memory (base g)) (off c + sizeofSize) ;;
     b <- nth_error bk (Z.to_nat index) ;;
     m1 <- store32 (memory (base g)) (off c + sizeofSize) b ;;
     rh <- ref_get g index ;;
     ref_set (set_base g (set_memory (base g) m1)) index
       (mkRefHolder (refCount rh) (rsize rh) (Some (off c + sizeofSize)))) = Some g1.
Proof.
  intros Hl Hb Hr. unfold sizeofSize. rewrite Hl. cbn [obind]. rewrite Nat2Z.id.
  destruct (nth_error bk j) as [b|] eqn:Eb; [|apply nth_error_None in Eb; lia].
  cbn [obind].
  pose proof (load32_inb _ _ _ Hl) as Hin.
  unfold store32. rewrite (proj2 (inb_true _ _ _) Hin). cbn [obind].
  unfold ref_get. destruct (Z.leb_spec 0 (Z.of_nat j)); [|lia]. rewrite Nat2Z.id.
  destruct (nth_error (refs g) j) as [rh|] eqn:Er; [|apply nth_error_None in Er; lia].
  cbn [obind]. rewrite ref_set_some by (cbn [refs set_base]; lia).
  eexists. reflexivity.
Qed.

(** Phase 5 returns when every chunk still to be visited holds a stamp
    inside the table, and then the first user word of each of these chunks
    is the saved word of its stamp. *)
Lemma restore_run (rest : list chunk) :
  forall (fuel : nat) (g : GarbageCollector) (done : list chunk) (c : chunk),
  pk = done ++ c :: rest ->
  msize (memory (base g)) = P ->
  alloc_inv (base g) cl' bl' ->
  (forall x, In x (c :: rest) ->
     load32 (memory (base g)) (off x + 4) = load32 ms (off x + 4)) ->
  refs_restored ms rs0 (refs g) done (c :: rest) ->
  (forall x, In x (c :: rest) ->
     exists j, stamp_at ms x j /\ (j < length bk)%nat /\ (j < length rs0)%nat) ->
  (length rest < fuel)%nat ->
  exists g7,
    restore fuel g bk (Some (off c)) (if U <? P then Some U else None) = Some g7
    /\ (forall x, In x (c :: rest) ->
          exists j w, stamp_at ms x j /\ nth_error bk j = Some w
            /\ load32 (memory (base g7)) (off x + 4) = Some (u32 w)).
Proof.
  induction rest as [|c' rest' IH]; intros fuel g done c Epk Hz Hinv Hmem Hrefs Hval Hfuel.
  - destruct fuel as [|f]; [simpl in Hfuel; lia|]. cbn [restore].
    pose proof Hinv as ((HP & _ & Hc & Hs & Htags) & _).
    assert (Hs_pk : Forall size_ok pk).
    { rewrite Hcl in Hs. apply Forall_app in Hs. tauto. }
    assert (Hcpk : In c pk) by (rewrite Epk; apply in_or_app; right; now left).
    assert (Hcin : In c cl') by (rewrite Hcl; apply in_or_app; now left).
    pose proof (Hused c Hcpk) as Hcu.
    rewrite (IsSelfUsed_tags _ c (Htags c Hcin)), Hcu. cbn [obind].
    destruct (Hval c (or_introl eq_refl)) as (j & Hst & Hjb & Hjr).
    pose proof Hrefs as (Hlen & _).
    assert (Hl : load32 (memory (base g)) (off c + 4) = Some (Z.of_nat j)).
    { rewrite (Hmem c (or_introl eq_refl)). exact Hst. }
    destruct (restore_body_runs g c j Hl Hjb ltac:(lia)) as (g1 & Hbody).
    match goal with
    | |- exists g7, obind ?b _ = Some g7 /\ _ =>
        replace b with (Some g1) by (symmetry; exact Hbody)
    end.
    cbn [obind].
    destruct (restore_body cl' bl' ms rs0 bk g g1 done [] c Hinv Hcin Hcu
                ltac:(intros x []) Hmem Hrefs Hbody)
      as (Hinv1 & Hmem1 & Hrefs1 & Hz1 & Hst1 & Hc1 & Hsw1 & Hbm1 & Hfr1 & Hword).
    pose proof Hinv1 as ((_ & _ & _ & _ & Htags1) & _).
    rewrite (NextChunk_spec _ _ _ (proj1 (Htags1 c Hcin))). cbn [obind].
    rewrite Epk in HU, Hs_pk.
    destruct (contig_mid done [] c 0 U HU Hs_pk) as (_ & _ & _ & Hnil & _ & _).
    specialize (Hnil eq_refl). rewrite Hz1, Hz, Hnil.
    assert (Heq : optZ_eqb (if U >=? P then None else Some U)
                           (if U <? P then Some U else None) = true).
    { destruct (Z.geb_spec U P); destruct (Z.ltb_spec U P);
        try lia; simpl; [reflexivity|apply Z.eqb_refl]. }
    rewrite Heq. exists g1. split; [reflexivity|].
    intros x [<-|[]]. exact Hword.
  - destruct fuel as [|f]; [simpl in Hfuel; lia|]. cbn [restore].
    pose proof Hinv as ((HP & _ & Hc & Hs & Htags) & _).
    assert (Hs_pk : Forall size_ok pk).
    { rewrite Hcl in Hs. apply Forall_app in Hs. tauto. }
    assert (Hcpk : In c pk) by (rewrite Epk; apply in_or_app; right; now left).
    assert (Hcin : In c cl') by (rewrite Hcl; apply in_or_app; now left).
    pose proof (Hused c Hcpk) as Hcu.
    rewrite (IsSelfUsed_tags _ c (Htags c Hcin)), Hcu. cbn [obind].
    destruct (Hval c (or_introl eq_refl)) as (j & Hst & Hjb & Hjr).
    pose proof Hrefs as (Hlen & _).
    assert (Hl : load32 (memory (base g)) (off c + 4) = Some (Z.of_nat j)).
    { rewrite (Hmem c (or_introl eq_refl)). exact Hst. }
    destruct (restore_body_runs g c j Hl Hjb ltac:(lia)) as (g1 & Hbody).
    match goal with
    | |- exists g7, obind ?b _ = Some g7 /\ _ =>
        replace b with (Some g1) by (symmetry; exact Hbody)
    end.
    cbn [obind].
    pose proof HU as HU'. pose proof Hs_pk as Hs_pk'. rewrite Epk in HU', Hs_pk'.
    destruct (contig_mid done (c' :: rest') c 0 U HU' Hs_pk')
      as (Hc0 & _ & H16 & _ & Hcons & Haft).
    destruct (Hcons c' rest' eq_refl) as [En Hn16].
    assert (Hrest : forall x, In x (c' :: rest') -> In x cl' /\ x <> c).
    { intros x Hx. split.
      - rewrite Hcl, Epk. apply in_or_app. left. apply in_or_app. right. now right.
      - intros ->. destruct (Haft c Hx). lia. }
    destruct (restore_body cl' bl' ms rs0 bk g g1 done (c' :: rest') c Hinv Hcin Hcu
                Hrest Hmem Hrefs Hbody)
      as (Hinv1 & Hmem1 & Hrefs1 & Hz1 & Hst1 & Hc1 & Hsw1 & Hbm1 & Hfr1 & Hword).
    pose proof Hinv1 as ((_ & _ & Hc1' & _ & Htags1) & _).
    rewrite (NextChunk_spec _ _ _ (proj1 (Htags1 c Hcin))). cbn [obind].
    rewrite Hz1, Hz, <- En.
    assert (HUP : U <= P).
    { rewrite Hcl in Hc. apply contig_app in Hc. destruct Hc as (mid & Hc1a & Hc2a).
      pose proof (contig_sum _ _ _ Hc1a). pose proof (contig_sum _ _ _ HU).
      rewrite Hcl in Hs. apply Forall_app in Hs. destruct Hs as [_ Hs2].
      pose proof (contig_le _ _ _ Hc2a Hs2). lia. }
    destruct (Z.geb_spec (off c') P); [lia|].
    assert (Hneq : optZ_eqb (Some (off c')) (if U <? P then Some U else None) = false).
    { destruct (Z.ltb_spec U P); simpl; [|reflexivity]. apply Z.eqb_neq. lia. }
    rewrite Hneq.
    assert (Epk' : pk = (done ++ [c]) ++ c' :: rest') by (rewrite <- app_assoc; exact Epk).
    destruct (IH f g1 (done ++ [c]) c' Epk' ltac:(lia) Hinv1 Hmem1 Hrefs1
                ltac:(intros x Hx; apply Hval; now right) ltac:(simpl in Hfuel; lia))
      as (g7 & Hrun & Hwords).
    exists g7. split; [exact Hrun|].
    intros x [<-|Hx]; [|now apply Hwords].
    destruct Hword as (j' & w & Hj' & Hw & Hload).
    exists j', w. split; [exact Hj'|]. split; [exact Hw|].
    destruct (restore_spec cl' bl' ms rs0 bk pk tl U P Hcl HU Hused rest' f g1 g7
                (done ++ [c]) c' Epk' ltac:(lia) Hinv1 Hmem1 Hrefs1 Hrun)
      as (_ & _ & Hz7 & _ & _ & _ & _ & Hfr7).
    rewrite <- Hload.
    pose proof (load32_inb _ _ _ Hload) as [Hi0 Hi1].
    apply load32_shift; try lia.
    intros k Hk. apply Hfr7; [lia|].
    intros y Hy. destruct (Haft y Hy). lia.
Qed.

End RestoreRun.

Section WordBytes.

Lemma byte_at_range (m : Mem) (a : Z) : bytes_ok m -> 0 <= byte_at m a < 256.
Proof.
  intros H. unfold byte_at. unfold bytes_ok in H. rewrite Forall_forall in H.
  destruct (nth_in_or_default (Z.to_nat a) m 0) as [Hin | ->]; [apply H; exact Hin|lia].
Qed.

Lemma load32_range (m : Mem) (a w : Z) :
  bytes_ok m -> load32 m a = Some w -> 0 <= w < 4294967296.
Proof.
  intros B H. unfold load32 in H. destruct (inb m a 4); [|discriminate].
  match type of H with Some ?v = _ => set (v0 := v) in * end.
  injection H as <-. subst v0.
  pose proof (byte_at_range m a B). pose proof (byte_at_range m (a + 1) B).
  pose proof (byte_at_range m (a + 2) B). pose proof (byte_at_range m (a + 3) B). lia.
Qed.

(** Equal words of bytes are equal byte by byte. *)
Lemma load32_eq_bytes (m m' : Mem) (a a' : Z) :
  bytes_ok m -> bytes_ok m' -> load32 m a <> None -> load32 m' a' = load32 m a ->
  forall k, 0 <= k < 4 -> byte_at m' (a' + k) = byte_at m (a + k).
Proof.
  intros B B' Hn H k Hk. unfold load32 in *.
  destruct (inb m a 4); [|contradiction]. destruct (inb m' a' 4); [|discriminate].
  match type of H with Some ?v' = Some ?v => assert (E : v' = v) by congruence end.
  clear H.
  pose proof (byte_at_range m a B). pose proof (byte_at_range m (a + 1) B).
  pose proof (byte_at_range m (a + 2) B). pose proof (byte_at_range m (a + 3) B).
  pose proof (byte_at_range m' a' B'). pose proof (byte_at_range m' (a' + 1) B').
  pose proof (byte_at_range m' (a' + 2) B'). pose proof (byte_at_range m' (a' + 3) B').
  assert (Hc : k = 0 \/ k = 1 \/ k = 2 \/ k = 3) by lia.
  destruct Hc as [-> | [-> | [-> | ->]]]; rewrite ?Z.add_0_r; lia.
Qed.

End WordBytes.

Section CompactOwned.

Variable g : GarbageCollector.
Variable cl : list chunk.
Variable bl : list (list Z).
Hypothesis Hinv : gc_inv g cl bl.
Hypothesis Hsome : used_chunks cl <> [].
Hypothesis Hbytes : bytes_ok (memory (base g)).
Hypothesis Hown : forall c, In c cl -> used c = true ->
  exists j r, nth_error (refs g) j = Some r /\ pointer r = Some (off c + 4).

(** When every used chunk has its ref, [Compact] returns, and every ref
    with a pointer points at a packed chunk with the size, the first user
    word and the other user bytes of its old chunk. *)
Lemma Compact_owned_spec :
  exists g',
    Compact g = Some g'
    /\ (forall j r p, nth_error (refs g) j = Some r -> pointer r = Some p ->
         exists r' x x',
           nth_error (refs g') j = Some r'
           /\ rsize r' = rsize r /\ refCount r' = refCount r
           /\ In x cl /\ used x = true /\ p = off x + 4
           /\ In x' (compacted (msize (memory (base g))) cl) /\ used x' = true
           /\ csz x' = csz x /\ pointer r' = Some (off x' + 4)
           /\ load32 (memory (base g)) (off x + 4) <> None
           /\ load32 (memory (base g')) (off x' + 4) = load32 (memory (base g)) (off x + 4)
           /\ (forall k, 8 <= k < csz x ->
                 byte_at (memory (base g')) (off x' + k)
                 = byte_at (memory (base g)) (off x + k)))
    /\ (forall y, In y (compacted (msize (memory (base g))) cl) -> used y = true ->
          exists j r', nth_error (refs g') j = Some r' /\ pointer r' = Some (off y + 4))
    /\ (forall j r', nth_error (refs g') j = Some r' -> pointer r' <> None ->
          exists r, nth_error (refs g) j = Some r /\ pointer r <> None
                    /\ rsize r' = rsize r).
Proof.
  destruct (compact_marked g cl bl Hinv Hsome) as
    (bk & g3 & a6 & bl' & m2 & Hc & Hinv6 & Hz6 & S3 & S4 & S5 & S6 & Hr3 & Hc3 & Hsw3
     & Hbm3 & Hlbk & Hzm2 & Hpk6 & Hstamps & Hpay).
  destruct Hinv as [Ha Hrefs].
  pose proof Ha as ((HP & _ & Hcc & Hs & _) & _).
  pose proof Hs as Hs'. rewrite Forall_forall in Hs'.
  pose proof (used_total cl _ Hcc Hs) as (HU & Hgap & _).
  pose proof (used_chunks_size_ok cl Hs) as Hsu.
  set (P := msize (memory (base g))) in *. set (U := sum_sizes (used_chunks cl)) in *.
  set (pk := pack 0 (used_chunks cl)) in *.
  assert (Hcpk : contig 0 pk U) by apply (pack_contig 0).
  assert (Hspk : Forall size_ok pk) by (apply pack_size_ok; exact Hsu).
  assert (Hupk : forall x, In x pk -> used x = true).
  { intros x Hx. eapply pack_used; eauto. }
  assert (Hcl' : compacted P cl
                 = pk ++ (if U <? P then [mkChunk U (P - U) false] else [])).
  { reflexivity. }
  destruct Hrefs as (R1 & R2 & R3 & R4).
  (* the image of a used chunk holds the stamp of its ref *)
  set (R := fun x x' : chunk =>
              In x' pk /\ csz x' = csz x
              /\ forall k, 4 <= k < csz x ->
                   byte_at (memory a6) (off x' + k) = byte_at m2 (off x + k)).
  assert (Hex : forall x, In x (used_chunks cl) -> exists y, In y pk /\ R x y).
  { intros x Hx. destruct Hpk6 as [_ Hp6]. destruct (Hp6 x Hx) as (x' & Hx' & Esz & Hb).
    exists x'. split; [exact Hx'|]. split; [exact Hx'|]. split; [exact Esz|exact Hb]. }
  assert (Hstamp : forall x y j r, In x cl -> R x y ->
            nth_error (refs g) j = Some r -> pointer r = Some (off x + 4) ->
            stamp_at (memory a6) y j).
  { intros x y j r Hx (Hy & Esz & Hb) Hj Hp. unfold stamp_at.
    destruct (Hstamps j r _ Hj Hp) as [Hl _]. rewrite <- Hl.
    destruct (contig_bounds _ _ _ _ Hcc Hs Hx). destruct (Hs' x Hx).
    destruct (contig_bounds _ _ _ _ Hcpk Hspk Hy).
    apply load32_shift; try lia.
    intros k Hk. rewrite <- !Z.add_assoc. apply Hb. lia. }
  assert (Hinj : forall x1 x2 y, In x1 (used_chunks cl) -> In x2 (used_chunks cl) ->
            R x1 y -> R x2 y -> x1 = x2).
  { intros x1 x2 y H1 H2 Hr1 Hr2.
    apply in_used_chunks in H1. destruct H1 as [H1 U1].
    apply in_used_chunks in H2. destruct H2 as [H2 U2].
    destruct (Hown x1 H1 U1) as (j1 & r1 & Hj1 & Hp1).
    destruct (Hown x2 H2 U2) as (j2 & r2 & Hj2 & Hp2).
    pose proof (Hstamp x1 y j1 r1 H1 Hr1 Hj1 Hp1) as St1.
    pose proof (Hstamp x2 y j2 r2 H2 Hr2 Hj2 Hp2) as St2.
    unfold stamp_at in St1, St2. rewrite St1 in St2. injection St2 as E.
    apply Nat2Z.inj in E. subst j2. rewrite Hj1 in Hj2. injection Hj2 as <-.
    rewrite Hp1 in Hp2. injection Hp2 as E.
    apply (contig_off_inj cl 0 P); auto. lia. }
  assert (Honto : forall y, In y pk -> exists x, In x (used_chunks cl) /\ R x y).
  { apply images_onto; auto.
    - apply NoDup_filter. apply (contig_NoDup cl 0 P); auto.
    - apply (contig_NoDup pk 0 U); auto.
    - apply length_pack. }
  assert (Hone : forall y1 y2 j, In y1 pk -> In y2 pk ->
            stamp_at (memory a6) y1 j -> stamp_at (memory a6) y2 j -> y1 = y2).
  { intros y1 y2 j H1 H2 St1 St2.
    destruct (chunk_eq_dec y1 y2) as [E|Hne]; [exact E|exfalso].
    destruct (images_apart R (used_chunks cl) pk) with (y1 := y1) (y2 := y2)
      as (x1 & x2 & Hx1 & Hx2 & Hd & Hr1 & Hr2); auto.
    - apply NoDup_filter. apply (contig_NoDup cl 0 P); auto.
    - apply (contig_NoDup pk 0 U); auto.
    - apply length_pack.
    - apply in_used_chunks in Hx1. destruct Hx1 as [Hx1 U1].
      apply in_used_chunks in Hx2. destruct Hx2 as [Hx2 U2].
      destruct (Hown x1 Hx1 U1) as (j1 & r1 & Hj1 & Hp1).
      destruct (Hown x2 Hx2 U2) as (j2 & r2 & Hj2 & Hp2).
      pose proof (Hstamp x1 y1 j1 r1 Hx1 Hr1 Hj1 Hp1) as S1'.
      pose proof (Hstamp x2 y2 j2 r2 Hx2 Hr2 Hj2 Hp2) as S2'.
      unfold stamp_at in *. rewrite St1 in S1'. rewrite St2 in S2'.
      injection S1' as E1. injection S2' as E2.
      apply Nat2Z.inj in E1. apply Nat2Z.inj in E2. subst j1 j2.
      rewrite Hj1 in Hj2. injection Hj2 as <-. rewrite Hp1 in Hp2. injection Hp2 as E.
      apply Hd. apply (contig_off_inj cl 0 P); auto. lia. }
  assert (Hval : forall y, In y pk ->
            exists j, stamp_at (memory a6) y j /\ (j < length bk)%nat
                      /\ (j < length (refs g))%nat).
  { intros y Hy. destruct (Honto y Hy) as (x & Hx & Hr).
    apply in_used_chunks in Hx. destruct Hx as [Hx Hxu].
    destruct (Hown x Hx Hxu) as (j & r & Hj & Hp).
    exists j. split; [exact (Hstamp x y j r Hx Hr Hj Hp)|].
    assert ((j < length (refs g))%nat) by (apply nth_error_Some; congruence). lia. }
  destruct pk as [|c1 rest1] eqn:Epk.
  { exfalso. subst pk. destruct (used_chunks cl); [contradiction|discriminate]. }
  assert (Eo1 : off c1 = 0) by (simpl in Hcpk; tauto).
  assert (Hinit : refs_restored (memory a6) (refs g) (refs (set_base g3 a6)) []
                    (c1 :: rest1)).
  { simpl refs. rewrite Hr3. split; [reflexivity|]. split.
    - intros j r Hj. exists r. auto.
    - intros j r p Hj Hp. right.
      destruct (R1 j r p Hj Hp) as (c & Hcin & Hcu & Ep).
      destruct (Hex c) as (x' & Hx' & Hr); [apply in_used_chunks; auto|].
      exists x'. split; [exact Hx'|]. subst p. exact (Hstamp c x' j r Hcin Hr Hj Hp). }
  assert (Hfuel : (length rest1 < S (length (memory (base g))))%nat).
  { pose proof (sum_sizes_count _ Hspk) as Hn.
    pose proof (contig_sum _ _ _ Hcpk) as Hsum. simpl length in Hn.
    unfold P, msize in HU. lia. }
  destruct (restore_run (compacted P cl) bl' (memory a6) (refs g) bk (c1 :: rest1) _ U P
              Hcl' Hcpk Hupk rest1 _ (set_base g3 a6) [] c1 eq_refl Hz6 Hinv6
              (fun x _ => eq_refl) Hinit Hval Hfuel)
    as (g7 & Hres & Hwords).
  destruct (restore_spec (compacted P cl) bl' (memory a6) (refs g) bk (c1 :: rest1) _ U P
              Hcl' Hcpk Hupk rest1 _ (set_base g3 a6) g7 [] c1 eq_refl Hz6 Hinv6
              (fun x _ => eq_refl) Hinit Hres)
    as (Hinv7 & Hrefs7 & Hz7 & Hst7 & Hc7 & Hsw7 & Hbm7 & Hfr7).
  rewrite Eo1 in Hres. rewrite Hc, Hres. cbn [obind].
  eexists. split; [reflexivity|]. cbn [base refs].
  destruct Hrefs7 as (Hlen7 & Hsame7 & Hptr7).
  split; [|split].
  2: { intros y Hy Hyu. rewrite Hcl' in Hy. apply in_app_or in Hy.
       destruct Hy as [Hy|Hy];
         [|destruct (U <? P); [destruct Hy as [<-|[]]; discriminate|destruct Hy]].
       destruct (Honto y Hy) as (x & Hx & Hrx).
       apply in_used_chunks in Hx. destruct Hx as [Hx Hxu].
       destruct (Hown x Hx Hxu) as (j & r & Hj & Hp).
       pose proof (Hstamp x y j r Hx Hrx Hj Hp) as Hsy.
       assert (Hjl : (j < length (refs g))%nat) by (apply nth_error_Some; congruence).
       destruct (nth_error (refs g7) j) as [r'|] eqn:Hj';
         [|apply nth_error_None in Hj'; lia].
       destruct (Hsame7 j r' Hj') as (r0 & Hr0 & _ & _ & Hnn).
       rewrite Hj in Hr0. injection Hr0 as <-.
       destruct (pointer r') as [p'|] eqn:Hp'; [|exfalso; apply Hnn; congruence].
       destruct (Hptr7 j r' p' Hj' Hp') as [(y2 & Hy2 & Ep' & Hsy2)|(y2 & [] & _)].
       assert (y2 = y) by (apply (Hone y2 y j); auto). subst y2.
       exists j, r'. split; [exact Hj'|]. rewrite Hp', Ep'. reflexivity. }
  2: { intros j r' Hj' Hnn'.
       destruct (Hsame7 j r' Hj') as (r0 & Hr0 & Ers & _ & _).
       exists r0. split; [exact Hr0|]. split; [|exact Ers].
       destruct (pointer r') as [p'|] eqn:Hp'; [|contradiction].
       destruct (Hptr7 j r' p' Hj' Hp') as [(y2 & Hy2 & Ep' & Hsy2)|(y2 & [] & _)].
       destruct (Honto y2 Hy2) as (x0 & Hx0 & Hrx0).
       apply in_used_chunks in Hx0. destruct Hx0 as [Hx0 Hx0u].
       destruct (Hown x0 Hx0 Hx0u) as (j0 & r1 & Hj0 & Hp0).
       pose proof (Hstamp x0 y2 j0 r1 Hx0 Hrx0 Hj0 Hp0) as Hsy0.
       unfold stamp_at in Hsy2, Hsy0. rewrite Hsy2 in Hsy0. injection Hsy0 as E.
       apply Nat2Z.inj in E. subst j0. rewrite Hr0 in Hj0. injection Hj0 as <-.
       congruence. }
  intros j r p Hj Hp.
  assert (Hjl : (j < length (refs g))%nat) by (apply nth_error_Some; congruence).
  destruct (nth_error (refs g7) j) as [r'|] eqn:Hj'; [|apply nth_error_None in Hj'; lia].
  destruct (Hsame7 j r' Hj') as (r0 & Hr0 & Ers & Erc & Hnn).
  rewrite Hj in Hr0. injection Hr0 as <-.
  destruct (pointer r') as [p'|] eqn:Hp'; [|exfalso; apply Hnn; congruence].
  destruct (Hptr7 j r' p' Hj' Hp') as [(y & Hy & Ep' & Hsy)|(y & [] & _)].
  destruct (R1 j r p Hj Hp) as (x & Hx & Hxu & Ep).
  destruct (Honto y Hy) as (x0 & Hx0 & Hr0).
  apply in_used_chunks in Hx0. destruct Hx0 as [Hx0 Hx0u].
  destruct (Hown x0 Hx0 Hx0u) as (j0 & r0 & Hj0 & Hp0).
  pose proof (Hstamp x0 y j0 r0 Hx0 Hr0 Hj0 Hp0) as Hsy0.
  unfold stamp_at in Hsy, Hsy0. rewrite Hsy in Hsy0. injection Hsy0 as E.
  apply Nat2Z.inj in E. subst j0. rewrite Hj in Hj0. injection Hj0 as <-.
  rewrite Hp in Hp0. injection Hp0 as E.
  assert (x0 = x) by (apply (contig_off_inj cl 0 P); auto; lia). subst x0. clear E.
  destruct Hr0 as (_ & Esz & Hb).
  destruct (Hstamps j r p Hj Hp) as (Hl2 & w0 & Hw0 & Hbk0).
  exists r', x, y.
  split; [reflexivity|]. split; [exact Ers|]. split; [exact Erc|].
  split; [exact Hx|]. split; [exact Hxu|]. split; [exact Ep|].
  split; [rewrite Hcl'; apply in_or_app; now left|].
  split; [apply Hupk; exact Hy|]. split; [exact Esz|].
  split; [rewrite Hp', Ep'; reflexivity|].
  rewrite <- Ep, Hw0. split; [discriminate|]. split.
  - destruct (Hwords y Hy) as (j' & w & Hj'' & Hw & Hload).
    unfold stamp_at in Hj''. rewrite Hsy in Hj''. injection Hj'' as E.
    apply Nat2Z.inj in E. subst j'. rewrite Hbk0 in Hw. injection Hw as <-.
    rewrite Hload. f_equal. apply u32_small. exact (load32_range _ _ _ Hbytes Hw0).
  - intros k Hk. rewrite <- (Hpay x Hx Hxu k Hk). rewrite <- (Hb k ltac:(lia)).
    destruct (contig_bounds _ _ _ _ Hcpk Hspk Hy) as [Hy0 Hy1].
    apply Hfr7; [lia|]. intros z Hz.
    destruct (contig_disjoint _ _ _ _ _ Hcpk Hspk Hy Hz) as [E|H3]; [subst z; lia|].
    rewrite Forall_forall in Hspk. destruct (Hspk z Hz). lia.
Qed.

End CompactOwned.

Lemma Compact_owned_run (g : GarbageCollector) :
  reachable g -> owned g -> usedBlocks (base g) <> 0 ->
  exists g' cl cl',
    Compact g = Some g'
    /\ pool_chunks (base g) = Some cl /\ pool_chunks (base g') = Some cl'
    /\ forall h r p, ref_get g h = Some r -> pointer r = Some p ->
         exists r' c c',
           ref_get g' h = Some r' /\ rsize r' = rsize r /\ refCount r' = refCount r
           /\ In c cl /\ used c = true /\ p = off c + sizeofSize
           /\ In c' cl' /\ used c' = true /\ csz c' = csz c
           /\ pointer r' = Some (off c' + sizeofSize)
           /\ forall k, 0 <= k < csz c - sizeofSize ->
                byte_at (memory (base g')) (off c' + sizeofSize + k)
                = byte_at (memory (base g)) (p + k).
Proof.
  intros Hr Ho Hu. destruct (reachable_chunks g Hr) as (cl & bl & Hpc & Hinv).
  pose proof (reachable_bytes g Hr) as Hb.
  assert (Hsome : used_chunks cl <> []).
  { destruct Hinv as [(_ & _ & _ & _ & (_ & S2 & _)) _].
    intros E. rewrite E in S2. simpl in S2. contradiction. }
  assert (Hown : forall c, In c cl -> used c = true ->
            exists j r, nth_error (refs g) j = Some r /\ pointer r = Some (off c + 4)).
  { intros c Hc Hcu. destruct (Ho cl c Hpc Hc Hcu) as (h & r & Hg & Hp).
    apply ref_get_nth in Hg. exists (Z.to_nat h), r. split; [tauto|exact Hp]. }
  destruct (Compact_owned_spec g cl bl Hinv Hsome Hb Hown) as (g' & Hrun & Hrefs & _).
  destruct (Compact_spec g g' cl bl Hinv Hrun) as (_ & bl' & Hinv' & _).
  pose proof (reachable_bytes g' (reach_Compact g g' Hr Hrun)) as Hb'.
  exists g', cl, (compacted (msize (memory (base g))) cl).
  split; [exact Hrun|]. split; [exact Hpc|].
  split; [apply pool_chunks_spec; apply Hinv'|].
  intros h r p Hg Hp. destruct (ref_get_nth _ _ _ Hg) as [Hh Hn].
  destruct (Hrefs _ r p Hn Hp)
    as (r' & x & x' & Hn' & Ers & Erc & Hx & Hxu & Ep & Hx' & Hxu' & Esz & Hp' & Hnn
        & Hw & Hbytes).
  exists r', x, x'. unfold sizeofSize.
  split; [unfold ref_get; destruct (Z.leb_spec 0 h); [exact Hn'|lia]|].
  split; [exact Ers|]. split; [exact Erc|]. split; [exact Hx|]. split; [exact Hxu|].
  split; [exact Ep|]. split; [exact Hx'|]. split; [exact Hxu'|]. split; [exact Esz|].
  split; [exact Hp'|].
  intros k Hk. subst p. destruct (Z.lt_ge_cases k 4) as [Hk4|Hk4].
  - apply (load32_eq_bytes _ _ _ _ Hb Hb' Hnn Hw). lia.
  - rewrite <- !Z.add_assoc. apply Hbytes. lia.
Qed.

(** When every used chunk is the chunk of a ref and at least one chunk is
    used, [Compact] returns, and every ref with a pointer keeps its size and
    its count and points at the user area of a used chunk of the compacted
    pool that has the size of the ref's old chunk and holds, byte for byte,
    the user area the ref pointed at before the call.  Every used chunk is
    the chunk of a ref again. *)
Theorem Compact_keeps_owned_payload (g : GarbageCollector) :
  reachable g -> owned g -> usedBlocks (base g) <> 0 ->
  exists g' cl cl',
    Compact g = Some g'
    /\ pool_chunks (base g) = Some cl /\ pool_chunks (base g') = Some cl'
    /\ (forall h r p, ref_get g h = Some r -> pointer r = Some p ->
         exists r' c c',
           ref_get g' h = Some r' /\ rsize r' = rsize r /\ refCount r' = refCount r
           /\ In c cl /\ used c = true /\ p = off c + sizeofSize
           /\ In c' cl' /\ used c' = true /\ csz c' = csz c
           /\ pointer r' = Some (off c' + sizeofSize)
           /\ forall k, 0 <= k < csz c - sizeofSize ->
                byte_at (memory (base g')) (off c' + sizeofSize + k)
                = byte_at (memory (base g)) (p + k))
    /\ owned g'.
Proof.
  intros Hr Ho Hu.
  destruct (Compact_owned_run g Hr Ho Hu) as (g' & cl & cl' & Hrun & Hpc & Hpc' & Hrefs).
  exists g', cl, cl'. split; [exact Hrun|]. split; [exact Hpc|]. split; [exact Hpc'|].
  split; [exact Hrefs|].
  destruct (reachable_chunks g Hr) as (cl0 & bl & Hpc0 & Hinv).
  rewrite Hpc in Hpc0. injection Hpc0 as <-.
  assert (Hown : forall c, In c cl -> used c = true ->
            exists j r, nth_error (refs g) j = Some r /\ pointer r = Some (off c + 4)).
  { intros c Hc Hcu. destruct (Ho cl c Hpc Hc Hcu) as (h & r & Hg & Hp).
    apply ref_get_nth in Hg. exists (Z.to_nat h), r. split; [tauto|exact Hp]. }
  destruct (Compact_spec g g' cl bl Hinv Hrun) as (Hsome & bl' & Hinv' & _).
  destruct (Compact_owned_spec g cl bl Hinv Hsome (reachable_bytes g Hr) Hown)
    as (g'' & Hrun' & _ & Hown' & _).
  rewrite Hrun in Hrun'. injection Hrun' as <-.
  rewrite (pool_chunks_spec _ _ (proj1 (proj1 Hinv'))) in Hpc'. injection Hpc' as <-.
  intros cl1 c Hpc1 Hc Hcu.
  rewrite (pool_chunks_spec _ _ (proj1 (proj1 Hinv'))) in Hpc1. injection Hpc1 as <-.
  destruct (Hown' c Hc Hcu) as (j & r' & Hj & Hp).
  exists (Z.of_nat j), r'. split; [|exact Hp].
  unfold ref_get. destruct (Z.leb_spec 0 (Z.of_nat j)); [|lia].
  rewrite Nat2Z.id. exact Hj.
Qed.

Lemma Compact_keeps_owned_payload_witness :
  reachable ex_one /\ owned ex_one /\ usedBlocks (base ex_one) <> 0
  /\ exists g' cl cl',
    Compact ex_one = Some g'
    /\ pool_chunks (base ex_one) = Some cl /\ pool_chunks (base g') = Some cl'
    /\ (forall h r p, ref_get ex_one h = Some r -> pointer r = Some p ->
         exists r' c c',
           ref_get g' h = Some r' /\ rsize r' = rsize r /\ refCount r' = refCount r
           /\ In c cl /\ used c = true /\ p = off c + sizeofSize
           /\ In c' cl' /\ used c' = true /\ csz c' = csz c
           /\ pointer r' = Some (off c' + sizeofSize)
           /\ forall k, 0 <= k < csz c - sizeofSize ->
                byte_at (memory (base g')) (off c' + sizeofSize + k)
                = byte_at (memory (base ex_one)) (p + k))
    /\ owned g'.
Proof.
  assert (Hr : reachable ex_one) by reach_ex_one.
  assert (Ho : owned ex_one).
  { intros cl c Hp Hc Hu.
    assert (E : cl = [mkChunk 0 48 false; mkChunk 48 16 true])
      by (vm_compute in Hp; congruence).
    subst cl. destruct Hc as [<-|[<-|[]]]; [discriminate|].
    exists 0, (mkRefHolder 1 8 (Some 52)). split; vm_compute; reflexivity. }
  assert (Hu : usedBlocks (base ex_one) <> 0) by (vm_compute; discriminate).
  split; [exact Hr|]. split; [exact Ho|]. split; [exact Hu|].
  exact (Compact_keeps_owned_payload ex_one Hr Ho Hu).
Defined.

Section BlocksAfterCompact.

Variable g g' : GarbageCollector.
Hypothesis Hr : reachable g.
Hypothesis Ho : owned g.
Hypothesis Hrun : Compact g = Some g'.

Lemma load8_in (m : Mem) (a : Z) :
  0 <= a < msize m -> load8 m a = Some (byte_at m a).
Proof.
  intros H. unfold load8. rewrite (proj2 (inb_true m a 1)) by lia. reflexivity.
Qed.

Lemma CheckBlock_after_Compact (h n : Z) :
  block_fits g h -> CheckBlock g' h n = CheckBlock g h n.
Proof.
  intros (cl0 & c0 & r & Hpc0 & Hc0 & Hg & Hp & Hfit).
  destruct (reachable_chunks g Hr) as (cl1 & bl & Hpc1 & Hinv).
  assert (Hu : usedBlocks (base g) <> 0).
  { destruct (Compact_spec g g' cl1 bl Hinv Hrun) as (Hsome & _).
    destruct Hinv as [(_ & _ & _ & _ & (_ & S2 & _)) _]. rewrite S2.
    destruct (used_chunks cl1); [contradiction|simpl length; lia]. }
  destruct (Compact_owned_run g Hr Ho Hu) as (g'' & cl & cl' & Hrun' & Hpc & Hpc' & Hrefs).
  rewrite Hrun in Hrun'. injection Hrun' as <-.
  rewrite Hpc in Hpc0, Hpc1. injection Hpc0 as <-. injection Hpc1 as <-.
  destruct (Hrefs h r _ Hg Hp)
    as (r' & c & c' & Hg' & Ers & Erc & Hc & Hcu & Ep & Hc' & Hcu' & Esz & Hp' & Hb).
  pose proof Hinv as [((HP & _ & Hct & Hs & _) & _) _].
  assert (c = c0).
  { apply (contig_off_inj cl 0 (msize (memory (base g)))); auto.
    unfold sizeofSize in *. lia. }
  subst c0.
  destruct (reachable_chunks g' (reach_Compact g g' Hr Hrun)) as (cl2 & bl2 & Hpc2 & Hinv2).
  rewrite Hpc' in Hpc2. injection Hpc2 as <-.
  pose proof Hinv2 as [((HP' & _ & Hct' & Hs' & _) & _) _].
  destruct (contig_bounds _ _ _ _ Hct Hs Hc) as [B0 B1].
  destruct (contig_bounds _ _ _ _ Hct' Hs' Hc') as [B0' B1'].
  rewrite Forall_forall in Hs. destruct (Hs c Hc) as [H16 _].
  unfold CheckBlock, PointerFromRef, SizeFromRef.
  rewrite Hg, Hg'. cbn [obind lift rbind]. rewrite Hp, Hp', Ers.
  unfold sizeofSize in *.
  rewrite (u32_small (rsize r - 1)) by lia.
  rewrite !load8_in by lia. cbn [lift rbind].
  pose proof (Hb 0 ltac:(lia)) as E0. rewrite !Z.add_0_r in E0.
  pose proof (Hb (rsize r - 1) ltac:(lia)) as E1.
  rewrite E0, E1. reflexivity.
Qed.

(** The check of the test program after a collection: when every used
    chunk is the chunk of a ref and the blocks of the listed handles lie in
    their chunks, [TestAllBlocks] gives after [Compact] what it gave
    before; in particular the tokens of the first and of the last byte of
    every block have moved with the block. *)
Theorem TestAllBlocks_after_Compact (pointers : list (Z * Z)) :
  (forall h n, In (h, n) pointers -> block_fits g h) ->
  TestAllBlocks pointers g' = TestAllBlocks pointers g.
Proof.
  induction pointers as [|[h n] rest IH]; intros Hfit; [reflexivity|].
  cbn [TestAllBlocks].
  rewrite (CheckBlock_after_Compact h n) by (apply (Hfit h n); now left).
  rewrite IH by (intros h' n' Hin; apply (Hfit h' n'); now right).
  reflexivity.
Qed.

End BlocksAfterCompact.

Lemma TestAllBlocks_after_Compact_witness :
  reachable ex_one /\ owned ex_one /\ Compact ex_one = Some ex_packed
  /\ (forall h n, In (h, n) [(0, 8)] -> block_fits ex_one h)
  /\ TestAllBlocks [(0, 8)] ex_packed = TestAllBlocks [(0, 8)] ex_one.
Proof.
  assert (Hr : reachable ex_one) by reach_ex_one.
  assert (Ho : owned ex_one).
  { intros cl c Hp Hc Hu.
    assert (E : cl = [mkChunk 0 48 false; mkChunk 48 16 true])
      by (vm_compute in Hp; congruence).
    subst cl. destruct Hc as [<-|[<-|[]]]; [discriminate|].
    exists 0, (mkRefHolder 1 8 (Some 52)). split; vm_compute; reflexivity. }
  assert (Hc : Compact ex_one = Some ex_packed) by (vm_compute; reflexivity).
  assert (Hf : forall h n, In (h, n) [(0, 8)] -> block_fits ex_one h).
  { intros h n [E|[]]. injection E as <- <-.
    exists [mkChunk 0 48 false; mkChunk 48 16 true], (mkChunk 48 16 true),
      (mkRefHolder 1 8 (Some 52)).
    split; [vm_compute; reflexivity|]. split; [simpl; auto|].
    split; [vm_compute; reflexivity|]. split; [reflexivity|]. simpl. unfold sizeofSize. lia. }
  split; [exact Hr|]. split; [exact Ho|]. split; [exact Hc|]. split; [exact Hf|].
  exact (TestAllBlocks_after_Compact ex_one ex_packed Hr Ho Hc [(0, 8)] Hf).
Defined.


(** * The handle interface keeps every used chunk owned *)

Section Tidy.

Lemma tidy_on_tidy (g : GarbageCollector) (cl : list chunk) (bl : list (list Z)) :
  gc_inv g cl bl -> tidy_on g cl -> tidy g.
Proof.
  intros [Hinv _] [T1 T2]. split.
  - intros cl0 c Hpc Hc Hu.
    rewrite (pool_chunks_spec _ _ (proj1 Hinv)) in Hpc. injection Hpc as <-.
    destruct (T1 c Hc Hu) as (j & r & Hj & Hp).
    exists (Z.of_nat j), r. split; [|exact Hp].
    unfold ref_get. destruct (Z.leb_spec 0 (Z.of_nat j)); [|lia].
    rewrite Nat2Z.id. exact Hj.
  - intros h r Hg. apply ref_get_nth in Hg. destruct Hg as [_ Hn]. eapply T2; eauto.
Qed.

Lemma handle_run_reachable (g : GarbageCollector) : handle_run g -> reachable g.
Proof.
  induction 1.
  - eapply reach_new; eauto.
  - eapply reach_AllocRef; eauto. unfold is_u32. lia.
  - eapply reach_FreeRef; eauto.
  - eapply reach_IncrRef; eauto.
  - eapply reach_DecrRef; eauto.
  - eapply reach_Compact; eauto.
  - eapply reach_poke; eauto.
Qed.

Lemma layout_unique_inv (a : Allocator) (cl cl' : list chunk) (bl bl' : list (list Z)) :
  alloc_inv a cl bl -> alloc_inv a cl' bl' -> cl' = cl.
Proof.
  intros [H _] [H' _]. apply pool_chunks_spec in H. apply pool_chunks_spec in H'.
  congruence.
Qed.

Lemma GC_new_tidy (P : Z) (g : GarbageCollector) :
  20 <= P < 2147483648 -> GC_new P = Some g ->
  exists cl bl, gc_inv g cl bl /\ tidy_on g cl.
Proof.
  intros HP Hnew. destruct (GC_new_spec P g HP Hnew) as (_ & bl & Hinv & _ & _ & Hrefs).
  exists [mkChunk 0 P false], bl. split; [exact Hinv|]. split.
  - intros c [<-|[]] Hu. discriminate.
  - intros j r Hj Hp. rewrite Hrefs in Hj. apply nth_error_In in Hj.
    apply repeat_spec in Hj. subst r. contradiction.
Qed.

Lemma set_slot_tidy (g : GarbageCollector) (cl : list chunk) (h : nat) (r r' : RefHolder) :
  tidy_on g cl -> nth_error (refs g) h = Some r ->
  pointer r' = pointer r -> rsize r' = rsize r ->
  tidy_on (set_refs g (list_set (refs g) h r')) cl.
Proof.
  intros [T1 T2] Hh Ep Es.
  assert (Hi : (h < length (refs g))%nat) by (apply nth_error_Some; congruence).
  split; cbn [refs set_refs].
  - intros c Hc Hu. destruct (T1 c Hc Hu) as (j & rj & Hj & Hp).
    destruct (Nat.eq_dec j h) as [->|Hne].
    + exists h, r'. rewrite nth_error_list_set by exact Hi. rewrite Nat.eqb_refl.
      split; [reflexivity|]. rewrite Ep. congruence.
    + exists j, rj. rewrite nth_error_list_set by exact Hi.
      destruct (Nat.eqb_spec j h); [contradiction|]. auto.
  - intros j rj Hj Hp. rewrite nth_error_list_set in Hj by exact Hi.
    destruct (Nat.eqb_spec j h) as [->|Hne].
    + injection Hj as <-. rewrite Es. apply (T2 h r Hh). congruence.
    + eapply T2; eauto.
Qed.

Lemma IncrRef_tidy (g g' : GarbageCollector) (cl : list chunk) (bl : list (list Z)) (h : Z) :
  gc_inv g cl bl -> tidy_on g cl -> live g h -> IncrRef g h = Some g' ->
  exists cl' bl', gc_inv g' cl' bl' /\ tidy_on g' cl'.
Proof.
  intros Hinv T Hl Hrun.
  destruct (IncrRef_spec g cl bl h Hinv Hl) as (g'' & Hrun' & Hinv').
  rewrite Hrun' in Hrun. injection Hrun as <-.
  exists cl, bl. split; [exact Hinv'|].
  destruct Hl as (r & p & Hget & Hp). destruct (ref_get_nth _ _ _ Hget) as [Hh Hn].
  unfold IncrRef in Hrun'. rewrite Hget in Hrun'. cbn [obind] in Hrun'.
  rewrite ref_set_some in Hrun' by exact Hh. injection Hrun' as <-.
  apply (set_slot_tidy g cl (Z.to_nat h) r); auto.
Qed.

Lemma FreeRef_tidy (g g' : GarbageCollector) (cl : list chunk) (bl : list (list Z)) (h : Z) :
  gc_inv g cl bl -> tidy_on g cl -> live g h -> FreeRef g h = Some g' ->
  exists cl' bl', gc_inv g' cl' bl' /\ tidy_on g' cl'.
Proof.
  intros Hinv [T1 T2] Hl Hrun.
  destruct (FreeRef_spec g cl bl h Hinv Hl) as (g'' & cl' & bl' & Hrun' & Hinv').
  rewrite Hrun' in Hrun. injection Hrun as <-.
  exists cl', bl'. split; [exact Hinv'|].
  destruct Hl as (r & p & Hget & Hp). destruct (ref_get_nth _ _ _ Hget) as [Hh Hn].
  destruct (FreeRef_layout g cl bl h r p Hinv Hget Hp)
    as (a' & cl1 & bl1 & c & Hrun1 & Hc & Hcu & Ep & _ & Hinv1 & Hused & _).
  rewrite Hrun1 in Hrun'. injection Hrun' as <-.
  assert (cl' = cl1).
  { destruct Hinv' as [Ha' _]. cbn [base set_refs set_base] in Ha'.
    exact (layout_unique_inv a' cl1 cl' bl1 bl' Hinv1 Ha'). }
  subst cl1.
  assert (Hi : (Z.to_nat h < length (refs g))%nat) by lia.
  pose proof Hinv as [((_ & _ & Hct & Hs & _) & _) _].
  split; cbn [refs set_refs set_base].
  - intros x Hx Hxu.
    assert (Hxin : In x (used_chunks cl) /\ x <> c).
    { apply Hused. apply in_used_chunks. auto. }
    destruct Hxin as [Hxin Hne]. apply in_used_chunks in Hxin. destruct Hxin as [Hxin _].
    destruct (T1 x Hxin Hxu) as (j & rj & Hj & Hpj).
    exists j, rj. split; [|exact Hpj].
    rewrite nth_error_list_set by exact Hi.
    destruct (Nat.eqb_spec j (Z.to_nat h)) as [E|_]; [|exact Hj].
    exfalso. subst j. rewrite Hn in Hj. injection Hj as <-.
    apply Hne. apply (contig_off_inj cl 0 (msize (memory (base g)))); auto.
    rewrite Hp in Hpj. injection Hpj as E. lia.
  - intros j rj Hj Hpj. rewrite nth_error_list_set in Hj by exact Hi.
    destruct (Nat.eqb_spec j (Z.to_nat h)) as [E|_].
    + injection Hj as <-. simpl in Hpj. contradiction.
    + eapply T2; eauto.
Qed.

Lemma DecrRef_tidy (g g' : GarbageCollector) (cl : list chunk) (bl : list (list Z))
  (h : Z) (b : bool) :
  gc_inv g cl bl -> tidy_on g cl -> live g h -> DecrRef g h = Some (b, g') ->
  exists cl' bl', gc_inv g' cl' bl' /\ tidy_on g' cl'.
Proof.
  intros Hinv T Hl Hrun. pose proof Hl as (r & p & Hget & Hp).
  destruct (ref_get_nth _ _ _ Hget) as [Hh Hn].
  unfold DecrRef in Hrun. rewrite Hget in Hrun. cbn [obind] in Hrun.
  destruct (refCount r >? 1) eqn:Hc.
  - rewrite ref_set_some in Hrun by exact Hh. cbn [obind] in Hrun. injection Hrun as _ <-.
    exists cl, bl. split.
    + destruct (DecrRef_spec g cl bl h Hinv Hl) as (b' & g'' & cl' & bl' & Hrun' & Hinv').
      unfold DecrRef in Hrun'. rewrite Hget in Hrun'. cbn [obind] in Hrun'.
      rewrite Hc in Hrun'. rewrite ref_set_some in Hrun' by exact Hh.
      cbn [obind] in Hrun'. injection Hrun' as _ <-.
      destruct Hinv as [Ha Hr]. destruct Hinv' as [Ha' Hr'].
      cbn [base set_refs] in Ha'.
      pose proof (layout_unique_inv _ _ _ _ _ Ha Ha'). subst cl'.
      split; [exact Ha|exact Hr'].
    + apply (set_slot_tidy g cl (Z.to_nat h) r); auto.
  - apply obind_some in Hrun. destruct Hrun as (g1 & Hfree & Hrun). injection Hrun as _ <-.
    eapply FreeRef_tidy; eauto.
Qed.

Lemma poke_tidy (g : GarbageCollector) (cl : list chunk) (bl : list (list Z)) (x v : Z) :
  gc_inv g cl bl -> tidy_on g cl -> user_byte (base g) x ->
  exists cl' bl', gc_inv (poke g x v) cl' bl' /\ tidy_on (poke g x v) cl'.
Proof.
  intros Hinv T Hx. exists cl, bl. split; [apply poke_inv; auto|exact T].
Qed.

Lemma AllocRef_tidy (g g' : GarbageCollector) (cl : list chunk) (bl : list (list Z))
  (n h : Z) :
  gc_inv g cl bl -> tidy_on g cl -> 1 <= n -> AllocRef g n = Some (h, g') ->
  exists cl' bl', gc_inv g' cl' bl' /\ tidy_on g' cl'.
Proof.
  intros Hinv [T1 T2] Hn Hrun.
  destruct (AllocRef_spec g cl bl n Hinv)
    as [(c & a' & cl' & bl' & u & k & h' & g'' & Hc & Hcu & _ & Hptr & Hgf & Hrun' & Hh
         & Hhr & Hinv' & Hbase & Hget & Hnew & _ & Hslot)|(_ & Hrun' & Hinv' & _)];
    rewrite Hrun' in Hrun; injection Hrun as <- <-.
  - exists cl', bl'. split; [exact Hinv'|].
    destruct (AllocPtr_spec (base g) cl bl n (proj1 Hinv))
      as [(c1 & a1 & cl1 & bl1 & u1 & k1 & _ & _ & _ & Hptr1 & _ & Hinv1 & _ & _ & _ & _
           & _ & Hused1 & _)|(Hptr1 & _)];
      rewrite Hptr1 in Hptr; [|discriminate].
    injection Hptr as Eu <-.
    assert (cl1 = cl').
    { destruct Hinv' as [Ha' _]. rewrite Hbase in Ha'.
      exact (layout_unique_inv a1 cl' cl1 bl' bl1 Ha' Hinv1). }
    subst cl1.
    destruct Hinv as [Ha (R1 & R2 & R3 & R4)].
    pose proof Ha as ((HP & _ & Hct & Hs & _) & _).
    assert (Hlen : Z.of_nat (length (refs g)) < 4294967295).
    { pose proof (contig_sum _ _ _ Hct) as Hsum.
      assert (sum_sizes cl / 16 < 2147483648) by (apply Z.div_lt_upper_bound; lia).
      lia. }
    destruct (GetFreeRef_refs _ _ _ _ _ Hgf Hlen) as (Hh0 & Hnew' & Hother & _ & Hff & Hle).
    cbn [refs set_base] in Hother, Hff, Hle.
    destruct (ref_get_nth _ _ _ Hget) as [_ Hn'].
    assert (Hfree : forall j r, nth_error (refs g) j = Some r -> pointer r <> None ->
              j <> Z.to_nat h').
    { intros j r Hj Hp ->.
      assert (Hjl : (Z.to_nat h' < length (refs g))%nat) by (apply nth_error_Some; congruence).
      destruct (Hff ltac:(lia)) as [Hfind _].
      destruct (find_free_some _ _ _ Hfind) as (_ & r0 & Hr0 & Hz).
      rewrite Z.sub_0_r in Hr0. rewrite Hj in Hr0. injection Hr0 as <-.
      exact (T2 _ r Hj Hp Hz). }
    split.
    + intros x Hx Hxu. destruct (Hused1 x Hx Hxu) as [->|[Hxin Hne]].
      * exists (Z.to_nat h'), (mkRefHolder 1 n (Some (u + 4))).
        split; [exact Hn'|]. simpl. f_equal. lia.
      * destruct (T1 x Hxin Hxu) as (j & r & Hj & Hp).
        exists j, r. split; [|exact Hp].
        rewrite Hother; [exact Hj| |apply nth_error_Some; congruence].
        apply (Hfree j r Hj). congruence.
    + intros j r Hj Hp.
      destruct (Nat.eq_dec j (Z.to_nat h')) as [->|Hne].
      * rewrite Hn' in Hj. injection Hj as <-. simpl. lia.
      * destruct (Nat.lt_ge_cases j (length (refs g))) as [Hjl|Hjl].
        -- rewrite Hother in Hj by auto. eapply T2; eauto.
        -- exfalso. destruct Hslot as [[_ Hl]|(_ & Eh & Er)].
           ++ assert ((j < length (refs g''))%nat) by (apply nth_error_Some; congruence).
              lia.
           ++ assert (Hjl' : (j < length (refs g''))%nat)
                by (apply nth_error_Some; congruence).
              rewrite Er, length_app in Hjl'. simpl in Hjl'. lia.
  - exists cl, bl. split; [exact Hinv'|]. split; [exact T1|exact T2].
Qed.

Lemma Compact_tidy (g g' : GarbageCollector) (cl : list chunk) (bl : list (list Z)) :
  gc_inv g cl bl -> tidy_on g cl -> bytes_ok (memory (base g)) -> Compact g = Some g' ->
  exists cl' bl', gc_inv g' cl' bl' /\ tidy_on g' cl'.
Proof.
  intros Hinv [T1 T2] Hb Hrun.
  destruct (Compact_spec g g' cl bl Hinv Hrun) as (Hsome & bl' & Hinv' & _).
  destruct (Compact_owned_spec g cl bl Hinv Hsome Hb T1) as (g'' & Hrun' & _ & Hown' & Hkeep).
  rewrite Hrun' in Hrun. injection Hrun as <-.
  exists (compacted (msize (memory (base g))) cl), bl'. split; [exact Hinv'|].
  split; [exact Hown'|].
  intros j r' Hj Hp. destruct (Hkeep j r' Hj Hp) as (r & Hr & Hpr & Es).
  rewrite Es. eapply T2; eauto.
Qed.

Lemma handle_run_inv (g : GarbageCollector) :
  handle_run g -> exists cl bl, gc_inv g cl bl /\ tidy_on g cl.
Proof.
  induction 1 as [P g HP Hnew
                 |g g' n h Hg IH Hn Hrun
                 |g g' h Hg IH Hl Hrun
                 |g g' h Hg IH Hl Hrun
                 |g g' h b Hg IH Hl Hrun
                 |g g' Hg IH Hrun
                 |g x v Hg IH Hx].
  - eapply GC_new_tidy; eauto.
  - destruct IH as (cl & bl & Hinv & T). eapply AllocRef_tidy; eauto. lia.
  - destruct IH as (cl & bl & Hinv & T). eapply FreeRef_tidy; eauto.
  - destruct IH as (cl & bl & Hinv & T). eapply IncrRef_tidy; eauto.
  - destruct IH as (cl & bl & Hinv & T). eapply DecrRef_tidy; eauto.
  - destruct IH as (cl & bl & Hinv & T). eapply Compact_tidy; eauto.
    apply reachable_bytes. apply handle_run_reachable. exact Hg.
  - destruct IH as (cl & bl & Hinv & T). eapply poke_tidy; eauto.
Qed.

End Tidy.

(** A client that uses the handles alone and never asks for 0 bytes keeps
    the table tidy: in every state it reaches, every used chunk is the chunk
    of a ref, and every slot with a pointer has a size that is not 0.  With
    a used chunk, [Compact] then returns. *)
Theorem handle_run_tidy (g : GarbageCollector) :
  handle_run g ->
  reachable g /\ tidy g /\ (usedBlocks (base g) <> 0 -> Compact g <> None).
Proof.
  intros H. pose proof (handle_run_reachable g H) as Hr.
  destruct (handle_run_inv g H) as (cl & bl & Hinv & T).
  pose proof (tidy_on_tidy g cl bl Hinv T) as Ht.
  split; [exact Hr|]. split; [exact Ht|].
  intros Hu. destruct (Compact_owned_run g Hr (proj1 Ht) Hu) as (g' & _ & _ & Hrun & _).
  rewrite Hrun. discriminate.
Qed.

Lemma handle_run_tidy_witness :
  handle_run ex_one
  /\ reachable ex_one /\ tidy ex_one
  /\ (usedBlocks (base ex_one) <> 0 -> Compact ex_one <> None).
Proof.
  assert (H : handle_run ex_one).
  { apply (run_AllocRef ex_new ex_one 8 0); [|lia|vm_compute; reflexivity].
    apply (run_new 64); [lia|vm_compute; reflexivity]. }
  split; [exact H|]. exact (handle_run_tidy ex_one H).
Defined.


(** * Relations between the counters *)

Section FreeBound.

Lemma nafl_count (l : list chunk) :
  nafl l ->
  (length (free_chunks l) <= length (used_chunks l) + 1)%nat
  /\ (match l with
      | c :: _ => used c = true -> (length (free_chunks l) <= length (used_chunks l))%nat
      | [] => True
      end).
Proof.
  induction l as [|c l IH]; intros H; [simpl; split; [lia|exact I]|].
  assert (Hl : nafl l) by (destruct l; [exact I|apply H]).
  destruct (IH Hl) as [IH1 IH2].
  unfold free_chunks, used_chunks, is_free in *. cbn [filter].
  destruct (used c) eqn:Hu; cbn [negb length].
  - split; [lia|]. intros _. lia.
  - split; [|discriminate].
    destruct l as [|d l]; [simpl; lia|].
    destruct H as [Hd _]. specialize (IH2 (Hd Hu)). lia.
Qed.

(** No two free chunks are neighbours, so there is at most one free chunk
    more than there are used chunks: [freeBlocks <= usedBlocks + 1]. *)
Theorem free_blocks_bound (g : GarbageCollector) :
  reachable g -> freeBlocks (base g) <= usedBlocks (base g) + 1.
Proof.
  intros Hr. destruct (reachable_inv g Hr) as (cl & bl & [Hinv _]).
  destruct Hinv as ((_ & _ & Hc & Hs & _) & Hn & _ & _ & (S1 & S2 & _)).
  pose proof (nafl_of_offsets _ _ _ Hc Hs Hn) as Hnafl.
  destruct (nafl_count cl Hnafl) as [H _]. lia.
Qed.

End FreeBound.

Lemma free_blocks_bound_witness :
  reachable ex_one /\ freeBlocks (base ex_one) <= usedBlocks (base ex_one) + 1.
Proof.
  assert (H : reachable ex_one) by reach_ex_one.
  split; [exact H|]. exact (free_blocks_bound ex_one H).
Defined.

Section Balance.

Lemma u32_sub_succ_l (x y : Z) :
  u32 (x - y) + 1 < 4294967296 -> u32 (u32 (x + 1) - y) = u32 (x - y) + 1.
Proof.
  intros H. unfold u32 in *.
  pose proof (Z.mod_pos_bound (x - y) 4294967296 ltac:(lia)).
  rewrite Zminus_mod_idemp_l. replace (x + 1 - y) with ((x - y) + 1) by lia.
  rewrite <- Zplus_mod_idemp_l. apply Z.mod_small. lia.
Qed.

Lemma u32_sub_succ_r (x y : Z) :
  1 <= u32 (x - y) -> u32 (x - u32 (y + 1)) = u32 (x - y) - 1.
Proof.
  intros H. unfold u32 in *.
  pose proof (Z.mod_pos_bound (x - y) 4294967296 ltac:(lia)).
  rewrite Zminus_mod_idemp_r. replace (x - (y + 1)) with ((x - y) + (- 1)) by lia.
  rewrite <- Zplus_mod_idemp_l. apply Z.mod_small. lia.
Qed.

Lemma used_count_bound (a : Allocator) (cl : list chunk) (bl : list (list Z)) :
  alloc_inv a cl bl -> 0 <= usedBlocks a < 134217728.
Proof.
  intros ((HP & _ & Hc & Hs & _) & _ & _ & _ & (_ & S2 & _)).
  pose proof (layout_counts cl _ Hc Hs) as (_ & H2 & H3 & H4 & _). lia.
Qed.

Lemma AllocPtr_balanced (a a' : Allocator) (cl : list chunk) (bl : list (list Z))
  (n : Z) (p : option Z) :
  alloc_inv a cl bl -> AllocPtr a n = Some (p, a') -> balanced a -> balanced a'.
Proof.
  intros Hinv Hrun Hb. unfold balanced in *. destruct p as [p|].
  - destruct (alloc_layout _ _ cl bl n p Hinv Hrun)
      as (c & cl' & bl' & k & _ & _ & _ & Hinv' & _ & _ & _ & _ & _ & Hperm).
    destruct (AllocPtr_counters _ _ _ _ Hrun) as (Hal & Hfr & _).
    pose proof (used_count_bound a' cl' bl' Hinv') as Hbd.
    apply Permutation_length in Hperm. simpl length in Hperm.
    destruct Hinv as (_ & _ & _ & _ & (_ & S2 & _)).
    destruct Hinv' as (_ & _ & _ & _ & (_ & S2' & _)).
    assert (E : usedBlocks a' = usedBlocks a + 1) by lia.
    rewrite E, Hal, Hfr, Hb. symmetry. apply u32_sub_succ_l. lia.
  - destruct (AllocPtr_spec a cl bl n Hinv)
      as [(c & a1 & cl' & bl' & u & k & _ & _ & _ & Hrun' & _)|(Hrun' & _)];
      rewrite Hrun' in Hrun; [discriminate|].
    injection Hrun as <-. exact Hb.
Qed.

Lemma FreePtr_balanced (a a' : Allocator) (cl : list chunk) (bl : list (list Z)) (c : chunk) :
  alloc_inv a cl bl -> In c cl -> used c = true ->
  FreePtr a (Some (off c + 4)) = Some a' -> balanced a -> balanced a'.
Proof.
  intros Hinv Hc Hu Hrun Hb. unfold balanced in *.
  destruct (free_layout a cl bl c Hinv Hc Hu)
    as (a1 & cl' & bl' & f & Hrun' & _ & Hinv' & _ & Hperm & _ & _ & _ & _ & Hfr & _ & Hal).
  rewrite Hrun' in Hrun. injection Hrun as <-.
  apply Permutation_length in Hperm. simpl length in Hperm.
  destruct Hinv as (_ & _ & _ & _ & (_ & S2 & _)).
  destruct Hinv' as (_ & _ & _ & _ & (_ & S2' & _)).
  assert (E : usedBlocks a1 = usedBlocks a - 1) by lia.
  rewrite E, Hal, Hfr, Hb. symmetry. apply u32_sub_succ_r. lia.
Qed.

Lemma FreeRef_balanced (g g' : GarbageCollector) (cl : list chunk) (bl : list (list Z))
  (h : Z) :
  gc_inv g cl bl -> live g h -> FreeRef g h = Some g' ->
  balanced (base g) -> balanced (base g').
Proof.
  intros Hinv (r & p & Hget & Hp) Hrun Hb.
  destruct (FreeRef_layout g cl bl h r p Hinv Hget Hp)
    as (a' & cl1 & bl1 & c & Hrun1 & Hc & Hcu & Ep & Hfree & _).
  rewrite Hrun1 in Hrun. injection Hrun as <-. cbn [base set_refs set_base].
  rewrite <- Ep in Hfree. exact (FreePtr_balanced _ _ cl bl c (proj1 Hinv) Hc Hcu Hfree Hb).
Qed.

End Balance.

(** The counters balance: in every reachable state [usedBlocks] is the
    number of allocations that succeeded minus the number of frees, modulo
    2^32, the width of the counters. *)
Theorem stats_balance (g : GarbageCollector) :
  reachable g ->
  usedBlocks (base g) = u32 (allocations (base g) - frees (base g)).
Proof.
  change (reachable g -> balanced (base g)).
  induction 1 as [P g HP Hnew
                 |g g' n h Hr IH Hn Hrun
                 |g g' h Hr IH Hl Hrun
                 |g g' h Hr IH Hl Hrun
                 |g g' h b Hr IH Hl Hrun
                 |g g' Hr IH Hrun
                 |g n p a' Hr IH Hn Hrun
                 |g p a' Hr IH Hp Hrun
                 |g x v Hr IH Hx].
  - destruct (GC_new_spec P g HP Hnew) as (He & _).
    destruct (Allocator_new_spec P ltac:(lia) He)
      as (a & bl & Ha & _ & _ & _ & _ & _ & _ & Hu & _ & _ & _ & Hal & Hfr & _).
    unfold GC_new in Hnew. rewrite Ha in Hnew. cbn [obind] in Hnew. injection Hnew as <-.
    unfold balanced. cbn [base]. rewrite Hu, Hal, Hfr. reflexivity.
  - destruct (reachable_inv g Hr) as (cl & bl & Hinv).
    destruct (AllocRef_spec g cl bl n Hinv)
      as [(c & a' & cl' & bl' & u & k & h' & g'' & _ & _ & _ & Hptr & _ & Hrun' & _ & _
           & _ & Hbase & _)|(Hptr & Hrun' & _)];
      rewrite Hrun' in Hrun; injection Hrun as _ <-.
    + rewrite Hbase. exact (AllocPtr_balanced _ _ cl bl n _ (proj1 Hinv) Hptr IH).
    + exact (AllocPtr_balanced _ _ cl bl n _ (proj1 Hinv) Hptr IH).
  - destruct (reachable_inv g Hr) as (cl & bl & Hinv).
    exact (FreeRef_balanced g g' cl bl h Hinv Hl Hrun IH).
  - unfold IncrRef in Hrun. apply obind_some in Hrun. destruct Hrun as (r & _ & Hrun).
    apply ref_set_base in Hrun. rewrite Hrun. exact IH.
  - destruct (reachable_inv g Hr) as (cl & bl & Hinv).
    unfold DecrRef in Hrun. apply obind_some in Hrun. destruct Hrun as (r & _ & Hrun).
    destruct (refCount r >? 1).
    + apply obind_some in Hrun. destruct Hrun as (g1 & Hset & Hrun).
      injection Hrun as _ <-. apply ref_set_base in Hset. rewrite Hset. exact IH.
    + apply obind_some in Hrun. destruct Hrun as (g1 & Hfree & Hrun).
      injection Hrun as _ <-. exact (FreeRef_balanced g g1 cl bl h Hinv Hl Hfree IH).
  - destruct (reachable_inv g Hr) as (cl & bl & Hinv).
    destruct (Compact_spec g g' cl bl Hinv Hrun)
      as (_ & bl' & [Hinv' _] & _ & _ & _ & _ & _ & Hal & Hfr & _).
    pose proof Hinv as [((_ & _ & Hc & Hs & _) & _ & _ & _ & (_ & S2 & _)) _].
    destruct Hinv' as (_ & _ & _ & _ & (_ & S2' & _)).
    rewrite (compacted_used cl), length_pack in S2'.
    unfold balanced in *. rewrite Hal, Hfr, S2', <- S2. exact IH.
  - destruct (reachable_inv g Hr) as (cl & bl & Hinv). cbn [base set_base].
    exact (AllocPtr_balanced _ _ cl bl n p (proj1 Hinv) Hrun IH).
  - destruct (reachable_inv g Hr) as (cl & bl & Hinv). cbn [base set_base].
    destruct Hp as [(cl0 & c & Hpc & Hc & Hu & Ep) _].
    rewrite (pool_chunks_spec _ _ (proj1 (proj1 Hinv))) in Hpc. injection Hpc as <-.
    rewrite Ep in Hrun.
    exact (FreePtr_balanced _ _ cl bl c (proj1 Hinv) Hc Hu Hrun IH).
  - exact IH.
Qed.


Lemma stats_balance_witness :
  reachable ex_one
  /\ usedBlocks (base ex_one) = u32 (allocations (base ex_one) - frees (base ex_one)).
Proof.
  assert (H : reachable ex_one) by reach_ex_one.
  split; [exact H|]. exact (stats_balance ex_one H).
Defined.


(** * MoveUsedUp *)

Section MoveUp.

Variable a : Allocator.
Variable cl : list chunk.
Variable bl : list (list Z).
Variable pre post : list chunk.
Variable f u : chunk.
Hypothesis Hinv : alloc_inv a cl bl.
Hypothesis Ecl : cl = pre ++ f :: u :: post.
Hypothesis Hfu : used f = false.

Lemma MoveUsedUp_spec :
  exists a',
    MoveUsedUp a (off f) (off u) = Some a'
    /\ msize (memory a') = msize (memory a)
    /\ chunkBins a' = chunkBins a /\ stats_eq a a'
    /\ GetSize (memory a') (off f) = Some (csz u)
    /\ IsSelfUsed a' (Some (off f)) = Some true
    /\ GetSize (memory a') (off f + csz u) = Some (csz f)
    /\ IsSelfUsed a' (Some (off f + csz u)) = Some false
    /\ load32 (memory a') (off f + csz u + csz f - 4) = Some (csz f)
    /\ (forall k, 4 <= k < csz u ->
          byte_at (memory a') (off f + k) = byte_at (memory a) (off u + k))
    /\ IsPrevUsed (memory a') (off f) = Some false
    /\ (forall b, 0 <= b < off f -> byte_at (memory a') b = byte_at (memory a) b).
Proof.
  pose proof Hinv as ((HP & _ & Hc & Hs & Htags) & _).
  pose proof Hs as Hs'. rewrite Forall_forall in Hs'.
  assert (Hf : In f cl) by (rewrite Ecl; apply in_or_app; right; now left).
  assert (Hu : In u cl) by (rewrite Ecl; apply in_or_app; right; right; now left).
  destruct (Hs' f Hf) as [Hf16 Hfe]. destruct (Hs' u Hu) as [Hu16 Hue].
  destruct (Htags f Hf) as (Hgf & Hnf & _). destruct (Htags u Hu) as (Hgu & _).
  pose proof Hc as Hc1. pose proof Hs as Hs1. rewrite Ecl in Hc1, Hs1.
  destruct (contig_mid pre (u :: post) f 0 _ Hc1 Hs1) as (Hf0 & _ & _ & _ & Hcons & _).
  destruct (Hcons u post eq_refl) as [Eu _].
  assert (Ecl2 : pre ++ f :: u :: post = (pre ++ [f]) ++ u :: post)
    by (rewrite <- app_assoc; reflexivity).
  rewrite Ecl2 in Hc1, Hs1.
  destruct (contig_mid (pre ++ [f]) post u 0 _ Hc1 Hs1) as (_ & Hu1 & _ & Hnil & Hcons2 & _).
  assert (Hnext : off u + csz u < msize (memory a) -> off u + csz u + 16 <= msize (memory a)).
  { intros Hlt. destruct post as [|d post']; [specialize (Hnil eq_refl); lia|].
    destruct (Hcons2 d post' eq_refl). lia. }
  destruct (Z.ltb_spec (off f + csz f) (msize (memory a))) as [_|Hge]; [|lia].
  rewrite <- Eu in Hnf. rewrite Hfu in Hnf.
  unfold MoveUsedUp. rewrite Hgu, Hgf. cbn [obind].
  destruct (memmove_spec (memory a) (off f) (off u) (csz u)) as (m1 & Hm1 & Hz1 & Hb1);
    try lia.
  rewrite Hm1. cbn [obind].
  set (a0 := set_memory a m1).
  assert (Hflag0 : IsPrevUsed (memory a0) (off f) = Some false).
  { rewrite <- Hnf. unfold IsPrevUsed. f_equal. cbn [memory a0 set_memory].
    apply load32_shift; try lia.
    intros k Hk. rewrite Hb1 by lia.
    destruct (Z.leb_spec (off f) (off f + k)); [|lia].
    destruct (Z.ltb_spec (off f + k) (off f + csz u)); [|lia]. cbn [andb]. f_equal. lia. }
  destruct (WriteHeaderAndFooter_spec a0 (off f) (csz u) true)
    as (a1 & Ha1 & Hza1 & Hbins1 & Hst1 & Hg1 & Hp1 & Hnx1 & _ & Hfr1);
    try (cbn [memory a0 set_memory]; lia).
  rewrite Ha1. cbn [obind].
  assert (Hza0 : msize (memory a0) = msize (memory a)) by exact Hz1.
  rewrite Hza0 in Hnx1.
  destruct (Z.ltb_spec (off f + csz u) (msize (memory a))) as [_|Hge]; [|lia].
  destruct Hnx1 as (_ & Hflag1 & Hfin1).
  unfold PlaceChunkRelative, toInt.
  destruct (Z.ltb_spec (csz u) 2147483648) as [_|Hge]; [|lia].
  destruct (WriteHeaderAndFooter_spec a1 (off f + csz u) (csz f) false)
    as (a2 & Ha2 & Hza2 & Hbins2 & Hst2 & Hg2 & Hp2 & Hnx2 & Hfoot2 & Hfr2); try lia.
  rewrite Ha2. exists a2.
  split; [reflexivity|]. split; [lia|]. split; [rewrite Hbins2, Hbins1; reflexivity|].
  split.
  { apply (stats_eq_trans a a0); [unfold stats_eq, a0; simpl; tauto|].
    eapply stats_eq_trans; eauto. }
  assert (Hhdr : forall b, off f <= b < off f + 4 ->
            byte_at (memory a2) b = byte_at (memory a1) b).
  { intros b Hb. apply Hfr2; try lia. }
  assert (Hg2f : GetSize (memory a2) (off f) = Some (csz u)).
  { rewrite <- Hg1. apply GetSize_frame; [lia|exact Hhdr]. }
  assert (Hflag2 : IsPrevUsed (memory a2) (off f + csz u) = Some true).
  { rewrite Hp2. exact Hflag1. }
  split; [exact Hg2f|].
  split.
  { unfold IsSelfUsed. rewrite (NextChunk_spec _ _ _ Hg2f). cbn [obind].
    destruct (Z.geb_spec (off f + csz u) (msize (memory a2))); [lia|]. exact Hflag2. }
  split; [exact Hg2|].
  split.
  { unfold IsSelfUsed. rewrite (NextChunk_spec _ _ _ Hg2). cbn [obind].
    rewrite Hza1, Hza0 in Hnx2.
    destruct (Z.geb_spec (off f + csz u + csz f) (msize (memory a2)));
      destruct (Z.ltb_spec (off f + csz u + csz f) (msize (memory a))); try lia.
    - rewrite Hnx2. reflexivity.
    - apply Hnx2. }
  split; [apply Hfoot2; reflexivity|].
  split.
  { intros k Hk. rewrite Hfr2 by lia. rewrite Hfr1 by lia.
    cbn [memory a0 set_memory]. rewrite Hb1 by lia.
    destruct (Z.leb_spec (off f) (off f + k)); [|lia].
    destruct (Z.ltb_spec (off f + k) (off f + csz u)); [|lia]. cbn [andb]. f_equal. lia. }
  split; [rewrite <- Hflag0, <- Hp1; apply IsPrevUsed_frame; [lia|exact Hhdr]|].
  intros b Hb. rewrite Hfr2 by lia. rewrite Hfr1 by lia.
  cbn [memory a0 set_memory]. rewrite Hb1 by lia.
  destruct (Z.leb_spec (off f) b); [lia|]. reflexivity.
Qed.

End MoveUp.

(** [MoveUsedUp] on a free chunk and the used chunk behind it: the used
    chunk is moved to the offset of the free chunk with its size and its
    user bytes, and a free chunk with the old free size and its footer
    follows it; the bins and the counters are as before.  The moved header
    keeps its flag, which says that the chunk before is free: a chunk
    before the pair, which is used, is read as free afterwards. *)
Theorem MoveUsedUp_swaps (g : GarbageCollector) (pre post : list chunk) (f u : chunk) :
  reachable g -> pool_chunks (base g) = Some (pre ++ f :: u :: post) -> used f = false ->
  exists a',
    MoveUsedUp (base g) (off f) (off u) = Some a'
    /\ used u = true
    /\ msize (memory a') = msize (memory (base g))
    /\ chunkBins a' = chunkBins (base g) /\ stats_eq (base g) a'
    /\ GetSize (memory a') (off f) = Some (csz u)
    /\ IsSelfUsed a' (Some (off f)) = Some true
    /\ GetSize (memory a') (off f + csz u) = Some (csz f)
    /\ IsSelfUsed a' (Some (off f + csz u)) = Some false
    /\ load32 (memory a') (off f + csz u + csz f - 4) = Some (csz f)
    /\ (forall k, 4 <= k < csz u ->
          byte_at (memory a') (off f + k) = byte_at (memory (base g)) (off u + k))
    /\ (forall p, In p pre -> off p + csz p = off f ->
          used p = true /\ IsSelfUsed a' (Some (off p)) = Some false).
Proof.
  intros Hr Hpc Hfu. destruct (reachable_chunks g Hr) as (cl & bl & Hpc' & [Hinv _]).
  rewrite Hpc in Hpc'. injection Hpc' as Ecl. symmetry in Ecl.
  destruct (MoveUsedUp_spec (base g) cl bl pre post f u Hinv Ecl Hfu)
    as (a' & Hrun & Hz & Hbins & Hst & Hg1 & Hu1 & Hg2 & Hu2 & Hfoot & Hbytes & Hflag & Hfr).
  pose proof Hinv as ((HP & _ & Hc & Hs & Htags) & Hnadj & _).
  pose proof Hs as Hs'. rewrite Forall_forall in Hs'.
  assert (Hf : In f cl) by (rewrite Ecl; apply in_or_app; right; now left).
  assert (Hu : In u cl) by (rewrite Ecl; apply in_or_app; right; right; now left).
  pose proof Hc as Hc1. pose proof Hs as Hs1. rewrite Ecl in Hc1, Hs1.
  destruct (contig_mid pre (u :: post) f 0 _ Hc1 Hs1) as (_ & _ & _ & _ & Hcons & _).
  destruct (Hcons u post eq_refl) as [Eu _].
  exists a'. split; [exact Hrun|].
  split; [apply (Hnadj f u Hf Hu); [lia|exact Hfu]|].
  split; [exact Hz|]. split; [exact Hbins|]. split; [exact Hst|]. split; [exact Hg1|].
  split; [exact Hu1|]. split; [exact Hg2|]. split; [exact Hu2|]. split; [exact Hfoot|].
  split; [exact Hbytes|].
  intros p Hp Ep.
  assert (Hpin : In p cl) by (rewrite Ecl; apply in_or_app; now left).
  split.
  - destruct (used p) eqn:Hpu; [reflexivity|].
    pose proof (Hnadj p f Hpin Hf ltac:(lia) Hpu). congruence.
  - destruct (Htags p Hpin) as (Hgp & _). destruct (Hs' p Hpin) as [Hp16 _].
    destruct (contig_bounds _ _ _ _ Hc Hs Hpin) as [Hp0 _].
    destruct (contig_bounds _ _ _ _ Hc Hs Hf) as [_ Hf1]. destruct (Hs' f Hf) as [Hf16 _].
    assert (Hgp' : GetSize (memory a') (off p) = Some (csz p)).
    { rewrite <- Hgp. apply GetSize_frame; [exact Hz|]. intros b Hb. apply Hfr. lia. }
    unfold IsSelfUsed. rewrite (NextChunk_spec _ _ _ Hgp'). cbn [obind].
    destruct (Z.geb_spec (off p + csz p) (msize (memory a'))); [lia|].
    rewrite Ep. exact Hflag.
Qed.

Lemma MoveUsedUp_swaps_witness :
  reachable ex_holes
  /\ pool_chunks (base ex_holes)
     = Some ([mkChunk 0 16 false; mkChunk 16 16 true]
             ++ mkChunk 32 16 false :: mkChunk 48 16 true :: [])
  /\ used (mkChunk 32 16 false) = false
  /\ exists a',
    MoveUsedUp (base ex_holes) 32 48 = Some a'
    /\ IsSelfUsed a' (Some 32) = Some true
    /\ IsSelfUsed a' (Some 48) = Some false
    /\ IsSelfUsed a' (Some 16) = Some false.
Proof.
  assert (Hr : reachable ex_holes).
  { apply (reach_FreeRef ex_three ex_holes 1);
      [|exists (mkRefHolder 1 8 (Some 36)), 36; split; vm_compute; reflexivity
       |vm_compute; reflexivity].
    apply (reach_AllocRef ex_two ex_three 8 2);
      [|unfold is_u32; lia|vm_compute; reflexivity].
    apply (reach_AllocRef ex_one ex_two 8 1);
      [reach_ex_one|unfold is_u32; lia|vm_compute; reflexivity]. }
  assert (Hp : pool_chunks (base ex_holes)
               = Some ([mkChunk 0 16 false; mkChunk 16 16 true]
                       ++ mkChunk 32 16 false :: mkChunk 48 16 true :: []))
    by (vm_compute; reflexivity).
  assert (Hf : used (mkChunk 32 16 false) = false) by reflexivity.
  split; [exact Hr|]. split; [exact Hp|]. split; [exact Hf|].
  destruct (MoveUsedUp_swaps ex_holes _ _ _ _ Hr Hp Hf)
    as (a' & Hrun & _ & _ & _ & _ & _ & Hu1 & _ & Hu2 & _ & _ & Hpre).
  exists a'. split; [exact Hrun|]. split; [exact Hu1|]. split; [exact Hu2|].
  apply (Hpre (mkChunk 16 16 true)); [right; now left|reflexivity].
Defined.


(** * Allocation after a collection *)

(** After [Compact] the free bytes are one chunk, so the next [AllocRef]
    depends on [freeMem] alone: it returns a handle if and only if the
    chunk size it needs, [bytesNeeded n], is at most [freeMem]. *)
Theorem AllocRef_after_Compact (g g' : GarbageCollector) (n : Z) :
  reachable g -> Compact g = Some g' ->
  exists h g'',
    AllocRef g' n = Some (h, g'')
    /\ (h <> InvalidRef <-> bytesNeeded n <= freeMem (base g')).
Proof.
  intros Hr Hrun. destruct (reachable_inv g Hr) as (cl & bl & Hinv).
  destruct (Compact_spec g g' cl bl Hinv Hrun) as (_ & bl' & Hinv' & _).
  set (P := msize (memory (base g))) in *.
  pose proof Hinv' as [(_ & _ & _ & _ & (_ & _ & _ & S4)) _].
  rewrite compacted_free in S4.
  pose proof (bytesNeeded_range n) as [Hn16 _].
  destruct (AllocRef_spec g' _ bl' n Hinv')
    as [(c & a' & cl' & bl'' & u & k & h & g'' & Hc & Hcu & Hfit & _ & _ & Hrun' & Hh & _)
       |(_ & Hrun' & _ & Hnone)].
  - exists h, g''. split; [exact Hrun'|]. split; [|intros _; exact Hh].
    intros _.
    assert (Hcf : In c (free_chunks (compacted P cl))) by (apply in_free_chunks; auto).
    rewrite compacted_free in Hcf.
    destruct (sum_sizes (used_chunks cl) <? P); [|destruct Hcf].
    destruct Hcf as [<-|[]]. simpl in Hfit, S4. lia.
  - eexists InvalidRef, _. split; [exact Hrun'|].
    split; [intros H; contradiction|]. intros Hle. exfalso.
    destruct (sum_sizes (used_chunks cl) <? P) eqn:Hlt.
    + simpl in S4.
      assert (Hcf : In (mkChunk (sum_sizes (used_chunks cl)) (P - sum_sizes (used_chunks cl))
                          false) (free_chunks (compacted P cl))).
      { rewrite compacted_free, Hlt. now left. }
      apply in_free_chunks in Hcf. destruct Hcf as [Hc Hcu].
      specialize (Hnone _ Hc Hcu). simpl in Hnone. lia.
    + simpl in S4. lia.
Qed.

Lemma AllocRef_after_Compact_witness :
  reachable ex_one /\ Compact ex_one = Some ex_packed
  /\ exists h g'',
       AllocRef ex_packed 40 = Some (h, g'')
       /\ (h <> InvalidRef <-> bytesNeeded 40 <= freeMem (base ex_packed)).
Proof.
  assert (Hr : reachable ex_one) by reach_ex_one.
  assert (Hc : Compact ex_one = Some ex_packed) by (vm_compute; reflexivity).
  split; [exact Hr|]. split; [exact Hc|].
  exact (AllocRef_after_Compact ex_one ex_packed 40 Hr Hc).
Defined.

